(** * airport-sim: the discrete-event kernel, embedded and verified

    A shallow embedding of the simulation kernel of the repository
    (src/utils/distributions.py, src/models/passenger.py,
    src/models/resources.py, src/simulation/arrival.py,
    src/simulation/processes.py, src/simulation/engine.py) together with
    the properties its specification states about it.

    Conventions.
    - Python floats (virtual time, probabilities, distribution parameters)
      are rationals [Q]; Python ints are [Z].  Sums and quotients of
      floats are exact, except where the code decides on the outcome of
      one: there it is rounded to the nearest double ([fl]).
    - The two ambient random generators the code draws from, numpy's global
      generator and the generator of Python's [random] module, are
      interfaces ([NumpyRandom], [PyRandom]); their states are threaded
      explicitly.
    - Code that can raise returns [Exn + A]; loops that need not terminate
      take fuel and return an [outcome]: a result, an exception, or
      out of fuel. *)

From Stdlib Require Import QArith Qround Qabs Lqa Sorted.
From stdpp Require Import gmap strings list pretty.
From Equations Require Import Equations.

Local Open Scope Z_scope.

(* ===================================================================== *)
(** * Exceptions *)
(* ===================================================================== *)

Inductive Exn : Type :=
| ValueError
| ZeroDivisionError
| KeyError
| RuntimeError.

Definition result (A : Type) : Type := (Exn + A)%type.

Definition raise {A} (e : Exn) : result A := inl e.
Definition ok {A} (a : A) : result A := inr a.

Definition bind {A B} (m : result A) (k : A -> result B) : result B :=
  match m with
  | inl e => inl e
  | inr a => k a
  end.

Notation "'try' x := m 'in' k" := (bind m (fun x => k))
  (at level 10, x pattern, m at level 100, k at level 200,
   format "'[v' 'try'  x  :=  m  'in' '/' k ']'").

Definition Qltb (a b : Q) : bool := negb (Qle_bool b a).

(* ===================================================================== *)
(** * Floats *)
(* ===================================================================== *)

(** [2 ** k] *)
Definition two_pow (k : Z) : Q :=
  if bool_decide (0 <= k) then inject_Z (2 ^ k) else (1 # Z.to_pos (2 ^ (- k))).

(** [floor (log2 |x|)], for [x] other than [0]. *)
Definition ilog2 (x : Q) : Z :=
  let k := Z.log2 (Z.abs (Qnum x)) - Z.log2 (Zpos (Qden x)) in
  if Qle_bool (two_pow k) (Qabs x) then k else k - 1.

(** The nearest integer, the even one of two that are equally near. *)
Definition round_half_even (y : Q) : Z :=
  let f := Qfloor y in
  let rest := (y - inject_Z f)%Q in
  if Qle_bool rest (1 # 2) then
    (if Qle_bool (1 # 2) rest then (if Z.even f then f else f + 1) else f)
  else f + 1.

(** The double nearest to [x] (IEEE 754 binary64, round to nearest, ties to
    even): the value of the float literal [x], and the rounding of every
    float operation.  The exponent is bounded below (subnormals), not
    above: the operands are finite doubles, and a sum of them that would
    overflow is not zero either way. *)
Definition fl (x : Q) : Q :=
  if Qeq_bool x 0 then 0%Q
  else
    let quantum := two_pow (Z.max (ilog2 x) (-1022) - 52) in
    let m := round_half_even (Qabs x / quantum) in
    (if Qle_bool 0 x then inject_Z m * quantum else - (inject_Z m * quantum))%Q.

(** [a + b + c] on floats. *)
Definition float_sum3 (a b c : Q) : Q := fl (fl (fl a + fl b) + fl c).

(* ===================================================================== *)
(** * Random sources *)
(* ===================================================================== *)

(** numpy's global generator: the state [np.random.seed] leaves it in for
    a seed it accepts, and the three primitive draws behind
    [scipy.stats.t.rvs], [np.random.normal] and [np.random.uniform]. *)
Class NumpyRandom (R : Type) := {
  np_seed : Z -> R;
  np_standard_t : Q -> R -> Q * R;
  np_standard_normal : R -> Q * R;
  np_random_sample : R -> Q * R;
}.

(** [np.random.random_sample] lies in the half-open unit interval. *)
Class NumpyRandomLaws (R : Type) `{NumpyRandom R} := {
  np_random_sample_range :
    forall r : R, (0 <= fst (np_random_sample r) /\ fst (np_random_sample r) < 1)%Q;
}.

(** Python's [random] module: [random.random()] and the [_randbelow n]
    behind [random.randint]. *)
Class PyRandom (P : Type) := {
  py_random : P -> Q * P;
  py_randbelow : Z -> P -> Z * P;
}.

Class PyRandomLaws (P : Type) `{PyRandom P} := {
  py_randbelow_range :
    forall n (p : P), 0 < n -> 0 <= fst (py_randbelow n p) < n;
}.

(** A generator that replays a tape of outcomes in the unit interval; an
    exhausted tape yields [0].  It instantiates both interfaces. *)
Definition Tape : Type := list Q.

Definition clamp_unit (q : Q) : Q :=
  if Qle_bool 0 q then (if Qle_bool 1 q then 0%Q else q) else 0%Q.

Definition tape_next (t : Tape) : Q * Tape :=
  match t with
  | [] => (0%Q, [])
  | q :: t' => (q, t')
  end.

Definition tape_unit (t : Tape) : Q * Tape :=
  let (q, t') := tape_next t in (clamp_unit q, t').

Definition tape_below (n : Z) (t : Tape) : Z * Tape :=
  let (q, t') := tape_unit t in (Qfloor (q * inject_Z n), t').

#[export] Instance tape_numpy : NumpyRandom Tape := {|
  np_seed := fun _ => [];
  np_standard_t := fun _ t => tape_next t;
  np_standard_normal := tape_next;
  np_random_sample := tape_unit;
|}.

#[export] Instance tape_py : PyRandom Tape := {|
  py_random := tape_unit;
  py_randbelow := tape_below;
|}.

(** A numpy generator whose seeded state is a fixed tape. *)
Definition seeded_numpy (after_seed : Z -> Tape) : NumpyRandom Tape := {|
  np_seed := after_seed;
  np_standard_t := fun _ t => tape_next t;
  np_standard_normal := tape_next;
  np_random_sample := tape_unit;
|}.

(** Drawing a batch of [n] values, left to right. *)
Fixpoint draw_n {R A} (draw : R -> A * R) (n : nat) (r : R) : list A * R :=
  match n with
  | O => ([], r)
  | S n' =>
      let (x, r1) := draw r in
      let (xs, r2) := draw_n draw n' r1 in
      (x :: xs, r2)
  end.

Section NumpyDraws.
Context {R : Type} `{NumpyRandom R}.

(** [np.random.uniform(low, high, n)] *)
Definition np_uniform (low high : Q) (n : Z) (r : R) : list Q * R :=
  draw_n (fun r => let (u, r') := np_random_sample r in
                   ((low + (high - low) * u)%Q, r')) (Z.to_nat n) r.

(** [np.random.seed(seed)]: a seed outside [[0, 2**32 - 1]] raises
    [ValueError]. *)
Definition np_random_seed (seed : Z) : result R :=
  if bool_decide (0 <= seed < 2 ^ 32) then ok (np_seed seed) else raise ValueError.

(** [if random_state is not None: np.random.seed(random_state)] *)
Definition seed_if_given (random_state : option Z) (r : R) : result R :=
  match random_state with
  | Some seed => np_random_seed seed
  | None => ok r
  end.

(** [np.random.normal(loc, scale, n)]: a negative [scale] raises
    [ValueError], and so does a negative [n]. *)
Definition np_normal (loc scale : Q) (n : Z) (r : R) : result (list Q * R) :=
  if Qltb scale 0 || bool_decide (n < 0) then raise ValueError
  else ok (draw_n (fun r => let (z, r') := np_standard_normal r in
                            ((loc + scale * z)%Q, r')) (Z.to_nat n) r).

(** [scipy.stats.t(df, loc, scale).rvs(size=n)]: [rvs] raises [ValueError]
    unless [df > 0] and [scale >= 0]; with [scale == 0] it returns [loc]
    [n] times and draws nothing. *)
Definition t_rvs (df loc scale : Q) (n : Z) (r : R) : result (list Q * R) :=
  if Qle_bool df 0 || Qltb scale 0 then raise ValueError
  else if Qeq_bool scale 0 then ok (replicate (Z.to_nat n) loc, r)
  else ok (draw_n (fun r => let (x, r') := np_standard_t df r in
                            ((x * scale + loc)%Q, r')) (Z.to_nat n) r).
End NumpyDraws.

(* ===================================================================== *)
(** * src/utils/distributions.py *)
(* ===================================================================== *)

Module TruncatedTDistribution.
Record t : Type := {
  df : Q;
  loc : Q;
  scale : Q;
  lower : Q;
  upper : Q;
}.

Section Sampling.
Context {R : Type} `{NumpyRandom R}.

(** [__init__]: stores the parameters (freezing the distribution checks
    none of them) and, when [random_state] is given, seeds numpy's global
    generator. *)
Definition init (df loc scale lower upper : Q) (random_state : option Z)
    (r : R) : result (t * R) :=
  try r' := seed_if_given random_state r in
  ok ({| df := df; loc := loc; scale := scale; lower := lower; upper := upper |}, r').

(** [(candidates >= self.lower) & (candidates <= self.upper)] *)
Definition valid (d : t) (x : Q) : bool :=
  Qle_bool (lower d) x && Qle_bool x (upper d).

Definition len {A} (l : list A) : Z := Z.of_nat (length l).

(** The rejection loop of [sample]: the accumulated [samples], the
    number of [attempts] made so far, the generator state. *)
Equations? sample_loop (d : t) (size : Z) (samples : list Q) (attempts : Z)
    (r : R) : result (list Q * Z * R)
    by wf (Z.to_nat (size * 100 - attempts)) lt :=
  sample_loop d size samples attempts r
    with decide (len samples < size /\ attempts < size * 100) => {
    | left _
        with t_rvs (df d) (loc d) (scale d) ((size - len samples) * 2) r => {
        | inl e := inl e
        | inr candidates :=
            sample_loop d size (samples ++ List.filter (valid d) (fst candidates))
              (attempts + (size - len samples) * 2) (snd candidates) }
    | right _ := inr (samples, attempts, r) }.
Proof. unfold len in *. lia. Qed.

Definition sample (d : t) (size : Z) (r : R) : result (list Q * R) :=
  try (samples, _, r1) := sample_loop d size [] 0 r in
  let '(samples, r2) :=
    if decide (len samples < size) then
      let remaining := size - len samples in
      let (uniform_samples, r2) := np_uniform (lower d) (upper d) remaining r1 in
      (samples ++ uniform_samples, r2)
    else (samples, r1) in
  ok (take (Z.to_nat size) samples, r2).

(** [float(self.sample(1)[0])] *)
Definition sample_one (d : t) (r : R) : result (Q * R) :=
  try (xs, r') := sample d 1 r in ok (List.hd 0%Q xs, r').
End Sampling.
End TruncatedTDistribution.

Module ServiceTimeDistribution.
Record t : Type := {
  mean : Q;
  std : Q;
  min_time : Q;
}.

Section Sampling.
Context {R : Type} `{NumpyRandom R}.

(** [__init__(mean, std)] with the defaults [min_time=1.0],
    [random_state=None]. *)
Definition init (mean std : Q) : t :=
  {| mean := mean; std := std; min_time := 1%Q |}.

Definition Qmaximum (a b : Q) : Q := if Qle_bool a b then b else a.

(** [np.maximum(np.random.normal(mean, std, size), min_time)] *)
Definition sample (d : t) (size : Z) (r : R) : result (list Q * R) :=
  try (samples, r') := np_normal (mean d) (std d) size r in
  ok (List.map (fun x => Qmaximum x (min_time d)) samples, r').

Definition sample_one (d : t) (r : R) : result (Q * R) :=
  try (xs, r') := sample d 1 r in ok (List.hd 0%Q xs, r').
End Sampling.
End ServiceTimeDistribution.

(* ===================================================================== *)
(** * src/models/passenger.py *)
(* ===================================================================== *)

Module CheckinType.
Inductive t : Type := ONLINE | KIOSK | COUNTER.
End CheckinType.

Module BaggageDropType.
Inductive t : Type := NONE | COUNTER | SELF.
End BaggageDropType.

(** The dataclass [PassengerGroup].  Its [passengers] list is rebuilt from
    [group_id] and [group_size] by [passengers] below; the kernel never
    reads it. *)
Record PassengerGroup : Type := mkPassengerGroup {
  group_id : Z;
  group_size : Z;
  arrival_time : Q;
  departure_time : Q;
  checkin_type : CheckinType.t;
  has_baggage : bool;
  baggage_drop_type : BaggageDropType.t;
  checkin_queue_enter : option Q;
  checkin_start : option Q;
  checkin_end : option Q;
  baggage_counter_queue_enter : option Q;
  baggage_counter_start : option Q;
  baggage_counter_end : option Q;
  tag_queue_enter : option Q;
  tag_start : option Q;
  tag_end : option Q;
  drop_queue_enter : option Q;
  drop_start : option Q;
  drop_end : option Q;
  security_arrival : option Q;
  current_x : Q;
  current_y : Q;
  current_node : string;
}.

Definition set_checkin_queue_enter (v : option Q) (g : PassengerGroup) : PassengerGroup :=
  mkPassengerGroup (group_id g) (group_size g) (arrival_time g)
    (departure_time g) (checkin_type g) (has_baggage g) (baggage_drop_type g)
    v (checkin_start g) (checkin_end g) (baggage_counter_queue_enter g)
    (baggage_counter_start g) (baggage_counter_end g) (tag_queue_enter g)
    (tag_start g) (tag_end g) (drop_queue_enter g) (drop_start g) (drop_end g)
    (security_arrival g) (current_x g) (current_y g) (current_node g).

Definition set_checkin_start (v : option Q) (g : PassengerGroup) : PassengerGroup :=
  mkPassengerGroup (group_id g) (group_size g) (arrival_time g)
    (departure_time g) (checkin_type g) (has_baggage g) (baggage_drop_type g)
    (checkin_queue_enter g) v (checkin_end g) (baggage_counter_queue_enter g)
    (baggage_counter_start g) (baggage_counter_end g) (tag_queue_enter g)
    (tag_start g) (tag_end g) (drop_queue_enter g) (drop_start g) (drop_end g)
    (security_arrival g) (current_x g) (current_y g) (current_node g).

Definition set_checkin_end (v : option Q) (g : PassengerGroup) : PassengerGroup :=
  mkPassengerGroup (group_id g) (group_size g) (arrival_time g)
    (departure_time g) (checkin_type g) (has_baggage g) (baggage_drop_type g)
    (checkin_queue_enter g) (checkin_start g) v (baggage_counter_queue_enter
    g) (baggage_counter_start g) (baggage_counter_end g) (tag_queue_enter g)
    (tag_start g) (tag_end g) (drop_queue_enter g) (drop_start g) (drop_end g)
    (security_arrival g) (current_x g) (current_y g) (current_node g).

Definition set_baggage_counter_queue_enter (v : option Q) (g : PassengerGroup) : PassengerGroup :=
  mkPassengerGroup (group_id g) (group_size g) (arrival_time g)
    (departure_time g) (checkin_type g) (has_baggage g) (baggage_drop_type g)
    (checkin_queue_enter g) (checkin_start g) (checkin_end g) v
    (baggage_counter_start g) (baggage_counter_end g) (tag_queue_enter g)
    (tag_start g) (tag_end g) (drop_queue_enter g) (drop_start g) (drop_end g)
    (security_arrival g) (current_x g) (current_y g) (current_node g).

Definition set_baggage_counter_start (v : option Q) (g : PassengerGroup) : PassengerGroup :=
  mkPassengerGroup (group_id g) (group_size g) (arrival_time g)
    (departure_time g) (checkin_type g) (has_baggage g) (baggage_drop_type g)
    (checkin_queue_enter g) (checkin_start g) (checkin_end g)
    (baggage_counter_queue_enter g) v (baggage_counter_end g) (tag_queue_enter
    g) (tag_start g) (tag_end g) (drop_queue_enter g) (drop_start g) (drop_end
    g) (security_arrival g) (current_x g) (current_y g) (current_node g).

Definition set_baggage_counter_end (v : option Q) (g : PassengerGroup) : PassengerGroup :=
  mkPassengerGroup (group_id g) (group_size g) (arrival_time g)
    (departure_time g) (checkin_type g) (has_baggage g) (baggage_drop_type g)
    (checkin_queue_enter g) (checkin_start g) (checkin_end g)
    (baggage_counter_queue_enter g) (baggage_counter_start g) v
    (tag_queue_enter g) (tag_start g) (tag_end g) (drop_queue_enter g)
    (drop_start g) (drop_end g) (security_arrival g) (current_x g) (current_y
    g) (current_node g).

Definition set_tag_queue_enter (v : option Q) (g : PassengerGroup) : PassengerGroup :=
  mkPassengerGroup (group_id g) (group_size g) (arrival_time g)
    (departure_time g) (checkin_type g) (has_baggage g) (baggage_drop_type g)
    (checkin_queue_enter g) (checkin_start g) (checkin_end g)
    (baggage_counter_queue_enter g) (baggage_counter_start g)
    (baggage_counter_end g) v (tag_start g) (tag_end g) (drop_queue_enter g)
    (drop_start g) (drop_end g) (security_arrival g) (current_x g) (current_y
    g) (current_node g).

Definition set_tag_start (v : option Q) (g : PassengerGroup) : PassengerGroup :=
  mkPassengerGroup (group_id g) (group_size g) (arrival_time g)
    (departure_time g) (checkin_type g) (has_baggage g) (baggage_drop_type g)
    (checkin_queue_enter g) (checkin_start g) (checkin_end g)
    (baggage_counter_queue_enter g) (baggage_counter_start g)
    (baggage_counter_end g) (tag_queue_enter g) v (tag_end g)
    (drop_queue_enter g) (drop_start g) (drop_end g) (security_arrival g)
    (current_x g) (current_y g) (current_node g).

Definition set_tag_end (v : option Q) (g : PassengerGroup) : PassengerGroup :=
  mkPassengerGroup (group_id g) (group_size g) (arrival_time g)
    (departure_time g) (checkin_type g) (has_baggage g) (baggage_drop_type g)
    (checkin_queue_enter g) (checkin_start g) (checkin_end g)
    (baggage_counter_queue_enter g) (baggage_counter_start g)
    (baggage_counter_end g) (tag_queue_enter g) (tag_start g) v
    (drop_queue_enter g) (drop_start g) (drop_end g) (security_arrival g)
    (current_x g) (current_y g) (current_node g).

Definition set_drop_queue_enter (v : option Q) (g : PassengerGroup) : PassengerGroup :=
  mkPassengerGroup (group_id g) (group_size g) (arrival_time g)
    (departure_time g) (checkin_type g) (has_baggage g) (baggage_drop_type g)
    (checkin_queue_enter g) (checkin_start g) (checkin_end g)
    (baggage_counter_queue_enter g) (baggage_counter_start g)
    (baggage_counter_end g) (tag_queue_enter g) (tag_start g) (tag_end g) v
    (drop_start g) (drop_end g) (security_arrival g) (current_x g) (current_y
    g) (current_node g).

Definition set_drop_start (v : option Q) (g : PassengerGroup) : PassengerGroup :=
  mkPassengerGroup (group_id g) (group_size g) (arrival_time g)
    (departure_time g) (checkin_type g) (has_baggage g) (baggage_drop_type g)
    (checkin_queue_enter g) (checkin_start g) (checkin_end g)
    (baggage_counter_queue_enter g) (baggage_counter_start g)
    (baggage_counter_end g) (tag_queue_enter g) (tag_start g) (tag_end g)
    (drop_queue_enter g) v (drop_end g) (security_arrival g) (current_x g)
    (current_y g) (current_node g).

Definition set_drop_end (v : option Q) (g : PassengerGroup) : PassengerGroup :=
  mkPassengerGroup (group_id g) (group_size g) (arrival_time g)
    (departure_time g) (checkin_type g) (has_baggage g) (baggage_drop_type g)
    (checkin_queue_enter g) (checkin_start g) (checkin_end g)
    (baggage_counter_queue_enter g) (baggage_counter_start g)
    (baggage_counter_end g) (tag_queue_enter g) (tag_start g) (tag_end g)
    (drop_queue_enter g) (drop_start g) v (security_arrival g) (current_x g)
    (current_y g) (current_node g).

Definition set_security_arrival (v : option Q) (g : PassengerGroup) : PassengerGroup :=
  mkPassengerGroup (group_id g) (group_size g) (arrival_time g)
    (departure_time g) (checkin_type g) (has_baggage g) (baggage_drop_type g)
    (checkin_queue_enter g) (checkin_start g) (checkin_end g)
    (baggage_counter_queue_enter g) (baggage_counter_start g)
    (baggage_counter_end g) (tag_queue_enter g) (tag_start g) (tag_end g)
    (drop_queue_enter g) (drop_start g) (drop_end g) v (current_x g)
    (current_y g) (current_node g).

Definition set_position (x y : Q) (node : string) (g : PassengerGroup) : PassengerGroup :=
  mkPassengerGroup (group_id g) (group_size g) (arrival_time g)
    (departure_time g) (checkin_type g) (has_baggage g) (baggage_drop_type g)
    (checkin_queue_enter g) (checkin_start g) (checkin_end g)
    (baggage_counter_queue_enter g) (baggage_counter_start g)
    (baggage_counter_end g) (tag_queue_enter g) (tag_start g) (tag_end g)
    (drop_queue_enter g) (drop_start g) (drop_end g) (security_arrival g) x y
    node.

(** [__post_init__]: [Passenger(passenger_id=group_id*100+i, group_id)] for
    [i in range(group_size)]. *)
Definition passengers (g : PassengerGroup) : list (Z * Z) :=
  List.map (fun i => (group_id g * 100 + i, group_id g)) (seqZ 0 (group_size g)).

Module PassengerGroupFactory.
Record t : Type := {
  p_online : Q;
  p_kiosk : Q;
  p_counter : Q;
  p_baggage : Q;
  p_baggage_counter : Q;
  p_single : Q;
  multi_min : Z;
  multi_max : Z;
  _next_group_id : Z;
}.

(** [__init__]: the check-in split is divided by its sum, a sum of floats;
    a float division by zero raises. *)
Definition init (p_online p_kiosk p_counter p_baggage p_baggage_counter
    p_single : Q) (multi_min multi_max : Z) : result t :=
  let total := float_sum3 p_online p_kiosk p_counter in
  if Qeq_bool total 0 then raise ZeroDivisionError
  else ok {| p_online := fl (fl p_online / total);
             p_kiosk := fl (fl p_kiosk / total);
             p_counter := fl (fl p_counter / total);
             p_baggage := p_baggage;
             p_baggage_counter := p_baggage_counter;
             p_single := p_single;
             multi_min := multi_min;
             multi_max := multi_max;
             _next_group_id := 0 |}.

Definition bump (f : t) : t :=
  {| p_online := p_online f; p_kiosk := p_kiosk f; p_counter := p_counter f;
     p_baggage := p_baggage f; p_baggage_counter := p_baggage_counter f;
     p_single := p_single f; multi_min := multi_min f;
     multi_max := multi_max f; _next_group_id := _next_group_id f + 1 |}.

Section Create.
Context {P : Type} `{PyRandom P}.

(** [random.randint(a, b)]: [randrange(a, b+1)], which raises on an
    empty range. *)
Definition randint (a b : Z) (p : P) : result (Z * P) :=
  let width := b + 1 - a in
  if decide (width > 0) then
    let (k, p') := py_randbelow width p in ok (a + k, p')
  else raise ValueError.

Definition create_group (f : t) (arrival_time departure_time : Q) (p : P)
    : result (PassengerGroup * t * P) :=
  let group_id := _next_group_id f in
  let f' := bump f in
  let (u, p1) := py_random p in
  try (group_size, p2) :=
    (if Qltb u (p_single f) then ok (1, p1)
     else randint (multi_min f) (multi_max f) p1) in
  let (rand, p3) := py_random p2 in
  let checkin_type :=
    if Qltb rand (p_online f) then CheckinType.ONLINE
    else if Qltb rand (fl (p_online f + p_kiosk f)) then CheckinType.KIOSK
    else CheckinType.COUNTER in
  let (ub, p4) := py_random p3 in
  let has_baggage := Qltb ub (p_baggage f) in
  let '(baggage_drop_type, p5) :=
    if has_baggage then
      let (uc, p5) := py_random p4 in
      (if Qltb uc (p_baggage_counter f) then BaggageDropType.COUNTER
       else BaggageDropType.SELF, p5)
    else (BaggageDropType.NONE, p4) in
  ok (mkPassengerGroup group_id group_size arrival_time departure_time
        checkin_type has_baggage baggage_drop_type
        None None None None None None None None None None None None None
        0%Q 0%Q "source", f', p5).
End Create.
End PassengerGroupFactory.

(* ===================================================================== *)
(** * src/simulation/arrival.py: generation of the arrivals *)
(* ===================================================================== *)

(** What a loop that need not terminate yields. *)
Inductive outcome (A : Type) : Type :=
| Done (a : A)
| Raised (e : Exn)
| OutOfFuel.
Arguments Done {A} a.
Arguments Raised {A} e.
Arguments OutOfFuel {A}.

Record DemandSlot : Type := {
  start_minutes : Q;
  end_minutes : Q;
  pax_count : Z;
}.

Definition duration_minutes (s : DemandSlot) : Q :=
  (end_minutes s - start_minutes s)%Q.

(** [list.sort(key=...)]: a stable sort; an element is inserted before the
    first element of strictly larger key that follows it. *)
Section StableSort.
Context {A : Type} (key : A -> Q).

Fixpoint sort_insert (x : A) (l : list A) : list A :=
  match l with
  | [] => [x]
  | y :: l' => if Qle_bool (key x) (key y) then x :: l
               else y :: sort_insert x l'
  end.

Fixpoint sort_by (l : list A) : list A :=
  match l with
  | [] => []
  | x :: l' => sort_insert x (sort_by l')
  end.
End StableSort.

Module ArrivalGenerator.
Record t : Type := {
  group_factory : PassengerGroupFactory.t;
  arrival_dist : TruncatedTDistribution.t;
  arrival_range_max : Q;
  generated_groups : list PassengerGroup;
}.

Section Generate.
Context {R P : Type} `{NumpyRandom R} `{PyRandom P}.

(** [__init__]: builds the arrival distribution (which seeds numpy when
    [random_state] is given) and seeds numpy once more. *)
Definition init (group_factory : PassengerGroupFactory.t)
    (arrival_df arrival_mean_min_before arrival_scale arrival_range_min
       arrival_range_max : Q) (random_state : option Z) (r : R) : result (t * R) :=
  try (dist, r1) :=
    TruncatedTDistribution.init arrival_df arrival_mean_min_before
      arrival_scale arrival_range_min arrival_range_max random_state r in
  try r2 := seed_if_given random_state r1 in
  ok ({| group_factory := group_factory; arrival_dist := dist;
         arrival_range_max := arrival_range_max; generated_groups := [] |}, r2).

Definition with_factory (f : PassengerGroupFactory.t) (g : t) : t :=
  {| group_factory := f; arrival_dist := arrival_dist g;
     arrival_range_max := arrival_range_max g;
     generated_groups := generated_groups g |}.

Definition with_generated (l : list PassengerGroup) (g : t) : t :=
  {| group_factory := group_factory g; arrival_dist := arrival_dist g;
     arrival_range_max := arrival_range_max g; generated_groups := l |}.

(** [max(0, x)] *)
Definition max0 (x : Q) : Q := if Qltb 0 x then x else 0%Q.

(** The [while remaining_pax > 0] loop of [generate_arrivals_for_slot]. *)
Fixpoint slot_loop (fuel : nat) (slot : DemandSlot) (remaining_pax : Z)
    (groups : list PassengerGroup) (g : t) (r : R) (p : P)
    : outcome (list PassengerGroup * t * R * P) :=
  if decide (remaining_pax > 0) then
    match fuel with
    | O => OutOfFuel
    | S fuel' =>
        let departure_time_min := ((start_minutes slot + end_minutes slot) / 2)%Q in
        match TruncatedTDistribution.sample_one (arrival_dist g) r with
        | inl e => Raised e
        | inr (min_before_departure, r1) =>
            let arrival_time_min := max0 (departure_time_min - min_before_departure) in
            let arrival_time_sec := (arrival_time_min * 60)%Q in
            let departure_time_sec := (departure_time_min * 60)%Q in
            match PassengerGroupFactory.create_group (group_factory g)
                    arrival_time_sec departure_time_sec p with
            | inl e => Raised e
            | inr (group, f', p1) =>
                slot_loop fuel' slot (remaining_pax - group_size group)
                  (groups ++ [group]) (with_factory f' g) r1 p1
            end
        end
    end
  else Done (groups, g, r, p).

Definition generate_arrivals_for_slot (fuel : nat) (g : t) (slot : DemandSlot)
    (r : R) (p : P) : outcome (list PassengerGroup * t * R * P) :=
  slot_loop fuel slot (pax_count slot) [] g r p.

(** The [for slot in demand_slots] loop of [generate_all_arrivals]. *)
Fixpoint all_slots (fuel : nat) (slots : list DemandSlot)
    (all_groups : list PassengerGroup) (g : t) (r : R) (p : P)
    : outcome (list PassengerGroup * t * R * P) :=
  match slots with
  | [] => Done (all_groups, g, r, p)
  | slot :: rest =>
      if decide (pax_count slot > 0) then
        match generate_arrivals_for_slot fuel g slot r p with
        | Done (groups, g1, r1, p1) =>
            all_slots fuel rest (all_groups ++ groups) g1 r1 p1
        | Raised e => Raised e
        | OutOfFuel => OutOfFuel
        end
      else all_slots fuel rest all_groups g r p
  end.

Definition generate_all_arrivals (fuel : nat) (g : t)
    (demand_slots : list DemandSlot) (r : R) (p : P)
    : outcome (list PassengerGroup * t * R * P) :=
  match all_slots fuel demand_slots [] g r p with
  | Done (all_groups, g1, r1, p1) =>
      let sorted := sort_by arrival_time all_groups in
      Done (sorted, with_generated sorted g1, r1, p1)
  | Raised e => Raised e
  | OutOfFuel => OutOfFuel
  end.
End Generate.
End ArrivalGenerator.

(* ===================================================================== *)
(** * The event loop and the capacity-limited resource (simpy) *)
(* ===================================================================== *)

(** The five stations; a value of this type stands for the reference to
    the corresponding [MonitoredResource] object. *)
Inductive Station : Type :=
| CheckinKiosk | CheckinCounter | BaggageCounter | TagKiosk | DropPoint.

#[export] Instance Station_eq_dec : EqDecision Station.
Proof. solve_decision. Defined.

(** The processes of a run: the arrival process, the position sampler and
    one process per group ([PGroup i] runs the group stored at index [i]). *)
Inductive ProcId : Type :=
| PArrival
| PSampler
| PGroup (i : nat).

Inductive Priority : Type := URGENT | NORMAL.

(** What a scheduled event does when it is processed: start a process,
    resume the process that yielded a timeout, resume the process whose
    request was granted, run the deferred part of a release, end of a
    process (failed or not), stop the run. *)
Inductive EventKind : Type :=
| Initialize (p : ProcId)
| Timeout (p : ProcId)
| Request (s : Station) (i : nat)
| Release (s : Station)
| ProcessEnd (p : ProcId) (failed : option Exn)
| Until.

Module Event.
Record t : Type := {
  time : Q;
  priority : Priority;
  eid : nat;
  kind : EventKind;
}.

Definition priority_rank (p : Priority) : Z :=
  match p with URGENT => 0 | NORMAL => 1 end.

(** The order of the tuples [(time, priority, eid, event)]. *)
Definition ltb (a b : t) : bool :=
  match (time a ?= time b)%Q with
  | Lt => true
  | Gt => false
  | Eq =>
      if decide (priority_rank (priority a) < priority_rank (priority b)) then true
      else if decide (priority_rank (priority a) = priority_rank (priority b))
           then bool_decide (eid a < eid b)%nat
           else false
  end.
End Event.

(** Modelled from the spec: the scheduler of section 4.1 is simpy's
    [Environment], whose code is not under src/ -- a queue of pending
    events keyed by [(time, sequence number)], the earliest popped first,
    the clock advanced to it.  The priority component of the key, the
    deferred end-of-process events and the refusal of negative delays
    follow simpy.core. *)
Module Environment.
Record t : Type := {
  now : Q;
  _eid : nat;
  _queue : list Event.t;
}.

Definition init : t := {| now := 0%Q; _eid := O; _queue := [] |}.

(** [heappush(self._queue, (self._now + delay, priority, next(self._eid), event))];
    the sum is exact: the statements about instants rest on their order,
    not on their values. *)
Definition schedule (k : EventKind) (priority : Priority) (delay : Q) (env : t) : t :=
  {| now := now env;
     _eid := S (_eid env);
     _queue := _queue env ++
       [{| Event.time := (now env + delay)%Q; Event.priority := priority;
           Event.eid := _eid env; Event.kind := k |}] |}.

(** The least event of [e :: l] in the order of the keys, and the others. *)
Fixpoint pop_least (e : Event.t) (l : list Event.t) : Event.t * list Event.t :=
  match l with
  | [] => (e, [])
  | x :: l' =>
      if Event.ltb x e
      then let (m, rest) := pop_least x l' in (m, e :: rest)
      else let (m, rest) := pop_least e l' in (m, x :: rest)
  end.

(** [heappop(self._queue)] *)
Definition heappop (q : list Event.t) : option (Event.t * list Event.t) :=
  match q with
  | [] => None
  | e :: l => Some (pop_least e l)
  end.
End Environment.

(** Modelled from the spec: the station of section 4.2 is [simpy.Resource],
    whose code is not under src/ -- a request is granted at once while
    fewer than [capacity] users hold the resource and otherwise waits at
    the tail of [queue]; the head of [queue] is the next one granted.  As in
    simpy, a release frees its slot at once and grants the head of the queue
    when the release event is processed, and a request is identified by the
    index of the group process that made it. *)
Module Resource.
Record t : Type := {
  capacity : Z;
  users : list nat;
  queue : list nat;
}.

Definition init (capacity : Z) : result t :=
  if decide (capacity <= 0) then raise ValueError
  else ok {| capacity := capacity; users := []; queue := [] |}.

Definition count (r : t) : Z := Z.of_nat (length (users r)).

(** Grants the head of the queue when a slot is free; the granted request
    is scheduled, which will resume its process. *)
Definition _trigger_put (self : Station) (r : t) (env : Environment.t)
    : t * Environment.t :=
  match queue r with
  | [] => (r, env)
  | i :: rest =>
      if decide (Z.of_nat (length (users r)) < capacity r) then
        ({| capacity := capacity r; users := users r ++ [i]; queue := rest |},
         Environment.schedule (Request self i) NORMAL 0 env)
      else (r, env)
  end.

Definition request (self : Station) (i : nat) (r : t) (env : Environment.t)
    : t * Environment.t :=
  _trigger_put self
    {| capacity := capacity r; users := users r; queue := queue r ++ [i] |} env.

Fixpoint remove_first (i : nat) (l : list nat) : list nat :=
  match l with
  | [] => []
  | x :: l' => if decide (x = i) then l' else x :: remove_first i l'
  end.

Definition release (self : Station) (i : nat) (r : t) (env : Environment.t)
    : t * Environment.t :=
  ({| capacity := capacity r; users := remove_first i (users r); queue := queue r |},
   Environment.schedule (Release self) NORMAL 0 env).
End Resource.

(* ===================================================================== *)
(** * src/models/resources.py *)
(* ===================================================================== *)

Module QueueSnapshot.
Record t : Type := {
  time : Q;
  queue_length : Z;
  queue_pax_count : Z;
  in_service : Z;
}.
End QueueSnapshot.

Module AreaOccupancy.
Record t : Type := {
  time : Q;
  area_name : string;
  group_count : Z;
  pax_count : Z;
}.
End AreaOccupancy.

(** [sum(gs for _, gs in l)] *)
Definition sum_sizes (l : list (Z * Z)) : Z :=
  foldr (fun p acc => snd p + acc) 0 l.

Module MonitoredResource.
Record t : Type := {
  name : string;
  capacity : Z;
  resource : Resource.t;
  queue_history : list QueueSnapshot.t;
  _current_queue : list (Z * Z);
}.

Definition init (name : string) (capacity : Z) : result t :=
  try r := Resource.init capacity in
  ok {| name := name; capacity := capacity; resource := r;
        queue_history := []; _current_queue := [] |}.

Definition _record_snapshot (now : Q) (m : t) : t :=
  let queue_groups := Z.of_nat (length (Resource.queue (resource m))) in
  let queue_pax :=
    if decide (queue_groups > 0)
    then sum_sizes (take (Z.to_nat queue_groups) (_current_queue m))
    else 0 in
  {| name := name m; capacity := capacity m; resource := resource m;
     queue_history := queue_history m ++
       [{| QueueSnapshot.time := now;
           QueueSnapshot.queue_length := queue_groups;
           QueueSnapshot.queue_pax_count := queue_pax;
           QueueSnapshot.in_service := Resource.count (resource m) |}];
     _current_queue := _current_queue m |}.

Definition with_resource (r : Resource.t) (m : t) : t :=
  {| name := name m; capacity := capacity m; resource := r;
     queue_history := queue_history m; _current_queue := _current_queue m |}.

Definition with_current_queue (q : list (Z * Z)) (m : t) : t :=
  {| name := name m; capacity := capacity m; resource := resource m;
     queue_history := queue_history m; _current_queue := q |}.

(** [request(group_id, group_size)]; [i] is the requesting process. *)
Definition request (self : Station) (group_id group_size : Z) (i : nat)
    (m : t) (env : Environment.t) : t * Environment.t :=
  let m1 := with_current_queue (_current_queue m ++ [(group_id, group_size)]) m in
  let m2 := _record_snapshot (Environment.now env) m1 in
  let (r, env') := Resource.request self i (resource m2) env in
  (with_resource r m2, env').

(** [release(request, group_id)] *)
Definition release (self : Station) (i : nat) (group_id : Z)
    (m : t) (env : Environment.t) : t * Environment.t :=
  let m1 := with_current_queue
              (List.filter (fun p => negb (bool_decide (fst p = group_id)))
                 (_current_queue m)) m in
  let (r, env') := Resource.release self i (resource m1) env in
  (_record_snapshot (Environment.now env') (with_resource r m1), env').

Definition current_queue_length (m : t) : Z :=
  Z.of_nat (length (Resource.queue (resource m))).

Definition current_queue_pax (m : t) : Z :=
  sum_sizes (take (length (Resource.queue (resource m))) (_current_queue m)).
End MonitoredResource.

(** A call of [enter_area] or [leave_area]. *)
Inductive AreaCall : Type :=
| Enter (area_name : string) (group_id : Z)
| Leave (area_name : string) (group_id : Z).

Module AirportResources.
Record t : Type := {
  checkin_kiosk : MonitoredResource.t;
  checkin_counter : MonitoredResource.t;
  baggage_counter : MonitoredResource.t;
  tag_kiosk : MonitoredResource.t;
  drop_point : MonitoredResource.t;
  area_occupancy_history : list AreaOccupancy.t;
  _groups_in_area : gmap string (list (Z * Z));
  (** Not a field of the class: the calls of [enter_area] and
      [leave_area] made so far, in order.  Nothing reads it; statements
      that count those calls are written over it. *)
  area_calls : list AreaCall;
}.

Definition init (capacity_checkin_kiosk capacity_checkin_counter
    capacity_baggage_counter capacity_tag_kiosk capacity_drop_point : Z)
    : result t :=
  try k := MonitoredResource.init "checkin_kiosk" capacity_checkin_kiosk in
  try c := MonitoredResource.init "checkin_counter" capacity_checkin_counter in
  try b := MonitoredResource.init "baggage_counter" capacity_baggage_counter in
  try g := MonitoredResource.init "tag_kiosk" capacity_tag_kiosk in
  try d := MonitoredResource.init "drop_point" capacity_drop_point in
  ok {| checkin_kiosk := k; checkin_counter := c; baggage_counter := b;
        tag_kiosk := g; drop_point := d;
        area_occupancy_history := [];
        _groups_in_area :=
          <["checkin_zone" := []]> (<["baggage_counter_zone" := []]>
          (<["tag_zone" := []]> (<["drop_zone" := []]>
          (<["security_front" := []]> ∅))));
        area_calls := [] |}.

Definition get (s : Station) (a : t) : MonitoredResource.t :=
  match s with
  | CheckinKiosk => checkin_kiosk a
  | CheckinCounter => checkin_counter a
  | BaggageCounter => baggage_counter a
  | TagKiosk => tag_kiosk a
  | DropPoint => drop_point a
  end.

Definition set (s : Station) (m : MonitoredResource.t) (a : t) : t :=
  {| checkin_kiosk := if decide (s = CheckinKiosk) then m else checkin_kiosk a;
     checkin_counter := if decide (s = CheckinCounter) then m else checkin_counter a;
     baggage_counter := if decide (s = BaggageCounter) then m else baggage_counter a;
     tag_kiosk := if decide (s = TagKiosk) then m else tag_kiosk a;
     drop_point := if decide (s = DropPoint) then m else drop_point a;
     area_occupancy_history := area_occupancy_history a;
     _groups_in_area := _groups_in_area a;
     area_calls := area_calls a |}.

Definition with_areas (h : list AreaOccupancy.t)
    (g : gmap string (list (Z * Z))) (c : list AreaCall) (a : t) : t :=
  {| checkin_kiosk := checkin_kiosk a; checkin_counter := checkin_counter a;
     baggage_counter := baggage_counter a; tag_kiosk := tag_kiosk a;
     drop_point := drop_point a;
     area_occupancy_history := h; _groups_in_area := g; area_calls := c |}.

(** The snapshot [_record_area_occupancy] appends for the members [groups]. *)
Definition occupancy (now : Q) (area_name : string) (groups : list (Z * Z))
    : AreaOccupancy.t :=
  {| AreaOccupancy.time := now;
     AreaOccupancy.area_name := area_name;
     AreaOccupancy.group_count := Z.of_nat (length groups);
     AreaOccupancy.pax_count := sum_sizes groups |}.

Definition enter_area (now : Q) (area_name : string) (group_id group_size : Z)
    (a : t) : t :=
  let calls := area_calls a ++ [Enter area_name group_id] in
  match _groups_in_area a !! area_name with
  | Some groups =>
      let groups' := groups ++ [(group_id, group_size)] in
      with_areas (area_occupancy_history a ++ [occupancy now area_name groups'])
        (<[area_name := groups']> (_groups_in_area a)) calls a
  | None => with_areas (area_occupancy_history a) (_groups_in_area a) calls a
  end.

Definition leave_area (now : Q) (area_name : string) (group_id : Z) (a : t) : t :=
  let calls := area_calls a ++ [Leave area_name group_id] in
  match _groups_in_area a !! area_name with
  | Some groups =>
      let groups' :=
        List.filter (fun p => negb (bool_decide (fst p = group_id))) groups in
      with_areas (area_occupancy_history a ++ [occupancy now area_name groups'])
        (<[area_name := groups']> (_groups_in_area a)) calls a
  | None => with_areas (area_occupancy_history a) (_groups_in_area a) calls a
  end.

Definition get_all_resources (a : t) : gmap string MonitoredResource.t :=
  <["checkin_kiosk" := checkin_kiosk a]> (<["checkin_counter" := checkin_counter a]>
  (<["baggage_counter" := baggage_counter a]> (<["tag_kiosk" := tag_kiosk a]>
  (<["drop_point" := drop_point a]> ∅)))).

Definition get_current_occupancy (area_name : string) (a : t) : Z * Z :=
  match _groups_in_area a !! area_name with
  | Some groups => (Z.of_nat (length groups), sum_sizes groups)
  | None => (0, 0)
  end.
End AirportResources.

(* ===================================================================== *)
(** * The state of a run *)
(* ===================================================================== *)

(** Where a group process is suspended. *)
Inductive PC : Type :=
| NotStarted
| OnlineDelay
| AwaitGrant (s : Station)
| InService (s : Station)
| SecurityDelay
| Finished.

Module PositionSnapshot.
Record entry : Type := {
  group_id : Z;
  x : Q;
  y : Q;
  group_size : Z;
  node : string;
}.
Record t : Type := {
  time : Q;
  groups : list entry;
}.
End PositionSnapshot.

(** What a run reads but never updates. *)
Record Setup : Type := mkSetup {
  nodes : gmap string (gmap string Q);
  service_times : Station -> ServiceTimeDistribution.t;
  sample_interval : Q;
  simulation_end : Q;
}.

(** The mutable state of a run.  [store] holds the group objects and an
    index into it is a reference to one of them: [completed_groups] and
    [_active_groups] hold references, as the Python lists and dicts do. *)
Record Sim (R : Type) : Type := mkSim {
  env : Environment.t;
  resources : AirportResources.t;
  store : list PassengerGroup;
  pcs : list PC;
  arrival_next : nat;
  completed_groups : list nat;
  position_snapshots : list PositionSnapshot.t;
  _active_groups : list (Z * nat);
  np : R;
}.
Arguments mkSim {R}.
Arguments env {R}.
Arguments resources {R}.
Arguments store {R}.
Arguments pcs {R}.
Arguments arrival_next {R}.
Arguments completed_groups {R}.
Arguments position_snapshots {R}.
Arguments _active_groups {R}.
Arguments np {R}.

Section SimUpdates.
Context {R : Type}.
Implicit Types st : Sim R.

Definition with_env (e : Environment.t) st : Sim R :=
  mkSim e (resources st) (store st) (pcs st) (arrival_next st)
    (completed_groups st) (position_snapshots st) (_active_groups st) (np st).
Definition with_resources (a : AirportResources.t) st : Sim R :=
  mkSim (env st) a (store st) (pcs st) (arrival_next st)
    (completed_groups st) (position_snapshots st) (_active_groups st) (np st).
Definition with_store (l : list PassengerGroup) st : Sim R :=
  mkSim (env st) (resources st) l (pcs st) (arrival_next st)
    (completed_groups st) (position_snapshots st) (_active_groups st) (np st).
Definition with_pcs (l : list PC) st : Sim R :=
  mkSim (env st) (resources st) (store st) l (arrival_next st)
    (completed_groups st) (position_snapshots st) (_active_groups st) (np st).
Definition with_arrival_next (k : nat) st : Sim R :=
  mkSim (env st) (resources st) (store st) (pcs st) k
    (completed_groups st) (position_snapshots st) (_active_groups st) (np st).
Definition with_completed_groups (l : list nat) st : Sim R :=
  mkSim (env st) (resources st) (store st) (pcs st) (arrival_next st)
    l (position_snapshots st) (_active_groups st) (np st).
Definition with_position_snapshots (l : list PositionSnapshot.t) st : Sim R :=
  mkSim (env st) (resources st) (store st) (pcs st) (arrival_next st)
    (completed_groups st) l (_active_groups st) (np st).
Definition with_active_groups (l : list (Z * nat)) st : Sim R :=
  mkSim (env st) (resources st) (store st) (pcs st) (arrival_next st)
    (completed_groups st) (position_snapshots st) l (np st).
Definition with_np (r : R) st : Sim R :=
  mkSim (env st) (resources st) (store st) (pcs st) (arrival_next st)
    (completed_groups st) (position_snapshots st) (_active_groups st) r.

Definition now st : Q := Environment.now (env st).

Definition schedule (k : EventKind) (p : Priority) (delay : Q) st : Sim R :=
  with_env (Environment.schedule k p delay (env st)) st.

(** A process that ends, normally or with an exception, is itself
    scheduled as an event. *)
Definition end_process (p : ProcId) (failed : option Exn) st : Sim R :=
  schedule (ProcessEnd p failed) NORMAL 0 st.

(** [yield self.env.timeout(delay)]: the process is resumed [delay] later;
    a negative delay raises and ends the process. *)
Definition yield_timeout (p : ProcId) (delay : Q) st : Sim R :=
  if Qltb delay 0 then end_process p (Some ValueError) st
  else schedule (Timeout p) NORMAL delay st.

Definition set_pc (i : nat) (pc : PC) st : Sim R :=
  with_pcs (<[i := pc]> (pcs st)) st.

Definition update_group (i : nat) (f : PassengerGroup -> PassengerGroup) st
    : Sim R :=
  with_store (alter f i (store st)) st.

(** Runs [k] on the group object that reference [i] denotes. *)
Definition with_group (i : nat) st (k : PassengerGroup -> Sim R) : Sim R :=
  match store st !! i with
  | Some g => k g
  | None => st
  end.
End SimUpdates.

(** [dict]: assignment and deletion on an insertion-ordered dictionary. *)
Fixpoint dict_set (k : Z) (v : nat) (d : list (Z * nat)) : list (Z * nat) :=
  match d with
  | [] => [(k, v)]
  | (k', v') :: d' =>
      if decide (k' = k) then (k, v) :: d' else (k', v') :: dict_set k v d'
  end.

Definition dict_has (k : Z) (d : list (Z * nat)) : bool :=
  existsb (fun kv => bool_decide (fst kv = k)) d.

(** [del d[k]]: [None] stands for the [KeyError] of a missing key. *)
Definition dict_del (k : Z) (d : list (Z * nat)) : option (list (Z * nat)) :=
  if dict_has k d
  then Some (List.filter (fun kv => negb (bool_decide (fst kv = k))) d)
  else None.

(* ===================================================================== *)
(** * src/simulation/processes.py and the processes of engine.py *)
(* ===================================================================== *)

Definition station_node (s : Station) : string :=
  match s with
  | CheckinKiosk => "checkin_kiosk"
  | CheckinCounter => "checkin_counter"
  | BaggageCounter => "baggage_counter"
  | TagKiosk => "tag_kiosk"
  | DropPoint => "drop_point"
  end.

(** The area each station visit of [PassengerProcess.run] enters and leaves. *)
Definition station_zone (s : Station) : string :=
  match s with
  | CheckinKiosk | CheckinCounter => "checkin_zone"
  | BaggageCounter => "baggage_counter_zone"
  | TagKiosk => "tag_zone"
  | DropPoint => "drop_zone"
  end.

(** The three timestamps of the stage a station belongs to. *)
Definition queue_enter_of (s : Station) (g : PassengerGroup) : option Q :=
  match s with
  | CheckinKiosk | CheckinCounter => checkin_queue_enter g
  | BaggageCounter => baggage_counter_queue_enter g
  | TagKiosk => tag_queue_enter g
  | DropPoint => drop_queue_enter g
  end.

Definition start_of (s : Station) (g : PassengerGroup) : option Q :=
  match s with
  | CheckinKiosk | CheckinCounter => checkin_start g
  | BaggageCounter => baggage_counter_start g
  | TagKiosk => tag_start g
  | DropPoint => drop_start g
  end.

Definition end_of (s : Station) (g : PassengerGroup) : option Q :=
  match s with
  | CheckinKiosk | CheckinCounter => checkin_end g
  | BaggageCounter => baggage_counter_end g
  | TagKiosk => tag_end g
  | DropPoint => drop_end g
  end.

Definition set_queue_enter (s : Station) (t : Q) : PassengerGroup -> PassengerGroup :=
  match s with
  | CheckinKiosk | CheckinCounter => set_checkin_queue_enter (Some t)
  | BaggageCounter => set_baggage_counter_queue_enter (Some t)
  | TagKiosk => set_tag_queue_enter (Some t)
  | DropPoint => set_drop_queue_enter (Some t)
  end.

Definition set_start (s : Station) (t : Q) : PassengerGroup -> PassengerGroup :=
  match s with
  | CheckinKiosk | CheckinCounter => set_checkin_start (Some t)
  | BaggageCounter => set_baggage_counter_start (Some t)
  | TagKiosk => set_tag_start (Some t)
  | DropPoint => set_drop_start (Some t)
  end.

Definition set_end (s : Station) (t : Q) : PassengerGroup -> PassengerGroup :=
  match s with
  | CheckinKiosk | CheckinCounter => set_checkin_end (Some t)
  | BaggageCounter => set_baggage_counter_end (Some t)
  | TagKiosk => set_tag_end (Some t)
  | DropPoint => set_drop_end (Some t)
  end.

(** [PassengerProcess._get_area_for_node] *)
Definition _get_area_for_node (node_name : string) : option string :=
  if decide (node_name = "checkin_kiosk") then Some "checkin_zone"
  else if decide (node_name = "checkin_counter") then Some "checkin_zone"
  else if decide (node_name = "baggage_counter") then Some "baggage_counter_zone"
  else if decide (node_name = "tag_kiosk") then Some "tag_zone"
  else if decide (node_name = "drop_point") then Some "drop_zone"
  else if decide (node_name = "security_gate") then Some "security_front"
  else None.

Section Processes.
Context {R : Type} `{NumpyRandom R} (cfg : Setup).
Implicit Types st : Sim R.

(** [PassengerProcess._update_position] *)
Definition _update_position (node_name : string) (g : PassengerGroup)
    : PassengerGroup :=
  match nodes cfg !! node_name with
  | Some node =>
      set_position (default 0%Q (node !! "x")) (default 0%Q (node !! "y"))
        node_name g
  | None => g
  end.

Definition enter_area (area_name : string) (i : nat) st : Sim R :=
  with_group i st (fun g =>
    with_resources
      (AirportResources.enter_area (now st) area_name (group_id g)
         (group_size g) (resources st)) st).

Definition leave_area (area_name : string) (i : nat) st : Sim R :=
  with_group i st (fun g =>
    with_resources
      (AirportResources.leave_area (now st) area_name (group_id g)
         (resources st)) st).

Definition request (s : Station) (i : nat) st : Sim R :=
  with_group i st (fun g =>
    let (m, e) :=
      MonitoredResource.request s (group_id g) (group_size g) i
        (AirportResources.get s (resources st)) (env st) in
    with_env e (with_resources (AirportResources.set s m (resources st)) st)).

Definition release (s : Station) (i : nat) st : Sim R :=
  with_group i st (fun g =>
    let (m, e) :=
      MonitoredResource.release s i (group_id g)
        (AirportResources.get s (resources st)) (env st) in
    with_env e (with_resources (AirportResources.set s m (resources st)) st)).

(** A station visit up to [yield req]. *)
Definition begin_visit (s : Station) (i : nat) st : Sim R :=
  let st := update_group i (_update_position (station_node s)) st in
  let st := enter_area (station_zone s) i st in
  let st := update_group i (set_queue_enter s (now st)) st in
  let st := request s i st in
  set_pc i (AwaitGrant s) st.

(** From the grant to [yield self.env.timeout(service_time)].  When
    [sample_one] raises, the process ends with that exception (its point
    of suspension then only records where it stopped). *)
Definition begin_service (s : Station) (i : nat) st : Sim R :=
  let st := update_group i (set_start s (now st)) st in
  match ServiceTimeDistribution.sample_one (service_times cfg s) (np st) with
  | inl e => end_process (PGroup i) (Some e) (set_pc i (InService s) st)
  | inr (service_time, r) =>
      let st := with_np r st in
      yield_timeout (PGroup i) service_time (set_pc i (InService s) st)
  end.

(** The security gate, up to [yield self.env.timeout(10)]. *)
Definition begin_security (i : nat) st : Sim R :=
  let st := update_group i (_update_position "security_gate") st in
  let st := enter_area "security_front" i st in
  yield_timeout (PGroup i) 10 (set_pc i SecurityDelay st).

(** The baggage branch. *)
Definition begin_baggage (i : nat) st : Sim R :=
  with_group i st (fun g =>
    match baggage_drop_type g with
    | BaggageDropType.COUNTER => begin_visit BaggageCounter i st
    | BaggageDropType.SELF => begin_visit TagKiosk i st
    | BaggageDropType.NONE => begin_security i st
    end).

(** From the end of the service to the next suspension. *)
Definition end_service (s : Station) (i : nat) st : Sim R :=
  let st := update_group i (set_end s (now st)) st in
  let st := release s i st in
  let st := leave_area (station_zone s) i st in
  match s with
  | CheckinKiosk | CheckinCounter => begin_baggage i st
  | BaggageCounter => begin_security i st
  | TagKiosk => begin_visit DropPoint i st
  | DropPoint => begin_security i st
  end.

(** After the security delay: completion, then the end of
    [_group_process_wrapper]. *)
Definition finish (i : nat) st : Sim R :=
  let st := update_group i (set_security_arrival (Some (now st))) st in
  let st := leave_area "security_front" i st in
  let st := with_completed_groups (completed_groups st ++ [i]) st in
  let st := set_pc i Finished st in
  with_group i st (fun g =>
    match dict_del (group_id g) (_active_groups st) with
    | Some d => end_process (PGroup i) None (with_active_groups d st)
    | None => end_process (PGroup i) (Some KeyError) st
    end).

(** [_group_process_wrapper] and [PassengerProcess.run] up to the first
    suspension. *)
Definition start_group (i : nat) st : Sim R :=
  with_group i st (fun g =>
    let st := with_active_groups (dict_set (group_id g) i (_active_groups st)) st in
    let st := update_group i (_update_position "source") st in
    match checkin_type g with
    | CheckinType.ONLINE => yield_timeout (PGroup i) 5 (set_pc i OnlineDelay st)
    | CheckinType.KIOSK => begin_visit CheckinKiosk i st
    | CheckinType.COUNTER => begin_visit CheckinCounter i st
    end).

Definition after_online (i : nat) st : Sim R :=
  let st := update_group i (_update_position "checkin_kiosk") st in
  begin_baggage i st.

Definition pc_of (i : nat) st : PC := default Finished (pcs st !! i).

(** [env.process(process_callback(group))] *)
Definition spawn (k : nat) st : Sim R :=
  schedule (Initialize (PGroup k)) URGENT 0 st.

(** The [for group in groups] loop of [ArrivalGenerator.arrival_process],
    from the group of index [k] on, until it suspends or ends. *)
Fixpoint arrival_loop (groups : list PassengerGroup) (k : nat)
    (last_arrival_time : Q) st : Sim R :=
  match groups with
  | [] => end_process PArrival None st
  | group :: rest =>
      let wait_time := (arrival_time group - last_arrival_time)%Q in
      if Qltb 0 wait_time
      then yield_timeout PArrival wait_time (with_arrival_next k st)
      else arrival_loop rest (S k) (arrival_time group) (spawn k st)
  end.

Definition arrival_start st : Sim R := arrival_loop (store st) O 0%Q st.

Definition arrival_resume st : Sim R :=
  let k := arrival_next st in
  match drop k (store st) with
  | group :: rest => arrival_loop rest (S k) (arrival_time group) (spawn k st)
  | [] => st
  end.

Definition position_entry (g : PassengerGroup) : PositionSnapshot.entry :=
  {| PositionSnapshot.group_id := group_id g;
     PositionSnapshot.x := current_x g;
     PositionSnapshot.y := current_y g;
     PositionSnapshot.group_size := group_size g;
     PositionSnapshot.node := current_node g |}.

(** [SimulationEngine._position_sampler], one turn of its loop. *)
Definition sampler_resume st : Sim R :=
  if Qltb (now st) (simulation_end cfg) then
    let snapshot :=
      {| PositionSnapshot.time := now st;
         PositionSnapshot.groups :=
           omap (fun kv => position_entry <$> (store st !! snd kv))
             (_active_groups st) |} in
    yield_timeout PSampler (sample_interval cfg)
      (with_position_snapshots (position_snapshots st ++ [snapshot]) st)
  else end_process PSampler None st.

(** The deferred part of a release: [Resource._trigger_put]. *)
Definition trigger_put (s : Station) st : Sim R :=
  let m := AirportResources.get s (resources st) in
  let (r, e) := Resource._trigger_put s (MonitoredResource.resource m) (env st) in
  with_env e
    (with_resources
       (AirportResources.set s (MonitoredResource.with_resource r m) (resources st))
       st).

(** The callbacks of an event. *)
Definition dispatch (k : EventKind) st : Sim R :=
  match k with
  | Initialize PArrival => arrival_start st
  | Initialize PSampler => sampler_resume st
  | Initialize (PGroup i) =>
      match pc_of i st with
      | NotStarted => start_group i st
      | _ => st
      end
  | Timeout PArrival => arrival_resume st
  | Timeout PSampler => sampler_resume st
  | Timeout (PGroup i) =>
      match pc_of i st with
      | OnlineDelay => after_online i st
      | InService s => end_service s i st
      | SecurityDelay => finish i st
      | _ => st
      end
  | Request s i =>
      match pc_of i st with
      | AwaitGrant s' => if decide (s = s') then begin_service s i st else st
      | _ => st
      end
  | Release s => trigger_put s st
  | ProcessEnd _ _ => st
  | Until => st
  end.

Inductive Step : Type :=
| Running (st : Sim R)
| Stopped (st : Sim R)
| Crashed (e : Exn).

(** [Environment.step], with the two ways it ends [Environment.run]: the
    [until] event, and an event that failed. *)
Definition step st : Step :=
  match Environment.heappop (Environment._queue (env st)) with
  | None => Crashed RuntimeError
  | Some (ev, q) =>
      let st :=
        with_env {| Environment.now := Event.time ev;
                    Environment._eid := Environment._eid (env st);
                    Environment._queue := q |} st in
      match Event.kind ev with
      | Until => Stopped st
      | ProcessEnd _ (Some e) => Crashed e
      | k => Running (dispatch k st)
      end
  end.

(** [while True: self.step()] *)
Fixpoint run_loop (fuel : nat) st : outcome (Sim R) :=
  match fuel with
  | O => OutOfFuel
  | S fuel' =>
      match step st with
      | Running st' => run_loop fuel' st'
      | Stopped st' => Done st'
      | Crashed e => Raised e
      end
  end.

(** [Environment.run(until=at)] *)
Definition env_run (fuel : nat) (at_ : Q) st : outcome (Sim R) :=
  if Qle_bool at_ (now st) then Raised ValueError
  else run_loop fuel (schedule Until URGENT (at_ - now st) st).
End Processes.

(* ===================================================================== *)
(** * src/simulation/engine.py *)
(* ===================================================================== *)

Module SimulationConfig.
Record t : Type := {
  arrival_df : Q;
  arrival_mean_min_before : Q;
  arrival_scale : Q;
  arrival_range_min : Q;
  arrival_range_max : Q;
  p_online : Q;
  p_kiosk : Q;
  p_counter : Q;
  p_baggage : Q;
  p_baggage_counter : Q;
  p_single : Q;
  group_multi_min : Z;
  group_multi_max : Z;
  capacity_checkin_kiosk : Z;
  capacity_checkin_counter : Z;
  capacity_baggage_counter : Z;
  capacity_tag_kiosk : Z;
  capacity_drop_point : Z;
  service_checkin_kiosk_mean : Q;
  service_checkin_kiosk_std : Q;
  service_checkin_counter_mean : Q;
  service_checkin_counter_std : Q;
  service_baggage_counter_mean : Q;
  service_baggage_counter_std : Q;
  service_tag_kiosk_mean : Q;
  service_tag_kiosk_std : Q;
  service_drop_point_mean : Q;
  service_drop_point_std : Q;
  sample_interval_sec : Q;
  random_seed : option Z;
}.

(** The field defaults of the dataclass. *)
Definition defaults : t := {|
  arrival_df := 7; arrival_mean_min_before := 70; arrival_scale := 20;
  arrival_range_min := 20; arrival_range_max := 120;
  p_online := 3 # 10; p_kiosk := 5 # 10; p_counter := 2 # 10;
  p_baggage := 5 # 10; p_baggage_counter := 4 # 10;
  p_single := 7 # 10; group_multi_min := 2; group_multi_max := 4;
  capacity_checkin_kiosk := 8; capacity_checkin_counter := 6;
  capacity_baggage_counter := 4; capacity_tag_kiosk := 4;
  capacity_drop_point := 4;
  service_checkin_kiosk_mean := 70; service_checkin_kiosk_std := 15;
  service_checkin_counter_mean := 180; service_checkin_counter_std := 40;
  service_baggage_counter_mean := 150; service_baggage_counter_std := 35;
  service_tag_kiosk_mean := 45; service_tag_kiosk_std := 10;
  service_drop_point_mean := 120; service_drop_point_std := 30;
  sample_interval_sec := 10;
  random_seed := None;
|}.
End SimulationConfig.

Module SimulationResult.
Record t : Type := {
  config : SimulationConfig.t;
  completed_groups : list PassengerGroup;
  queue_histories : gmap string (list QueueSnapshot.t);
  area_occupancy_history : list AreaOccupancy.t;
  position_snapshots : list PositionSnapshot.t;
  simulation_duration_sec : Q;
}.
End SimulationResult.

Module SimulationEngine.
Import SimulationConfig.

Record t : Type := {
  config : SimulationConfig.t;
  nodes : gmap string (gmap string Q);
  areas : gmap string (list (Q * Q));
}.

(** [__init__]: stores its arguments; nothing is checked. *)
Definition init (config : SimulationConfig.t) (nodes : gmap string (gmap string Q))
    (areas : option (gmap string (list (Q * Q)))) : result t :=
  ok {| config := config; nodes := nodes; areas := default ∅ areas |}.

(** [_create_service_times] *)
Definition _create_service_times (self : t) (s : Station)
    : ServiceTimeDistribution.t :=
  let c := config self in
  match s with
  | CheckinKiosk =>
      ServiceTimeDistribution.init (service_checkin_kiosk_mean c)
        (service_checkin_kiosk_std c)
  | CheckinCounter =>
      ServiceTimeDistribution.init (service_checkin_counter_mean c)
        (service_checkin_counter_std c)
  | BaggageCounter =>
      ServiceTimeDistribution.init (service_baggage_counter_mean c)
        (service_baggage_counter_std c)
  | TagKiosk =>
      ServiceTimeDistribution.init (service_tag_kiosk_mean c)
        (service_tag_kiosk_std c)
  | DropPoint =>
      ServiceTimeDistribution.init (service_drop_point_mean c)
        (service_drop_point_std c)
  end.

(** [max(g.departure_time for g in groups)] of a non-empty list. *)
Definition last_departure (first : PassengerGroup) (rest : list PassengerGroup) : Q :=
  foldl (fun m g => if Qltb m (departure_time g) then departure_time g else m)
    (departure_time first) rest.

(** The fixed buffer after the last departure. *)
Definition buffer : Q := 3600.

Definition horizon (first : PassengerGroup) (rest : list PassengerGroup) : Q :=
  (last_departure first rest + buffer)%Q.

Definition empty_result (self : t) : SimulationResult.t :=
  {| SimulationResult.config := config self;
     SimulationResult.completed_groups := [];
     SimulationResult.queue_histories := ∅;
     SimulationResult.area_occupancy_history := [];
     SimulationResult.position_snapshots := [];
     SimulationResult.simulation_duration_sec := 0 |}.

Section Run.
Context {R P : Type} `{NumpyRandom R} `{PyRandom P}.

Definition setup (self : t) (simulation_end : Q) : Setup :=
  mkSetup (nodes self) (_create_service_times self)
    (sample_interval_sec (config self)) simulation_end.

(** The state in which [self.env.run] is entered: both processes
    created, no event processed yet. *)
Definition initial (resources : AirportResources.t)
    (groups : list PassengerGroup) (r : R) : Sim R :=
  let st :=
    mkSim Environment.init resources groups
      (replicate (length groups) NotStarted) O [] [] [] r in
  let st := schedule (Initialize PArrival) URGENT 0 st in
  schedule (Initialize PSampler) URGENT 0 st.

(** The results collected after [self.env.run]. *)
Definition collect (self : t) (st : Sim R) : SimulationResult.t :=
  {| SimulationResult.config := config self;
     SimulationResult.completed_groups :=
       omap (fun i => store st !! i) (completed_groups st);
     SimulationResult.queue_histories :=
       MonitoredResource.queue_history <$>
         AirportResources.get_all_resources (resources st);
     SimulationResult.area_occupancy_history :=
       AirportResources.area_occupancy_history (resources st);
     SimulationResult.position_snapshots := position_snapshots st;
     SimulationResult.simulation_duration_sec := now st |}.

(** Everything [run] sets up before it generates the arrivals. *)
Definition prepare (self : t) (r : R)
    : result (AirportResources.t * ArrivalGenerator.t * R) :=
  let c := config self in
  try r := seed_if_given (random_seed c) r in
  try resources :=
    AirportResources.init (capacity_checkin_kiosk c)
      (capacity_checkin_counter c) (capacity_baggage_counter c)
      (capacity_tag_kiosk c) (capacity_drop_point c) in
  try group_factory :=
    PassengerGroupFactory.init (p_online c) (p_kiosk c) (p_counter c)
      (p_baggage c) (p_baggage_counter c) (p_single c)
      (group_multi_min c) (group_multi_max c) in
  try (arrival_gen, r) :=
    ArrivalGenerator.init group_factory (arrival_df c)
      (arrival_mean_min_before c) (arrival_scale c) (arrival_range_min c)
      (arrival_range_max c) (random_seed c) r in
  ok (resources, arrival_gen, r).

(** [run] up to the return of [self.env.run]: the state the run ends in,
    or [None] when no group was generated and [run] returns early. *)
Definition simulate (fuel : nat) (self : t) (demand_slots : list DemandSlot)
    (r : R) (p : P) : outcome (option (Sim R) * R * P) :=
  match prepare self r with
  | inl e => Raised e
  | inr (resources, arrival_gen, r) =>
      match ArrivalGenerator.generate_all_arrivals fuel arrival_gen
              demand_slots r p with
      | Raised e => Raised e
      | OutOfFuel => OutOfFuel
      | Done ([], _, r, p) => Done (None, r, p)
      | Done (first :: rest, _, r, p) =>
          let simulation_end := horizon first rest in
          let st := initial resources (first :: rest) r in
          match env_run (setup self simulation_end) fuel simulation_end st with
          | Raised e => Raised e
          | OutOfFuel => OutOfFuel
          | Done st => Done (Some st, np st, p)
          end
      end
  end.

Definition run (fuel : nat) (self : t) (demand_slots : list DemandSlot)
    (r : R) (p : P) : outcome (SimulationResult.t * R * P) :=
  match simulate fuel self demand_slots r p with
  | Raised e => Raised e
  | OutOfFuel => OutOfFuel
  | Done (None, r, p) => Done (empty_result self, r, p)
  | Done (Some st, r, p) => Done (collect self st, r, p)
  end.
End Run.
End SimulationEngine.

(* ===================================================================== *)
(** * Vocabulary of the statements *)
(* ===================================================================== *)

(** [x] lies between the bounds of [d]. *)
Definition within (d : TruncatedTDistribution.t) (x : Q) : Prop :=
  (TruncatedTDistribution.lower d <= x /\ x <= TruncatedTDistribution.upper d)%Q.

Definition sample_witness_dist : TruncatedTDistribution.t :=
  {| TruncatedTDistribution.df := 7; TruncatedTDistribution.loc := 70;
     TruncatedTDistribution.scale := 20; TruncatedTDistribution.lower := 20;
     TruncatedTDistribution.upper := 120 |}.

(** The parameters [rvs] accepts: [df > 0] and [scale >= 0]. *)
Definition sampler_usable (d : TruncatedTDistribution.t) : Prop :=
  (0 < TruncatedTDistribution.df d)%Q /\ (0 <= TruncatedTDistribution.scale d)%Q.


(** The scale is negative. *)
Definition negative_scale_dist : TruncatedTDistribution.t :=
  {| TruncatedTDistribution.df := 7; TruncatedTDistribution.loc := 70;
     TruncatedTDistribution.scale := -20; TruncatedTDistribution.lower := 20;
     TruncatedTDistribution.upper := 120 |}.

(** Concrete inputs the statements are exercised on. *)
Definition example_factory : PassengerGroupFactory.t :=
  {| PassengerGroupFactory.p_online := 3 # 10;
     PassengerGroupFactory.p_kiosk := 5 # 10;
     PassengerGroupFactory.p_counter := 2 # 10;
     PassengerGroupFactory.p_baggage := 5 # 10;
     PassengerGroupFactory.p_baggage_counter := 4 # 10;
     PassengerGroupFactory.p_single := 7 # 10;
     PassengerGroupFactory.multi_min := 2;
     PassengerGroupFactory.multi_max := 4;
     PassengerGroupFactory._next_group_id := 0 |}.

Definition example_generator : ArrivalGenerator.t :=
  {| ArrivalGenerator.group_factory := example_factory;
     ArrivalGenerator.arrival_dist := sample_witness_dist;
     ArrivalGenerator.arrival_range_max := 120;
     ArrivalGenerator.generated_groups := [] |}.

(** The same, with a negative scale of the arrival distribution. *)
Definition negative_scale_generator : ArrivalGenerator.t :=
  {| ArrivalGenerator.group_factory := example_factory;
     ArrivalGenerator.arrival_dist := negative_scale_dist;
     ArrivalGenerator.arrival_range_max := 120;
     ArrivalGenerator.generated_groups := [] |}.

Definition example_slot : DemandSlot :=
  {| start_minutes := 100; end_minutes := 200; pax_count := 3 |}.

Definition empty_slot : DemandSlot :=
  {| start_minutes := 0; end_minutes := 60; pax_count := 0 |}.

(** A seed [np.random.seed] accepts, or none. *)
Definition seed_usable (seed : option Z) : Prop :=
  match seed with
  | Some s => 0 <= s < 2 ^ 32
  | None => True
  end.


(** No configured standard deviation of a service time is negative: what
    [np.random.normal] needs of the five service-time distributions. *)
Definition service_std_ok (c : SimulationConfig.t) : Prop :=
  (0 <= SimulationConfig.service_checkin_kiosk_std c)%Q /\
  (0 <= SimulationConfig.service_checkin_counter_std c)%Q /\
  (0 <= SimulationConfig.service_baggage_counter_std c)%Q /\
  (0 <= SimulationConfig.service_tag_kiosk_std c)%Q /\
  (0 <= SimulationConfig.service_drop_point_std c)%Q.

(** The sampling interval is at least [2 ** -52] of the horizon [h]: for
    every instant [now] before [h], the double [now + sample_interval_sec]
    is later than [now], so that the clock of the position sampler moves
    on. *)
Definition interval_not_absorbed (c : SimulationConfig.t) (h : Q) : Prop :=
  (h <= inject_Z (2 ^ 52) * SimulationConfig.sample_interval_sec c)%Q.

Definition some_capacity_not_positive (c : SimulationConfig.t) : Prop :=
  SimulationConfig.capacity_checkin_kiosk c <= 0 \/
  SimulationConfig.capacity_checkin_counter c <= 0 \/
  SimulationConfig.capacity_baggage_counter c <= 0 \/
  SimulationConfig.capacity_tag_kiosk c <= 0 \/
  SimulationConfig.capacity_drop_point c <= 0.

Definition all_capacities_positive (c : SimulationConfig.t) : Prop :=
  0 < SimulationConfig.capacity_checkin_kiosk c /\
  0 < SimulationConfig.capacity_checkin_counter c /\
  0 < SimulationConfig.capacity_baggage_counter c /\
  0 < SimulationConfig.capacity_tag_kiosk c /\
  0 < SimulationConfig.capacity_drop_point c.

(** The float sum [p_online + p_kiosk + p_counter] is zero. *)
Definition split_sums_to_zero (c : SimulationConfig.t) : Prop :=
  (float_sum3 (SimulationConfig.p_online c) (SimulationConfig.p_kiosk c)
     (SimulationConfig.p_counter c) == 0)%Q.

Definition outside_unit (q : Q) : Prop := (q < 0 \/ 1 < q)%Q.

Definition some_probability_outside_unit (c : SimulationConfig.t) : Prop :=
  outside_unit (SimulationConfig.p_online c) \/
  outside_unit (SimulationConfig.p_kiosk c) \/
  outside_unit (SimulationConfig.p_counter c) \/
  outside_unit (SimulationConfig.p_baggage c) \/
  outside_unit (SimulationConfig.p_baggage_counter c) \/
  outside_unit (SimulationConfig.p_single c).

(** The configurations the specification calls invalid. *)
Definition invalid_config (c : SimulationConfig.t) : Prop :=
  some_probability_outside_unit c \/ split_sums_to_zero c \/
  some_capacity_not_positive c.


(** The default configuration with some of its fields replaced. *)
Definition config_with (p_online p_baggage p_single : Q)
    (capacity_checkin_kiosk capacity_checkin_counter : Z)
    (service_checkin_counter_mean service_checkin_counter_std : Q)
    (sample_interval_sec : Q) (random_seed : option Z) : SimulationConfig.t :=
  let d := SimulationConfig.defaults in
  {| SimulationConfig.arrival_df := SimulationConfig.arrival_df d;
     SimulationConfig.arrival_mean_min_before := SimulationConfig.arrival_mean_min_before d;
     SimulationConfig.arrival_scale := SimulationConfig.arrival_scale d;
     SimulationConfig.arrival_range_min := SimulationConfig.arrival_range_min d;
     SimulationConfig.arrival_range_max := SimulationConfig.arrival_range_max d;
     SimulationConfig.p_online := p_online;
     SimulationConfig.p_kiosk := SimulationConfig.p_kiosk d;
     SimulationConfig.p_counter := SimulationConfig.p_counter d;
     SimulationConfig.p_baggage := p_baggage;
     SimulationConfig.p_baggage_counter := SimulationConfig.p_baggage_counter d;
     SimulationConfig.p_single := p_single;
     SimulationConfig.group_multi_min := SimulationConfig.group_multi_min d;
     SimulationConfig.group_multi_max := SimulationConfig.group_multi_max d;
     SimulationConfig.capacity_checkin_kiosk := capacity_checkin_kiosk;
     SimulationConfig.capacity_checkin_counter := capacity_checkin_counter;
     SimulationConfig.capacity_baggage_counter := SimulationConfig.capacity_baggage_counter d;
     SimulationConfig.capacity_tag_kiosk := SimulationConfig.capacity_tag_kiosk d;
     SimulationConfig.capacity_drop_point := SimulationConfig.capacity_drop_point d;
     SimulationConfig.service_checkin_kiosk_mean := SimulationConfig.service_checkin_kiosk_mean d;
     SimulationConfig.service_checkin_kiosk_std := SimulationConfig.service_checkin_kiosk_std d;
     SimulationConfig.service_checkin_counter_mean := service_checkin_counter_mean;
     SimulationConfig.service_checkin_counter_std := service_checkin_counter_std;
     SimulationConfig.service_baggage_counter_mean := SimulationConfig.service_baggage_counter_mean d;
     SimulationConfig.service_baggage_counter_std := SimulationConfig.service_baggage_counter_std d;
     SimulationConfig.service_tag_kiosk_mean := SimulationConfig.service_tag_kiosk_mean d;
     SimulationConfig.service_tag_kiosk_std := SimulationConfig.service_tag_kiosk_std d;
     SimulationConfig.service_drop_point_mean := SimulationConfig.service_drop_point_mean d;
     SimulationConfig.service_drop_point_std := SimulationConfig.service_drop_point_std d;
     SimulationConfig.sample_interval_sec := sample_interval_sec;
     SimulationConfig.random_seed := random_seed |}.

Definition engine_of (c : SimulationConfig.t) : SimulationEngine.t :=
  {| SimulationEngine.config := c; SimulationEngine.nodes := ∅;
     SimulationEngine.areas := ∅ |}.

(** The defaults, seeded. *)
Definition seeded_config : SimulationConfig.t :=
  config_with (3 # 10) (5 # 10) (7 # 10) 8 6 180 40 10 (Some 42).

(** [p_baggage = 1.5]. *)
Definition config_bad_probability : SimulationConfig.t :=
  config_with (3 # 10) (3 # 2) (7 # 10) 8 6 180 40 10 (Some 42).

(** [capacity_checkin_kiosk = 0]. *)
Definition config_bad_capacity : SimulationConfig.t :=
  config_with (3 # 10) (5 # 10) (7 # 10) 0 6 180 40 10 (Some 42).

(** A configuration with the check-in split replaced. *)
Definition with_split (p_online p_kiosk p_counter : Q) (c : SimulationConfig.t)
    : SimulationConfig.t :=
  {| SimulationConfig.arrival_df := SimulationConfig.arrival_df c;
     SimulationConfig.arrival_mean_min_before := SimulationConfig.arrival_mean_min_before c;
     SimulationConfig.arrival_scale := SimulationConfig.arrival_scale c;
     SimulationConfig.arrival_range_min := SimulationConfig.arrival_range_min c;
     SimulationConfig.arrival_range_max := SimulationConfig.arrival_range_max c;
     SimulationConfig.p_online := p_online;
     SimulationConfig.p_kiosk := p_kiosk;
     SimulationConfig.p_counter := p_counter;
     SimulationConfig.p_baggage := SimulationConfig.p_baggage c;
     SimulationConfig.p_baggage_counter := SimulationConfig.p_baggage_counter c;
     SimulationConfig.p_single := SimulationConfig.p_single c;
     SimulationConfig.group_multi_min := SimulationConfig.group_multi_min c;
     SimulationConfig.group_multi_max := SimulationConfig.group_multi_max c;
     SimulationConfig.capacity_checkin_kiosk := SimulationConfig.capacity_checkin_kiosk c;
     SimulationConfig.capacity_checkin_counter := SimulationConfig.capacity_checkin_counter c;
     SimulationConfig.capacity_baggage_counter := SimulationConfig.capacity_baggage_counter c;
     SimulationConfig.capacity_tag_kiosk := SimulationConfig.capacity_tag_kiosk c;
     SimulationConfig.capacity_drop_point := SimulationConfig.capacity_drop_point c;
     SimulationConfig.service_checkin_kiosk_mean := SimulationConfig.service_checkin_kiosk_mean c;
     SimulationConfig.service_checkin_kiosk_std := SimulationConfig.service_checkin_kiosk_std c;
     SimulationConfig.service_checkin_counter_mean := SimulationConfig.service_checkin_counter_mean c;
     SimulationConfig.service_checkin_counter_std := SimulationConfig.service_checkin_counter_std c;
     SimulationConfig.service_baggage_counter_mean := SimulationConfig.service_baggage_counter_mean c;
     SimulationConfig.service_baggage_counter_std := SimulationConfig.service_baggage_counter_std c;
     SimulationConfig.service_tag_kiosk_mean := SimulationConfig.service_tag_kiosk_mean c;
     SimulationConfig.service_tag_kiosk_std := SimulationConfig.service_tag_kiosk_std c;
     SimulationConfig.service_drop_point_mean := SimulationConfig.service_drop_point_mean c;
     SimulationConfig.service_drop_point_std := SimulationConfig.service_drop_point_std c;
     SimulationConfig.sample_interval_sec := SimulationConfig.sample_interval_sec c;
     SimulationConfig.random_seed := SimulationConfig.random_seed c |}.

(** [p_online = -0.75, p_kiosk = 0.5, p_counter = 0.25]: three doubles
    whose float sum is zero. *)
Definition config_bad_split : SimulationConfig.t :=
  with_split (-3 # 4) (1 # 2) (1 # 4) seeded_config.

(** [p_online = -0.7, p_kiosk = 0.5, p_counter = 0.2]: the decimal
    fractions sum to zero, the doubles they denote do not. *)
Definition config_decimal_split : SimulationConfig.t :=
  with_split (-7 # 10) (5 # 10) (2 # 10) seeded_config.

(** The seed [-1]. *)
Definition config_bad_seed : SimulationConfig.t :=
  config_with (3 # 10) (5 # 10) (7 # 10) 8 6 180 40 10 (Some (-1)).

(** What can happen to one station between two instants of a run: the
    clock moves, a group process files a request, a group process releases,
    a release event is processed. *)
Inductive StationOp : Type :=
| OpAt (t : Q)
| OpRequest (group_id group_size : Z) (i : nat)
| OpRelease (i : nat) (group_id : Z)
| OpReleased.

Definition apply_op (self : Station) (op : StationOp)
    (st : MonitoredResource.t * Environment.t) : MonitoredResource.t * Environment.t :=
  let (m, env) := st in
  match op with
  | OpAt t =>
      (m, {| Environment.now := t; Environment._eid := Environment._eid env;
             Environment._queue := Environment._queue env |})
  | OpRequest group_id group_size i =>
      MonitoredResource.request self group_id group_size i m env
  | OpRelease i group_id => MonitoredResource.release self i group_id m env
  | OpReleased =>
      let (r, env') := Resource._trigger_put self (MonitoredResource.resource m) env in
      (MonitoredResource.with_resource r m, env')
  end.

Definition run_ops (self : Station) (ops : list StationOp)
    (st : MonitoredResource.t * Environment.t) : MonitoredResource.t * Environment.t :=
  foldl (fun st op => apply_op self op st) st ops.

(** The requests of a station that were granted, in the order of their
    grants: each grant schedules the request. *)
Definition granted (self : Station) (env : Environment.t) : list nat :=
  omap (fun ev =>
          match Event.kind ev with
          | Request s i => if decide (s = self) then Some i else None
          | _ => None
          end) (Environment._queue env).

(** The processes that filed a request, in the order of their requests. *)
Definition requesters (ops : list StationOp) : list nat :=
  omap (fun op => match op with OpRequest _ _ i => Some i | _ => None end) ops.

(** A station of capacity one, as [MonitoredResource.__init__] leaves it. *)
Definition single_server (name : string) : MonitoredResource.t :=
  {| MonitoredResource.name := name;
     MonitoredResource.capacity := 1;
     MonitoredResource.resource :=
       {| Resource.capacity := 1; Resource.users := []; Resource.queue := [] |};
     MonitoredResource.queue_history := [];
     MonitoredResource._current_queue := [] |}.

(** [run] called twice in a row on the same engine and slots: the second
    call finds the two ambient generators as the first call left them. *)
Definition run_twice {R P : Type} `{NumpyRandom R} `{PyRandom P} (fuel : nat)
    (self : SimulationEngine.t) (demand_slots : list DemandSlot) (r : R) (p : P)
    : outcome (SimulationResult.t * SimulationResult.t) :=
  match SimulationEngine.run fuel self demand_slots r p with
  | Done (first, r1, p1) =>
      match SimulationEngine.run fuel self demand_slots r1 p1 with
      | Done (second, _, _) => Done (first, second)
      | Raised e => Raised e
      | OutOfFuel => OutOfFuel
      end
  | Raised e => Raised e
  | OutOfFuel => OutOfFuel
  end.

(** The defaults, seeded, sampled every ten minutes. *)
Definition replay_config : SimulationConfig.t :=
  config_with (3 # 10) (5 # 10) (7 # 10) 8 6 180 40 600 (Some 42).

(** A state of the generator of [random]: its next outcomes. *)
Definition replay_tape : Tape :=
  [1 # 10; 1 # 10; 9 # 10; 1 # 10; 1 # 10; 9 # 10; 1 # 10; 1 # 10; 9 # 10;
   9 # 10; 9 # 10; 9 # 10; 9 # 10]%Q.

(** What the replay statements compare of a completed group. *)
Definition outline (g : PassengerGroup)
    : Z * Z * CheckinType.t * option Q * option Q * option Q :=
  (group_id g, group_size g, checkin_type g, checkin_start g, checkin_end g,
   security_arrival g).

(** [sum(g.group_size for g in groups)] *)
Definition total_size (groups : list PassengerGroup) : Z :=
  foldr (fun g acc => group_size g + acc) 0 groups.

(** A size [create_group] can produce: one, or between the two bounds. *)
Definition size_allowed (f : PassengerGroupFactory.t) (g : PassengerGroup) : Prop :=
  group_size g = 1 \/
  PassengerGroupFactory.multi_min f <= group_size g <= PassengerGroupFactory.multi_max f.

(** No timestamp of [g] is set. *)
Definition unstamped (g : PassengerGroup) : Prop :=
  checkin_queue_enter g = None /\ checkin_start g = None /\ checkin_end g = None /\
  baggage_counter_queue_enter g = None /\ baggage_counter_start g = None /\
  baggage_counter_end g = None /\
  tag_queue_enter g = None /\ tag_start g = None /\ tag_end g = None /\
  drop_queue_enter g = None /\ drop_start g = None /\ drop_end g = None /\
  security_arrival g = None.

#[export] Instance PC_eq_dec : EqDecision PC.
Proof. solve_decision. Defined.

(* ---------------------------------------------------------------- *)
(** ** The state of a run, observed *)

Section Observations.
Context {R : Type}.
Implicit Types st : Sim R.

Definition queue st : list Event.t := Environment._queue (env st).
Definition calls st : list AreaCall := AirportResources.area_calls (resources st).
Definition history st : list AreaOccupancy.t :=
  AirportResources.area_occupancy_history (resources st).
(** The requests that wait at station [s]. *)
Definition waiting (s : Station) st : list nat :=
  Resource.queue (MonitoredResource.resource (AirportResources.get s (resources st))).
End Observations.

(** [a] comes no later than [b] in the order of the keys. *)
Definition key_le (a b : Event.t) : Prop := Event.ltb b a = false.

(** The calls of [enter_area], resp. [leave_area], for the area [z]. *)
Definition enters (z : string) (l : list AreaCall) : nat :=
  length (List.filter
            (fun c => match c with Enter a _ => bool_decide (a = z) | Leave _ _ => false end) l).

Definition leaves (z : string) (l : list AreaCall) : nat :=
  length (List.filter
            (fun c => match c with Leave a _ => bool_decide (a = z) | Enter _ _ => false end) l).

(** Whether a process suspended at [pc] has entered the area [z] and not
    left it yet. *)
Definition inside (z : string) (pc : PC) : nat :=
  match pc with
  | AwaitGrant s | InService s => if decide (station_zone s = z) then 1 else 0
  | SecurityDelay => if decide ("security_front" = z) then 1 else 0
  | NotStarted | OnlineDelay | Finished => 0
  end.

(** The group processes that are inside the area [z]. *)
Definition occupants (z : string) (l : list PC) : nat :=
  sum_list_with (inside z) l.

(** The timestamps of the stage of station [s] come in order. *)
Definition stage_ordered (s : Station) (g : PassengerGroup) : Prop :=
  (forall te, end_of s g = Some te ->
     exists ts, start_of s g = Some ts /\ (ts <= te)%Q) /\
  (forall ts, start_of s g = Some ts ->
     exists tq, queue_enter_of s g = Some tq /\ (tq <= ts)%Q).

Definition stamp_le (t : Q) (o : option Q) : Prop :=
  match o with
  | Some x => (x <= t)%Q
  | None => True
  end.

(** No timestamp of [g] is later than [t]. *)
Definition stamps_le (t : Q) (g : PassengerGroup) : Prop :=
  (forall s, stamp_le t (queue_enter_of s g) /\ stamp_le t (start_of s g) /\
             stamp_le t (end_of s g)) /\
  stamp_le t (security_arrival g).

(** The stage of station [s] has not begun. *)
Definition untouched (s : Station) (g : PassengerGroup) : Prop :=
  queue_enter_of s g = None /\ start_of s g = None /\ end_of s g = None.

(** The stages that can still follow a visit of station [s]. *)
Definition later_untouched (s : Station) (g : PassengerGroup) : Prop :=
  match s with
  | CheckinKiosk | CheckinCounter =>
      untouched BaggageCounter g /\ untouched TagKiosk g /\ untouched DropPoint g
  | TagKiosk => untouched DropPoint g
  | BaggageCounter | DropPoint => True
  end.

(** What the point of suspension says about the timestamps. *)
Definition pc_consistent (pc : PC) (g : PassengerGroup) : Prop :=
  match pc with
  | NotStarted | OnlineDelay => forall s, untouched s g
  | AwaitGrant s =>
      is_Some (queue_enter_of s g) /\ start_of s g = None /\ end_of s g = None /\
      later_untouched s g
  | InService s =>
      is_Some (start_of s g) /\ end_of s g = None /\ later_untouched s g
  | SecurityDelay | Finished => True
  end.

(** The timestamps of [g] are in order and none is later than [t]. *)
Definition stamps_ok (t : Q) (g : PassengerGroup) : Prop :=
  stamps_le t g /\ forall s, stage_ordered s g.

(** What holds of a group object at instant [t] while its process is
    suspended at [pc]. *)
Definition group_ok (t : Q) (pc : PC) (g : PassengerGroup) : Prop :=
  stamps_ok t g /\
  pc_consistent pc g /\
  (pc <> NotStarted -> (arrival_time g <= t)%Q) /\
  (pc = Finished ->
   exists ta, security_arrival g = Some ta /\ (arrival_time g <= ta)%Q).

(** The fields of a group that no process changes. *)
Definition same_group (g g' : PassengerGroup) : Prop :=
  group_id g' = group_id g /\ group_size g' = group_size g /\
  arrival_time g' = arrival_time g /\ departure_time g' = departure_time g /\
  checkin_type g' = checkin_type g /\ baggage_drop_type g' = baggage_drop_type g.

(** An upper bound of the number of events a group process suspended at
    [pc] will still cause to be scheduled. *)
Definition rank (pc : PC) : nat :=
  match pc with
  | NotStarted => 11
  | OnlineDelay => 8
  | AwaitGrant (CheckinKiosk | CheckinCounter) => 10
  | InService (CheckinKiosk | CheckinCounter) => 9
  | AwaitGrant TagKiosk => 7
  | InService TagKiosk => 6
  | AwaitGrant (BaggageCounter | DropPoint) => 4
  | InService (BaggageCounter | DropPoint) => 3
  | SecurityDelay => 1
  | Finished => 0
  end.

Definition is_arrival_event (ev : Event.t) : bool :=
  match Event.kind ev with
  | Initialize PArrival | Timeout PArrival => true
  | _ => false
  end.

(** An event a group process can schedule at instant [t]. *)
Definition group_event (i : nat) (t : Q) (ev : Event.t) : Prop :=
  (t <= Event.time ev)%Q /\ Event.priority ev = NORMAL /\
  ((exists s j, Event.kind ev = Request s j) \/
   (exists s, Event.kind ev = Release s) \/
   Event.kind ev = Timeout (PGroup i) \/
   (exists o, Event.kind ev = ProcessEnd (PGroup i) o)).

(** The event is not the end of a process that failed. *)
Definition no_failure (ev : Event.t) : Prop :=
  forall p e, Event.kind ev <> ProcessEnd p (Some e).

Section Moves.
Context {R : Type}.
Implicit Types st : Sim R.

(** The number of waiting requests, all stations together. *)
Definition wsum st : nat :=
  (length (waiting CheckinKiosk st) + length (waiting CheckinCounter st) +
   length (waiting BaggageCounter st) + length (waiting TagKiosk st) +
   length (waiting DropPoint st))%nat.

(** The events scheduled between the states [st] and [st']. *)
Definition new_events st st' : list Event.t :=
  drop (length (queue st)) (queue st').

(** What the process of the group at index [i] may change between two
    suspensions: its group object becomes [g'], its point of suspension
    [pc'], the events [evs] are scheduled, the calls [cs] are made,
    [cost] requests or events are issued, the references [done] are
    appended to the completed groups, [act] is the dictionary of active
    groups; no process fails when [ok] holds. *)
Definition moves (i : nat) st st' (g' : PassengerGroup) (pc' : PC)
    (evs : list Event.t) (cs : list AreaCall) (cost : nat) (done : list nat)
    (act : list (Z * nat)) (ok : Prop) : Prop :=
  (i < length (store st))%nat /\ (i < length (pcs st))%nat /\
  now st' = now st /\
  arrival_next st' = arrival_next st /\
  store st' = <[i := g']> (store st) /\
  pcs st' = <[i := pc']> (pcs st) /\
  queue st' = queue st ++ evs /\
  calls st' = calls st ++ cs /\
  (wsum st' + length evs = wsum st + cost)%nat /\
  completed_groups st' = completed_groups st ++ done /\
  _active_groups st' = act /\
  Forall (group_event i (now st)) evs /\
  (ok -> Forall no_failure evs).
End Moves.


(** No service-time floor is negative, and no standard deviation: no
    service time can be rejected, by [np.random.normal] or by [timeout]. *)
Definition service_ok (cfg : Setup) : Prop :=
  forall s, (0 <= ServiceTimeDistribution.min_time (service_times cfg s))%Q /\
            (0 <= ServiceTimeDistribution.std (service_times cfg s))%Q.

(** What a transition of the process of the group at index [i] does, the
    group being [g] and the process suspended at [pc] before it. *)
Definition group_effect {R : Type} (cfg : Setup) (i : nat) (g : PassengerGroup)
    (pc : PC) (st st' : Sim R) : Prop :=
  exists g' pc' evs cs cost done act ok,
    moves i st st' g' pc' evs cs cost done act ok /\
    same_group g g' /\
    ((pc = NotStarted -> (arrival_time g <= now st)%Q) ->
     group_ok (now st) pc g -> group_ok (now st) pc' g') /\
    (forall z, (enters z cs + inside z pc = leaves z cs + inside z pc')%nat) /\
    (rank pc' + cost <= rank pc)%nat /\
    (pc' <> NotStarted /\ (pc' = Finished -> pc = SecurityDelay)) /\
    done = match pc' with Finished => [i] | _ => [] end /\
    (pc = NotStarted -> act = dict_set (group_id g) i (_active_groups st)) /\
    (pc <> NotStarted -> pc' <> Finished -> act = _active_groups st) /\
    (pc' = Finished -> dict_has (group_id g) (_active_groups st) = true ->
     act = List.filter (fun kv => negb (bool_decide (fst kv = group_id g)))
             (_active_groups st)) /\
    (service_ok cfg ->
     (pc' = Finished -> dict_has (group_id g) (_active_groups st) = true) -> ok).

(** What the last part of a transition does, from a group object [g1]
    whose process is between two stages: it ends suspended inside at most
    one area, having issued at most [budget] requests and events; the
    timestamps stay in order when the stages to come are untouched
    ([pre]). *)
Definition tail_spec {R : Type} (i : nat) (st0 st' : Sim R) (g1 : PassengerGroup)
    (E : list Event.t) (C : list AreaCall) (K : nat) (D : list nat)
    (A : list (Z * nat)) (ok : Prop) (budget : nat) (pre : Prop) : Prop :=
  exists g' pc' evs cs k,
    moves i st0 st' g' pc' (E ++ evs) (C ++ cs) (K + k) D A ok /\
    same_group g1 g' /\
    (stamps_ok (now st0) g1 -> pre ->
     stamps_ok (now st0) g' /\ pc_consistent pc' g') /\
    (forall z, enters z cs = (leaves z cs + inside z pc')%nat) /\
    (rank pc' + k <= budget)%nat /\
    pc' <> NotStarted /\ pc' <> Finished.

(* ---------------------------------------------------------------- *)
(** ** The invariants of a run *)

Section Invariants.
Context {R : Type} (cfg : Setup).
Implicit Types st : Sim R.

(** What holds of an event that waits in the queue. *)
Definition event_ok st (ev : Event.t) : Prop :=
  (now st <= Event.time ev)%Q /\
  (Event.kind ev = Until ->
   (Event.time ev == simulation_end cfg)%Q /\ Event.priority ev = URGENT) /\
  (Event.priority ev = URGENT -> Event.kind ev <> Until ->
   (Event.time ev < simulation_end cfg)%Q) /\
  (forall k g, Event.kind ev = Initialize (PGroup k) -> store st !! k = Some g ->
   (arrival_time g <= Event.time ev)%Q) /\
  (forall g, Event.kind ev = Timeout PArrival ->
   store st !! arrival_next st = Some g -> (arrival_time g <= Event.time ev)%Q).

(** No recorded occupancy counts a negative number of groups. *)
Definition history_ok st : Prop :=
  Forall (fun a => 0 <= AreaOccupancy.group_count a) (history st).

(** The invariant of [Environment.run]. *)
Definition Inv st : Prop :=
  length (pcs st) = length (store st) /\
  (0 <= now st)%Q /\
  (now st < simulation_end cfg)%Q /\
  Forall (event_ok st) (queue st) /\
  (exists ev, ev ∈ queue st /\ Event.kind ev = Until) /\
  (length (List.filter is_arrival_event (queue st)) <= 1)%nat /\
  (forall i g pc, store st !! i = Some g -> pcs st !! i = Some pc ->
     group_ok (now st) pc g) /\
  (forall i, i ∈ completed_groups st -> pcs st !! i = Some Finished) /\
  (forall z, enters z (calls st) = (leaves z (calls st) + occupants z (pcs st))%nat).

(** What keeps the processes from failing. *)
Definition Live st : Prop :=
  Forall no_failure (queue st) /\
  NoDup (group_id <$> store st) /\
  (forall i g pc, store st !! i = Some g -> pcs st !! i = Some pc ->
     pc <> NotStarted -> pc <> Finished ->
     dict_has (group_id g) (_active_groups st) = true).

(** An upper bound of the number of events the processing of [ev] can
    still cause, group processes apart. *)
Definition weight st (ev : Event.t) : nat :=
  match Event.kind ev with
  | Initialize PArrival => 2 * length (store st) + 3
  | Timeout PArrival => 2 * (length (store st) - arrival_next st) + 2
  | Initialize PSampler | Timeout PSampler =>
      2 + Z.to_nat (Qceiling ((simulation_end cfg - Event.time ev) / sample_interval cfg))
  | _ => 1
  end.

(** The measure that every step of the run decreases. *)
Definition potential st : nat :=
  (sum_list_with (weight st) (queue st) + wsum st + sum_list_with rank (pcs st))%nat.

(** A transition that touches no group: the events [evs] are scheduled
    and [k] waiting requests are granted. *)
Definition quiet st st' (evs : list Event.t) (k : nat) : Prop :=
  now st' = now st /\ store st' = store st /\ pcs st' = pcs st /\
  calls st' = calls st /\ history st' = history st /\
  completed_groups st' = completed_groups st /\
  _active_groups st' = _active_groups st /\
  queue st' = queue st ++ evs /\ (wsum st' + k = wsum st)%nat.

(** The state in which the callbacks of [ev] run: [ev] is popped and the
    clock is at its time. *)
Definition after_pop (ev : Event.t) (q : list Event.t) st : Sim R :=
  with_env {| Environment.now := Event.time ev;
              Environment._eid := Environment._eid (env st);
              Environment._queue := q |} st.

(** What the arrival process schedules in one turn: the processes of the
    groups that have arrived, then its own resumption or end. *)
Definition arrival_turn (k : nat) st st' (spawns : list Event.t) (final : Event.t)
    : Prop :=
  quiet st st' (spawns ++ [final]) 0 /\
  Forall (fun ev => Event.priority ev = URGENT /\ Event.time ev = (now st + 0)%Q /\
            exists m g, Event.kind ev = Initialize (PGroup m) /\
                        store st !! m = Some g /\ (arrival_time g <= now st)%Q) spawns /\
  Event.priority final = NORMAL /\ (now st <= Event.time final)%Q /\
  (length spawns <= length (store st) - k)%nat /\
  ((Event.kind final = ProcessEnd PArrival None /\ arrival_next st' = arrival_next st) \/
   (Event.kind final = Timeout PArrival /\
    arrival_next st' = (k + length spawns)%nat /\
    exists g, store st !! (k + length spawns)%nat = Some g /\
              (arrival_time g <= Event.time final)%Q)).

(** What the callbacks of an event of weight [w] achieve, from the state
    [st] in which they start to the state [st'] in which they end. *)
Definition advances (w : nat) st st' : Prop :=
  Inv st' /\
  (history_ok st -> history_ok st') /\
  (Live st -> service_ok cfg -> (0 < sample_interval cfg)%Q -> Live st') /\
  ((0 < sample_interval cfg)%Q -> (potential st' < potential st + w)%nat).
End Invariants.

(** One check-in counter whose service lasts 100000 seconds. *)
Definition slow_counter_config : SimulationConfig.t :=
  config_with (3 # 10) (5 # 10) (7 # 10) 8 1 100000 0 600 (Some 42).

(** A state of the generator of [random] from which [create_group] makes
    one group of four that checks in at the counter. *)
Definition counter_tape : Tape := [9 # 10; 9 # 10; 9 # 10; 9 # 10; 9 # 10]%Q.

(** The defaults, seeded, sampled every ten minutes, with one check-in
    kiosk. *)
Definition one_kiosk_config : SimulationConfig.t :=
  config_with (3 # 10) (5 # 10) (7 # 10) 1 6 180 40 600 (Some 42).

(** A state of the generator of [random] from which [create_group] makes
    three travellers on their own: one who checks in at the kiosk and
    drops baggage at the drop point, one who checks in at the kiosk
    without baggage, and one who checked in online and drops baggage at
    the counter. *)
Definition stage_tape : Tape :=
  [1 # 10; 5 # 10; 1 # 10; 9 # 10; 1 # 10; 5 # 10; 9 # 10]%Q.

(* ---------------------------------------------------------------- *)
(** ** The rest of src/models/passenger.py *)

(** [PassengerGroup.checkin_wait_time] *)
Definition checkin_wait_time (g : PassengerGroup) : option Q :=
  match checkin_type g with
  | CheckinType.ONLINE => Some 0%Q
  | _ =>
      match checkin_queue_enter g, checkin_start g with
      | Some enter, Some start => Some (start - enter)%Q
      | _, _ => None
      end
  end.

(** [PassengerGroup.baggage_counter_wait_time] *)
Definition baggage_counter_wait_time (g : PassengerGroup) : option Q :=
  match baggage_counter_queue_enter g, baggage_counter_start g with
  | Some enter, Some start => Some (start - enter)%Q
  | _, _ => None
  end.

(** [PassengerGroup.tag_wait_time] *)
Definition tag_wait_time (g : PassengerGroup) : option Q :=
  match tag_queue_enter g, tag_start g with
  | Some enter, Some start => Some (start - enter)%Q
  | _, _ => None
  end.

(** [PassengerGroup.drop_wait_time] *)
Definition drop_wait_time (g : PassengerGroup) : option Q :=
  match drop_queue_enter g, drop_start g with
  | Some enter, Some start => Some (start - enter)%Q
  | _, _ => None
  end.

(** [PassengerGroup.total_process_time]; [arrival_time] is a float, never
    [None]. *)
Definition total_process_time (g : PassengerGroup) : option Q :=
  match security_arrival g with
  | Some arrival => Some (arrival - arrival_time g)%Q
  | None => None
  end.

(* ---------------------------------------------------------------- *)
(** ** The rest of src/utils/distributions.py *)

(** [np.clip(a, lo, hi)]: [minimum(maximum(a, lo), hi)]. *)
Definition np_clip (a lo hi : Q) : Q :=
  let m := if Qltb a lo then lo else a in
  if Qltb hi m then hi else m.

Section TruncatedDensity.
(** [self.t_dist.pdf] and [self.t_dist.cdf] of the frozen
    [scipy.stats.t(df, loc, scale)]; scipy is not part of the repository. *)
Context (t_pdf t_cdf : Q -> Q).

(** [TruncatedTDistribution.pdf], on the array [x]. *)
Definition truncated_pdf (d : TruncatedTDistribution.t) (x : list Q) : list Q :=
  let cdf_upper := t_cdf (TruncatedTDistribution.upper d) in
  let cdf_lower := t_cdf (TruncatedTDistribution.lower d) in
  let norm_const := (cdf_upper - cdf_lower)%Q in
  List.map (fun xi => if TruncatedTDistribution.valid d xi
                      then (t_pdf xi / norm_const)%Q else 0%Q) x.

(** [TruncatedTDistribution.cdf], on the array [x]. *)
Definition truncated_cdf (d : TruncatedTDistribution.t) (x : list Q) : list Q :=
  let cdf_upper := t_cdf (TruncatedTDistribution.upper d) in
  let cdf_lower := t_cdf (TruncatedTDistribution.lower d) in
  let norm_const := (cdf_upper - cdf_lower)%Q in
  List.map (fun xi => np_clip ((t_cdf xi - cdf_lower) / norm_const) 0 1) x.
End TruncatedDensity.

(* ---------------------------------------------------------------- *)
(** ** Sequences of calls on the areas *)

(** A call of [AirportResources.enter_area] or [leave_area], made at the
    instant [at_]. *)
Inductive AreaOp : Type :=
| OpEnter (at_ : Q) (area_name : string) (group_id group_size : Z)
| OpLeave (at_ : Q) (area_name : string) (group_id : Z).

Definition apply_area_op (op : AreaOp) (a : AirportResources.t) : AirportResources.t :=
  match op with
  | OpEnter at_ area_name group_id group_size =>
      AirportResources.enter_area at_ area_name group_id group_size a
  | OpLeave at_ area_name group_id =>
      AirportResources.leave_area at_ area_name group_id a
  end.

Definition run_area_ops (ops : list AreaOp) (a : AirportResources.t)
    : AirportResources.t :=
  foldl (fun a op => apply_area_op op a) a ops.

(** The counts of the last record the history holds of the area [z]. *)
Definition last_recorded (z : string) (h : list AreaOccupancy.t) : option (Z * Z) :=
  (fun o => (AreaOccupancy.group_count o, AreaOccupancy.pax_count o)) <$>
  last (List.filter (fun o => bool_decide (AreaOccupancy.area_name o = z)) h).

(** The requests and releases among the operations on a station. *)
Definition snapshots_due (ops : list StationOp) : nat :=
  length (List.filter (fun op => match op with
                                 | OpRequest _ _ _ | OpRelease _ _ => true
                                 | _ => false
                                 end) ops).

(** The five areas [AirportResources.__init__] tracks. *)
Definition tracked_areas : list string :=
  ["checkin_zone"; "baggage_counter_zone"; "tag_zone"; "drop_zone"; "security_front"].

Definition area_of_op (op : AreaOp) : string :=
  match op with
  | OpEnter _ area_name _ _ | OpLeave _ area_name _ => area_name
  end.

(** The departure time, in seconds, of the groups of a slot: its midpoint. *)
Definition slot_departure (slot : DemandSlot) : Q :=
  ((start_minutes slot + end_minutes slot) / 2 * 60)%Q.

(** Smaller key first; among equal keys, smaller identifier first. *)
Definition before_by {A : Type} (key : A -> Q) (id : A -> Z) (a b : A) : Prop :=
  (key a < key b)%Q \/ ((key a == key b)%Q /\ id a < id b).

(** Earlier arrival first; among equal arrival times, smaller identifier
    first. *)
Definition arrives_before (a b : PassengerGroup) : Prop :=
  (arrival_time a < arrival_time b)%Q \/
  ((arrival_time a == arrival_time b)%Q /\ group_id a < group_id b).

(* ---------------------------------------------------------------- *)
(** ** src/io/demand_generator.py *)

(** [f"{n:02d}"] *)
Definition format_02d (n : Z) : string :=
  if bool_decide (0 <= n < 10) then "0" +:+ pretty n else pretty n.

(** The key of a slot in [slot_counts]: [f"{hour:02d}:{minute:02d}"]. *)
Definition slot_key (hour minute : Z) : string :=
  format_02d hour +:+ ":" +:+ format_02d minute.

(** The second loop of [generate_demand_from_flights], which makes the
    slots from the dictionary [slot_counts] of the flights per slot. *)
Fixpoint demand_slot_loop (fuel : nat) (slot_counts : gmap string Z)
    (pax_per_flight time_slot_minutes end_hour : Z)
    (current_hour current_minute : Z) (slots : list DemandSlot)
    : outcome (list DemandSlot) :=
  match fuel with
  | O => OutOfFuel
  | S fuel' =>
      if bool_decide (current_hour < end_hour \/
                      (current_hour = end_hour /\ current_minute = 0)) then
        let start_time := slot_key current_hour current_minute in
        let end_minute := current_minute + time_slot_minutes in
        let end_hour_slot := current_hour in
        let '(end_minute, end_hour_slot) :=
          if bool_decide (60 <= end_minute)
          then (end_minute - 60, end_hour_slot + 1)
          else (end_minute, end_hour_slot) in
        let flight_count := default 0 (slot_counts !! start_time) in
        let pax_count := flight_count * pax_per_flight in
        let start_minutes := current_hour * 60 + current_minute in
        let end_minutes := end_hour_slot * 60 + end_minute in
        let slots :=
          slots ++ [{| start_minutes := inject_Z start_minutes;
                       end_minutes := inject_Z end_minutes;
                       pax_count := pax_count |}] in
        let current_minute := current_minute + time_slot_minutes in
        let '(current_minute, current_hour) :=
          if bool_decide (60 <= current_minute)
          then (current_minute - 60, current_hour + 1)
          else (current_minute, current_hour) in
        demand_slot_loop fuel' slot_counts pax_per_flight time_slot_minutes end_hour
          current_hour current_minute slots
      else Done slots
  end.

Definition generate_demand_slots (fuel : nat) (slot_counts : gmap string Z)
    (pax_per_flight time_slot_minutes start_hour end_hour : Z)
    : outcome (list DemandSlot) :=
  demand_slot_loop fuel slot_counts pax_per_flight time_slot_minutes end_hour
    start_hour 0 [].

Section DemandFromFlights.
(** [hour, minute = map(int, time_str.split(':'))]: the two integers, or
    [None] where the [ValueError] that the loop catches is raised. *)
Context (parse_time : string -> option (Z * Z)).

(** The first loop of [generate_demand_from_flights], which counts the
    flights per slot; the floor division of the minute by a slot length of
    zero raises [ZeroDivisionError], which the loop does not catch. *)
Fixpoint count_flights (departure_times : list string) (time_slot_minutes : Z)
    (slot_counts : gmap string Z) : result (gmap string Z) :=
  match departure_times with
  | [] => ok slot_counts
  | time_str :: departure_times =>
      match parse_time time_str with
      | Some (hour, minute) =>
          if bool_decide (time_slot_minutes = 0) then raise ZeroDivisionError
          else
            let slot_minute := (minute / time_slot_minutes) * time_slot_minutes in
            let key := slot_key hour slot_minute in
            count_flights departure_times time_slot_minutes
              (<[key := default 0 (slot_counts !! key) + 1]> slot_counts)
      | None => count_flights departure_times time_slot_minutes slot_counts
      end
  end.

Definition generate_demand_from_flights (fuel : nat) (departure_times : list string)
    (pax_per_flight time_slot_minutes start_hour end_hour : Z)
    : outcome (list DemandSlot) :=
  match count_flights departure_times time_slot_minutes ∅ with
  | inl e => Raised e
  | inr slot_counts =>
      generate_demand_slots fuel slot_counts pax_per_flight time_slot_minutes
        start_hour end_hour
  end.
End DemandFromFlights.

(** The character [:]. *)
Definition colon : Ascii.ascii := Ascii.ascii_of_nat 58.

(** The pieces of [s] between the occurrences of [sep]. *)
Fixpoint split_on (sep : Ascii.ascii) (s : string) : list string :=
  match s with
  | EmptyString => [EmptyString]
  | String a s' =>
      if Ascii.eqb a sep then EmptyString :: split_on sep s'
      else match split_on sep s' with
           | [] => [String a EmptyString]
           | w :: ws => String a w :: ws
           end
  end.

Fixpoint digits_value (acc : Z) (s : string) : option Z :=
  match s with
  | EmptyString => Some acc
  | String a s' =>
      let n := Z.of_nat (Ascii.nat_of_ascii a) in
      if bool_decide (48 <= n <= 57) then digits_value (10 * acc + (n - 48)) s'
      else None
  end.

(** A reading of the departure times that are written as two runs of
    ASCII digits around one colon, which are among those [int] accepts. *)
Definition parse_plain_time (time_str : string) : option (Z * Z) :=
  match split_on colon time_str with
  | [h; m] =>
      match h, m with
      | String _ _, String _ _ =>
          match digits_value 0 h, digits_value 0 m with
          | Some hour, Some minute => Some (hour, minute)
          | _, _ => None
          end
      | _, _ => None
      end
  | _ => None
  end.

(** The slot that starts [t] minutes after midnight. *)
Definition slot_at (slot_counts : gmap string Z) (pax_per_flight time_slot_minutes t : Z)
    : DemandSlot :=
  {| start_minutes := inject_Z t;
     end_minutes := inject_Z (t + time_slot_minutes);
     pax_count := default 0 (slot_counts !! slot_key (t / 60) (t mod 60)) * pax_per_flight |}.

(* ---------------------------------------------------------------- *)
(** ** src/analysis/statistics.py *)

Module OverallStats.
Record t : Type := {
  total_groups : Z;
  total_passengers : Z;
  mean_total_time : Q;
  p95_total_time : Q;
  max_total_time : Q;
  online_count : Z;
  kiosk_count : Z;
  counter_count : Z;
  with_baggage_count : Z;
  without_baggage_count : Z;
}.
End OverallStats.

(** [sum(1 for g in groups if f g)] *)
Definition count_if (f : PassengerGroup -> bool) (groups : list PassengerGroup) : Z :=
  foldr (fun g acc => (if f g then 1 else 0) + acc) 0 groups.

(** [sum(g.group_size for g in groups)] *)
Definition sum_group_sizes (groups : list PassengerGroup) : Z :=
  foldr (fun g acc => group_size g + acc) 0 groups.

Section Statistics.
(** [np.mean], [np.percentile] and [np.max] on an array that is not
    empty; numpy is not part of the repository. *)
Context (np_mean : list Q -> Q) (np_percentile : list Q -> Q -> Q)
        (np_max : list Q -> Q).

(** [StatisticsCalculator.calculate_overall_stats] on
    [result.completed_groups]. *)
Definition calculate_overall_stats (groups : list PassengerGroup) : OverallStats.t :=
  let total_groups := Z.of_nat (length groups) in
  let total_passengers := sum_group_sizes groups in
  let total_times := omap total_process_time groups in
  let '(mean_total, p95_total, max_total) :=
    match total_times with
    | [] => (0%Q, 0%Q, 0%Q)
    | _ => (np_mean total_times, np_percentile total_times 95, np_max total_times)
    end in
  let online_count :=
    count_if (fun g => match checkin_type g with CheckinType.ONLINE => true | _ => false end)
      groups in
  let kiosk_count :=
    count_if (fun g => match checkin_type g with CheckinType.KIOSK => true | _ => false end)
      groups in
  let counter_count :=
    count_if (fun g => match checkin_type g with CheckinType.COUNTER => true | _ => false end)
      groups in
  let with_baggage := count_if has_baggage groups in
  let without_baggage := total_groups - with_baggage in
  {| OverallStats.total_groups := total_groups;
     OverallStats.total_passengers := total_passengers;
     OverallStats.mean_total_time := mean_total;
     OverallStats.p95_total_time := p95_total;
     OverallStats.max_total_time := max_total;
     OverallStats.online_count := online_count;
     OverallStats.kiosk_count := kiosk_count;
     OverallStats.counter_count := counter_count;
     OverallStats.with_baggage_count := with_baggage;
     OverallStats.without_baggage_count := without_baggage |}.
End Statistics.

(* ---------------------------------------------------------------- *)
(** ** The position sampler during a run *)

(** The events that start or resume [_position_sampler]. *)
Definition is_sampler_kind (k : EventKind) : bool :=
  match k with
  | Initialize PSampler | Timeout PSampler => true
  | _ => false
  end.

Definition is_sampler_event (ev : Event.t) : bool := is_sampler_kind (Event.kind ev).

Section SamplerInvariant.
Context {R : Type} (cfg : Setup).
Implicit Types st : Sim R.

(** Since the snapshots were [snaps] and the queue [q0], no snapshot was
    taken and no event of the sampler scheduled. *)
Definition sampler_untouched (snaps : list PositionSnapshot.t) (q0 : list Event.t) st
    : Prop :=
  position_snapshots st = snaps /\
  exists evs, queue st = q0 ++ evs /\ Forall (fun ev => is_sampler_event ev = false) evs.

(** The snapshots taken so far are those of the instants 0, [interval],
    2 * [interval], ..., all before the horizon, and the sampler waits for
    the next of these instants, unless it has failed, in which case the
    failure waits to be raised before the horizon. *)
Definition on_schedule st : Prop :=
  (forall k s, position_snapshots st !! k = Some s ->
     (PositionSnapshot.time s == inject_Z (Z.of_nat k) * sample_interval cfg)%Q /\
     (0 <= PositionSnapshot.time s)%Q /\
     (PositionSnapshot.time s < simulation_end cfg)%Q) /\
  ((exists ev, List.filter is_sampler_event (queue st) = [ev] /\
      (Event.time ev ==
       inject_Z (Z.of_nat (length (position_snapshots st))) * sample_interval cfg)%Q) \/
   (List.filter is_sampler_event (queue st) = [] /\
    exists ev e, ev ∈ queue st /\ Event.kind ev = ProcessEnd PSampler (Some e) /\
      (Event.time ev < simulation_end cfg)%Q)).
End SamplerInvariant.

(* ===================================================================== *)
(** * Properties: the random sources *)
(* ===================================================================== *)

Lemma clamp_unit_range (q : Q) : (0 <= clamp_unit q /\ clamp_unit q < 1)%Q.
Proof.
  unfold clamp_unit.
  destruct (Qle_bool 0 q) eqn:H0; [|lra].
  destruct (Qle_bool 1 q) eqn:H1; [lra|].
  apply Qle_bool_iff in H0. split; [exact H0|].
  apply Qnot_le_lt. intros Hle. apply Qle_bool_iff in Hle. congruence.
Qed.

#[export] Instance tape_numpy_laws : NumpyRandomLaws Tape.
Proof.
  constructor. intros r. cbn. unfold tape_unit.
  destruct (tape_next r). cbn. apply clamp_unit_range.
Qed.

Lemma seeded_numpy_laws (after_seed : Z -> Tape) :
  @NumpyRandomLaws Tape (seeded_numpy after_seed).
Proof.
  constructor. intros r. cbn. unfold tape_unit.
  destruct (tape_next r). cbn. apply clamp_unit_range.
Qed.

Lemma tape_below_fst (n : Z) (p : Tape) :
  fst (tape_below n p) = Qfloor (clamp_unit (fst (tape_next p)) * inject_Z n).
Proof. unfold tape_below, tape_unit. destruct (tape_next p). reflexivity. Qed.

#[export] Instance tape_py_laws : PyRandomLaws Tape.
Proof.
  constructor. intros n p Hn.
  change (py_randbelow n p) with (tape_below n p). rewrite tape_below_fst.
  destruct (clamp_unit_range (fst (tape_next p))) as [H0 H1].
  set (u := clamp_unit (fst (tape_next p))) in *.
  assert (Hn' : (0 < inject_Z n)%Q).
  { change 0%Q with (inject_Z 0). rewrite <- Zlt_Qlt. exact Hn. }
  split.
  - rewrite <- (Qfloor_Z 0). apply Qfloor_resp_le.
    change (inject_Z 0) with 0%Q. apply Qmult_le_0_compat; lra.
  - rewrite Zlt_Qlt. eapply Qle_lt_trans; [apply Qfloor_le|].
    apply Qlt_le_trans with (1 * inject_Z n)%Q;
      [apply Qmult_lt_compat_r; assumption | lra].
Qed.

(* ===================================================================== *)
(** * Properties: the truncated sampler *)
(* ===================================================================== *)

Lemma draw_n_length {R A} (draw : R -> A * R) (n : nat) (r : R) :
  length (fst (draw_n draw n r)) = n.
Proof.
  revert r. induction n as [|n IH]; intros r; simpl; [reflexivity|].
  destruct (draw r) as [x r1]. specialize (IH r1).
  destruct (draw_n draw n r1) as [xs r2]. simpl in *. congruence.
Qed.

Lemma draw_n_Forall {R A} (draw : R -> A * R) (Pr : A -> Prop) :
  (forall r, Pr (fst (draw r))) ->
  forall n r, Forall Pr (fst (draw_n draw n r)).
Proof.
  intros Hd n. induction n as [|n IH]; intros r; simpl; [constructor|].
  specialize (Hd r). destruct (draw r) as [x r1]. specialize (IH r1).
  destruct (draw_n draw n r1) as [xs r2]. simpl in *. constructor; assumption.
Qed.

Lemma draw_n_app {R A} (draw : R -> A * R) (a b : nat) (r : R) :
  draw_n draw (a + b) r =
  ((draw_n draw a r).1 ++ (draw_n draw b (draw_n draw a r).2).1,
   (draw_n draw b (draw_n draw a r).2).2).
Proof.
  revert r. induction a as [|a IH]; intros r; simpl.
  - destruct (draw_n draw b r). reflexivity.
  - destruct (draw r) as [x r1]. rewrite IH.
    destruct (draw_n draw a r1) as [xs r2]. simpl.
    destruct (draw_n draw b r2). reflexivity.
Qed.

Section SamplerFacts.
Context {R : Type} `{NumpyRandomLaws R}.
Import TruncatedTDistribution.

Lemma valid_within (d : t) (x : Q) : valid d x = true -> within d x.
Proof.
  unfold valid, within. intros Hv. apply andb_prop in Hv as [H1 H2].
  split; apply Qle_bool_iff; assumption.
Qed.

Lemma filter_valid_within (d : t) (l : list Q) :
  Forall (within d) (List.filter (valid d) l).
Proof.
  apply Forall_forall. intros x Hx. apply list_elem_of_In in Hx.
  apply List.filter_In in Hx as [_ Hx]. apply valid_within; assumption.
Qed.

Lemma np_uniform_length (low high : Q) (n : Z) (r : R) :
  length (fst (np_uniform low high n r)) = Z.to_nat n.
Proof. apply draw_n_length. Qed.

Lemma np_uniform_within (d : t) (n : Z) (r : R) :
  (lower d <= upper d)%Q ->
  Forall (within d) (fst (np_uniform (lower d) (upper d) n r)).
Proof.
  intros Hle. apply draw_n_Forall. intros r0.
  pose proof (np_random_sample_range r0) as [Hu0 Hu1].
  destruct (np_random_sample r0) as [u r1]. simpl in *.
  unfold within. split; nra.
Qed.

(** [rvs] raises on the parameters it rejects, and only on them. *)
Lemma t_rvs_raises (d : t) (n : Z) (r : R) :
  ~ sampler_usable d -> t_rvs (df d) (loc d) (scale d) n r = inl ValueError.
Proof.
  intros Hbad. unfold t_rvs.
  destruct (Qle_bool (df d) 0) eqn:E1; [reflexivity|].
  destruct (Qltb (scale d) 0) eqn:E2; [reflexivity|].
  exfalso. apply Hbad. split.
  - apply Qnot_le_lt. intros Hle. apply Qle_bool_iff in Hle. congruence.
  - unfold Qltb in E2. apply negb_false_iff in E2. apply Qle_bool_iff in E2. exact E2.
Qed.

Lemma t_rvs_ok (d : t) (n : Z) (r : R) :
  sampler_usable d ->
  exists cands r', t_rvs (df d) (loc d) (scale d) n r = inr (cands, r') /\
    length cands = Z.to_nat n.
Proof.
  intros [Hdf Hsc]. unfold t_rvs.
  destruct (Qle_bool (df d) 0) eqn:E1.
  { apply Qle_bool_iff in E1. lra. }
  destruct (Qltb (scale d) 0) eqn:E2.
  { unfold Qltb in E2. apply negb_true_iff in E2.
    apply Qle_bool_iff in Hsc. congruence. }
  simpl. destruct (Qeq_bool (scale d) 0).
  - eexists _, _. split; [reflexivity|]. apply length_replicate.
  - match goal with |- context [draw_n ?f ?k r] =>
      pose proof (draw_n_length f k r) as Hl; destruct (draw_n f k r) as [c r'] end.
    exists c, r'. split; [reflexivity | exact Hl].
Qed.

Lemma t_rvs_zero (d : t) (r : R) :
  sampler_usable d -> t_rvs (df d) (loc d) (scale d) 0 r = inr ([], r).
Proof.
  intros [Hdf Hsc]. unfold t_rvs.
  destruct (Qle_bool (df d) 0) eqn:E1.
  { apply Qle_bool_iff in E1. lra. }
  destruct (Qltb (scale d) 0) eqn:E2.
  { unfold Qltb in E2. apply negb_true_iff in E2.
    apply Qle_bool_iff in Hsc. congruence. }
  simpl. destruct (Qeq_bool (scale d) 0); reflexivity.
Qed.

(** Two batches drawn in a row are one batch of their sizes together. *)
Lemma t_rvs_app (d : t) (a b : Z) (r r1 r2 : R) (c1 c2 : list Q) :
  0 <= a -> 0 <= b ->
  t_rvs (df d) (loc d) (scale d) a r = inr (c1, r1) ->
  t_rvs (df d) (loc d) (scale d) b r1 = inr (c2, r2) ->
  t_rvs (df d) (loc d) (scale d) (a + b) r = inr (c1 ++ c2, r2).
Proof.
  intros Ha Hb. unfold t_rvs.
  destruct (Qle_bool (df d) 0 || Qltb (scale d) 0); [discriminate|].
  destruct (Qeq_bool (scale d) 0).
  - intros H1 H2. injection H1 as <- <-. injection H2 as <- <-.
    rewrite Z2Nat.inj_add by lia. rewrite replicate_add. reflexivity.
  - intros H1 H2. injection H1 as H1. injection H2 as H2.
    rewrite Z2Nat.inj_add by lia. rewrite draw_n_app, H1. simpl. rewrite H2. reflexivity.
Qed.

(** What the rejection loop returns when it returns: only accepted
    values, and it has stopped because enough were accepted or the budget
    was used up. *)
Lemma sample_loop_sound (d : t) (size : Z) (samples : list Q) (attempts : Z) (r : R) :
  forall acc att r1,
    sample_loop d size samples attempts r = inr (acc, att, r1) ->
    Forall (within d) samples ->
    Forall (within d) acc /\ (size <= len acc \/ size * 100 <= att).
Proof.
  funelim (sample_loop d size samples attempts r); intros acc att r1 Hrun Hs.
  - injection Hrun as <- <- <-. split; [exact Hs|]. unfold len in *. lia.
  - discriminate.
  - match goal with IH : forall _ _ _, _ -> _ -> _ |- _ => eapply IH; [exact Hrun|] end.
    apply Forall_app. split; [exact Hs | apply filter_valid_within].
Qed.

(** The rejection loop on parameters [rvs] accepts: it returns; the
    values it accepted are the valid ones among all the candidates drawn,
    in the order drawn; it stopped because enough were accepted or the
    budget was used up, and before its last batch neither was the case. *)
Lemma sample_loop_trace (d : t) (size : Z) (samples : list Q) (attempts : Z) (r : R) :
  sampler_usable d -> 0 <= size -> 0 <= attempts ->
  attempts < size * 100 + size * 2 ->
  forall (r0 : R) (cands0 : list Q),
    t_rvs (df d) (loc d) (scale d) attempts r0 = inr (cands0, r) ->
    samples = List.filter (valid d) cands0 ->
    exists acc att r1 cands,
      sample_loop d size samples attempts r = inr (acc, att, r1) /\
      t_rvs (df d) (loc d) (scale d) att r0 = inr (cands, r1) /\
      acc = List.filter (valid d) cands /\
      (size <= len acc \/ size * 100 <= att) /\
      att < size * 100 + size * 2 /\
      attempts <= att /\
      (att = attempts \/
       exists before,
         attempts <= before < size * 100 /\
         len (List.filter (valid d) (take (Z.to_nat before) cands)) < size /\
         att = before +
               (size - len (List.filter (valid d) (take (Z.to_nat before) cands))) * 2).
Proof.
  intros Hu. funelim (sample_loop d size samples attempts r);
    intros Hsz Ha0 Hatt r0 cands0 Hc0 Hs.
  - exists samples, attempts, r, cands0.
    split; [reflexivity|]. split; [exact Hc0|]. split; [exact Hs|].
    split; [unfold len in *; lia|]. split; [exact Hatt|]. split; [lia|]. left. reflexivity.
  - exfalso. destruct (t_rvs_ok d ((size - len samples) * 2) r Hu) as (c & r' & Hc & _).
    congruence.
  - destruct candidates as [c r']. simpl in *.
    destruct a as [Hlen Hbud].
    assert (Hlen0 : 0 <= len samples) by (unfold len; lia).
    pose proof (t_rvs_app d attempts ((size - len samples) * 2) r0 r r' cands0 c
                  Ha0 ltac:(lia) Hc0 Heq) as Happ.
    assert (Hl0 : length cands0 = Z.to_nat attempts).
    { destruct (t_rvs_ok d attempts r0 Hu) as (c' & r'' & Hc' & Hl). congruence. }
    match goal with IH : sampler_usable _ -> _ |- _ =>
      destruct (IH Hu Hsz ltac:(lia) ltac:(lia) r0 (cands0 ++ c) Happ)
        as (acc & att & r1 & cands & Hrun & Hall & Hacc & Hstop & Hb & Hle & Hlast)
    end.
    { rewrite List.filter_app, Hs. reflexivity. }
    exists acc, att, r1, cands.
    split; [exact Hrun|]. split; [exact Hall|]. split; [exact Hacc|].
    split; [exact Hstop|]. split; [exact Hb|]. split; [lia|]. right.
    destruct Hlast as [->|(before & Hbf & Hlt & Hat)].
    + exists attempts.
      assert (Hcands : cands = cands0 ++ c) by congruence.
      assert (Htake : take (Z.to_nat attempts) cands = cands0).
      { rewrite Hcands, <- Hl0. apply take_app_length. }
      rewrite Htake, <- Hs. split; [lia|]. split; [exact Hlen | reflexivity].
    + exists before. split; [lia|]. split; assumption.
Qed.
End SamplerFacts.




Section SampleOne.
Context {R : Type} `{NumpyRandomLaws R}.
Import TruncatedTDistribution.

Lemma sample_one_ok (d : t) (r : R) :
  sampler_usable d -> exists x r', sample_one d r = inr (x, r').
Proof.
  intros Hu. unfold sample_one, sample.
  destruct (sample_loop_trace d 1 [] 0 r Hu ltac:(lia) ltac:(lia) ltac:(lia) r [])
    as (acc & att & r1 & cands & Hrun & _).
  { apply t_rvs_zero. exact Hu. }
  { reflexivity. }
  rewrite Hrun. simpl. destruct (decide _); [destruct (np_uniform _ _ _ _)|];
    simpl; eexists _, _; reflexivity.
Qed.

Lemma sample_one_raises (d : t) (r : R) :
  ~ sampler_usable d -> sample_one d r = inl ValueError.
Proof.
  intros Hbad. unfold sample_one, sample. simp sample_loop.
  destruct (decide _) as [Hd|Hd]; [|unfold len in Hd; simpl in Hd; lia].
  simpl. rewrite (t_rvs_raises d _ r Hbad). reflexivity.
Qed.

Lemma sample_one_within (d : t) (r r' : R) (x : Q) :
  (lower d <= upper d)%Q -> sample_one d r = inr (x, r') -> within d x.
Proof.
  intros Hb. unfold sample_one, sample.
  destruct (sample_loop d 1 [] 0 r) as [e|[[acc att] r1]] eqn:Hrun; [discriminate|].
  destruct (sample_loop_sound d 1 [] 0 r acc att r1 Hrun ltac:(constructor))
    as [Hacc Hstop].
  simpl. unfold len in *.
  destruct (decide (Z.of_nat (length acc) < 1)) as [Hlt|Hge].
  - pose proof (np_uniform_length (lower d) (upper d) (1 - Z.of_nat (length acc)) r1) as Hl.
    pose proof (np_uniform_within d (1 - Z.of_nat (length acc)) r1 Hb) as Hw.
    destruct (np_uniform _ _ _ r1) as [fill r2]. simpl in *.
    destruct acc; [|simpl in Hlt; lia].
    destruct fill as [|y fill]; [simpl in Hl; lia|].
    intros Hx. injection Hx as <- _. simpl. exact (Forall_inv Hw).
  - destruct acc as [|y acc]; [simpl in Hge; lia|].
    intros Hx. injection Hx as <- _. simpl. exact (Forall_inv Hacc).
Qed.
End SampleOne.

(* ===================================================================== *)
(** * Properties: the generation of the arrivals *)
(* ===================================================================== *)

Section GenerationFacts.
Context {R P : Type} `{NumpyRandom R} `{PyRandomLaws P}.
Import PassengerGroupFactory.

Lemma randint_spec (a b : Z) (p : P) :
  a <= b ->
  exists k p', randint a b p = inr (k, p') /\ a <= k <= b.
Proof.
  intros Hab. unfold randint.
  destruct (decide (b + 1 - a > 0)) as [Hw|Hw]; [|lia].
  pose proof (py_randbelow_range (b + 1 - a) p ltac:(lia)) as Hr.
  destruct (py_randbelow (b + 1 - a) p) as [k p']. simpl in Hr.
  exists (a + k), p'. split; [reflexivity | lia].
Qed.

(** What [create_group] returns when the size bounds are usable. *)
Lemma create_group_spec (f : t) (arrival departure : Q) (p : P) :
  multi_min f <= multi_max f ->
  exists g p',
    create_group f arrival departure p = inr (g, bump f, p') /\
    size_allowed f g /\
    group_id g = _next_group_id f /\
    arrival_time g = arrival /\
    departure_time g = departure /\
    unstamped g.
Proof.
  intros Hmm. unfold create_group.
  destruct (py_random p) as [u p1].
  assert (Hsize : exists n p2,
    (if Qltb u (p_single f) then ok (1, p1)
     else randint (multi_min f) (multi_max f) p1) = inr (n, p2) /\
    (n = 1 \/ multi_min f <= n <= multi_max f)).
  { destruct (Qltb u (p_single f)).
    - exists 1, p1. split; [reflexivity | left; reflexivity].
    - destruct (randint_spec (multi_min f) (multi_max f) p1 Hmm) as (k & p2 & Hk & Hr).
      exists k, p2. split; [exact Hk | right; exact Hr]. }
  destruct Hsize as (n & p2 & -> & Hn). simpl.
  destruct (py_random p2) as [rand p3].
  destruct (py_random p3) as [ub p4].
  destruct (Qltb ub (p_baggage f)).
  - destruct (py_random p4) as [uc p5]. eexists _, _. split; [reflexivity|].
    unfold size_allowed, unstamped. simpl. tauto.
  - eexists _, _. split; [reflexivity|].
    unfold size_allowed, unstamped. simpl. tauto.
Qed.

Lemma total_size_app (l1 l2 : list PassengerGroup) :
  total_size (l1 ++ l2) = total_size l1 + total_size l2.
Proof. unfold total_size. induction l1 as [|g l1 IH]; simpl; lia. Qed.

Import ArrivalGenerator.

(** The loop of [generate_arrivals_for_slot]: with [remaining_pax] units of
    fuel it ends, and the groups it adds cover [remaining_pax] with an
    overshoot smaller than the largest group. *)
Lemma slot_loop_spec (fuel : nat) (slot : DemandSlot) :
  forall (remaining_pax : Z) (groups : list PassengerGroup) (g : ArrivalGenerator.t)
         (r : R) (p : P),
    1 <= multi_min (group_factory g) <= multi_max (group_factory g) ->
    sampler_usable (arrival_dist g) ->
    (Z.to_nat remaining_pax <= fuel)%nat ->
    exists added g' r' p',
      slot_loop fuel slot remaining_pax groups g r p = Done (groups ++ added, g', r', p') /\
      (remaining_pax <= 0 -> added = [] /\ g' = g /\ r' = r /\ p' = p) /\
      (0 < remaining_pax ->
       remaining_pax <= total_size added < remaining_pax + multi_max (group_factory g)) /\
      Forall (size_allowed (group_factory g)) added /\
      multi_min (group_factory g') = multi_min (group_factory g) /\
      multi_max (group_factory g') = multi_max (group_factory g).
Proof.
  induction fuel as [|fuel IH]; intros remaining_pax groups g r p Hmm Hu Hfuel.
  - simpl. destruct (decide (remaining_pax > 0)); [lia|].
    exists [], g, r, p. rewrite app_nil_r.
    repeat split; try reflexivity; try lia. constructor.
  - simpl. destruct (decide (remaining_pax > 0)) as [Hpos|Hneg].
    2:{ exists [], g, r, p. rewrite app_nil_r.
        repeat split; try reflexivity; try lia. constructor. }
    destruct (sample_one_ok (arrival_dist g) r Hu) as (x & r1 & ->).
    destruct (create_group_spec (group_factory g)
                (max0 ((start_minutes slot + end_minutes slot) / 2 - x) * 60)%Q
                ((start_minutes slot + end_minutes slot) / 2 * 60)%Q p ltac:(lia))
      as (grp & p1 & Hc & Hsz & _).
    rewrite Hc.
    destruct (IH (remaining_pax - group_size grp) (groups ++ [grp])
                (with_factory (bump (group_factory g)) g) r1 p1) as
      (added & g' & r' & p' & Hloop & Hstop & Hsum & Hall & Hmin & Hmax).
    { simpl. exact Hmm. }
    { exact Hu. }
    { destruct Hsz as [Hs|Hs]; lia. }
    simpl in Hsum, Hall, Hmin, Hmax.
    exists (grp :: added), g', r', p'.
    rewrite Hloop, <- app_assoc. simpl.
    split; [reflexivity|]. split; [lia|]. split.
    + intros _. change (total_size (grp :: added)) with (group_size grp + total_size added).
      destruct (decide (remaining_pax - group_size grp <= 0)) as [Hd|Hd].
      * destruct (Hstop Hd) as (-> & _). unfold total_size. simpl.
        destruct Hsz as [Hs|Hs]; lia.
      * specialize (Hsum ltac:(lia)). lia.
    + split; [|split; assumption].
      constructor; [exact Hsz | exact Hall].
Qed.
End GenerationFacts.

(** C6, as stated, fails: with a negative arrival scale, a slot with
    [pax_count = 3] and size bounds [2 <= 4] generates no group at all;
    the first draw of an arrival time raises. *)
Lemma slot_without_groups_on_rejected_scale :
  0 < pax_count example_slot /\
  1 <= PassengerGroupFactory.multi_min
         (ArrivalGenerator.group_factory negative_scale_generator)
    <= PassengerGroupFactory.multi_max
         (ArrivalGenerator.group_factory negative_scale_generator) /\
  ArrivalGenerator.generate_arrivals_for_slot 3 negative_scale_generator example_slot
    ([] : Tape) ([9 # 10; 1 # 2]%Q : Tape) = Raised ValueError.
Proof. split; [simpl; lia|]. split; [simpl; lia|]. vm_compute. reflexivity. Qed.

(** C6, amended.  A slot with [pax_count = P].  If [P <= 0] the slot
    contributes no group: its own loop returns the empty list and
    [generate_all_arrivals] passes over it.  If [P > 0],
    [1 <= multi_min <= multi_max] and the arrival distribution has
    parameters [rvs] accepts ([df > 0], [scale >= 0]), the loop ends
    (within [P] turns) with groups whose sizes sum to at least [P] and to
    less than [P + multi_max], every size being [1] or within
    [[multi_min, multi_max]]; these groups are what the slot adds to the
    arrivals.  If [P > 0] and [rvs] rejects the parameters, the slot
    generates no group: its first turn raises [ValueError]. *)
Theorem slot_demand_conservation
    {R P : Type} `{NumpyRandom R} `{PyRandomLaws P}
    (g : ArrivalGenerator.t) (slot : DemandSlot) (r : R) (p : P) :
  let f := ArrivalGenerator.group_factory g in
  (pax_count slot <= 0 ->
   forall fuel rest acc,
     ArrivalGenerator.generate_arrivals_for_slot fuel g slot r p = Done ([], g, r, p) /\
     ArrivalGenerator.all_slots fuel (slot :: rest) acc g r p =
     ArrivalGenerator.all_slots fuel rest acc g r p) /\
  (0 < pax_count slot ->
   1 <= PassengerGroupFactory.multi_min f <= PassengerGroupFactory.multi_max f ->
   sampler_usable (ArrivalGenerator.arrival_dist g) ->
   forall fuel, (Z.to_nat (pax_count slot) <= fuel)%nat ->
   exists groups g' r' p',
     ArrivalGenerator.generate_arrivals_for_slot fuel g slot r p =
       Done (groups, g', r', p') /\
     pax_count slot <= total_size groups /\
     total_size groups < pax_count slot + PassengerGroupFactory.multi_max f /\
     Forall (size_allowed f) groups /\
     forall rest acc,
       ArrivalGenerator.all_slots fuel (slot :: rest) acc g r p =
       ArrivalGenerator.all_slots fuel rest (acc ++ groups) g' r' p') /\
  (0 < pax_count slot ->
   ~ sampler_usable (ArrivalGenerator.arrival_dist g) ->
   forall fuel, (0 < fuel)%nat ->
     ArrivalGenerator.generate_arrivals_for_slot fuel g slot r p = Raised ValueError).
Proof.
  intros f. subst f. split; [|split].
  - intros Hle fuel rest acc. split.
    + unfold ArrivalGenerator.generate_arrivals_for_slot.
      destruct fuel; simpl; destruct (decide (pax_count slot > 0)); try lia; reflexivity.
    + simpl. destruct (decide (pax_count slot > 0)); [lia | reflexivity].
  - intros Hpos Hmm Hu fuel Hfuel.
    destruct (slot_loop_spec fuel slot (pax_count slot) [] g r p Hmm Hu Hfuel)
      as (groups & g' & r' & p' & Hloop & _ & Hsum & Hall & _).
    simpl in Hloop. specialize (Hsum Hpos).
    exists groups, g', r', p'.
    unfold ArrivalGenerator.generate_arrivals_for_slot.
    split; [exact Hloop|]. split; [lia|]. split; [lia|]. split; [exact Hall|].
    intros rest acc. simpl.
    destruct (decide (pax_count slot > 0)); [|lia].
    unfold ArrivalGenerator.generate_arrivals_for_slot. rewrite Hloop. reflexivity.
  - intros Hpos Hbad fuel Hfuel.
    unfold ArrivalGenerator.generate_arrivals_for_slot.
    destruct fuel as [|fuel]; [lia|]. simpl.
    destruct (decide (pax_count slot > 0)); [|lia].
    rewrite (sample_one_raises _ r Hbad). reflexivity.
Qed.

Lemma slot_demand_conservation_witness :
  ArrivalGenerator.generate_arrivals_for_slot 0 example_generator empty_slot
    ([] : Tape) ([] : Tape) = Done ([], example_generator, [], []) /\
  (exists groups g' r' p',
     ArrivalGenerator.generate_arrivals_for_slot 3 example_generator example_slot
       ([] : Tape) ([9 # 10; 1 # 2]%Q : Tape) = Done (groups, g', r', p') /\
     3 <= total_size groups /\ total_size groups < 3 + 4) /\
  ArrivalGenerator.generate_arrivals_for_slot 3 negative_scale_generator example_slot
    ([] : Tape) ([9 # 10; 1 # 2]%Q : Tape) = Raised ValueError.
Proof.
  split; [|split].
  - apply (slot_demand_conservation example_generator empty_slot
             ([] : Tape) ([] : Tape)); [simpl; lia | exact [] | exact []].
  - destruct (slot_demand_conservation example_generator example_slot
                ([] : Tape) ([9 # 10; 1 # 2]%Q : Tape)) as (_ & Hpos & _).
    destruct (Hpos ltac:(simpl; lia) ltac:(simpl; lia)
                ltac:(split; vm_compute; [reflexivity | discriminate])
                3%nat ltac:(simpl; lia))
      as (groups & g' & r' & p' & Hgen & Hlo & Hhi & _).
    exists groups, g', r', p'. split; [exact Hgen|]. split; [exact Hlo | exact Hhi].
  - destruct (slot_demand_conservation negative_scale_generator example_slot
                ([] : Tape) ([9 # 10; 1 # 2]%Q : Tape)) as (_ & _ & Hbad).
    apply Hbad; [simpl; lia | | lia].
    intros [_ Hsc]. vm_compute in Hsc. apply Hsc. reflexivity.
Defined.

(* ===================================================================== *)
(** * Properties: what [run] sets up, and the run without arrivals *)
(* ===================================================================== *)

Lemma monitored_init_ok (name : string) (capacity : Z) :
  0 < capacity ->
  MonitoredResource.init name capacity =
  inr {| MonitoredResource.name := name;
         MonitoredResource.capacity := capacity;
         MonitoredResource.resource :=
           {| Resource.capacity := capacity; Resource.users := [];
              Resource.queue := [] |};
         MonitoredResource.queue_history := [];
         MonitoredResource._current_queue := [] |}.
Proof.
  intros Hc. unfold MonitoredResource.init, Resource.init.
  destruct (decide (capacity <= 0)); [lia | reflexivity].
Qed.

Lemma monitored_init_raises (name : string) (capacity : Z) :
  capacity <= 0 -> MonitoredResource.init name capacity = inl ValueError.
Proof.
  intros Hc. unfold MonitoredResource.init, Resource.init.
  destruct (decide (capacity <= 0)); [reflexivity | lia].
Qed.

Lemma monitored_init_cases (name : string) (capacity : Z) :
  (capacity <= 0 /\ MonitoredResource.init name capacity = inl ValueError) \/
  (0 < capacity /\ exists m, MonitoredResource.init name capacity = inr m).
Proof.
  destruct (decide (capacity <= 0)) as [Hc|Hc].
  - left. split; [exact Hc | apply monitored_init_raises; exact Hc].
  - right. split; [lia|]. eexists. apply monitored_init_ok. lia.
Qed.

Lemma airport_init_raises (k c b g d : Z) :
  k <= 0 \/ c <= 0 \/ b <= 0 \/ g <= 0 \/ d <= 0 ->
  AirportResources.init k c b g d = inl ValueError.
Proof.
  intros Hbad. unfold AirportResources.init.
  destruct (monitored_init_cases "checkin_kiosk" k) as [[_ ->]|[Hk [mk ->]]];
    [reflexivity|]. simpl.
  destruct (monitored_init_cases "checkin_counter" c) as [[_ ->]|[Hc [mc ->]]];
    [reflexivity|]. simpl.
  destruct (monitored_init_cases "baggage_counter" b) as [[_ ->]|[Hb [mb ->]]];
    [reflexivity|]. simpl.
  destruct (monitored_init_cases "tag_kiosk" g) as [[_ ->]|[Hg [mg ->]]];
    [reflexivity|]. simpl.
  destruct (monitored_init_cases "drop_point" d) as [[_ ->]|[Hd [md ->]]];
    [reflexivity|]. lia.
Qed.

Lemma airport_init_ok (k c b g d : Z) :
  0 < k -> 0 < c -> 0 < b -> 0 < g -> 0 < d ->
  exists res, AirportResources.init k c b g d = inr res /\
    AirportResources.area_calls res = [] /\
    AirportResources.area_occupancy_history res = [] /\
    (forall s, Resource.queue (MonitoredResource.resource (AirportResources.get s res)) = []).
Proof.
  intros Hk Hc Hb Hg Hd. unfold AirportResources.init.
  rewrite !monitored_init_ok by assumption. simpl.
  eexists. split; [reflexivity|]. simpl.
  split; [reflexivity|]. split; [reflexivity|]. intros []; reflexivity.
Qed.


Lemma factory_init_raises (po pk pc pb pbc ps : Q) (lo hi : Z) :
  (float_sum3 po pk pc == 0)%Q ->
  PassengerGroupFactory.init po pk pc pb pbc ps lo hi = inl ZeroDivisionError.
Proof.
  intros He. unfold PassengerGroupFactory.init.
  apply Qeq_bool_iff in He. rewrite He. reflexivity.
Qed.

Section PrepareFacts.
Context {R : Type} `{NumpyRandom R}.
Import SimulationEngine.

Lemma seed_if_given_ok (seed : option Z) (r : R) :
  seed_usable seed -> exists r', seed_if_given seed r = inr r'.
Proof.
  destruct seed as [s|]; simpl; intros Hs; [|eexists; reflexivity].
  unfold np_random_seed. rewrite bool_decide_eq_true_2 by exact Hs.
  eexists. reflexivity.
Qed.

Lemma seed_if_given_raises (seed : option Z) (r : R) :
  ~ seed_usable seed -> seed_if_given seed r = inl ValueError.
Proof.
  destruct seed as [s|]; simpl; intros Hs; [|contradiction Hs; exact I].
  unfold np_random_seed. rewrite bool_decide_eq_false_2 by exact Hs. reflexivity.
Qed.

Lemma seed_if_given_cases (seed : option Z) (r : R) :
  seed_if_given seed r = inl ValueError \/ exists r', seed_if_given seed r = inr r'.
Proof.
  destruct seed as [s|]; simpl; [|right; eexists; reflexivity].
  unfold np_random_seed. destruct (bool_decide _); [right; eexists|left]; reflexivity.
Qed.

End PrepareFacts.

Section NoArrivals.
Context {R P : Type} `{NumpyRandom R} `{PyRandom P}.
Import SimulationEngine.


End NoArrivals.





(* ===================================================================== *)
(** * Properties: invalid configurations *)
(* ===================================================================== *)

(** C3, as stated, fails: a configuration with [p_baggage = 1.5] is
    invalid, yet the engine is constructed from it and [run] returns a
    result. *)
Lemma construction_accepts_invalid_configuration :
  invalid_config config_bad_probability /\
  SimulationEngine.init config_bad_probability ∅ None =
    inr (engine_of config_bad_probability) /\
  ~ (exists e, SimulationEngine.init config_bad_probability ∅ None = inl e) /\
  SimulationEngine.run 0 (engine_of config_bad_probability) []
    ([] : Tape) ([] : Tape) =
    Done (SimulationEngine.empty_result (engine_of config_bad_probability), [], []).
Proof.
  split.
  - left. unfold some_probability_outside_unit, outside_unit. simpl.
    right. right. right. left. right. reflexivity.
  - split; [reflexivity|]. split; [|reflexivity].
    intros [e He]. discriminate He.
Qed.

(** C3, amended.  Constructing the engine never fails and keeps the
    configuration as given.  A configuration with a non-positive station
    capacity makes [run] raise [ValueError], and one with positive
    capacities and a seed numpy accepts, whose check-in split has the
    float sum zero, makes [run] raise [ZeroDivisionError]; either is
    raised while [run] sets up its resources and its factory, before any
    arrival is generated and before the event loop is entered. *)
Theorem invalid_configuration_surfaces_in_run
    {R P : Type} `{NumpyRandom R} `{PyRandom P}
    (c : SimulationConfig.t) (nodes : gmap string (gmap string Q))
    (areas : option (gmap string (list (Q * Q)))) :
  exists self,
    SimulationEngine.init c nodes areas = inr self /\
    SimulationEngine.config self = c /\
    forall (fuel : nat) (demand_slots : list DemandSlot) (r : R) (p : P),
      (some_capacity_not_positive c ->
       SimulationEngine.prepare self r = inl ValueError /\
       SimulationEngine.run fuel self demand_slots r p = Raised ValueError) /\
      (all_capacities_positive c -> split_sums_to_zero c ->
       seed_usable (SimulationConfig.random_seed c) ->
       SimulationEngine.prepare self r = inl ZeroDivisionError /\
       SimulationEngine.run fuel self demand_slots r p = Raised ZeroDivisionError).
Proof.
  eexists. split; [reflexivity|]. split; [reflexivity|].
  intros fuel demand_slots r p. split.
  - intros Hbad.
    assert (Hprep : SimulationEngine.prepare
              {| SimulationEngine.config := c; SimulationEngine.nodes := nodes;
                 SimulationEngine.areas := default ∅ areas |} r = inl ValueError).
    { unfold SimulationEngine.prepare. simpl.
      destruct (seed_if_given_cases (SimulationConfig.random_seed c) r) as [->|[r0 ->]];
        [reflexivity|]. simpl.
      rewrite airport_init_raises by exact Hbad. reflexivity. }
    split; [exact Hprep|].
    unfold SimulationEngine.run, SimulationEngine.simulate. rewrite Hprep. reflexivity.
  - intros (Hk & Hc & Hb & Hg & Hd) Hzero Hseed.
    assert (Hprep : SimulationEngine.prepare
              {| SimulationEngine.config := c; SimulationEngine.nodes := nodes;
                 SimulationEngine.areas := default ∅ areas |} r = inl ZeroDivisionError).
    { unfold SimulationEngine.prepare. simpl.
      destruct (seed_if_given_ok _ r Hseed) as (r0 & ->). simpl.
      destruct (airport_init_ok _ _ _ _ _ Hk Hc Hb Hg Hd) as (res & -> & _).
      simpl. rewrite factory_init_raises by exact Hzero. reflexivity. }
    split; [exact Hprep|].
    unfold SimulationEngine.run, SimulationEngine.simulate. rewrite Hprep. reflexivity.
Qed.

Lemma invalid_configuration_surfaces_in_run_witness :
  SimulationEngine.init config_bad_capacity ∅ None = inr (engine_of config_bad_capacity) /\
  SimulationEngine.run 5 (engine_of config_bad_capacity) [example_slot]
    ([] : Tape) ([] : Tape) = Raised ValueError /\
  SimulationEngine.run 5 (engine_of config_bad_split) [example_slot]
    ([] : Tape) ([] : Tape) = Raised ZeroDivisionError.
Proof.
  split; [reflexivity|]. split.
  - destruct (invalid_configuration_surfaces_in_run (R:=Tape) (P:=Tape)
                config_bad_capacity ∅ None) as (self & Hinit & _ & Hrun).
    injection Hinit as <-.
    apply (Hrun 5%nat [example_slot] [] []).
    left. simpl. lia.
  - destruct (invalid_configuration_surfaces_in_run (R:=Tape) (P:=Tape)
                config_bad_split ∅ None) as (self & Hinit & _ & Hrun).
    injection Hinit as <-.
    apply (Hrun 5%nat [example_slot] [] []).
    + unfold all_capacities_positive. simpl. lia.
    + vm_compute. reflexivity.
    + simpl. lia.
Defined.

(** The decimal fractions [-0.7], [0.5] and [0.2] sum to zero, the doubles
    they denote do not: the factory is built, and the run goes on.  A
    seed numpy rejects makes [run] raise before anything else. *)
Example decimal_split_does_not_cancel :
  ~ split_sums_to_zero config_decimal_split /\
  (exists res gen r1,
     SimulationEngine.prepare (engine_of config_decimal_split) ([] : Tape) =
       inr (res, gen, r1)) /\
  SimulationEngine.run 5 (engine_of config_bad_seed) [example_slot]
    ([] : Tape) ([] : Tape) = Raised ValueError.
Proof.
  split; [intros Hz; vm_compute in Hz; discriminate|].
  split; [eexists _, _, _; vm_compute; reflexivity | reflexivity].
Qed.

(* ===================================================================== *)
(** * Properties: the stations *)
(* ===================================================================== *)

Lemma granted_schedule (self : Station) (k : EventKind) (pr : Priority) (d : Q)
    (env : Environment.t) :
  granted self (Environment.schedule k pr d env) =
  granted self env ++
    match k with
    | Request s i => if decide (s = self) then [i] else []
    | _ => []
    end.
Proof.
  unfold granted, Environment.schedule. simpl. rewrite omap_app. simpl.
  destruct k; try reflexivity. destruct (decide (s = self)); reflexivity.
Qed.

Lemma trigger_put_fifo (self : Station) (r : Resource.t) (env : Environment.t) :
  granted self (Resource._trigger_put self r env).2 ++
    Resource.queue (Resource._trigger_put self r env).1 =
  granted self env ++ Resource.queue r.
Proof.
  unfold Resource._trigger_put. destruct (Resource.queue r) as [|i rest] eqn:Hq.
  - simpl. rewrite Hq. reflexivity.
  - destruct (decide (Z.of_nat (length (Resource.users r)) < Resource.capacity r)).
    + simpl. rewrite granted_schedule. destruct (decide (self = self)); [|congruence].
      rewrite <- app_assoc. reflexivity.
    + simpl. rewrite Hq. reflexivity.
Qed.

Lemma apply_op_fifo (self : Station) (op : StationOp)
    (m : MonitoredResource.t) (env : Environment.t) :
  granted self (apply_op self op (m, env)).2 ++
    Resource.queue (MonitoredResource.resource (apply_op self op (m, env)).1) =
  granted self env ++ Resource.queue (MonitoredResource.resource m) ++ requesters [op].
Proof.
  destruct op as [t|gid gs i| i gid|]; simpl.
  - rewrite app_nil_r. reflexivity.
  - unfold MonitoredResource.request, Resource.request.
    match goal with |- context [Resource._trigger_put self ?r ?e] =>
      pose proof (trigger_put_fifo self r e) as Hfifo;
      destruct (Resource._trigger_put self r e) as [r' env'] end.
    simpl in *. exact Hfifo.
  - unfold MonitoredResource.release, Resource.release. simpl.
    rewrite granted_schedule, !app_nil_r. reflexivity.
  - pose proof (trigger_put_fifo self (MonitoredResource.resource m) env) as Hfifo.
    destruct (Resource._trigger_put self (MonitoredResource.resource m) env) as [r' env'].
    simpl in *. rewrite app_nil_r. exact Hfifo.
Qed.

Lemma run_ops_fifo (self : Station) (ops : list StationOp) :
  forall (m : MonitoredResource.t) (env : Environment.t),
    granted self (run_ops self ops (m, env)).2 ++
      Resource.queue (MonitoredResource.resource (run_ops self ops (m, env)).1) =
    granted self env ++ Resource.queue (MonitoredResource.resource m) ++ requesters ops.
Proof.
  induction ops as [|op ops IH]; intros m env.
  - simpl. rewrite app_nil_r. reflexivity.
  - change (run_ops self (op :: ops) (m, env))
      with (run_ops self ops (apply_op self op (m, env))).
    pose proof (apply_op_fifo self op m env) as Hop.
    destruct (apply_op self op (m, env)) as [m1 env1]. simpl in Hop.
    rewrite IH. rewrite app_assoc, Hop, <- !app_assoc.
    assert (Hreq : requesters (op :: ops) = requesters [op] ++ requesters ops)
      by (unfold requesters; apply (omap_app _ [op] ops)).
    rewrite Hreq. reflexivity.
Qed.

(** C5.  At a station of any capacity, after any sequence of requests,
    releases, processed releases and clock moves, the requests granted so
    far, in the order of their grants, followed by the requests still
    waiting, in the order of the queue, are the requests in the order they
    were filed: grants follow the order of arrival, whatever the group
    sizes and the instants of the requests. *)
Theorem grants_follow_request_order
    (self : Station) (name : string) (capacity : Z) (m0 : MonitoredResource.t)
    (ops : list StationOp) :
  MonitoredResource.init name capacity = inr m0 ->
  granted self (run_ops self ops (m0, Environment.init)).2 ++
    Resource.queue
      (MonitoredResource.resource (run_ops self ops (m0, Environment.init)).1) =
  requesters ops.
Proof.
  intros Hinit. rewrite run_ops_fifo.
  assert (Hq : Resource.queue (MonitoredResource.resource m0) = []).
  { destruct (monitored_init_cases name capacity) as [[_ Hr]|[Hc _]].
    - congruence.
    - rewrite monitored_init_ok in Hinit by exact Hc. injection Hinit as <-. reflexivity. }
  rewrite Hq. reflexivity.
Qed.

Lemma grants_follow_request_order_witness :
  granted CheckinKiosk
    (run_ops CheckinKiosk
       [OpAt 0; OpRequest 0 4 0; OpAt 1; OpRequest 1 1 1; OpAt 2; OpRequest 2 2 2;
        OpAt 10; OpRelease 0 0; OpReleased; OpAt 20; OpRelease 1 1; OpReleased]
       (single_server "checkin_kiosk", Environment.init)).2 ++
  Resource.queue
    (MonitoredResource.resource
       (run_ops CheckinKiosk
          [OpAt 0; OpRequest 0 4 0; OpAt 1; OpRequest 1 1 1; OpAt 2; OpRequest 2 2 2;
           OpAt 10; OpRelease 0 0; OpReleased; OpAt 20; OpRelease 1 1; OpReleased]
          (single_server "checkin_kiosk", Environment.init)).1) =
  [0; 1; 2]%nat.
Proof.
  apply (grants_follow_request_order CheckinKiosk "checkin_kiosk" 1
           (single_server "checkin_kiosk")
           [OpAt 0; OpRequest 0 4 0; OpAt 1; OpRequest 1 1 1; OpAt 2; OpRequest 2 2 2;
            OpAt 10; OpRelease 0 0; OpReleased; OpAt 20; OpRelease 1 1; OpReleased]).
  reflexivity.
Defined.

(** With one server, the three requests of the witness above are granted
    at the instants 0, 10 and 20, in the order they were filed. *)
Example single_server_grants :
  List.map (fun ev => (Event.kind ev, Event.time ev))
    (List.filter
       (fun ev => match Event.kind ev with Request _ _ => true | _ => false end)
       (Environment._queue
          (run_ops CheckinKiosk
             [OpAt 0; OpRequest 0 4 0; OpAt 1; OpRequest 1 1 1; OpAt 2; OpRequest 2 2 2;
              OpAt 10; OpRelease 0 0; OpReleased; OpAt 20; OpRelease 1 1; OpReleased]
             (single_server "checkin_kiosk", Environment.init)).2)) =
  [(Request CheckinKiosk 0, 0 + 0); (Request CheckinKiosk 1, 10 + 0);
   (Request CheckinKiosk 2, 20 + 0)]%Q.
Proof. reflexivity. Qed.

(** C2 on the code.  One server; a group of four is in service and a
    group of one waits.  When a third group files its request, the
    snapshot counts one waiting request and reports four waiting
    passengers: the size of the group in service, the first entry of
    [_current_queue], not the size of the group that waits. *)
Lemma snapshot_sums_the_group_in_service :
  let before :=
    run_ops CheckinKiosk [OpRequest 0 4 0; OpRequest 1 1 1]
      (single_server "checkin_kiosk", Environment.init) in
  let after := apply_op CheckinKiosk (OpRequest 2 2 2) before in
  Resource.users (MonitoredResource.resource before.1) = [0%nat] /\
  Resource.queue (MonitoredResource.resource before.1) = [1%nat] /\
  MonitoredResource._current_queue before.1 = [(0, 4); (1, 1)] /\
  last (MonitoredResource.queue_history after.1) =
    Some {| QueueSnapshot.time := 0; QueueSnapshot.queue_length := 1;
            QueueSnapshot.queue_pax_count := 4; QueueSnapshot.in_service := 1 |} /\
  Resource.queue (MonitoredResource.resource after.1) = [1; 2]%nat.
Proof. cbv zeta. repeat split; reflexivity. Qed.

(* ===================================================================== *)
(** * Properties: replay *)
(* ===================================================================== *)

(** C1 on the code.  The same engine (seed 42) is run twice in a row on
    the same slot.  numpy is seeded again by the second call, the generator
    of [random] is not: the first call completes three single travellers
    who checked in online, the second one group of four at the counter. *)
Lemma seeded_replay_differs :
  exists first second,
    run_twice 100 (engine_of replay_config) [example_slot] ([] : Tape) replay_tape =
      Done (first, second) /\
    List.map outline (SimulationResult.completed_groups first) =
      [(0, 1, CheckinType.ONLINE, None, None, Some (9630 # 2)%Q);
       (1, 1, CheckinType.ONLINE, None, None, Some (9630 # 2)%Q);
       (2, 1, CheckinType.ONLINE, None, None, Some (9630 # 2)%Q)] /\
    List.map outline (SimulationResult.completed_groups second) =
      [(0, 4, CheckinType.COUNTER, Some (9600 # 2)%Q, Some (9960 # 2)%Q,
        Some (9980 # 2)%Q)] /\
    SimulationResult.completed_groups first <> SimulationResult.completed_groups second.
Proof.
  eexists _, _. split; [vm_compute; reflexivity|].
  split; [reflexivity|]. split; [reflexivity|]. discriminate.
Qed.

(* ===================================================================== *)
(** * Properties: the event loop *)
(* ===================================================================== *)

(** ** The order of the events *)

Lemma ltb_spec (a b : Event.t) :
  Event.ltb a b = true <->
  (Event.time a < Event.time b)%Q \/
  ((Event.time a == Event.time b)%Q /\
   (Event.priority_rank (Event.priority a) < Event.priority_rank (Event.priority b) \/
    (Event.priority_rank (Event.priority a) = Event.priority_rank (Event.priority b) /\
     (Event.eid a < Event.eid b)%nat))).
Proof.
  unfold Event.ltb.
  destruct (Qcompare_spec (Event.time a) (Event.time b)) as [He|Hl|Hg].
  - destruct (decide (Event.priority_rank (Event.priority a) <
                      Event.priority_rank (Event.priority b))) as [Hp|Hp].
    + split; [intros _; right; split; [exact He | left; exact Hp] | reflexivity].
    + destruct (decide (Event.priority_rank (Event.priority a) =
                        Event.priority_rank (Event.priority b))) as [Hq|Hq].
      * rewrite bool_decide_eq_true. split.
        -- intros Hlt. right. split; [exact He|]. right. split; assumption.
        -- intros [Hlt|[_ [Hlt|[_ Hlt]]]]; [lra | lia | exact Hlt].
      * split; [discriminate|]. intros [Hlt|[_ [Hlt|[Hlt _]]]]; [lra | lia | lia].
  - split; [intros _; left; exact Hl | reflexivity].
  - split; [discriminate|]. intros [Hlt|[Hlt _]]; lra.
Qed.

Lemma ltb_false_spec (a b : Event.t) :
  Event.ltb a b = false <->
  (Event.time b < Event.time a)%Q \/
  ((Event.time a == Event.time b)%Q /\
   (Event.priority_rank (Event.priority b) < Event.priority_rank (Event.priority a) \/
    (Event.priority_rank (Event.priority a) = Event.priority_rank (Event.priority b) /\
     (Event.eid b <= Event.eid a)%nat))).
Proof.
  rewrite <- not_true_iff_false, ltb_spec. split.
  - intros Hn.
    destruct (Qcompare_spec (Event.time a) (Event.time b)) as [He|Hl|Hg].
    + right. split; [exact He|].
      destruct (decide (Event.priority_rank (Event.priority b) <
                        Event.priority_rank (Event.priority a))) as [Hp|Hp];
        [left; exact Hp|].
      right. split.
      * destruct (decide (Event.priority_rank (Event.priority a) =
                          Event.priority_rank (Event.priority b))); [assumption|].
        exfalso. apply Hn. right. split; [exact He|]. left. lia.
      * destruct (decide (Event.eid b <= Event.eid a)%nat); [assumption|].
        exfalso. apply Hn. right. split; [exact He|].
        destruct (decide (Event.priority_rank (Event.priority a) =
                          Event.priority_rank (Event.priority b))); [right | left]; lia.
    + exfalso. apply Hn. left. exact Hl.
    + left. exact Hg.
  - intros [Hg|[He [Hp|[Hp Hi]]]] [Hl|[He' [Hq|[Hq Hj]]]]; try lra; lia.
Qed.

Lemma key_le_refl (a : Event.t) : key_le a a.
Proof. unfold key_le. apply ltb_false_spec. right. split; [lra|]. right. split; lia. Qed.

Lemma key_le_time (a b : Event.t) : key_le a b -> (Event.time a <= Event.time b)%Q.
Proof. unfold key_le. rewrite ltb_false_spec. intros [H|[H _]]; lra. Qed.

Lemma key_le_trans (a b c : Event.t) : key_le a b -> key_le b c -> key_le a c.
Proof.
  unfold key_le. rewrite !ltb_false_spec.
  intros [H1|[H1 [H1'|[H1' H1'']]]] [H2|[H2 [H2'|[H2' H2'']]]];
    first [left; lra | right; split; [lra|]; first [left; lia | right; split; lia]].
Qed.

Lemma ltb_key_le (a b : Event.t) : Event.ltb a b = true -> key_le a b.
Proof.
  unfold key_le. rewrite ltb_spec, ltb_false_spec.
  intros [H1|[H1 [H1'|[H1' H1'']]]];
    first [left; lra | right; split; [lra|]; first [left; lia | right; split; lia]].
Qed.

Lemma pop_least_spec (l : list Event.t) :
  forall e m rest,
    Environment.pop_least e l = (m, rest) ->
    key_le m e /\ Forall (key_le m) rest /\ m :: rest ≡ₚ e :: l.
Proof.
  induction l as [|x l IH]; intros e m rest Hpop; simpl in Hpop.
  - injection Hpop as <- <-. split; [apply key_le_refl|]. split; [constructor | reflexivity].
  - destruct (Event.ltb x e) eqn:Hx.
    + destruct (Environment.pop_least x l) as [m' r'] eqn:Hrec.
      injection Hpop as <- <-.
      destruct (IH _ _ _ Hrec) as (Hmx & Hall & Hperm).
      assert (Hme : key_le m' e) by (eapply key_le_trans; [exact Hmx | apply ltb_key_le; exact Hx]).
      split; [exact Hme|]. split; [constructor; assumption|].
      etransitivity; [apply perm_swap|]. apply perm_skip. exact Hperm.
    + destruct (Environment.pop_least e l) as [m' r'] eqn:Hrec.
      injection Hpop as <- <-.
      destruct (IH _ _ _ Hrec) as (Hme & Hall & Hperm).
      split; [exact Hme|]. split.
      * constructor; [|exact Hall]. eapply key_le_trans; [exact Hme | exact Hx].
      * etransitivity; [apply perm_swap|]. etransitivity; [apply perm_skip; exact Hperm|]. apply perm_swap.
Qed.

Lemma heappop_spec (q : list Event.t) (m : Event.t) (rest : list Event.t) :
  Environment.heappop q = Some (m, rest) ->
  Forall (key_le m) rest /\ m :: rest ≡ₚ q.
Proof.
  destruct q as [|e l]; simpl; [discriminate|]. intros Hpop. injection Hpop as Hpop.
  destruct (pop_least_spec l e m rest Hpop) as (_ & Hall & Hperm). split; assumption.
Qed.

Ltac stations H :=
  pose proof (H CheckinKiosk); pose proof (H BaggageCounter);
  pose proof (H TagKiosk); pose proof (H DropPoint); clear H.

Ltac stamp_crush :=
  unfold stamps_ok, stamps_le, stage_ordered, untouched, stamp_le in *;
  repeat match goal with
         | H : _ /\ _ |- _ => destruct H
         | H : forall s : Station, _ |- _ => stations H
         end;
  cbn in *;
  repeat match goal with
         | H : _ /\ _ |- _ => destruct H
         | H : is_Some _ |- _ => destruct H
         end;
  repeat match goal with
         | |- forall s : Station, _ => intros []
         | |- _ /\ _ => split
         | |- forall _, _ => intro
         end;
  cbn in *;
  repeat match goal with
         | H : Some _ = Some _ |- _ => injection H as H; subst
         | H : ?o = Some _ , H' : forall x, ?o = Some x -> _ |- _ =>
             destruct (H' _ H) as (? & ? & ?); clear H'
         end;
  subst; try congruence; try lra; eauto using Qle_refl.

Lemma visit_stamps (s : Station) (t : Q) (g : PassengerGroup) :
  untouched s g -> later_untouched s g -> stamps_ok t g ->
  stamps_ok t (set_queue_enter s t g) /\
  pc_consistent (AwaitGrant s) (set_queue_enter s t g) /\
  security_arrival (set_queue_enter s t g) = security_arrival g.
Proof.
  intros Hu Hl Hs. destruct g. destruct s; unfold pc_consistent, later_untouched in *;
    (split; [|split; [|reflexivity]]); stamp_crush.
Qed.

Lemma service_stamps (s : Station) (t : Q) (g : PassengerGroup) :
  pc_consistent (AwaitGrant s) g -> stamps_ok t g ->
  stamps_ok t (set_start s t g) /\
  pc_consistent (InService s) (set_start s t g) /\
  security_arrival (set_start s t g) = security_arrival g.
Proof.
  intros Hp Hs. destruct g. destruct s; unfold pc_consistent, later_untouched in *;
    (split; [|split; [|reflexivity]]); stamp_crush.
Qed.

Lemma end_stamps (s : Station) (t : Q) (g : PassengerGroup) :
  pc_consistent (InService s) g -> stamps_ok t g ->
  stamps_ok t (set_end s t g) /\
  later_untouched s (set_end s t g) /\
  security_arrival (set_end s t g) = security_arrival g.
Proof.
  intros Hp Hs. destruct g. destruct s; unfold pc_consistent, later_untouched in *;
    (split; [|split; [|reflexivity]]); stamp_crush.
Qed.

Lemma security_stamps (t : Q) (g : PassengerGroup) :
  stamps_ok t g ->
  stamps_ok t (set_security_arrival (Some t) g) /\
  security_arrival (set_security_arrival (Some t) g) = Some t.
Proof.
  intros Hs. destruct g. split; [|reflexivity]. stamp_crush.
Qed.

Lemma position_stamps (x y : Q) (n : string) (t : Q) (g : PassengerGroup) :
  (stamps_ok t g -> stamps_ok t (set_position x y n g)) /\
  (forall s, untouched s g -> untouched s (set_position x y n g)) /\
  (forall s, later_untouched s g -> later_untouched s (set_position x y n g)) /\
  (forall pc, pc_consistent pc g -> pc_consistent pc (set_position x y n g)) /\
  security_arrival (set_position x y n g) = security_arrival g.
Proof.
  destruct g. split; [|split; [|split; [|split; [|reflexivity]]]].
  - intros Hs. stamp_crush.
  - intros []; exact (fun H => H).
  - intros []; exact (fun H => H).
  - intros [| |s|s| |]; try exact (fun H => H); destruct s; exact (fun H => H).
Qed.

Lemma same_group_refl (g : PassengerGroup) : same_group g g.
Proof. unfold same_group. tauto. Qed.

Lemma same_group_trans (g1 g2 g3 : PassengerGroup) :
  same_group g1 g2 -> same_group g2 g3 -> same_group g1 g3.
Proof. unfold same_group. intuition congruence. Qed.

Lemma same_set_queue_enter (s : Station) (t : Q) (g : PassengerGroup) :
  same_group g (set_queue_enter s t g).
Proof. destruct s; unfold same_group; simpl; tauto. Qed.

Lemma same_set_start (s : Station) (t : Q) (g : PassengerGroup) :
  same_group g (set_start s t g).
Proof. destruct s; unfold same_group; simpl; tauto. Qed.

Lemma same_set_end (s : Station) (t : Q) (g : PassengerGroup) :
  same_group g (set_end s t g).
Proof. destruct s; unfold same_group; simpl; tauto. Qed.

Lemma same_set_security_arrival (o : option Q) (g : PassengerGroup) :
  same_group g (set_security_arrival o g).
Proof. unfold same_group; simpl; tauto. Qed.

Lemma same_set_position (x y : Q) (n : string) (g : PassengerGroup) :
  same_group g (set_position x y n g).
Proof. unfold same_group; simpl; tauto. Qed.

Section EngineFacts.
Context {R : Type} `{NumpyRandom R} (cfg : Setup).
Implicit Types st : Sim R.

Lemma with_group_eq (i : nat) st (k : PassengerGroup -> Sim R) (g : PassengerGroup) :
  store st !! i = Some g -> with_group i st k = k g.
Proof. unfold with_group. intros ->. reflexivity. Qed.

Lemma enter_area_eq (a : string) (i : nat) st (g : PassengerGroup) :
  store st !! i = Some g ->
  enter_area a i st =
  with_resources
    (AirportResources.enter_area (now st) a (group_id g) (group_size g) (resources st)) st.
Proof. unfold enter_area, with_group. intros ->. reflexivity. Qed.

Lemma leave_area_eq (a : string) (i : nat) st (g : PassengerGroup) :
  store st !! i = Some g ->
  leave_area a i st =
  with_resources
    (AirportResources.leave_area (now st) a (group_id g) (resources st)) st.
Proof. unfold leave_area, with_group. intros ->. reflexivity. Qed.

Lemma request_eq (s : Station) (i : nat) st (g : PassengerGroup) :
  store st !! i = Some g ->
  request s i st =
  with_env
    (MonitoredResource.request s (group_id g) (group_size g) i
       (AirportResources.get s (resources st)) (env st)).2
    (with_resources
       (AirportResources.set s
          (MonitoredResource.request s (group_id g) (group_size g) i
             (AirportResources.get s (resources st)) (env st)).1
          (resources st)) st).
Proof.
  unfold request, with_group. intros ->.
  destruct (MonitoredResource.request _ _ _ _ _ _). reflexivity.
Qed.

Lemma release_eq (s : Station) (i : nat) st (g : PassengerGroup) :
  store st !! i = Some g ->
  release s i st =
  with_env
    (MonitoredResource.release s i (group_id g)
       (AirportResources.get s (resources st)) (env st)).2
    (with_resources
       (AirportResources.set s
          (MonitoredResource.release s i (group_id g)
             (AirportResources.get s (resources st)) (env st)).1
          (resources st)) st).
Proof.
  unfold release, with_group. intros ->.
  destruct (MonitoredResource.release _ _ _ _ _). reflexivity.
Qed.

Lemma trigger_put_eq (s : Station) st :
  trigger_put s st =
  with_env
    (Resource._trigger_put s
       (MonitoredResource.resource (AirportResources.get s (resources st))) (env st)).2
    (with_resources
       (AirportResources.set s
          (MonitoredResource.with_resource
             (Resource._trigger_put s
                (MonitoredResource.resource (AirportResources.get s (resources st)))
                (env st)).1
             (AirportResources.get s (resources st)))
          (resources st)) st).
Proof. unfold trigger_put. destruct (Resource._trigger_put _ _ _). reflexivity. Qed.

Ltac sim_cbn :=
  unfold now, queue, calls, history, waiting, schedule, end_process, set_pc, update_group, spawn,
    with_env, with_resources, with_store, with_pcs, with_arrival_next,
    with_completed_groups, with_position_snapshots, with_active_groups, with_np,
    Environment.schedule in *;
  cbn [store pcs env resources arrival_next completed_groups position_snapshots
       _active_groups np
       Environment.now Environment._eid Environment._queue
       fmap option_fmap option_map fst snd] in *.


(** ** The resources under a transition *)
Lemma get_set (s s' : Station) (m : MonitoredResource.t) (a : AirportResources.t) :
  AirportResources.get s' (AirportResources.set s m a) =
  if decide (s = s') then m else AirportResources.get s' a.
Proof. destruct s, s'; reflexivity. Qed.

Lemma get_enter_area (s : Station) (t : Q) (z : string) (gid gs : Z) (a : AirportResources.t) :
  AirportResources.get s (AirportResources.enter_area t z gid gs a) = AirportResources.get s a.
Proof.
  unfold AirportResources.enter_area.
  destruct (AirportResources._groups_in_area a !! z); destruct s; reflexivity.
Qed.

Lemma get_leave_area (s : Station) (t : Q) (z : string) (gid : Z) (a : AirportResources.t) :
  AirportResources.get s (AirportResources.leave_area t z gid a) = AirportResources.get s a.
Proof.
  unfold AirportResources.leave_area.
  destruct (AirportResources._groups_in_area a !! z); destruct s; reflexivity.
Qed.

Lemma calls_enter_area (t : Q) (z : string) (gid gs : Z) (a : AirportResources.t) :
  AirportResources.area_calls (AirportResources.enter_area t z gid gs a) =
  AirportResources.area_calls a ++ [Enter z gid].
Proof.
  unfold AirportResources.enter_area.
  destruct (AirportResources._groups_in_area a !! z); reflexivity.
Qed.

Lemma calls_leave_area (t : Q) (z : string) (gid : Z) (a : AirportResources.t) :
  AirportResources.area_calls (AirportResources.leave_area t z gid a) =
  AirportResources.area_calls a ++ [Leave z gid].
Proof.
  unfold AirportResources.leave_area.
  destruct (AirportResources._groups_in_area a !! z); reflexivity.
Qed.

(** What a request does to the queue of the station and to the events. *)
Lemma trigger_put_effect (self : Station) (r : Resource.t) (env : Environment.t) :
  exists evs,
    Environment._queue (Resource._trigger_put self r env).2 = Environment._queue env ++ evs /\
    Environment.now (Resource._trigger_put self r env).2 = Environment.now env /\
    (length (Resource.queue (Resource._trigger_put self r env).1) + length evs =
     length (Resource.queue r))%nat /\
    Forall (fun ev => Event.time ev = (Environment.now env + 0)%Q /\
                      Event.priority ev = NORMAL /\
                      exists j, Event.kind ev = Request self j) evs.
Proof.
  unfold Resource._trigger_put. destruct (Resource.queue r) as [|j rest] eqn:Hq.
  - exists []. simpl. rewrite Hq, app_nil_r.
    split; [reflexivity|]. split; [reflexivity|]. split; [reflexivity | constructor].
  - destruct (decide (Z.of_nat (length (Resource.users r)) < Resource.capacity r)).
    + eexists [_]. simpl. split; [reflexivity|]. split; [reflexivity|].
      split; [lia|]. constructor; [|constructor]. simpl. eauto.
    + exists []. simpl. rewrite Hq, app_nil_r.
      split; [reflexivity|]. split; [reflexivity|]. split; [simpl; lia | constructor].
Qed.

Lemma monitored_request_effect (self : Station) (gid gs : Z) (i : nat)
    (m : MonitoredResource.t) (env : Environment.t) :
  exists evs,
    Environment._queue (MonitoredResource.request self gid gs i m env).2 =
      Environment._queue env ++ evs /\
    Environment.now (MonitoredResource.request self gid gs i m env).2 = Environment.now env /\
    (length (Resource.queue
               (MonitoredResource.resource (MonitoredResource.request self gid gs i m env).1)) +
     length evs = length (Resource.queue (MonitoredResource.resource m)) + 1)%nat /\
    Forall (fun ev => Event.time ev = (Environment.now env + 0)%Q /\
                      Event.priority ev = NORMAL /\
                      exists j, Event.kind ev = Request self j) evs.
Proof.
  unfold MonitoredResource.request, Resource.request.
  match goal with |- context [Resource._trigger_put self ?r ?e] =>
    destruct (trigger_put_effect self r e) as (evs & Hq & Hn & Hl & Hall);
    destruct (Resource._trigger_put self r e) as [r' env'] end.
  simpl in *. exists evs. rewrite length_app in Hl. simpl in Hl.
  split; [exact Hq|]. split; [exact Hn|]. split; [lia | exact Hall].
Qed.

Lemma monitored_release_effect (self : Station) (i : nat) (gid : Z)
    (m : MonitoredResource.t) (env : Environment.t) :
  Environment._queue (MonitoredResource.release self i gid m env).2 =
    Environment._queue env ++
    [{| Event.time := (Environment.now env + 0)%Q; Event.priority := NORMAL;
        Event.eid := Environment._eid env; Event.kind := Release self |}] /\
  Environment.now (MonitoredResource.release self i gid m env).2 = Environment.now env /\
  Resource.queue (MonitoredResource.resource (MonitoredResource.release self i gid m env).1) =
    Resource.queue (MonitoredResource.resource m).
Proof. unfold MonitoredResource.release, Resource.release. simpl. auto. Qed.

Lemma wsum_set (s : Station) (m : MonitoredResource.t) st :
  (wsum (with_resources (AirportResources.set s m (resources st)) st) + length (waiting s st) =
   wsum st + length (Resource.queue (MonitoredResource.resource m)))%nat.
Proof. unfold wsum, waiting. destruct s; simpl; lia. Qed.

Lemma update_position_shape (n : string) (g : PassengerGroup) :
  exists x y n', _update_position cfg n g = set_position x y n' g.
Proof.
  unfold _update_position. destruct (nodes cfg !! n).
  - eexists _, _, _. reflexivity.
  - exists (current_x g), (current_y g), (current_node g). destruct g. reflexivity.
Qed.

Lemma yield_timeout_nonneg (p : ProcId) (d : Q) st :
  (0 <= d)%Q -> yield_timeout p d st = schedule (Timeout p) NORMAL d st.
Proof.
  intros Hd. unfold yield_timeout, Qltb.
  apply Qle_bool_iff in Hd. rewrite Hd. reflexivity.
Qed.

Lemma yield_timeout_cases (p : ProcId) (d : Q) st :
  yield_timeout p d st = schedule (Timeout p) NORMAL d st /\ (0 <= d)%Q \/
  yield_timeout p d st = end_process p (Some ValueError) st /\ (d < 0)%Q.
Proof.
  unfold yield_timeout, Qltb. destruct (Qle_bool 0 d) eqn:E; simpl.
  - left. split; [reflexivity|]. apply Qle_bool_iff. exact E.
  - right. split; [reflexivity|]. apply Qnot_le_lt. intros Hle.
    apply Qle_bool_iff in Hle. congruence.
Qed.


(** ** The frame of a group transition *)
Lemma alter_insert_eq {A} (f : A -> A) (l : list A) (i : nat) (x : A) :
  alter f i (<[i := x]> l) = <[i := f x]> l.
Proof.
  apply list_eq. intros j. destruct (decide (i = j)) as [<-|Hne].
  - rewrite list_lookup_alter_eq.
    destruct (decide (i < length l)%nat) as [Hlt|Hge].
    + rewrite !list_lookup_insert_eq by assumption. reflexivity.
    + rewrite !list_insert_ge by lia. rewrite lookup_ge_None_2 by lia. reflexivity.
  - rewrite list_lookup_alter_ne, !list_lookup_insert_ne by assumption. reflexivity.
Qed.

Lemma moves_lookup i st0 st g pc E C K D A ok :
  moves i st0 st g pc E C K D A ok ->
  store st !! i = Some g /\ pcs st !! i = Some pc.
Proof.
  intros (Hi & Hj & _ & _ & -> & -> & _).
  split; apply list_lookup_insert_eq; assumption.
Qed.

Lemma moves_refl i st g pc :
  store st !! i = Some g -> pcs st !! i = Some pc ->
  moves i st st g pc [] [] 0 [] (_active_groups st) True.
Proof.
  intros Hg Hpc. unfold moves.
  split; [eapply lookup_lt_Some; exact Hg|]. split; [eapply lookup_lt_Some; exact Hpc|].
  rewrite !list_insert_id by assumption. rewrite !app_nil_r.
  repeat split; try reflexivity; try constructor.
Qed.

Ltac unpack Hm :=
  destruct Hm as (Hi & Hj & Hnow & Hnext & Hstore & Hpcs & Hqueue & Hcalls & Hw & Hdone &
                  Hact & Hev & Hok).

Lemma M_update i st0 st g pc E C K D A ok (f : PassengerGroup -> PassengerGroup) :
  moves i st0 st g pc E C K D A ok ->
  moves i st0 (update_group i f st) (f g) pc E C K D A ok.
Proof.
  intros Hm. unpack Hm. unfold moves.
  split; [exact Hi|]. split; [exact Hj|].
  split; [exact Hnow|]. split; [exact Hnext|].
  split; [cbn; rewrite Hstore; apply alter_insert_eq|].
  split; [exact Hpcs|]. split; [exact Hqueue|]. split; [exact Hcalls|].
  split; [exact Hw|]. split; [exact Hdone|]. split; [exact Hact|].
  split; assumption.
Qed.

Lemma M_set_pc i st0 st g pc E C K D A ok (pc' : PC) :
  moves i st0 st g pc E C K D A ok ->
  moves i st0 (set_pc i pc' st) g pc' E C K D A ok.
Proof.
  intros Hm. unpack Hm. unfold moves.
  split; [exact Hi|]. split; [exact Hj|].
  split; [exact Hnow|]. split; [exact Hnext|].
  split; [exact Hstore|].
  split; [cbn; rewrite Hpcs; apply list_insert_insert_eq|].
  split; [exact Hqueue|]. split; [exact Hcalls|].
  split; [exact Hw|]. split; [exact Hdone|]. split; [exact Hact|].
  split; assumption.
Qed.

Lemma M_np i st0 st g pc E C K D A ok (r : R) :
  moves i st0 st g pc E C K D A ok ->
  moves i st0 (with_np r st) g pc E C K D A ok.
Proof. intros Hm. exact Hm. Qed.

Lemma M_completed i st0 st g pc E C K D A ok (j : nat) :
  moves i st0 st g pc E C K D A ok ->
  moves i st0 (with_completed_groups (completed_groups st ++ [j]) st) g pc E C K (D ++ [j]) A ok.
Proof.
  intros Hm. unpack Hm. unfold moves.
  split; [exact Hi|]. split; [exact Hj|].
  split; [exact Hnow|]. split; [exact Hnext|].
  split; [exact Hstore|]. split; [exact Hpcs|].
  split; [exact Hqueue|]. split; [exact Hcalls|].
  split; [exact Hw|]. split; [cbn; rewrite Hdone, app_assoc; reflexivity|].
  split; [exact Hact|]. split; assumption.
Qed.

Lemma M_active i st0 st g pc E C K D A ok (d : list (Z * nat)) :
  moves i st0 st g pc E C K D A ok ->
  moves i st0 (with_active_groups d st) g pc E C K D d ok.
Proof.
  intros Hm. unpack Hm. unfold moves.
  split; [exact Hi|]. split; [exact Hj|].
  split; [exact Hnow|]. split; [exact Hnext|].
  split; [exact Hstore|]. split; [exact Hpcs|].
  split; [exact Hqueue|]. split; [exact Hcalls|].
  split; [exact Hw|]. split; [exact Hdone|].
  split; [reflexivity|]. split; assumption.
Qed.

Lemma M_enter i st0 st g pc E C K D A ok (z : string) :
  moves i st0 st g pc E C K D A ok ->
  moves i st0 (enter_area z i st) g pc E (C ++ [Enter z (group_id g)]) K D A ok.
Proof.
  intros Hm. destruct (moves_lookup _ _ _ _ _ _ _ _ _ _ _ Hm) as [Hg _].
  rewrite (enter_area_eq z i st g Hg). unpack Hm. unfold moves.
  split; [exact Hi|]. split; [exact Hj|].
  split; [exact Hnow|]. split; [exact Hnext|].
  split; [exact Hstore|]. split; [exact Hpcs|]. split; [exact Hqueue|].
  split; [sim_cbn; rewrite calls_enter_area, Hcalls, app_assoc; reflexivity|].
  split; [unfold wsum in *; sim_cbn; rewrite !get_enter_area; exact Hw|].
  split; [exact Hdone|]. split; [exact Hact|]. split; assumption.
Qed.

Lemma M_leave i st0 st g pc E C K D A ok (z : string) :
  moves i st0 st g pc E C K D A ok ->
  moves i st0 (leave_area z i st) g pc E (C ++ [Leave z (group_id g)]) K D A ok.
Proof.
  intros Hm. destruct (moves_lookup _ _ _ _ _ _ _ _ _ _ _ Hm) as [Hg _].
  rewrite (leave_area_eq z i st g Hg). unpack Hm. unfold moves.
  split; [exact Hi|]. split; [exact Hj|].
  split; [exact Hnow|]. split; [exact Hnext|].
  split; [exact Hstore|]. split; [exact Hpcs|]. split; [exact Hqueue|].
  split; [sim_cbn; rewrite calls_leave_area, Hcalls, app_assoc; reflexivity|].
  split; [unfold wsum in *; sim_cbn; rewrite !get_leave_area; exact Hw|].
  split; [exact Hdone|]. split; [exact Hact|]. split; assumption.
Qed.

Lemma M_events i st0 st st' g pc E C K D A ok (evs : list Event.t) (k : nat) (ok' : Prop) :
  moves i st0 st g pc E C K D A ok ->
  store st' = store st -> pcs st' = pcs st -> arrival_next st' = arrival_next st ->
  completed_groups st' = completed_groups st -> _active_groups st' = _active_groups st ->
  calls st' = calls st ->
  now st' = now st ->
  queue st' = queue st ++ evs ->
  (wsum st' + length evs = wsum st + k)%nat ->
  Forall (group_event i (now st)) evs ->
  (ok' -> Forall no_failure evs) ->
  moves i st0 st' g pc (E ++ new_events st st') C (K + k) D A (ok /\ ok').
Proof.
  intros Hm Hs Hp Hn Hc Ha Hcl Hnw Hq Hws Hge Hnf. unpack Hm.
  assert (Hnew : new_events st st' = evs).
  { unfold new_events. rewrite Hq. apply drop_app_length. }
  rewrite Hnew. unfold moves.
  split; [exact Hi|]. split; [exact Hj|].
  split; [congruence|]. split; [congruence|].
  split; [congruence|]. split; [congruence|].
  split; [rewrite Hq, Hqueue, app_assoc; reflexivity|].
  split; [congruence|].
  split; [rewrite length_app; lia|].
  split; [congruence|]. split; [congruence|].
  split.
  - apply Forall_app. split; [exact Hev|]. rewrite <- Hnow. exact Hge.
  - intros [Ho Ho']. apply Forall_app. split; [apply Hok | apply Hnf]; assumption.
Qed.

Lemma M_request i st0 st g pc E C K D A ok (s : Station) :
  moves i st0 st g pc E C K D A ok ->
  moves i st0 (request s i st) g pc (E ++ new_events st (request s i st)) C (K + 1) D A
    (ok /\ True).
Proof.
  intros Hm. destruct (moves_lookup _ _ _ _ _ _ _ _ _ _ _ Hm) as [Hg _].
  destruct (monitored_request_effect s (group_id g) (group_size g) i
              (AirportResources.get s (resources st)) (env st))
    as (evs & Hq & Hn & Hl & Hall).
  eapply (M_events _ _ _ _ _ _ _ _ _ _ _ _ evs); try exact Hm;
    try rewrite (request_eq s i st g Hg); try reflexivity.
  - exact Hn.
  - exact Hq.
  - pose proof (wsum_set s
        (MonitoredResource.request s (group_id g) (group_size g) i
           (AirportResources.get s (resources st)) (env st)).1 st) as Hw.
    unfold wsum in *. sim_cbn. lia.
  - eapply Forall_impl; [exact Hall|]. intros ev (Ht & Hp & j & Hk).
    unfold group_event. rewrite Ht. sim_cbn. split; [lra|]. split; [exact Hp|]. eauto.
  - intros _. eapply Forall_impl; [exact Hall|]. intros ev (_ & _ & j & Hk) p e.
    rewrite Hk. discriminate.
Qed.

Lemma M_release i st0 st g pc E C K D A ok (s : Station) :
  moves i st0 st g pc E C K D A ok ->
  moves i st0 (release s i st) g pc (E ++ new_events st (release s i st)) C (K + 1) D A
    (ok /\ True).
Proof.
  intros Hm. destruct (moves_lookup _ _ _ _ _ _ _ _ _ _ _ Hm) as [Hg _].
  destruct (monitored_release_effect s i (group_id g)
              (AirportResources.get s (resources st)) (env st)) as (Hq & Hn & Hl).
  eapply (M_events _ _ _ _ _ _ _ _ _ _ _ _ [_]); try exact Hm;
    try rewrite (release_eq s i st g Hg); try reflexivity.
  all: try exact Hn.
  all: try exact Hq.
  - pose proof (wsum_set s
        (MonitoredResource.release s i (group_id g)
           (AirportResources.get s (resources st)) (env st)).1 st) as Hw.
    rewrite Hl in Hw. unfold wsum in *. sim_cbn. cbn [length]. lia.
  - constructor; [|constructor]. unfold group_event. sim_cbn. simpl.
    split; [lra|]. split; [reflexivity|]. right. left. eauto.
  - intros _. constructor; [|constructor]. intros p e. discriminate.
Qed.

Lemma M_schedule i st0 st g pc E C K D A ok (k : EventKind) (d : Q) (ok' : Prop) :
  moves i st0 st g pc E C K D A ok ->
  (0 <= d)%Q ->
  (k = Timeout (PGroup i) \/ exists o, k = ProcessEnd (PGroup i) o) ->
  (ok' -> forall p e, k <> ProcessEnd p (Some e)) ->
  moves i st0 (schedule k NORMAL d st) g pc (E ++ new_events st (schedule k NORMAL d st))
    C (K + 1) D A (ok /\ ok').
Proof.
  intros Hm Hd Hk Hnf.
  eapply (M_events _ _ _ _ _ _ _ _ _ _ _ _ [_]); try exact Hm; try reflexivity.
  - constructor; [|constructor]. unfold group_event. sim_cbn. simpl.
    split; [lra|]. split; [reflexivity|]. right. right. exact Hk.
  - intros Ho. constructor; [|constructor]. intros p e. simpl. apply Hnf. exact Ho.
Qed.

Lemma M_end i st0 st g pc E C K D A ok (o : option Exn) :
  moves i st0 st g pc E C K D A ok ->
  moves i st0 (end_process (PGroup i) o st) g pc
    (E ++ new_events st (end_process (PGroup i) o st)) C (K + 1) D A (ok /\ o = None).
Proof.
  intros Hm. apply M_schedule; [exact Hm | lra | right; eauto |].
  intros -> p e. discriminate.
Qed.

Lemma M_yield i st0 st g pc E C K D A ok (d : Q) :
  moves i st0 st g pc E C K D A ok ->
  moves i st0 (yield_timeout (PGroup i) d st) g pc
    (E ++ new_events st (yield_timeout (PGroup i) d st)) C (K + 1) D A (ok /\ (0 <= d)%Q).
Proof.
  intros Hm. destruct (yield_timeout_cases (PGroup i) d st) as [[-> Hd]|[-> Hd]].
  - apply M_schedule; [exact Hm | exact Hd | left; reflexivity |].
    intros _ p e. discriminate.
  - pose proof (M_end _ _ _ _ _ _ _ _ _ _ _ (Some ValueError) Hm) as Hm'.
    unpack Hm'. unfold moves. repeat (split; [assumption|]).
    intros [Ho Hd']. lra.
Qed.

Lemma moves_weaken i st0 st g pc E C K D A (ok ok' : Prop) :
  moves i st0 st g pc E C K D A ok -> (ok' -> ok) ->
  moves i st0 st g pc E C K D A ok'.
Proof.
  intros Hm Himp. unpack Hm. unfold moves. repeat (split; [assumption|]).
  intros Ho. apply Hok, Himp, Ho.
Qed.

Lemma moves_now i st0 st g pc E C K D A ok :
  moves i st0 st g pc E C K D A ok -> now st = now st0.
Proof. intros Hm. unpack Hm. exact Hnow. Qed.

Lemma now_enter_area (z : string) (i : nat) st : now (enter_area z i st) = now st.
Proof. unfold enter_area, with_group. destruct (store st !! i); reflexivity. Qed.

Lemma now_leave_area (z : string) (i : nat) st : now (leave_area z i st) = now st.
Proof. unfold leave_area, with_group. destruct (store st !! i); reflexivity. Qed.

Lemma now_release (s : Station) (i : nat) st : now (release s i st) = now st.
Proof.
  unfold release, with_group. destruct (store st !! i); [|reflexivity].
  unfold MonitoredResource.release, Resource.release. reflexivity.
Qed.

Lemma same_update_position (n : string) (g : PassengerGroup) :
  same_group g (_update_position cfg n g).
Proof.
  destruct (update_position_shape n g) as (x & y & n' & ->). apply same_set_position.
Qed.

Lemma update_position_stamps (n : string) (t : Q) (g : PassengerGroup) :
  (stamps_ok t g -> stamps_ok t (_update_position cfg n g)) /\
  (forall s, untouched s g -> untouched s (_update_position cfg n g)) /\
  (forall s, later_untouched s g -> later_untouched s (_update_position cfg n g)) /\
  (forall pc, pc_consistent pc g -> pc_consistent pc (_update_position cfg n g)) /\
  security_arrival (_update_position cfg n g) = security_arrival g.
Proof.
  destruct (update_position_shape n g) as (x & y & n' & ->). apply position_stamps.
Qed.

Lemma enters_app (z : string) (l1 l2 : list AreaCall) :
  enters z (l1 ++ l2) = (enters z l1 + enters z l2)%nat.
Proof. unfold enters. rewrite List.filter_app, length_app. reflexivity. Qed.

Lemma leaves_app (z : string) (l1 l2 : list AreaCall) :
  leaves z (l1 ++ l2) = (leaves z l1 + leaves z l2)%nat.
Proof. unfold leaves. rewrite List.filter_app, length_app. reflexivity. Qed.

Lemma enters_one (z a : string) (gid : Z) :
  enters z [Enter a gid] = if decide (a = z) then 1%nat else 0%nat.
Proof. unfold enters. simpl. unfold bool_decide. destruct (decide_rel eq a z), (decide (a = z)); try reflexivity; contradiction. Qed.

Lemma visit_tail i st0 st g1 pc1 E C K D A ok (s : Station) :
  moves i st0 st g1 pc1 E C K D A ok ->
  tail_spec i st0 (begin_visit cfg s i st) g1 E C K D A ok (rank (AwaitGrant s) + 1)
    (untouched s g1 /\ later_untouched s g1).
Proof.
  intros Hm. pose proof (moves_now _ _ _ _ _ _ _ _ _ _ _ Hm) as Hnow.
  unfold begin_visit. rewrite now_enter_area.
  change (now (update_group i (_update_position cfg (station_node s)) st)) with (now st).
  rewrite Hnow.
  pose proof (M_update _ _ _ _ _ _ _ _ _ _ _ (_update_position cfg (station_node s)) Hm) as H1.
  pose proof (M_enter _ _ _ _ _ _ _ _ _ _ _ (station_zone s) H1) as H2.
  pose proof (M_update _ _ _ _ _ _ _ _ _ _ _ (set_queue_enter s (now st0)) H2) as H3.
  pose proof (M_request _ _ _ _ _ _ _ _ _ _ _ s H3) as H4.
  pose proof (M_set_pc _ _ _ _ _ _ _ _ _ _ _ (AwaitGrant s) H4) as H5.
  unfold tail_spec. eexists _, _, _, _, _.
  split; [eapply moves_weaken; [exact H5 | tauto]|].
  split; [eapply same_group_trans; [apply same_update_position | apply same_set_queue_enter]|].
  split.
  { intros Hs [Hu Hl].
    destruct (update_position_stamps (station_node s) (now st0) g1) as (Hp1 & Hp2 & Hp3 & _).
    destruct (visit_stamps s (now st0) (_update_position cfg (station_node s) g1)
                (Hp2 _ Hu) (Hp3 _ Hl) (Hp1 Hs)) as (Hv1 & Hv2 & _).
    split; assumption. }
  split.
  - intros z. rewrite enters_one. unfold leaves. simpl.
    destruct (decide (station_zone s = z)); reflexivity.
  - split; [lia|]. split; discriminate.
Qed.

Lemma security_tail i st0 st g1 pc1 E C K D A ok :
  moves i st0 st g1 pc1 E C K D A ok ->
  tail_spec i st0 (begin_security cfg i st) g1 E C K D A ok 2 True.
Proof.
  intros Hm. unfold begin_security.
  pose proof (M_update _ _ _ _ _ _ _ _ _ _ _ (_update_position cfg "security_gate") Hm) as H1.
  pose proof (M_enter _ _ _ _ _ _ _ _ _ _ _ "security_front" H1) as H2.
  pose proof (M_set_pc _ _ _ _ _ _ _ _ _ _ _ SecurityDelay H2) as H3.
  pose proof (M_yield _ _ _ _ _ _ _ _ _ _ _ 10%Q H3) as H4.
  unfold tail_spec. eexists _, _, _, _, _.
  split; [eapply moves_weaken; [exact H4 | intros Ho; split; [exact Ho | lra]]|].
  split; [apply same_update_position|].
  split.
  { intros Hs _.
    destruct (update_position_stamps "security_gate" (now st0) g1) as (Hp1 & _).
    split; [exact (Hp1 Hs) | exact I]. }
  split.
  - intros z. rewrite enters_one. unfold leaves. simpl.
    destruct (decide ("security_front" = z)); reflexivity.
  - split; [simpl; lia|]. split; discriminate.
Qed.

Lemma tail_spec_weaken i st0 st' g1 E C K D A ok (b b' : nat) (pre pre' : Prop) :
  tail_spec i st0 st' g1 E C K D A ok b pre -> (b <= b')%nat -> (pre' -> pre) ->
  tail_spec i st0 st' g1 E C K D A ok b' pre'.
Proof.
  intros (g' & pc' & evs & cs & k & Hm & Hsame & Hst & Hbal & Hrk & Hn & Hf) Hb Hpre.
  exists g', pc', evs, cs, k. split; [exact Hm|]. split; [exact Hsame|].
  split; [intros Hs Hp; apply Hst; [exact Hs | apply Hpre; exact Hp]|].
  split; [exact Hbal|]. split; [lia|]. split; assumption.
Qed.

Lemma baggage_tail i st0 st g1 pc1 E C K D A ok :
  moves i st0 st g1 pc1 E C K D A ok ->
  tail_spec i st0 (begin_baggage cfg i st) g1 E C K D A ok 8
    (untouched BaggageCounter g1 /\ untouched TagKiosk g1 /\ untouched DropPoint g1).
Proof.
  intros Hm.
  destruct (moves_lookup _ _ _ _ _ _ _ _ _ _ _ Hm) as [Hg _].
  unfold begin_baggage. rewrite (with_group_eq i st _ g1 Hg).
  destruct (baggage_drop_type g1).
  - eapply tail_spec_weaken; [eapply security_tail; eassumption | lia | tauto].
  - eapply tail_spec_weaken; [eapply visit_tail; eassumption | simpl; lia |].
    simpl. tauto.
  - eapply tail_spec_weaken; [eapply visit_tail; eassumption | simpl; lia |].
    simpl. tauto.
Qed.

Lemma inside_le_one (z : string) (pc : PC) : (inside z pc <= 1)%nat.
Proof.
  destruct pc as [| |s|s| |]; simpl; try lia;
    repeat match goal with |- context [decide ?P] => destruct (decide P) end; lia.
Qed.

(** From a tail to the effect of the whole transition. *)
Lemma effect_of_tail i (g : PassengerGroup) (pc : PC) st st' g1 E C K A ok budget pre :
  tail_spec i st st' g1 E C K [] A ok budget pre ->
  same_group g g1 ->
  (group_ok (now st) pc g -> stamps_ok (now st) g1 /\ pre) ->
  (forall z, (enters z C + inside z pc)%nat = leaves z C) ->
  (K + budget <= rank pc)%nat ->
  (pc = NotStarted -> A = dict_set (group_id g) i (_active_groups st)) ->
  (pc <> NotStarted -> A = _active_groups st) ->
  (service_ok cfg -> ok) ->
  group_effect cfg i g pc st st'.
Proof.
  intros (g' & pc' & evs & cs & k & Hm & Hsame & Hst & Hbal & Hrk & Hn & Hf)
    Hsame1 Hpre HbalC Hbudget Hact1 Hact2 Hok.
  exists g', pc', (E ++ evs), (C ++ cs), (K + k)%nat, [], A, ok.
  split; [exact Hm|].
  split; [eapply same_group_trans; eassumption|].
  split.
  { intros Harr Hgo. destruct (Hpre Hgo) as [Hs1 Hp1].
    destruct (Hst Hs1 Hp1) as [Hs' Hpc'].
    split; [exact Hs'|]. split; [exact Hpc'|]. split.
    - intros _. destruct Hsame as (_ & _ & -> & _). destruct Hsame1 as (_ & _ & -> & _).
      destruct (decide (pc = NotStarted)) as [Hns|Hns]; [apply Harr; exact Hns|].
      destruct Hgo as (_ & _ & Ha & _). apply Ha. exact Hns.
    - intros Hfin. contradiction. }
  split.
  { intros z. rewrite enters_app, leaves_app, Hbal. specialize (HbalC z). lia. }
  split; [lia|]. split; [split; [exact Hn | intros Hfin; contradiction]|].
  split; [destruct pc'; try reflexivity; contradiction|].
  split; [exact Hact1|]. split; [intros Hns _; apply Hact2; exact Hns|].
  split; [intros Hfin; contradiction|].
  intros Hsv _. apply Hok. exact Hsv.
Qed.

Lemma online_tail i st0 st g1 pc1 E C K D A ok :
  moves i st0 st g1 pc1 E C K D A ok ->
  tail_spec i st0 (yield_timeout (PGroup i) 5 (set_pc i OnlineDelay st)) g1 E C K D A ok 9
    (forall s, untouched s g1).
Proof.
  intros Hm.
  pose proof (M_set_pc _ _ _ _ _ _ _ _ _ _ _ OnlineDelay Hm) as H1.
  pose proof (M_yield _ _ _ _ _ _ _ _ _ _ _ 5%Q H1) as H2.
  unfold tail_spec. exists g1. eexists _, _, [], _.
  rewrite (app_nil_r C).
  split; [eapply moves_weaken; [exact H2 | intros Ho; split; [exact Ho | lra]]|].
  split; [apply same_group_refl|].
  split; [intros Hs Hu; split; [exact Hs | exact Hu]|].
  split; [intros z; reflexivity|].
  split; [simpl; lia|]. split; discriminate.
Qed.

Lemma start_group_effect i st g :
  store st !! i = Some g -> pcs st !! i = Some NotStarted ->
  group_effect cfg i g NotStarted st (start_group cfg i st).
Proof.
  intros Hg Hpc. unfold start_group. rewrite (with_group_eq i st _ g Hg).
  pose proof (moves_refl i st g NotStarted Hg Hpc) as H0.
  pose proof (M_active _ _ _ _ _ _ _ _ _ _ _ (dict_set (group_id g) i (_active_groups st)) H0)
    as H1.
  pose proof (M_update _ _ _ _ _ _ _ _ _ _ _ (_update_position cfg "source") H1) as H2.
  assert (Hpre : group_ok (now st) NotStarted g ->
                 stamps_ok (now st) (_update_position cfg "source" g) /\
                 forall s, untouched s (_update_position cfg "source" g)).
  { intros (Hs & Hc & _).
    destruct (update_position_stamps "source" (now st) g) as (Hp1 & Hp2 & _).
    split; [exact (Hp1 Hs)|]. intros s. apply Hp2. apply Hc. }
  destruct (checkin_type g).
  - eapply effect_of_tail;
      [eapply tail_spec_weaken; [eapply online_tail; exact H2 | | exact (fun H => H)]
      | apply same_update_position | exact Hpre | | | | | ];
      simpl; try reflexivity; try lia; try tauto; try congruence.
  - eapply effect_of_tail;
      [eapply visit_tail; exact H2 | apply same_update_position | | | | | | ];
      simpl; try reflexivity; try lia; try tauto; try congruence.
    intros Hgo. destruct (Hpre Hgo) as [Hs Hu]. split; [exact Hs|].
    split; [apply Hu|]. repeat split; apply Hu.
  - eapply effect_of_tail;
      [eapply visit_tail; exact H2 | apply same_update_position | | | | | | ];
      simpl; try reflexivity; try lia; try tauto; try congruence.
    intros Hgo. destruct (Hpre Hgo) as [Hs Hu]. split; [exact Hs|].
    split; [apply Hu|]. repeat split; apply Hu.
Qed.

Lemma after_online_effect i st g :
  store st !! i = Some g -> pcs st !! i = Some OnlineDelay ->
  group_effect cfg i g OnlineDelay st (after_online cfg i st).
Proof.
  intros Hg Hpc. unfold after_online.
  pose proof (moves_refl i st g OnlineDelay Hg Hpc) as H0.
  pose proof (M_update _ _ _ _ _ _ _ _ _ _ _ (_update_position cfg "checkin_kiosk") H0) as H1.
  eapply effect_of_tail;
    [eapply baggage_tail; exact H1 | apply same_update_position | | | | | | ];
    simpl; try reflexivity; try lia; try tauto; try congruence.
  intros (Hs & Hc & _).
  destruct (update_position_stamps "checkin_kiosk" (now st) g) as (Hp1 & Hp2 & _).
  split; [exact (Hp1 Hs)|]. repeat split; apply Hp2, Hc.
Qed.

Lemma leaves_one (z a : string) (gid : Z) :
  leaves z [Leave a gid] = if decide (a = z) then 1%nat else 0%nat.
Proof.
  unfold leaves. simpl. unfold bool_decide.
  destruct (decide_rel eq a z), (decide (a = z)); try reflexivity; contradiction.
Qed.

Lemma end_service_effect (s : Station) i st g :
  store st !! i = Some g -> pcs st !! i = Some (InService s) ->
  group_effect cfg i g (InService s) st (end_service cfg s i st).
Proof.
  intros Hg Hpc. unfold end_service.
  pose proof (moves_refl i st g (InService s) Hg Hpc) as H0.
  pose proof (M_update _ _ _ _ _ _ _ _ _ _ _ (set_end s (now st)) H0) as H1.
  pose proof (M_release _ _ _ _ _ _ _ _ _ _ _ s H1) as H2.
  pose proof (M_leave _ _ _ _ _ _ _ _ _ _ _ (station_zone s) H2) as H3.
  assert (Hbal : forall z,
    (enters z ([] ++ [Leave (station_zone s) (group_id (set_end s (now st) g))]) +
     inside z (InService s))%nat =
    leaves z ([] ++ [Leave (station_zone s) (group_id (set_end s (now st) g))])).
  { intros z. simpl app. rewrite leaves_one. unfold enters. simpl.
    destruct (decide (station_zone s = z)); reflexivity. }
  assert (Hpre : group_ok (now st) (InService s) g ->
                 stamps_ok (now st) (set_end s (now st) g) /\
                 later_untouched s (set_end s (now st) g)).
  { intros (Hs & Hc & _). destruct (end_stamps s (now st) g Hc Hs) as (He1 & He2 & _).
    split; assumption. }
  destruct s.
  - eapply effect_of_tail;
      [eapply baggage_tail; exact H3 | apply same_set_end
      | intros Hgo; destruct (Hpre Hgo) as [? Hl]; split; [assumption|];
        cbn [later_untouched] in *; tauto
      | exact Hbal | | | | ];
      simpl; try reflexivity; try lia; try tauto; try congruence.
  - eapply effect_of_tail;
      [eapply baggage_tail; exact H3 | apply same_set_end
      | intros Hgo; destruct (Hpre Hgo) as [? Hl]; split; [assumption|];
        cbn [later_untouched] in *; tauto
      | exact Hbal | | | | ];
      simpl; try reflexivity; try lia; try tauto; try congruence.
  - eapply effect_of_tail;
      [eapply security_tail; exact H3 | apply same_set_end
      | intros Hgo; destruct (Hpre Hgo) as [? Hl]; split; [assumption|];
        cbn [later_untouched] in *; tauto
      | exact Hbal | | | | ];
      simpl; try reflexivity; try lia; try tauto; try congruence.
  - eapply effect_of_tail;
      [eapply visit_tail; exact H3 | apply same_set_end
      | intros Hgo; destruct (Hpre Hgo) as [? Hl]; split; [assumption|];
        cbn [later_untouched] in *; tauto
      | exact Hbal | | | | ];
      simpl; try reflexivity; try lia; try tauto; try congruence.
  - eapply effect_of_tail;
      [eapply security_tail; exact H3 | apply same_set_end
      | intros Hgo; destruct (Hpre Hgo) as [? Hl]; split; [assumption|];
        cbn [later_untouched] in *; tauto
      | exact Hbal | | | | ];
      simpl; try reflexivity; try lia; try tauto; try congruence.
Qed.

Lemma sample_one_floor (d : ServiceTimeDistribution.t) (r r' : R) (x : Q) :
  ServiceTimeDistribution.sample_one d r = inr (x, r') ->
  (ServiceTimeDistribution.min_time d <= x)%Q.
Proof.
  unfold ServiceTimeDistribution.sample_one, ServiceTimeDistribution.sample, np_normal.
  destruct (_ || _); [discriminate|]. simpl.
  destruct (np_standard_normal r) as [z r1]. simpl.
  intros Hx. injection Hx as <- _.
  unfold ServiceTimeDistribution.Qmaximum.
  destruct (Qle_bool _ _) eqn:E.
  - apply Qle_refl.
  - apply Qlt_le_weak, Qnot_le_lt. intros Hle. apply Qle_bool_iff in Hle. congruence.
Qed.

Lemma sample_one_returns (d : ServiceTimeDistribution.t) (r : R) :
  (0 <= ServiceTimeDistribution.std d)%Q ->
  exists x r', ServiceTimeDistribution.sample_one d r = inr (x, r').
Proof.
  intros Hstd.
  unfold ServiceTimeDistribution.sample_one, ServiceTimeDistribution.sample, np_normal.
  assert (E : Qltb (ServiceTimeDistribution.std d) 0 = false).
  { unfold Qltb. apply negb_false_iff, Qle_bool_iff. exact Hstd. }
  rewrite E. simpl. destruct (np_standard_normal r) as [z r1]. simpl.
  eexists _, _. reflexivity.
Qed.

Lemma begin_service_effect (s : Station) i st g :
  store st !! i = Some g -> pcs st !! i = Some (AwaitGrant s) ->
  group_effect cfg i g (AwaitGrant s) st (begin_service cfg s i st).
Proof.
  intros Hg Hpc. unfold begin_service.
  change (np (update_group i (set_start s (now st)) st)) with (np st).
  pose proof (moves_refl i st g (AwaitGrant s) Hg Hpc) as H0.
  pose proof (M_update _ _ _ _ _ _ _ _ _ _ _ (set_start s (now st)) H0) as H1.
  assert (Hrest : forall st' ok,
    moves i st st' (set_start s (now st) g) (InService s)
      ([] ++ new_events (set_pc i (InService s)
                           (update_group i (set_start s (now st)) st)) st')
      [] (0 + 1) [] (_active_groups st) ok ->
    (service_ok cfg -> ok) ->
    group_effect cfg i g (AwaitGrant s) st st').
  { intros st' ok H4 Hok.
    unfold group_effect. eexists _, _, _, [], _, [], _, _.
    split; [exact H4|].
    split; [apply same_set_start|].
    split.
    { intros _ (Hs & Hc & Ha & _).
      destruct (service_stamps s (now st) g Hc Hs) as (Hs' & Hc' & _).
      split; [exact Hs'|]. split; [exact Hc'|]. split.
      - intros _. destruct (same_set_start s (now st) g) as (_ & _ & -> & _).
        apply Ha. discriminate.
      - discriminate. }
    split; [intros z; reflexivity|].
    split; [destruct s; simpl; lia|].
    split; [split; discriminate|]. split; [reflexivity|].
    split; [discriminate|]. split; [reflexivity|]. split; [discriminate|].
    intros Hsv _. apply Hok. exact Hsv. }
  destruct (ServiceTimeDistribution.sample_one (service_times cfg s) (np st))
    as [e|[service_time r]] eqn:Hsample.
  - pose proof (M_set_pc _ _ _ _ _ _ _ _ _ _ _ (InService s) H1) as H3.
    pose proof (M_end _ _ _ _ _ _ _ _ _ _ _ (Some e) H3) as H4.
    eapply Hrest; [exact H4|]. intros Hsv. exfalso.
    destruct (sample_one_returns (service_times cfg s) (np st) (proj2 (Hsv s)))
      as (x & r' & Hx). congruence.
  - pose proof (sample_one_floor _ _ _ _ Hsample) as Hfloor.
    pose proof (M_np _ _ _ _ _ _ _ _ _ _ _ r H1) as H2.
    pose proof (M_set_pc _ _ _ _ _ _ _ _ _ _ _ (InService s) H2) as H3.
    pose proof (M_yield _ _ _ _ _ _ _ _ _ _ _ service_time H3) as H4.
    eapply Hrest; [exact H4|]. intros Hsv.
    split; [exact I|]. pose proof (proj1 (Hsv s)). lra.
Qed.

Lemma dict_del_Some (k : Z) (d d' : list (Z * nat)) :
  dict_del k d = Some d' ->
  d' = List.filter (fun kv => negb (bool_decide (fst kv = k))) d.
Proof. unfold dict_del. destruct (dict_has k d); congruence. Qed.

Lemma dict_del_None (k : Z) (d : list (Z * nat)) :
  dict_del k d = None -> dict_has k d = false.
Proof. unfold dict_del. destruct (dict_has k d); congruence. Qed.

Lemma finish_effect i st g :
  store st !! i = Some g -> pcs st !! i = Some SecurityDelay ->
  group_effect cfg i g SecurityDelay st (finish i st).
Proof.
  intros Hg Hpc. unfold finish.
  pose proof (moves_refl i st g SecurityDelay Hg Hpc) as H0.
  pose proof (M_update _ _ _ _ _ _ _ _ _ _ _ (set_security_arrival (Some (now st))) H0) as H1.
  pose proof (M_leave _ _ _ _ _ _ _ _ _ _ _ "security_front" H1) as H2.
  pose proof (M_completed _ _ _ _ _ _ _ _ _ _ _ i H2) as H3.
  pose proof (M_set_pc _ _ _ _ _ _ _ _ _ _ _ Finished H3) as H4.
  destruct (moves_lookup _ _ _ _ _ _ _ _ _ _ _ H4) as [Hg4 _].
  rewrite (with_group_eq i _ _ _ Hg4).
  assert (Hact4 : _active_groups
            (set_pc i Finished
               (with_completed_groups
                  (completed_groups
                     (leave_area "security_front" i
                        (update_group i (set_security_arrival (Some (now st))) st)) ++ [i])
                  (leave_area "security_front" i
                     (update_group i (set_security_arrival (Some (now st))) st)))) =
          _active_groups st).
  { destruct H4 as (_ & _ & _ & _ & _ & _ & _ & _ & _ & _ & Ha & _). exact Ha. }
  rewrite Hact4.
  change (group_id (set_security_arrival (Some (now st)) g)) with (group_id g).
  assert (Hgo : group_ok (now st) SecurityDelay g ->
                group_ok (now st) Finished (set_security_arrival (Some (now st)) g)).
  { intros (Hs & _ & Ha & _).
    destruct (security_stamps (now st) g Hs) as (Hs' & Hsec).
    split; [exact Hs'|]. split; [exact I|]. split.
    - intros _. apply Ha. discriminate.
    - intros _. exists (now st). split; [exact Hsec|]. apply Ha. discriminate. }
  assert (Hbal : forall z,
    (enters z ([] ++ [Leave "security_front" (group_id g)]) + inside z SecurityDelay)%nat =
    (leaves z ([] ++ [Leave "security_front" (group_id g)]) + inside z Finished)%nat).
  { intros z. simpl app. rewrite leaves_one. unfold enters. simpl.
    destruct (decide ("security_front" = z)); reflexivity. }
  destruct (dict_del (group_id g) (_active_groups st)) as [d|] eqn:Hdel.
  - pose proof (M_active _ _ _ _ _ _ _ _ _ _ _ d H4) as H5.
    pose proof (M_end _ _ _ _ _ _ _ _ _ _ _ None H5) as H6.
    unfold group_effect. eexists _, _, _, _, _, _, _, _.
    split; [exact H6|].
    split; [apply same_set_security_arrival|].
    split; [intros _; exact Hgo|].
    split; [exact Hbal|].
    split; [simpl; lia|].
    split; [split; [discriminate | reflexivity]|]. split; [reflexivity|].
    split; [discriminate|]. split; [intros _ Hn; contradiction|].
    split; [intros _ _; apply dict_del_Some; exact Hdel|].
    intros _ _. tauto.
  - pose proof (M_end _ _ _ _ _ _ _ _ _ _ _ (Some KeyError) H4) as H6.
    unfold group_effect. eexists _, _, _, _, _, _, _, _.
    split; [exact H6|].
    split; [apply same_set_security_arrival|].
    split; [intros _; exact Hgo|].
    split; [exact Hbal|].
    split; [simpl; lia|].
    split; [split; [discriminate | reflexivity]|]. split; [reflexivity|].
    split; [discriminate|]. split; [intros _ Hn; contradiction|].
    apply dict_del_None in Hdel.
    split; [intros _ Hh; congruence|].
    intros _ Hh. specialize (Hh eq_refl). congruence.
Qed.
End EngineFacts.

Lemma sum_insert {A} (f : A -> nat) (l : list A) (i : nat) (x y : A) :
  l !! i = Some x ->
  (sum_list_with f (<[i := y]> l) + f x = sum_list_with f l + f y)%nat.
Proof.
  revert i. induction l as [|a l IH]; intros [|i] Hl; simpl in *; try discriminate.
  - injection Hl as ->. lia.
  - specialize (IH i Hl). lia.
Qed.

Lemma sum_list_with_eq {A} (f g : A -> nat) (l : list A) :
  (forall x, x ∈ l -> f x = g x) -> sum_list_with f l = sum_list_with g l.
Proof.
  induction l as [|a l IH]; intros Hfg; simpl; [reflexivity|].
  rewrite (Hfg a), IH; [reflexivity | | left].
  intros x Hx. apply Hfg. right. exact Hx.
Qed.

Lemma stamp_le_mono (t t' : Q) (o : option Q) :
  (t <= t')%Q -> stamp_le t o -> stamp_le t' o.
Proof. destruct o; simpl; [lra | trivial]. Qed.

Lemma group_ok_mono (t t' : Q) (pc : PC) (g : PassengerGroup) :
  (t <= t')%Q -> group_ok t pc g -> group_ok t' pc g.
Proof.
  intros Hle ([[Hs1 Hs2] Ho] & Hc & Ha & Hf).
  split; [split; [split|exact Ho]|].
  - intros s. destruct (Hs1 s) as (a & b & c).
    repeat split; eapply stamp_le_mono; eassumption.
  - eapply stamp_le_mono; eassumption.
  - split; [exact Hc|]. split; [|exact Hf]. intros Hn. specialize (Ha Hn). lra.
Qed.

Lemma rank_zero (pc : PC) : rank pc = O -> pc = Finished.
Proof. destruct pc as [| |[]|[]| |]; simpl; first [discriminate | reflexivity]. Qed.

Lemma dict_has_set_eq (k : Z) (v : nat) (d : list (Z * nat)) :
  dict_has k (dict_set k v d) = true.
Proof.
  unfold dict_has. induction d as [|[k' v'] d IH]; simpl.
  - rewrite bool_decide_eq_true_2; reflexivity.
  - destruct (decide (k' = k)); simpl.
    + rewrite bool_decide_eq_true_2; reflexivity.
    + rewrite IH. apply orb_true_r.
Qed.

Lemma dict_has_set_other (k k' : Z) (v : nat) (d : list (Z * nat)) :
  dict_has k d = true -> dict_has k (dict_set k' v d) = true.
Proof.
  unfold dict_has. induction d as [|[k0 v0] d IH]; simpl; [discriminate|].
  intros Hh. destruct (decide (k0 = k')) as [->|Hne]; simpl.
  - apply orb_true_iff in Hh. destruct Hh as [Hh|Hh].
    + apply bool_decide_eq_true in Hh. subst k'.
      rewrite bool_decide_eq_true_2; reflexivity.
    + rewrite Hh. apply orb_true_r.
  - apply orb_true_iff in Hh. destruct Hh as [Hh|Hh].
    + rewrite Hh. reflexivity.
    + rewrite IH by exact Hh. apply orb_true_r.
Qed.

Lemma dict_has_filter (k k' : Z) (d : list (Z * nat)) :
  k <> k' -> dict_has k d = true ->
  dict_has k (List.filter (fun kv => negb (bool_decide (fst kv = k'))) d) = true.
Proof.
  intros Hne. unfold dict_has. induction d as [|[k0 v0] d IH]; simpl; [discriminate|].
  intros Hh. apply orb_true_iff in Hh. destruct Hh as [Hh|Hh].
  - apply bool_decide_eq_true in Hh. subst k0.
    rewrite bool_decide_eq_false_2 by exact Hne. simpl.
    rewrite bool_decide_eq_true_2; reflexivity.
  - destruct (bool_decide (k0 = k')); simpl; [apply IH; exact Hh|].
    rewrite IH by exact Hh. apply orb_true_r.
Qed.

Lemma Qltb_true (a b : Q) : Qltb a b = true -> (a < b)%Q.
Proof.
  unfold Qltb. intros Hb. apply negb_true_iff in Hb. apply Qnot_le_lt. intros Hle.
  apply Qle_bool_iff in Hle. congruence.
Qed.

Lemma Qltb_false (a b : Q) : Qltb a b = false -> (b <= a)%Q.
Proof.
  unfold Qltb. intros Hb. apply negb_false_iff in Hb. apply Qle_bool_iff. exact Hb.
Qed.

Lemma filter_length_perm {A} (f : A -> bool) (l l' : list A) :
  l ≡ₚ l' -> length (List.filter f l) = length (List.filter f l').
Proof.
  induction 1 as [|x l l' _ IH|x y l|l l' l'' _ IH1 _ IH2]; simpl.
  - reflexivity.
  - destruct (f x); simpl; congruence.
  - destruct (f x), (f y); reflexivity.
  - congruence.
Qed.

Lemma group_events_not_arrival (i : nat) (t : Q) (evs : list Event.t) :
  Forall (group_event i t) evs -> List.filter is_arrival_event evs = [].
Proof.
  induction 1 as [|ev evs (_ & _ & Hk) _ IH]; [reflexivity|]. simpl.
  unfold is_arrival_event at 1.
  destruct Hk as [(s & j & ->)|[(s & ->)|[->|(o & ->)]]]; exact IH.
Qed.

Section StepFacts.
Context {R : Type} `{NumpyRandom R} (cfg : Setup).
Implicit Types st : Sim R.

Ltac unpack Hm :=
  destruct Hm as (Hi & Hj & Hnow & Hnext & Hstore & Hpcs & Hqueue & Hcalls & Hw & Hdone &
                  Hact & Hev & Hok).

Lemma dispatch_group (k : EventKind) (i : nat) st :
  length (pcs st) = length (store st) ->
  k = Initialize (PGroup i) \/ k = Timeout (PGroup i) \/ (exists s, k = Request s i) ->
  dispatch cfg k st = st \/
  exists g pc, store st !! i = Some g /\ pcs st !! i = Some pc /\
    (pc = NotStarted -> k = Initialize (PGroup i)) /\
    group_effect cfg i g pc st (dispatch cfg k st).
Proof.
  intros Hlen Hk. unfold pc_of.
  destruct (pcs st !! i) as [pc|] eqn:Hpc.
  2:{ left. destruct Hk as [->|[->|[s ->]]]; simpl; unfold pc_of; rewrite Hpc; reflexivity. }
  destruct (store st !! i) as [g|] eqn:Hg.
  2:{ apply lookup_lt_Some in Hpc. apply lookup_ge_None in Hg. lia. }
  destruct Hk as [->|[->|[s ->]]]; simpl; unfold pc_of; rewrite Hpc; simpl.
  - destruct pc; try (left; reflexivity). right. exists g, NotStarted.
    split; [reflexivity|]. split; [reflexivity|]. split; [reflexivity|].
    apply start_group_effect; assumption.
  - destruct pc; try (left; reflexivity); right; eexists g, _;
      (split; [reflexivity|]); (split; [reflexivity|]); (split; [discriminate|]).
    + apply after_online_effect; assumption.
    + apply end_service_effect; assumption.
    + apply finish_effect; assumption.
  - destruct pc; try (left; reflexivity).
    destruct (decide (s = s0)) as [->|]; [|left; reflexivity].
    right. eexists g, _.
    split; [reflexivity|]. split; [reflexivity|]. split; [discriminate|].
    apply begin_service_effect; assumption.
Qed.

Lemma group_event_ok (i : nat) st (ev : Event.t) :
  group_event i (now st) ev -> event_ok cfg st ev.
Proof.
  intros (Hle & Hp & Hk). unfold event_ok.
  split; [exact Hle|].
  split; [intros Hu; destruct Hk as [(s & j & Hk)|[(s & Hk)|[Hk|(o & Hk)]]]; congruence|].
  split; [intros Hu; congruence|].
  split; [intros k g Hi; destruct Hk as [(s & j & Hk)|[(s & Hk)|[Hk|(o & Hk)]]]; congruence|].
  intros g Hi; destruct Hk as [(s & j & Hk)|[(s & Hk)|[Hk|(o & Hk)]]]; congruence.
Qed.

Lemma group_event_weight (i : nat) st (evs : list Event.t) :
  Forall (group_event i (now st)) evs -> sum_list_with (weight cfg st) evs = length evs.
Proof.
  induction 1 as [|ev evs (_ & _ & Hk) _ IH]; [reflexivity|]. simpl. rewrite IH.
  unfold weight.
  destruct Hk as [(s & j & ->)|[(s & ->)|[->|(o & ->)]]]; reflexivity.
Qed.

(** The events that wait are not affected by what a transition leaves
    alone. *)
Lemma event_ok_frame st st' (ev : Event.t) :
  event_ok cfg st ev ->
  (now st' <= Event.time ev)%Q ->
  (forall k g', store st' !! k = Some g' ->
     exists g, store st !! k = Some g /\ arrival_time g = arrival_time g') ->
  (arrival_next st' = arrival_next st \/ Event.kind ev <> Timeout PArrival) ->
  event_ok cfg st' ev.
Proof.
  intros (Ha & Hb & Hc & Hd & He) Hnow Hstore Hnext. unfold event_ok.
  split; [exact Hnow|]. split; [exact Hb|]. split; [exact Hc|]. split.
  - intros k g' Hk Hg'. destruct (Hstore k g' Hg') as (g & Hg & <-). eapply Hd; eassumption.
  - intros g' Hk Hg'. destruct Hnext as [Hn|Hn]; [|contradiction].
    rewrite Hn in Hg'. destruct (Hstore _ g' Hg') as (g & Hg & <-). apply He; assumption.
Qed.

Lemma weight_frame st st' (ev : Event.t) :
  length (store st') = length (store st) ->
  (arrival_next st' = arrival_next st \/ Event.kind ev <> Timeout PArrival) ->
  weight cfg st' ev = weight cfg st ev.
Proof.
  intros Hl Hn. unfold weight. rewrite Hl.
  destruct (Event.kind ev) as [[| |]|[| |]| | | |]; try reflexivity.
  destruct Hn as [->|Hn]; [reflexivity | contradiction].
Qed.

Lemma inv_group_effect (i : nat) (g : PassengerGroup) (pc : PC) st st' :
  Inv cfg st -> store st !! i = Some g -> pcs st !! i = Some pc ->
  (pc = NotStarted -> (arrival_time g <= now st)%Q) ->
  group_effect cfg i g pc st st' -> Inv cfg st'.
Proof.
  intros (Hlen & Hnow0 & HnowH & HqI & Hunt & HarrI & Hgrp & Hcomp & HbalI) Hg Hpc Hstart
    (g' & pc' & evs & cs & cost & done & act & ok & Hm & Hsame & Hpres & Hb & Hrk &
     [Hns Hfin] & Hd & _).
  unpack Hm. unfold Inv.
  split; [rewrite Hpcs, Hstore, !length_insert; exact Hlen|].
  split; [rewrite Hnow; exact Hnow0|].
  split; [rewrite Hnow; exact HnowH|].
  split.
  { rewrite Hqueue. apply Forall_app. split.
    - eapply Forall_impl; [exact HqI|]. intros ev Hev0. simpl in Hev0.
      eapply event_ok_frame; [exact Hev0 | rewrite Hnow; apply Hev0 | | left; exact Hnext].
      intros k g0 Hg0. rewrite Hstore in Hg0. destruct (decide (k = i)) as [->|Hne].
      + rewrite list_lookup_insert_eq in Hg0 by exact Hi. injection Hg0 as <-.
        exists g. split; [exact Hg|]. destruct Hsame as (_ & _ & -> & _). reflexivity.
      + rewrite list_lookup_insert_ne in Hg0 by congruence. exists g0. split; [exact Hg0 | reflexivity].
    - eapply Forall_impl; [exact Hev|]. intros ev Hev0. simpl in Hev0.
      apply (group_event_ok i). rewrite Hnow. exact Hev0. }
  split.
  { destruct Hunt as (ev & Hin & Hk). exists ev. split; [|exact Hk].
    rewrite Hqueue. apply elem_of_app. left. exact Hin. }
  split.
  { rewrite Hqueue, List.filter_app, (group_events_not_arrival _ _ _ Hev), app_nil_r.
    exact HarrI. }
  split.
  { intros j g0 pc0 Hg0 Hpc0. rewrite Hstore in Hg0. rewrite Hpcs in Hpc0. rewrite Hnow.
    destruct (decide (j = i)) as [->|Hne].
    - rewrite list_lookup_insert_eq in Hg0 by exact Hi.
      rewrite list_lookup_insert_eq in Hpc0 by exact Hj.
      injection Hg0 as <-. injection Hpc0 as <-.
      apply Hpres; [exact Hstart|]. eapply Hgrp; eassumption.
    - rewrite list_lookup_insert_ne in Hg0 by congruence.
      rewrite list_lookup_insert_ne in Hpc0 by congruence.
      eapply Hgrp; eassumption. }
  split.
  { intros j Hin. rewrite Hdone in Hin. apply elem_of_app in Hin. rewrite Hpcs.
    destruct (decide (j = i)) as [->|Hne].
    - rewrite list_lookup_insert_eq by exact Hj. f_equal. destruct Hin as [Hin|Hin].
      + pose proof (Hcomp i Hin) as Hf. rewrite Hpc in Hf. injection Hf as ->.
        apply rank_zero. simpl in Hrk. lia.
      + subst done. destruct pc'; first [reflexivity | apply elem_of_nil in Hin; contradiction].
    - rewrite list_lookup_insert_ne by congruence. destruct Hin as [Hin|Hin].
      + apply Hcomp. exact Hin.
      + subst done. destruct pc'; try (apply elem_of_nil in Hin; contradiction).
        apply list_elem_of_singleton in Hin. congruence. }
  intros z. rewrite Hcalls, enters_app, leaves_app, Hpcs. unfold occupants.
  pose proof (sum_insert (inside z) (pcs st) i pc pc' Hpc) as Hsum.
  specialize (Hb z). specialize (HbalI z). unfold occupants in HbalI. lia.
Qed.

Lemma live_group_effect (i : nat) (g : PassengerGroup) (pc : PC) st st' :
  Live st -> service_ok cfg -> store st !! i = Some g -> pcs st !! i = Some pc ->
  group_effect cfg i g pc st st' -> Live st'.
Proof.
  intros (Hnf & Hnd & Hin) Hsv Hg Hpc
    (g' & pc' & evs & cs & cost & done & act & ok & Hm & Hsame & Hpres & Hb & Hrk &
     [Hns Hfin] & Hd & Hact1 & Hact2 & Hact3 & Hokc).
  unpack Hm. destruct Hsame as (Hid & _).
  assert (Hpcf : pc' <> Finished -> pc <> Finished).
  { intros Hn ->. apply Hn. apply rank_zero. simpl in Hrk. lia. }
  assert (Hhas : pc' = Finished -> dict_has (group_id g) (_active_groups st) = true).
  { intros Hf. specialize (Hfin Hf). subst pc.
    apply (Hin i g SecurityDelay Hg Hpc); discriminate. }
  unfold Live. split.
  { rewrite Hqueue. apply Forall_app. split; [exact Hnf|]. apply Hok. apply Hokc; assumption. }
  split.
  { rewrite Hstore, list_fmap_insert, Hid. rewrite list_insert_id; [exact Hnd|].
    rewrite list_lookup_fmap, Hg. reflexivity. }
  intros j g0 pc0 Hg0 Hpc0 Hn0 Hf0. rewrite Hstore in Hg0. rewrite Hpcs in Hpc0. rewrite Hact.
  destruct (decide (j = i)) as [->|Hne].
  - rewrite list_lookup_insert_eq in Hg0 by exact Hi.
    rewrite list_lookup_insert_eq in Hpc0 by exact Hj.
    injection Hg0 as <-. injection Hpc0 as <-. rewrite Hid.
    destruct (decide (pc = NotStarted)) as [Hs|Hs].
    + rewrite (Hact1 Hs). apply dict_has_set_eq.
    + rewrite (Hact2 Hs Hf0). apply (Hin i g pc Hg Hpc Hs). apply Hpcf. exact Hf0.
  - rewrite list_lookup_insert_ne in Hg0 by congruence.
    rewrite list_lookup_insert_ne in Hpc0 by congruence.
    pose proof (Hin j g0 pc0 Hg0 Hpc0 Hn0 Hf0) as Hold.
    destruct (decide (pc = NotStarted)) as [Hs|Hs].
    + rewrite (Hact1 Hs). apply dict_has_set_other. exact Hold.
    + destruct (decide (pc' = Finished)) as [Hf|Hf].
      * rewrite (Hact3 Hf (Hhas Hf)). apply dict_has_filter; [|exact Hold].
        intros Heq. apply Hne.
        eapply (NoDup_lookup (group_id <$> store st) j i (group_id g0)); [exact Hnd | |].
        -- rewrite list_lookup_fmap, Hg0. reflexivity.
        -- rewrite list_lookup_fmap, Hg, Heq. reflexivity.
      * rewrite (Hact2 Hs Hf). exact Hold.
Qed.

Lemma potential_group_effect (i : nat) (g : PassengerGroup) (pc : PC) st st' :
  store st !! i = Some g -> pcs st !! i = Some pc ->
  group_effect cfg i g pc st st' -> (potential cfg st' <= potential cfg st)%nat.
Proof.
  intros Hg Hpc
    (g' & pc' & evs & cs & cost & done & act & ok & Hm & Hsame & Hpres & Hb & Hrk & _).
  unpack Hm. unfold potential.
  rewrite Hqueue, sum_list_with_app, Hpcs.
  rewrite (sum_list_with_eq (weight cfg st') (weight cfg st) (queue st)).
  2:{ intros ev _. apply weight_frame; [|left; exact Hnext].
      rewrite Hstore, length_insert. reflexivity. }
  rewrite (sum_list_with_eq (weight cfg st') (weight cfg st) evs).
  2:{ intros ev _. apply weight_frame; [|left; exact Hnext].
      rewrite Hstore, length_insert. reflexivity. }
  rewrite (group_event_weight i st evs Hev).
  pose proof (sum_insert rank (pcs st) i pc pc' Hpc) as Hsum. lia.
Qed.

(** ** The occupancy records *)
Lemma hist_update (i : nat) (f : PassengerGroup -> PassengerGroup) st :
  history_ok st -> history_ok (update_group i f st).
Proof. exact (fun H => H). Qed.

Lemma hist_set_pc (i : nat) (pc : PC) st : history_ok st -> history_ok (set_pc i pc st).
Proof. exact (fun H => H). Qed.

Lemma hist_schedule (k : EventKind) (p : Priority) (d : Q) st :
  history_ok st -> history_ok (schedule k p d st).
Proof. exact (fun H => H). Qed.

Lemma hist_end (p : ProcId) (o : option Exn) st :
  history_ok st -> history_ok (end_process p o st).
Proof. exact (fun H => H). Qed.

Lemma hist_yield (p : ProcId) (d : Q) st :
  history_ok st -> history_ok (yield_timeout p d st).
Proof. unfold yield_timeout. destruct (Qltb d 0); exact (fun H => H). Qed.

Lemma hist_np (r : R) st : history_ok st -> history_ok (with_np r st).
Proof. exact (fun H => H). Qed.

Lemma hist_active (d : list (Z * nat)) st :
  history_ok st -> history_ok (with_active_groups d st).
Proof. exact (fun H => H). Qed.

Lemma hist_completed (l : list nat) st :
  history_ok st -> history_ok (with_completed_groups l st).
Proof. exact (fun H => H). Qed.

Lemma hist_with_group (i : nat) st (k : PassengerGroup -> Sim R) :
  history_ok st -> (forall g, history_ok (k g)) -> history_ok (with_group i st k).
Proof. intros Hs Hk. unfold with_group. destruct (store st !! i); [apply Hk | exact Hs]. Qed.

Lemma hist_request (s : Station) (i : nat) st :
  history_ok st -> history_ok (request s i st).
Proof.
  intros Hs. unfold request. apply hist_with_group; [exact Hs|]. intros g.
  destruct (MonitoredResource.request _ _ _ _ _ _). exact Hs.
Qed.

Lemma hist_release (s : Station) (i : nat) st :
  history_ok st -> history_ok (release s i st).
Proof.
  intros Hs. unfold release. apply hist_with_group; [exact Hs|]. intros g.
  destruct (MonitoredResource.release _ _ _ _ _). exact Hs.
Qed.

Lemma hist_enter (a : string) (i : nat) st :
  history_ok st -> history_ok (enter_area a i st).
Proof.
  intros Hs. unfold enter_area. apply hist_with_group; [exact Hs|]. intros g.
  unfold history_ok, history, AirportResources.enter_area. simpl.
  destruct (AirportResources._groups_in_area (resources st) !! a); simpl; [|exact Hs].
  apply Forall_app. split; [exact Hs|]. constructor; [simpl; lia | constructor].
Qed.

Lemma hist_leave (a : string) (i : nat) st :
  history_ok st -> history_ok (leave_area a i st).
Proof.
  intros Hs. unfold leave_area. apply hist_with_group; [exact Hs|]. intros g.
  unfold history_ok, history, AirportResources.leave_area. simpl.
  destruct (AirportResources._groups_in_area (resources st) !! a); simpl; [|exact Hs].
  apply Forall_app. split; [exact Hs|]. constructor; [simpl; lia | constructor].
Qed.

Ltac hist :=
  cbv zeta;
  repeat first
    [ assumption
    | apply hist_yield | apply hist_end | apply hist_schedule | apply hist_set_pc
    | apply hist_update | apply hist_np | apply hist_active | apply hist_completed
    | apply hist_request | apply hist_release | apply hist_enter | apply hist_leave ].

Lemma hist_begin_visit (s : Station) (i : nat) st :
  history_ok st -> history_ok (begin_visit cfg s i st).
Proof. intros Hs. unfold begin_visit. hist. Qed.

Lemma hist_begin_security (i : nat) st :
  history_ok st -> history_ok (begin_security cfg i st).
Proof. intros Hs. unfold begin_security. hist. Qed.

Lemma hist_begin_baggage (i : nat) st :
  history_ok st -> history_ok (begin_baggage cfg i st).
Proof.
  intros Hs. unfold begin_baggage. apply hist_with_group; [exact Hs|]. intros g.
  destruct (baggage_drop_type g);
    first [apply hist_begin_visit | apply hist_begin_security]; exact Hs.
Qed.

Lemma hist_begin_service (s : Station) (i : nat) st :
  history_ok st -> history_ok (begin_service cfg s i st).
Proof.
  intros Hs. unfold begin_service.
  destruct (ServiceTimeDistribution.sample_one _ _) as [e|[x r]]; hist.
Qed.

Lemma hist_end_service (s : Station) (i : nat) st :
  history_ok st -> history_ok (end_service cfg s i st).
Proof.
  intros Hs. unfold end_service. cbv zeta.
  destruct s;
    first [apply hist_begin_baggage | apply hist_begin_security | apply hist_begin_visit];
    hist.
Qed.

Lemma hist_finish (i : nat) st : history_ok st -> history_ok (finish i st).
Proof.
  intros Hs. unfold finish. cbv zeta. apply hist_with_group; [hist|]. intros g.
  destruct (dict_del _ _); hist.
Qed.

Lemma hist_start_group (i : nat) st :
  history_ok st -> history_ok (start_group cfg i st).
Proof.
  intros Hs. unfold start_group. apply hist_with_group; [exact Hs|]. intros g. cbv zeta.
  destruct (checkin_type g); first [apply hist_begin_visit | idtac]; hist.
Qed.

Lemma hist_after_online (i : nat) st :
  history_ok st -> history_ok (after_online cfg i st).
Proof. intros Hs. unfold after_online. cbv zeta. apply hist_begin_baggage. hist. Qed.

(** ** Transitions that touch no group *)
Ltac sim_cbn :=
  unfold now, queue, calls, history, waiting, schedule, end_process, set_pc, update_group, spawn,
    with_env, with_resources, with_store, with_pcs, with_arrival_next,
    with_completed_groups, with_position_snapshots, with_active_groups, with_np,
    Environment.schedule in *;
  cbn [store pcs env resources arrival_next completed_groups position_snapshots
       _active_groups np
       Environment.now Environment._eid Environment._queue
       fmap option_fmap option_map fst snd] in *.

Lemma quiet_refl st : quiet st st [] 0.
Proof.
  unfold quiet. rewrite app_nil_r.
  refine (conj eq_refl (conj eq_refl (conj eq_refl (conj eq_refl (conj eq_refl
           (conj eq_refl (conj eq_refl (conj eq_refl _)))))))). lia.
Qed.

Lemma quiet_trans st st1 st2 (evs1 evs2 : list Event.t) (k1 k2 : nat) :
  quiet st st1 evs1 k1 -> quiet st1 st2 evs2 k2 -> quiet st st2 (evs1 ++ evs2) (k1 + k2).
Proof.
  intros (A1 & A2 & A3 & A4 & A5 & A6 & A7 & A8 & A9)
         (B1 & B2 & B3 & B4 & B5 & B6 & B7 & B8 & B9).
  unfold quiet.
  refine (conj _ (conj _ (conj _ (conj _ (conj _ (conj _ (conj _ (conj _ _))))))));
    try congruence; [|lia].
  rewrite B8, A8, app_assoc. reflexivity.
Qed.

Lemma quiet_schedule (k : EventKind) (p : Priority) (d : Q) st :
  quiet st (schedule k p d st)
    [{| Event.time := (now st + d)%Q; Event.priority := p;
        Event.eid := Environment._eid (env st); Event.kind := k |}] 0.
Proof.
  unfold quiet.
  refine (conj eq_refl (conj eq_refl (conj eq_refl (conj eq_refl (conj eq_refl
           (conj eq_refl (conj eq_refl (conj eq_refl _)))))))).
  unfold wsum. sim_cbn. lia.
Qed.

Lemma trigger_put_quiet (s : Station) st :
  exists evs, quiet st (trigger_put s st) evs (length evs) /\
    arrival_next (trigger_put s st) = arrival_next st /\
    Forall (fun ev => (now st <= Event.time ev)%Q /\ Event.priority ev = NORMAL /\
                      exists j, Event.kind ev = Request s j) evs.
Proof.
  rewrite trigger_put_eq.
  destruct (trigger_put_effect s
              (MonitoredResource.resource (AirportResources.get s (resources st))) (env st))
    as (evs & Hq & Hn & Hl & Hall).
  exists evs. split; [|split; [reflexivity|]].
  - unfold quiet.
    refine (conj _ (conj eq_refl (conj eq_refl (conj _ (conj _
             (conj eq_refl (conj eq_refl (conj _ _))))))));
      try exact Hn; try exact Hq; try (destruct s; reflexivity).
    match goal with |- (wsum (with_env ?e ?x) + _ = _)%nat =>
      change (wsum (with_env e x)) with (wsum x) end.
    pose proof (wsum_set s
      (MonitoredResource.with_resource
         (Resource._trigger_put s
            (MonitoredResource.resource (AirportResources.get s (resources st)))
            (env st)).1 (AirportResources.get s (resources st))) st) as Hw.
    simpl in Hw. unfold waiting in Hw at 1. lia.
  - eapply Forall_impl; [exact Hall|]. intros ev (Ht & Hp & Hk). simpl.
    split; [rewrite Ht; unfold now; lra|]. split; assumption.
Qed.

Lemma sampler_quiet st :
  exists ev, quiet st (sampler_resume cfg st) [ev] 0 /\
    arrival_next (sampler_resume cfg st) = arrival_next st /\
    Event.priority ev = NORMAL /\ (now st <= Event.time ev)%Q /\
    ((Event.kind ev = Timeout PSampler /\
      Event.time ev = (now st + sample_interval cfg)%Q /\
      (now st < simulation_end cfg)%Q /\ (0 <= sample_interval cfg)%Q) \/
     (exists o, Event.kind ev = ProcessEnd PSampler o /\
                ((0 <= sample_interval cfg)%Q -> o = None))).
Proof.
  unfold sampler_resume. destruct (Qltb (now st) (simulation_end cfg)) eqn:E.
  - apply Qltb_true in E.
    match goal with |- context [yield_timeout PSampler ?d ?x] =>
      destruct (yield_timeout_cases PSampler d x) as [[-> Hd]|[-> Hd]] end.
    + eexists. split; [apply (quiet_schedule (Timeout PSampler) NORMAL _
                               (with_position_snapshots _ st))|].
      split; [reflexivity|]. split; [reflexivity|]. simpl.
      split; [unfold now in *; simpl; lra|]. left.
      split; [reflexivity|]. split; [reflexivity|]. split; assumption.
    + eexists. split; [apply (quiet_schedule (ProcessEnd PSampler (Some ValueError)) NORMAL 0
                               (with_position_snapshots _ st))|].
      split; [reflexivity|]. split; [reflexivity|]. simpl.
      split; [unfold now in *; simpl; lra|]. right. eexists.
      split; [reflexivity|]. intros Hp. lra.
  - eexists. split; [apply (quiet_schedule (ProcessEnd PSampler None) NORMAL 0 st)|].
    split; [reflexivity|]. split; [reflexivity|]. simpl.
    split; [unfold now in *; simpl; lra|]. right. eexists.
    split; [reflexivity|]. reflexivity.
Qed.

Lemma drop_cons_inv {A} (k : nat) (l : list A) (x : A) (r : list A) :
  drop k l = x :: r -> l !! k = Some x /\ drop (S k) l = r.
Proof.
  revert l. induction k as [|k IH]; intros [|a l]; simpl; try discriminate.
  - intros Hd. injection Hd as -> ->. split; [reflexivity|]. apply drop_0.
  - intros Hd. destruct (IH l Hd) as [H1 H2]. split; [exact H1|].
    destruct l; [discriminate | exact H2].
Qed.

Lemma quiet_arrival_next (k : nat) st : quiet st (with_arrival_next k st) [] 0.
Proof.
  unfold quiet. rewrite app_nil_r.
  refine (conj eq_refl (conj eq_refl (conj eq_refl (conj eq_refl (conj eq_refl
           (conj eq_refl (conj eq_refl (conj eq_refl _)))))))).
  unfold wsum. sim_cbn. lia.
Qed.

Lemma arrival_loop_turn (groups : list PassengerGroup) :
  forall (k : nat) (last : Q) st,
    drop k (store st) = groups -> (last <= now st)%Q ->
    exists spawns final,
      arrival_turn k st (arrival_loop groups k last st) spawns final.
Proof.
  induction groups as [|group rest IH]; intros k last st Hdrop Hlast.
  - exists [], {| Event.time := (now st + 0)%Q; Event.priority := NORMAL;
                  Event.eid := Environment._eid (env st);
                  Event.kind := ProcessEnd PArrival None |}.
    unfold arrival_turn. simpl.
    split; [apply (quiet_schedule (ProcessEnd PArrival None) NORMAL 0 st)|].
    split; [constructor|]. split; [reflexivity|]. split; [lra|]. split; [lia|].
    left. split; reflexivity.
  - destruct (drop_cons_inv _ _ _ _ Hdrop) as [Hk Hrest]. simpl.
    destruct (Qltb 0 (arrival_time group - last)) eqn:E.
    + apply Qltb_true in E. rewrite yield_timeout_nonneg by lra.
      exists [], {| Event.time := (now st + (arrival_time group - last))%Q;
                    Event.priority := NORMAL;
                    Event.eid := Environment._eid (env st);
                    Event.kind := Timeout PArrival |}.
      unfold arrival_turn. simpl.
      split.
      { apply (quiet_trans st (with_arrival_next k st) _ [] [_] 0 0).
        - apply quiet_arrival_next.
        - apply (quiet_schedule (Timeout PArrival) NORMAL _ (with_arrival_next k st)). }
      split; [constructor|]. split; [reflexivity|]. split; [lra|]. split; [lia|].
      right. split; [reflexivity|]. split; [simpl; lia|].
      exists group. rewrite Nat.add_0_r. split; [exact Hk|]. lra.
    + apply Qltb_false in E.
      destruct (IH (S k) (arrival_time group) (spawn k st) Hrest) as (spawns & final & Ht).
      { change (now (spawn k st)) with (now st). lra. }
      destruct Ht as (Hq & Hsp & Hp & Hle & Hlen & Hfin).
      exists ({| Event.time := (now st + 0)%Q; Event.priority := URGENT;
                 Event.eid := Environment._eid (env st);
                 Event.kind := Initialize (PGroup k) |} :: spawns), final.
      unfold arrival_turn.
      split.
      { apply (quiet_trans st (spawn k st) _ [_] (spawns ++ [final]) 0 0); [|exact Hq].
        apply (quiet_schedule (Initialize (PGroup k)) URGENT 0 st). }
      split.
      { constructor; [|exact Hsp]. simpl. split; [reflexivity|]. split; [reflexivity|].
        exists k, group. split; [reflexivity|]. split; [exact Hk|]. lra. }
      split; [exact Hp|]. split; [exact Hle|].
      apply lookup_lt_Some in Hk.
      split; [change (store (spawn k st)) with (store st) in Hlen; simpl; lia|].
      destruct Hfin as [[Hf1 Hf2]|(Hf1 & Hf2 & g & Hg & Hga)].
      * left. split; [exact Hf1 | exact Hf2].
      * right. split; [exact Hf1|]. simpl. rewrite Nat.add_succ_r.
        split; [exact Hf2|]. exists g. split; [exact Hg | exact Hga].
Qed.

Lemma filter_nil_Forall {A} (f : A -> bool) (l : list A) :
  List.filter f l = [] -> Forall (fun x => f x = false) l.
Proof.
  induction l as [|a l IH]; simpl; [constructor|].
  destruct (f a) eqn:E; [discriminate|]. intros Hl. constructor; [exact E | apply IH, Hl].
Qed.

Lemma not_arrival_kind (ev : Event.t) :
  is_arrival_event ev = false -> Event.kind ev <> Timeout PArrival.
Proof. unfold is_arrival_event. intros Hb Hk. rewrite Hk in Hb. discriminate. Qed.

Lemma inv_quiet st st' (evs : list Event.t) (k : nat) :
  Inv cfg st -> quiet st st' evs k ->
  Forall (event_ok cfg st') evs ->
  (arrival_next st' = arrival_next st \/ List.filter is_arrival_event (queue st) = []) ->
  (length (List.filter is_arrival_event (queue st ++ evs)) <= 1)%nat ->
  Inv cfg st'.
Proof.
  intros (Hlen & Hnow0 & HnowH & HqI & Hunt & HarrI & Hgrp & Hcomp & HbalI)
    (A1 & A2 & A3 & A4 & A5 & A6 & A7 & A8 & A9) Hevs Hnext Hcount.
  unfold Inv. rewrite A1, A2, A3, A4, A6, A8.
  split; [exact Hlen|]. split; [exact Hnow0|]. split; [exact HnowH|].
  split.
  { apply Forall_app. split; [|exact Hevs].
    apply Forall_forall. intros ev Hin.
    rewrite Forall_forall in HqI. specialize (HqI ev Hin).
    eapply event_ok_frame; [exact HqI | rewrite A1; apply HqI | |].
    - intros j g' Hg'. rewrite A2 in Hg'. exists g'. split; [exact Hg' | reflexivity].
    - destruct Hnext as [Hn|Hn]; [left; exact Hn|]. right.
      apply not_arrival_kind. apply filter_nil_Forall in Hn.
      rewrite Forall_forall in Hn. apply Hn. exact Hin. }
  split.
  { destruct Hunt as (ev & Hin & Hk). exists ev. split; [|exact Hk].
    apply elem_of_app. left. exact Hin. }
  split; [exact Hcount|].
  split; [exact Hgrp|]. split; [exact Hcomp | exact HbalI].
Qed.

Lemma live_quiet st st' (evs : list Event.t) (k : nat) :
  Live st -> quiet st st' evs k -> Forall no_failure evs -> Live st'.
Proof.
  intros (Hnf & Hnd & Hin) (A1 & A2 & A3 & A4 & A5 & A6 & A7 & A8 & A9) Hevs.
  unfold Live. rewrite A2, A3, A7, A8.
  split; [apply Forall_app; split; assumption|]. split; assumption.
Qed.

Lemma potential_quiet st st' (evs : list Event.t) (k : nat) :
  quiet st st' evs k ->
  (arrival_next st' = arrival_next st \/ List.filter is_arrival_event (queue st) = []) ->
  (potential cfg st' + k = potential cfg st + sum_list_with (weight cfg st') evs)%nat.
Proof.
  intros (A1 & A2 & A3 & A4 & A5 & A6 & A7 & A8 & A9) Hnext.
  unfold potential. rewrite A3, A8, sum_list_with_app.
  rewrite (sum_list_with_eq (weight cfg st') (weight cfg st) (queue st)); [lia|].
  intros ev Hin. apply weight_frame; [rewrite A2; reflexivity|].
  destruct Hnext as [Hn|Hn]; [left; exact Hn|]. right.
  apply not_arrival_kind. apply filter_nil_Forall in Hn.
  rewrite Forall_forall in Hn. apply Hn. exact Hin.
Qed.

Lemma hist_quiet st st' (evs : list Event.t) (k : nat) :
  quiet st st' evs k -> history_ok st -> history_ok st'.
Proof. intros (_ & _ & _ & _ & A5 & _). unfold history_ok. rewrite A5. exact (fun H => H). Qed.

(** ** Popping the next event *)
Lemma pop_inv st (ev : Event.t) (q : list Event.t) :
  Inv cfg st -> Environment.heappop (queue st) = Some (ev, q) ->
  Event.kind ev <> Until ->
  Inv cfg (after_pop ev q st) /\
  event_ok cfg st ev /\
  (is_arrival_event ev = true -> List.filter is_arrival_event q = []) /\
  (potential cfg (after_pop ev q st) + weight cfg st ev = potential cfg st)%nat.
Proof.
  intros (Hlen & Hnow0 & HnowH & HqI & Hunt & HarrI & Hgrp & Hcomp & HbalI) Hpop Hk.
  destruct (heappop_spec _ _ _ Hpop) as [Hkey Hperm].
  rewrite <- Hperm in HqI.
  rewrite <- (filter_length_perm is_arrival_event _ _ Hperm) in HarrI.
  rewrite Forall_forall in Hkey.
  pose proof (Forall_inv HqI) as Hev. pose proof (Forall_inv_tail HqI) as Hq.
  assert (HevH : (Event.time ev < simulation_end cfg)%Q).
  { destruct Hunt as (u & Hu & Huk). rewrite <- Hperm in Hu.
    apply elem_of_cons in Hu. destruct Hu as [->|Hu]; [contradiction|].
    pose proof (Hkey u Hu) as Hle. unfold key_le in Hle. rewrite ltb_false_spec in Hle.
    rewrite Forall_forall in Hq. destruct (Hq u Hu) as (_ & Hb & _).
    destruct (Hb Huk) as [HuH Hup]. destruct Hev as (_ & _ & Hc & _).
    destruct Hle as [Hlt|[Heq Hpr]]; [lra|].
    destruct (Event.priority ev) eqn:Hp.
    - apply Hc; [reflexivity | exact Hk].
    - rewrite Hup in Hpr. simpl in Hpr. lia. }
  split; [|split; [exact Hev|split]].
  - unfold Inv.
    change (pcs (after_pop ev q st)) with (pcs st).
    change (store (after_pop ev q st)) with (store st).
    change (now (after_pop ev q st)) with (Event.time ev).
    change (queue (after_pop ev q st)) with q.
    change (calls (after_pop ev q st)) with (calls st).
    change (completed_groups (after_pop ev q st)) with (completed_groups st).
    split; [exact Hlen|].
    split; [destruct Hev as (Ha & _); lra|].
    split; [exact HevH|].
    split.
    { apply Forall_forall. intros e He. rewrite Forall_forall in Hq.
      eapply event_ok_frame; [apply Hq; exact He | | | left; reflexivity].
      - change (now (after_pop ev q st)) with (Event.time ev).
        apply key_le_time. apply Hkey. exact He.
      - intros j g' Hg'. exists g'. split; [exact Hg' | reflexivity]. }
    split.
    { destruct Hunt as (u & Hu & Huk). rewrite <- Hperm in Hu.
      apply elem_of_cons in Hu. destruct Hu as [->|Hu]; [contradiction|].
      exists u. split; assumption. }
    split.
    { simpl in HarrI. destruct (is_arrival_event ev); simpl in HarrI; lia. }
    split.
    { intros i g pc Hg Hpc. eapply group_ok_mono; [|eapply Hgrp; eassumption].
      apply Hev. }
    split; [exact Hcomp | exact HbalI].
  - intros Ha. simpl in HarrI. rewrite Ha in HarrI. simpl in HarrI.
    destruct (List.filter is_arrival_event q); [reflexivity | simpl in HarrI; lia].
  - unfold potential.
    change (queue (after_pop ev q st)) with q.
    change (pcs (after_pop ev q st)) with (pcs st).
    change (wsum (after_pop ev q st)) with (wsum st).
    change (weight cfg (after_pop ev q st)) with (weight cfg st).
    rewrite <- Hperm. simpl. lia.
Qed.

Lemma pop_live st (ev : Event.t) (q : list Event.t) :
  Live st -> Environment.heappop (queue st) = Some (ev, q) ->
  Live (after_pop ev q st) /\ no_failure ev.
Proof.
  intros (Hnf & Hnd & Hin) Hpop.
  destruct (heappop_spec _ _ _ Hpop) as [_ Hperm]. rewrite <- Hperm in Hnf.
  split; [|exact (Forall_inv Hnf)].
  unfold Live. split; [exact (Forall_inv_tail Hnf)|]. split; assumption.
Qed.

Lemma advance_none st : Inv cfg st -> advances cfg 1 st st.
Proof.
  intros HI. split; [exact HI|]. split; [exact (fun H => H)|].
  split; [intros HL _ _; exact HL | intros _; lia].
Qed.

Lemma advance_group (k : EventKind) (i : nat) st :
  Inv cfg st ->
  k = Initialize (PGroup i) \/ k = Timeout (PGroup i) \/ (exists s, k = Request s i) ->
  (k = Initialize (PGroup i) ->
   forall g, store st !! i = Some g -> (arrival_time g <= now st)%Q) ->
  (history_ok st -> history_ok (dispatch cfg k st)) ->
  advances cfg 1 st (dispatch cfg k st).
Proof.
  intros HI Hk Harr Hh.
  destruct (dispatch_group k i st (proj1 HI) Hk) as [->|(g & pc & Hg & Hpc & Hns & He)].
  - apply advance_none. exact HI.
  - split; [|split; [exact Hh|split]].
    + eapply inv_group_effect; [exact HI | exact Hg | exact Hpc | | exact He].
      intros Hs. apply Harr; [apply Hns; exact Hs | exact Hg].
    + intros HL Hsv _. eapply live_group_effect; eassumption.
    + intros _. pose proof (potential_group_effect i g pc st _ Hg Hpc He). lia.
Qed.

Lemma requests_are_group_events (s : Station) (t : Q) (evs : list Event.t) :
  Forall (fun ev => (t <= Event.time ev)%Q /\ Event.priority ev = NORMAL /\
                    exists j, Event.kind ev = Request s j) evs ->
  Forall (group_event O t) evs /\ Forall no_failure evs.
Proof.
  intros Hall. split; (eapply Forall_impl; [exact Hall|]); intros ev (Ht & Hp & j & Hk); simpl.
  - split; [exact Ht|]. split; [exact Hp|]. left. exists s, j. exact Hk.
  - intros p e. congruence.
Qed.

Lemma advance_release (s : Station) st :
  Inv cfg st -> advances cfg 1 st (trigger_put s st).
Proof.
  intros HI. destruct (trigger_put_quiet s st) as (evs & Hq & Hn & Hall).
  destruct (requests_are_group_events s _ evs Hall) as [Hge Hnf].
  pose proof Hq as (Hnow & _).
  assert (Hge' : Forall (group_event O (now (trigger_put s st))) evs).
  { rewrite Hnow. exact Hge. }
  split; [|split; [|split]].
  - eapply inv_quiet; [exact HI | exact Hq | | left; exact Hn |].
    + eapply Forall_impl; [exact Hge'|]. intros ev. apply group_event_ok.
    + rewrite List.filter_app, (group_events_not_arrival _ _ _ Hge), app_nil_r. apply HI.
  - eapply hist_quiet. exact Hq.
  - intros HL _ _. eapply live_quiet; eassumption.
  - intros _. pose proof (potential_quiet st _ evs _ Hq (or_introl Hn)) as Hp.
    rewrite (group_event_weight O _ evs Hge') in Hp. lia.
Qed.

Lemma sampler_weight_decreases (h t i : Q) :
  (0 < i)%Q -> (t < h)%Q ->
  (Z.to_nat (Qceiling ((h - (t + i)) / i)) < Z.to_nat (Qceiling ((h - t) / i)))%nat.
Proof.
  intros Hi Ht.
  assert (Hx : ((h - (t + i)) / i == (h - t) / i - 1)%Q) by (field; lra).
  assert (Hpos : (0 < (h - t) / i)%Q).
  { apply Qlt_shift_div_l; [exact Hi | lra]. }
  pose proof (Qle_ceiling ((h - (t + i)) / i)) as H1.
  pose proof (Qceiling_lt ((h - (t + i)) / i)) as H2.
  pose proof (Qle_ceiling ((h - t) / i)) as H3.
  pose proof (Qceiling_lt ((h - t) / i)) as H4.
  set (c' := Qceiling ((h - (t + i)) / i)) in *.
  set (c := Qceiling ((h - t) / i)) in *.
  rewrite Hx in H1, H2. clearbody c c'. clear Hx.
  unfold Z.sub in H2, H4. rewrite inject_Z_plus, inject_Z_opp in H2, H4.
  change (inject_Z 1) with 1%Q in *.
  set (x := ((h - t) / i)%Q) in *. clearbody x.
  assert (Hc : (0 < c)%Z).
  { rewrite Zlt_Qlt. change (inject_Z 0) with 0%Q. lra. }
  assert (Hcc : (c' < c)%Z).
  { rewrite Zlt_Qlt. lra. }
  lia.
Qed.

Lemma advance_sampler st :
  Inv cfg st ->
  advances cfg
    (2 + Z.to_nat (Qceiling ((simulation_end cfg - now st) / sample_interval cfg)))
    st (sampler_resume cfg st).
Proof.
  intros HI. destruct (sampler_quiet st) as (ev & Hq & Hn & Hp & Hle & Hk).
  pose proof Hq as (Hnow & _).
  assert (Hna : is_arrival_event ev = false).
  { unfold is_arrival_event. destruct Hk as [(-> & _)|(o & -> & _)]; reflexivity. }
  split; [|split; [|split]].
  - eapply inv_quiet; [exact HI | exact Hq | | left; exact Hn |].
    + constructor; [|constructor]. unfold event_ok. rewrite Hnow.
      split; [exact Hle|].
      split; [intros Hu; destruct Hk as [(Hk & _)|(o & Hk & _)]; congruence|].
      split; [intros Hu; congruence|].
      split; [intros k g Hi; destruct Hk as [(Hk & _)|(o & Hk & _)]; congruence|].
      intros g Hi; destruct Hk as [(Hk & _)|(o & Hk & _)]; congruence.
    + rewrite List.filter_app. simpl. rewrite Hna, app_nil_r. apply HI.
  - eapply hist_quiet. exact Hq.
  - intros HL _ Hpos. eapply live_quiet; [exact HL | exact Hq |].
    constructor; [|constructor]. intros p e.
    destruct Hk as [(-> & _)|(o & -> & Ho)]; [discriminate|].
    rewrite Ho by lra. discriminate.
  - intros Hpos. pose proof (potential_quiet st _ [ev] _ Hq (or_introl Hn)) as Hpot.
    simpl in Hpot.
    assert (weight cfg (sampler_resume cfg st) ev <
            2 + Z.to_nat (Qceiling ((simulation_end cfg - now st) / sample_interval cfg)))%nat;
      [|lia].
    unfold weight. destruct Hk as [(-> & -> & Hlt & _)|(o & -> & _)]; [|lia].
    pose proof (sampler_weight_decreases _ _ _ Hpos Hlt). lia.
Qed.

Lemma arrival_turn_advances (k : nat) st st' (spawns : list Event.t) (final : Event.t) :
  Inv cfg st -> List.filter is_arrival_event (queue st) = [] ->
  arrival_turn k st st' spawns final ->
  Inv cfg st' /\ (history_ok st -> history_ok st') /\ (Live st -> Live st') /\
  (potential cfg st' + length spawns <=
   potential cfg st + 2 * (length (store st) - k) + 2)%nat.
Proof.
  intros HI Hnone (Hq & Hsp & Hp & Hle & Hlen & Hfin).
  pose proof Hq as (Hnow & Hstore & _).
  assert (Hsa : List.filter is_arrival_event spawns = []).
  { clear -Hsp. induction Hsp as [|ev l (_ & _ & m & g & Hk & _) _ IH]; [reflexivity|].
    simpl. unfold is_arrival_event at 1. rewrite Hk. exact IH. }
  assert (Hsw : sum_list_with (weight cfg st') spawns = length spawns).
  { clear -Hsp. induction Hsp as [|ev l (_ & _ & m & g & Hk & _) _ IH]; [reflexivity|].
    simpl. rewrite IH. unfold weight. rewrite Hk. reflexivity. }
  split; [|split; [|split]].
  - eapply inv_quiet; [exact HI | exact Hq | | right; exact Hnone |].
    + apply Forall_app. split.
      * eapply Forall_impl; [exact Hsp|]. intros ev (Hpu & Ht & m & g & Hk & Hg & Ha).
        simpl. unfold event_ok. rewrite Hnow, Hstore, Ht.
        destruct HI as (_ & _ & HnowH & _).
        split; [lra|]. split; [intros Hu; congruence|]. split; [intros _ _; lra|].
        split; [|intros g' Hi; congruence].
        intros j g' Hj Hg'. rewrite Hj in Hk. injection Hk as ->.
        rewrite Hg in Hg'. injection Hg' as <-. lra.
      * constructor; [|constructor]. unfold event_ok. rewrite Hnow, Hstore.
        split; [exact Hle|].
        split; [intros Hu; destruct Hfin as [(Hk & _)|(Hk & _)]; congruence|].
        split; [intros Hu; congruence|].
        split; [intros j g' Hj; destruct Hfin as [(Hk & _)|(Hk & _)]; congruence|].
        intros g' Hkt Hg'. destruct Hfin as [(Hk & _)|(Hk & Hn & g & Hg & Ha)].
        -- congruence.
        -- rewrite Hn, Hg in Hg'. injection Hg' as <-. exact Ha.
    + rewrite !List.filter_app, Hnone, Hsa. simpl.
      destruct (is_arrival_event final); simpl; lia.
  - eapply hist_quiet. exact Hq.
  - intros HL. eapply live_quiet; [exact HL | exact Hq |].
    apply Forall_app. split.
    + eapply Forall_impl; [exact Hsp|]. intros ev (_ & _ & m & g & Hk & _) p e. congruence.
    + constructor; [|constructor]. intros p e.
      destruct Hfin as [(Hk & _)|(Hk & _)]; congruence.
  - pose proof (potential_quiet st st' _ _ Hq (or_intror Hnone)) as Hpot.
    rewrite sum_list_with_app, Hsw in Hpot. simpl in Hpot.
    assert (weight cfg st' final + 2 * length spawns <=
            2 * (length (store st) - k) + 2)%nat; [|lia].
    unfold weight. rewrite Hstore.
    destruct Hfin as [(-> & _)|(-> & -> & g & Hg & _)]; [lia|].
    apply lookup_lt_Some in Hg. lia.
Qed.

Lemma arrival_turn_spawn (k : nat) st st' (group : PassengerGroup)
    (spawns : list Event.t) (final : Event.t) :
  store st !! k = Some group -> (arrival_time group <= now st)%Q ->
  arrival_turn (S k) (spawn k st) st' spawns final ->
  arrival_turn k st st'
    ({| Event.time := (now st + 0)%Q; Event.priority := URGENT;
        Event.eid := Environment._eid (env st);
        Event.kind := Initialize (PGroup k) |} :: spawns) final.
Proof.
  intros Hk Ha (Hq & Hsp & Hp & Hle & Hlen & Hfin). unfold arrival_turn.
  split.
  { apply (quiet_trans st (spawn k st) _ [_] (spawns ++ [final]) 0 0); [|exact Hq].
    apply (quiet_schedule (Initialize (PGroup k)) URGENT 0 st). }
  split.
  { constructor; [|exact Hsp]. simpl. split; [reflexivity|]. split; [reflexivity|].
    exists k, group. split; [reflexivity|]. split; [exact Hk | exact Ha]. }
  split; [exact Hp|]. split; [exact Hle|].
  apply lookup_lt_Some in Hk.
  split; [change (store (spawn k st)) with (store st) in Hlen; simpl; lia|].
  destruct Hfin as [[Hf1 Hf2]|(Hf1 & Hf2 & g & Hg & Hga)].
  - left. split; [exact Hf1 | exact Hf2].
  - right. split; [exact Hf1|]. simpl. rewrite Nat.add_succ_r.
    split; [exact Hf2|]. exists g. split; [exact Hg | exact Hga].
Qed.

Lemma advance_arrival_start st :
  Inv cfg st -> List.filter is_arrival_event (queue st) = [] ->
  advances cfg (2 * length (store st) + 3) st (arrival_start st).
Proof.
  intros HI Hnone. unfold arrival_start.
  destruct (arrival_loop_turn (store st) O 0%Q st (drop_0 _)) as (sp & fin & Ht);
    [apply HI|].
  destruct (arrival_turn_advances _ _ _ _ _ HI Hnone Ht) as (H1 & H2 & H3 & H4).
  split; [exact H1|]. split; [exact H2|]. split; [intros HL _ _; apply H3; exact HL|].
  intros _. lia.
Qed.

Lemma advance_arrival_resume st :
  Inv cfg st -> List.filter is_arrival_event (queue st) = [] ->
  (forall g, store st !! arrival_next st = Some g -> (arrival_time g <= now st)%Q) ->
  advances cfg (2 * (length (store st) - arrival_next st) + 2) st (arrival_resume st).
Proof.
  intros HI Hnone Harr. unfold arrival_resume.
  destruct (drop (arrival_next st) (store st)) as [|group rest] eqn:Hd.
  - split; [exact HI|]. split; [exact (fun H => H)|].
    split; [intros HL _ _; exact HL | intros _; lia].
  - destruct (drop_cons_inv _ _ _ _ Hd) as [Hk Hrest].
    pose proof (Harr group Hk) as Ha.
    destruct (arrival_loop_turn rest (S (arrival_next st)) (arrival_time group)
                (spawn (arrival_next st) st) Hrest) as (sp & fin & Ht).
    { change (now (spawn (arrival_next st) st)) with (now st). lra. }
    pose proof (arrival_turn_spawn _ _ _ _ _ _ Hk Ha Ht) as Ht'.
    destruct (arrival_turn_advances _ _ _ _ _ HI Hnone Ht') as (H1 & H2 & H3 & H4).
    split; [exact H1|]. split; [exact H2|]. split; [intros HL _ _; apply H3; exact HL|].
    intros _. simpl in H4. lia.
Qed.

Lemma hist_arrival_loop (groups : list PassengerGroup) :
  forall (k : nat) (last : Q) st,
    history_ok st -> history_ok (arrival_loop groups k last st).
Proof.
  induction groups as [|group rest IH]; intros k last st Hs; simpl.
  - exact Hs.
  - destruct (Qltb 0 (arrival_time group - last)).
    + apply hist_yield. exact Hs.
    + apply IH. exact Hs.
Qed.

Lemma hist_dispatch (k : EventKind) st :
  history_ok st -> history_ok (dispatch cfg k st).
Proof.
  intros Hs. destruct k as [[| |i]|[| |i]|s i|s|p o|]; simpl; try exact Hs.
  - apply hist_arrival_loop. exact Hs.
  - destruct (sampler_quiet st) as (ev & Hq & _). eapply hist_quiet; eassumption.
  - destruct (pc_of i st); first [exact Hs | apply hist_start_group; exact Hs].
  - unfold arrival_resume.
    destruct (drop (arrival_next st) (store st)); [exact Hs|].
    apply hist_arrival_loop. exact Hs.
  - destruct (sampler_quiet st) as (ev & Hq & _). eapply hist_quiet; eassumption.
  - destruct (pc_of i st);
      first [exact Hs | apply hist_after_online | apply hist_end_service | apply hist_finish];
      exact Hs.
  - destruct (pc_of i st); try exact Hs.
    destruct (decide (s = s0)); [apply hist_begin_service|]; exact Hs.
  - destruct (trigger_put_quiet s st) as (evs & Hq & _). eapply hist_quiet; eassumption.
Qed.

(** One step of the run that goes on. *)
Lemma step_running st st' :
  Inv cfg st -> step cfg st = Running st' ->
  Inv cfg st' /\
  (history_ok st -> history_ok st') /\
  (Live st -> service_ok cfg -> (0 < sample_interval cfg)%Q -> Live st') /\
  ((0 < sample_interval cfg)%Q -> (potential cfg st' < potential cfg st)%nat).
Proof.
  intros HI. unfold step. change (Environment._queue (env st)) with (queue st).
  destruct (Environment.heappop (queue st)) as [[ev q]|] eqn:Hpop; [|discriminate].
  change (with_env _ st) with (after_pop ev q st).
  intros Hstep.
  assert (Hk : Event.kind ev <> Until).
  { intros Hk. rewrite Hk in Hstep. discriminate. }
  destruct (pop_inv st ev q HI Hpop Hk) as (HI1 & Hev & Hnone & Hpot).
  assert (Hadv : advances cfg (weight cfg st ev) (after_pop ev q st) st').
  { unfold weight. destruct Hev as (_ & _ & _ & Hinit & Hres).
    unfold is_arrival_event in Hnone.
    destruct (Event.kind ev) as [[| |i]|[| |i]|s i|s|p [e|]|] eqn:Hkind;
      try discriminate; try contradiction; injection Hstep as <-.
    - exact (advance_arrival_start (after_pop ev q st) HI1 (Hnone eq_refl)).
    - exact (advance_sampler (after_pop ev q st) HI1).
    - exact (advance_group (Initialize (PGroup i)) i (after_pop ev q st) HI1
               (or_introl eq_refl) (fun _ g Hg => Hinit i g eq_refl Hg)
               (hist_dispatch _ _)).
    - exact (advance_arrival_resume (after_pop ev q st) HI1 (Hnone eq_refl)
               (fun g Hg => Hres g eq_refl Hg)).
    - exact (advance_sampler (after_pop ev q st) HI1).
    - refine (advance_group (Timeout (PGroup i)) i (after_pop ev q st) HI1
                (or_intror (or_introl eq_refl)) _ (hist_dispatch _ _)).
      discriminate.
    - refine (advance_group (Request s i) i (after_pop ev q st) HI1
                (or_intror (or_intror (ex_intro _ s eq_refl))) _ (hist_dispatch _ _)).
      discriminate.
    - exact (advance_release s (after_pop ev q st) HI1).
    - exact (advance_none (after_pop ev q st) HI1). }
  destruct Hadv as (H1 & H2 & H3 & H4).
  split; [exact H1|]. split; [exact H2|].
  split.
  - intros HL Hsv Hpos. apply H3; [|exact Hsv | exact Hpos].
    apply (pop_live st ev q HL Hpop).
  - intros Hpos. specialize (H4 Hpos). lia.
Qed.

(** A step cannot fail while no failed process waits in the queue. *)
Lemma step_no_crash st (e : Exn) :
  Inv cfg st -> Live st -> step cfg st <> Crashed e.
Proof.
  intros HI HL. unfold step. change (Environment._queue (env st)) with (queue st).
  destruct (Environment.heappop (queue st)) as [[ev q]|] eqn:Hpop.
  - destruct (pop_live st ev q HL Hpop) as [_ Hnf].
    destruct (Event.kind ev) as [p|p|s i|s|p [e'|]|] eqn:Hk; try discriminate.
    exfalso. exact (Hnf p e' Hk).
  - destruct HI as (_ & _ & _ & _ & (u & Hu & _) & _).
    destruct (queue st); [apply elem_of_nil in Hu; contradiction | discriminate].
Qed.

(** The step that ends the run: the [until] event is popped, and nothing
    but the clock and the queue changes. *)
Lemma step_stopped st st' :
  Inv cfg st -> step cfg st = Stopped st' ->
  (now st' == simulation_end cfg)%Q /\ store st' = store st /\ pcs st' = pcs st /\
  completed_groups st' = completed_groups st /\ resources st' = resources st /\
  position_snapshots st' = position_snapshots st.
Proof.
  intros HI. unfold step. change (Environment._queue (env st)) with (queue st).
  destruct (Environment.heappop (queue st)) as [[ev q]|] eqn:Hpop; [|discriminate].
  destruct (heappop_spec _ _ _ Hpop) as [_ Hperm].
  destruct HI as (_ & _ & _ & HqI & _). rewrite <- Hperm in HqI.
  destruct (Forall_inv HqI) as (_ & Hu & _).
  destruct (Event.kind ev) as [p|p|s i|s|p [e'|]|] eqn:Hk; try discriminate.
  intros Hs. injection Hs as <-. simpl.
  split; [apply Hu; reflexivity|]. repeat split; reflexivity.
Qed.

Lemma run_loop_safe (fuel : nat) :
  forall st st',
    Inv cfg st -> history_ok st -> run_loop cfg fuel st = Done st' ->
    exists st0, Inv cfg st0 /\ history_ok st0 /\ step cfg st0 = Stopped st'.
Proof.
  induction fuel as [|fuel IH]; intros st st' HI Hh; simpl; [discriminate|].
  destruct (step cfg st) as [st1|st1|e] eqn:Hstep; try discriminate.
  - intros Hrun. destruct (step_running st st1 HI Hstep) as (HI1 & Hh1 & _).
    apply (IH st1 st' HI1 (Hh1 Hh) Hrun).
  - intros Hrun. injection Hrun as <-. exists st. split; [exact HI|]. split; assumption.
Qed.

Lemma run_loop_total (fuel : nat) :
  forall st,
    Inv cfg st -> Live st -> service_ok cfg -> (0 < sample_interval cfg)%Q ->
    (potential cfg st < fuel)%nat ->
    exists st', run_loop cfg fuel st = Done st'.
Proof.
  induction fuel as [|fuel IH]; intros st HI HL Hsv Hpos Hpot; [lia|]. simpl.
  destruct (step cfg st) as [st1|st1|e] eqn:Hstep.
  - destruct (step_running st st1 HI Hstep) as (HI1 & _ & HL1 & Hdec).
    apply IH; [exact HI1 | apply HL1; assumption | exact Hsv | exact Hpos |].
    specialize (Hdec Hpos). lia.
  - exists st1. reflexivity.
  - exfalso. exact (step_no_crash st e HI HL Hstep).
Qed.

(** ** The state in which the run starts *)
Lemma unstamped_group_ok (t : Q) (g : PassengerGroup) :
  unstamped g -> group_ok t NotStarted g.
Proof.
  intros (H1 & H2 & H3 & H4 & H5 & H6 & H7 & H8 & H9 & H10 & H11 & H12 & H13).
  assert (Hu : forall s, untouched s g).
  { intros []; unfold untouched; simpl; auto. }
  split; [split; [split|]|split; [exact Hu|split; [contradiction|discriminate]]].
  - intros s. destruct (Hu s) as (-> & -> & ->). simpl. auto.
  - rewrite H13. exact I.
  - intros s. destruct (Hu s) as (Hq & Hs & He). unfold stage_ordered.
    rewrite Hs, He. split; intros x Hx; discriminate.
Qed.

Lemma occupants_not_started (z : string) (n : nat) :
  occupants z (replicate n NotStarted) = O.
Proof. unfold occupants. induction n as [|n IH]; simpl; [reflexivity | exact IH]. Qed.

Lemma initial_inv (res : AirportResources.t) (groups : list PassengerGroup) (r : R) :
  AirportResources.area_calls res = [] -> Forall unstamped groups ->
  (0 < simulation_end cfg)%Q ->
  Inv cfg (schedule Until URGENT
             (simulation_end cfg - now (SimulationEngine.initial res groups r))
             (SimulationEngine.initial res groups r)).
Proof.
  intros Hcalls Hun Hpos. unfold Inv, SimulationEngine.initial.
  sim_cbn. simpl.
  split; [apply length_replicate|]. split; [lra|]. split; [exact Hpos|].
  split.
  { repeat constructor; unfold now; simpl; try lra; try discriminate; try congruence.
    all: try (intros; discriminate). }
  split.
  { eexists. split; [right; right; left | reflexivity]. }
  split; [lia|].
  split.
  { intros i g pc Hg Hpc. apply lookup_replicate in Hpc. destruct Hpc as [-> _].
    apply unstamped_group_ok. rewrite Forall_forall in Hun. apply Hun.
    eapply list_elem_of_lookup_2. exact Hg. }
  split.
  { intros i Hi. apply elem_of_nil in Hi. contradiction. }
  intros z. rewrite Hcalls. rewrite (occupants_not_started z). reflexivity.
Qed.

Lemma initial_live (res : AirportResources.t) (groups : list PassengerGroup) (r : R) (d : Q) :
  NoDup (group_id <$> groups) ->
  Live (schedule Until URGENT d (SimulationEngine.initial res groups r)).
Proof.
  intros Hnd. unfold Live, SimulationEngine.initial. sim_cbn. simpl.
  split; [repeat constructor; intros p e; discriminate|].
  split; [exact Hnd|].
  intros i g pc Hg Hpc Hn. apply lookup_replicate in Hpc. destruct Hpc as [-> _].
  contradiction.
Qed.

Lemma initial_history (res : AirportResources.t) (groups : list PassengerGroup) (r : R)
    (d : Q) :
  AirportResources.area_occupancy_history res = [] ->
  history_ok (schedule Until URGENT d (SimulationEngine.initial res groups r)).
Proof. intros Hh. unfold history_ok, history. simpl. rewrite Hh. constructor. Qed.
End StepFacts.

(** ** What the generation guarantees *)
Section GenerationOrder.
Context {R P : Type} `{NumpyRandom R} `{PyRandom P}.
Import PassengerGroupFactory ArrivalGenerator.

Lemma create_group_facts (f f' : PassengerGroupFactory.t) (a d : Q) (p p' : P)
    (g : PassengerGroup) :
  create_group f a d p = inr (g, f', p') ->
  group_id g = _next_group_id f /\ _next_group_id f' = _next_group_id f + 1 /\
  unstamped g /\ arrival_time g = a /\ departure_time g = d.
Proof.
  unfold create_group. destruct (py_random p) as [u p1].
  destruct (if Qltb u (p_single f) then ok (1, p1)
            else randint (multi_min f) (multi_max f) p1) as [e|[n p2]];
    simpl; [discriminate|].
  destruct (py_random p2) as [rand p3].
  destruct (py_random p3) as [ub p4].
  destruct (Qltb ub (p_baggage f)).
  - destruct (py_random p4) as [uc p5]. intros Hc. injection Hc as <- <- <-.
    unfold unstamped. simpl. repeat split; reflexivity.
  - intros Hc. injection Hc as <- <- <-.
    unfold unstamped. simpl. repeat split; reflexivity.
Qed.

Lemma slot_loop_facts (fuel : nat) (slot : DemandSlot) :
  forall (remaining_pax : Z) (groups out : list PassengerGroup)
         (g g' : ArrivalGenerator.t) (r r' : R) (p p' : P),
    slot_loop fuel slot remaining_pax groups g r p = Done (out, g', r', p') ->
    exists added,
      out = groups ++ added /\ Forall unstamped added /\
      group_id <$> added =
        seqZ (_next_group_id (group_factory g)) (Z.of_nat (length added)) /\
      _next_group_id (group_factory g') =
        _next_group_id (group_factory g) + Z.of_nat (length added).
Proof.
  induction fuel as [|fuel IH]; intros remaining_pax groups out g g' r r' p p'.
  - simpl. destruct (decide (remaining_pax > 0)); [discriminate|].
    intros Hd. injection Hd as <- <- <- <-. exists []. rewrite app_nil_r.
    split; [reflexivity|]. split; [constructor|]. simpl.
    split; [reflexivity | lia].
  - simpl. destruct (decide (remaining_pax > 0)).
    2:{ intros Hd. injection Hd as <- <- <- <-. exists []. rewrite app_nil_r.
        split; [reflexivity|]. split; [constructor|]. simpl.
        split; [reflexivity | lia]. }
    destruct (TruncatedTDistribution.sample_one (arrival_dist g) r) as [e0|[x r1]];
      [discriminate|].
    destruct (create_group (group_factory g) _ _ p) as [e|[[grp f'] p1]] eqn:Hc;
      [discriminate|].
    destruct (create_group_facts _ _ _ _ _ _ _ Hc) as (Hid & Hnext & Hun & _).
    intros Hloop. destruct (IH _ _ _ _ _ _ _ _ _ Hloop) as (added & -> & Hall & Hids & Hn).
    simpl in Hids, Hn. exists (grp :: added).
    split; [rewrite <- app_assoc; reflexivity|].
    split; [constructor; assumption|].
    split.
    + simpl length. rewrite seqZ_cons by lia. rewrite fmap_cons, Hid. f_equal.
      rewrite Hids, Hnext. f_equal; lia.
    + rewrite Hn, Hnext. simpl length. lia.
Qed.

Lemma all_slots_facts (fuel : nat) (slots : list DemandSlot) :
  forall (all_groups out : list PassengerGroup) (g g' : ArrivalGenerator.t)
         (r r' : R) (p p' : P),
    all_slots fuel slots all_groups g r p = Done (out, g', r', p') ->
    exists added,
      out = all_groups ++ added /\ Forall unstamped added /\
      group_id <$> added =
        seqZ (_next_group_id (group_factory g)) (Z.of_nat (length added)) /\
      _next_group_id (group_factory g') =
        _next_group_id (group_factory g) + Z.of_nat (length added).
Proof.
  induction slots as [|slot slots IH]; intros all_groups out g g' r r' p p'; simpl.
  - intros Hd. injection Hd as <- <- <- <-. exists []. rewrite app_nil_r.
    split; [reflexivity|]. split; [constructor|]. simpl. split; [reflexivity | lia].
  - destruct (decide (pax_count slot > 0)); [|apply IH].
    unfold generate_arrivals_for_slot.
    destruct (slot_loop fuel slot (pax_count slot) [] g r p)
      as [[[[groups g1] r1] p1]|e|] eqn:Hs; try discriminate.
    destruct (slot_loop_facts _ _ _ _ _ _ _ _ _ _ _ Hs) as (a1 & Ha1 & Hu1 & Hi1 & Hn1).
    simpl in Ha1. subst groups.
    intros Hrest. destruct (IH _ _ _ _ _ _ _ _ Hrest) as (a2 & -> & Hu2 & Hi2 & Hn2).
    exists (a1 ++ a2). split; [rewrite app_assoc; reflexivity|].
    split; [apply Forall_app; split; assumption|].
    rewrite fmap_app, length_app, Nat2Z.inj_add, seqZ_app by lia.
    split; [rewrite Hi1, Hi2, Hn1; reflexivity | lia].
Qed.

Lemma sort_insert_perm {A} (key : A -> Q) (x : A) (l : list A) :
  sort_insert key x l ≡ₚ x :: l.
Proof.
  induction l as [|y l IH]; simpl; [reflexivity|].
  destruct (Qle_bool (key x) (key y)); [reflexivity|].
  rewrite IH. apply perm_swap.
Qed.

Lemma sort_by_perm {A} (key : A -> Q) (l : list A) : sort_by key l ≡ₚ l.
Proof.
  induction l as [|x l IH]; simpl; [reflexivity|].
  rewrite sort_insert_perm, IH. reflexivity.
Qed.

(** The groups [generate_all_arrivals] returns carry no timestamp and
    pairwise distinct identifiers. *)
Lemma generated_groups_fresh (fuel : nat) (g g' : ArrivalGenerator.t)
    (slots : list DemandSlot) (r r' : R) (p p' : P) (groups : list PassengerGroup) :
  generate_all_arrivals fuel g slots r p = Done (groups, g', r', p') ->
  Forall unstamped groups /\ NoDup (group_id <$> groups).
Proof.
  unfold generate_all_arrivals.
  destruct (all_slots fuel slots [] g r p) as [[[[all g1] r1] p1]|e|] eqn:Ha;
    try discriminate.
  intros Hd. injection Hd as <- _ _ _.
  destruct (all_slots_facts _ _ _ _ _ _ _ _ _ _ Ha) as (added & Hout & Hun & Hids & _).
  simpl in Hout. subst all.
  split.
  - rewrite sort_by_perm. exact Hun.
  - rewrite sort_by_perm, Hids. apply NoDup_seqZ.
Qed.

(** ** More fuel does not change what the generation returns *)
Lemma slot_loop_fuel (fuel : nat) (slot : DemandSlot) :
  forall (fuel' : nat) (remaining_pax : Z) (groups : list PassengerGroup)
         (g : ArrivalGenerator.t) (r : R) (p : P) x,
    (fuel <= fuel')%nat ->
    slot_loop fuel slot remaining_pax groups g r p = Done x ->
    slot_loop fuel' slot remaining_pax groups g r p = Done x.
Proof.
  induction fuel as [|fuel IH]; intros fuel' remaining_pax groups g r p x Hle.
  - simpl. destruct (decide (remaining_pax > 0)) as [Hp|Hp]; [discriminate|].
    intros Hd. destruct fuel'; simpl; destruct (decide (remaining_pax > 0));
      first [contradiction | exact Hd].
  - destruct fuel' as [|fuel']; [lia|]. simpl.
    destruct (decide (remaining_pax > 0)); [|exact (fun Hd => Hd)].
    destruct (TruncatedTDistribution.sample_one (arrival_dist g) r) as [e0|[y r1]];
      [discriminate|].
    destruct (create_group (group_factory g) _ _ p) as [e|[[grp f'] p1]];
      [discriminate|].
    apply IH. lia.
Qed.

Lemma all_slots_fuel (fuel fuel' : nat) (slots : list DemandSlot) :
  (fuel <= fuel')%nat ->
  forall (all_groups : list PassengerGroup) (g : ArrivalGenerator.t) (r : R) (p : P) x,
    all_slots fuel slots all_groups g r p = Done x ->
    all_slots fuel' slots all_groups g r p = Done x.
Proof.
  intros Hle. induction slots as [|slot slots IH]; intros all_groups g r p x; simpl.
  - exact (fun Hd => Hd).
  - destruct (decide (pax_count slot > 0)); [|apply IH].
    unfold generate_arrivals_for_slot.
    destruct (slot_loop fuel slot (pax_count slot) [] g r p)
      as [[[[groups g1] r1] p1]|e|] eqn:Hs; try discriminate.
    rewrite (slot_loop_fuel fuel slot fuel' _ _ _ _ _ _ Hle Hs). apply IH.
Qed.

Lemma generate_all_arrivals_fuel (fuel fuel' : nat) (g : ArrivalGenerator.t)
    (slots : list DemandSlot) (r : R) (p : P) x :
  (fuel <= fuel')%nat ->
  generate_all_arrivals fuel g slots r p = Done x ->
  generate_all_arrivals fuel' g slots r p = Done x.
Proof.
  intros Hle. unfold generate_all_arrivals.
  destruct (all_slots fuel slots [] g r p) as [[[[all g1] r1] p1]|e|] eqn:Ha;
    try discriminate.
  rewrite (all_slots_fuel fuel fuel' slots Hle _ _ _ _ _ Ha). exact (fun Hd => Hd).
Qed.
End GenerationOrder.

(** ** The run as a whole *)
Section RunFacts.
Context {R P : Type} `{NumpyRandom R} `{PyRandom P}.
Import SimulationEngine.

Lemma airport_init_facts (k c b g d : Z) (res : AirportResources.t) :
  AirportResources.init k c b g d = inr res ->
  AirportResources.area_calls res = [] /\
  AirportResources.area_occupancy_history res = [].
Proof.
  unfold AirportResources.init.
  destruct (MonitoredResource.init "checkin_kiosk" k); simpl; [discriminate|].
  destruct (MonitoredResource.init "checkin_counter" c); simpl; [discriminate|].
  destruct (MonitoredResource.init "baggage_counter" b); simpl; [discriminate|].
  destruct (MonitoredResource.init "tag_kiosk" g); simpl; [discriminate|].
  destruct (MonitoredResource.init "drop_point" d); simpl; [discriminate|].
  intros Hr. injection Hr as <-. split; reflexivity.
Qed.

Lemma prepare_facts (self : SimulationEngine.t) (r r1 : R) (res : AirportResources.t)
    (gen : ArrivalGenerator.t) :
  prepare self r = inr (res, gen, r1) ->
  AirportResources.area_calls res = [] /\
  AirportResources.area_occupancy_history res = [].
Proof.
  unfold prepare.
  destruct (seed_if_given _ r) as [e|r0]; simpl; [discriminate|].
  destruct (AirportResources.init _ _ _ _ _) as [e|res0] eqn:Hres; simpl; [discriminate|].
  destruct (PassengerGroupFactory.init _ _ _ _ _ _ _ _) as [e|f]; simpl; [discriminate|].
  destruct (ArrivalGenerator.init _ _ _ _ _ _ _ _) as [e|[gen0 r2]]; simpl; [discriminate|].
  intros Hp. injection Hp as <- _ _. eapply airport_init_facts. exact Hres.
Qed.

Lemma setup_service_ok (self : SimulationEngine.t) (h : Q) :
  service_std_ok (config self) -> service_ok (setup self h).
Proof. intros (Hk & Hc & Hb & Hg & Hd) []; simpl; split; (lra || assumption). Qed.

Lemma last_departure_max (rest : list PassengerGroup) :
  forall first : PassengerGroup,
    (forall g, g ∈ first :: rest -> (departure_time g <= last_departure first rest)%Q) /\
    (exists g, g ∈ first :: rest /\ last_departure first rest = departure_time g).
Proof.
  unfold last_departure.
  assert (Hgen : forall (m : Q),
    (m <= foldl (fun m g => if Qltb m (departure_time g) then departure_time g else m)
            m rest)%Q /\
    (forall g, g ∈ rest ->
       (departure_time g <=
        foldl (fun m g => if Qltb m (departure_time g) then departure_time g else m)
          m rest)%Q) /\
    (foldl (fun m g => if Qltb m (departure_time g) then departure_time g else m) m rest = m \/
     exists g, g ∈ rest /\
       foldl (fun m g => if Qltb m (departure_time g) then departure_time g else m)
         m rest = departure_time g)).
  { induction rest as [|x rest IH]; intros m; simpl.
    - split; [lra|]. split; [|left; reflexivity].
      intros g Hg. apply elem_of_nil in Hg. contradiction.
    - destruct (Qltb m (departure_time x)) eqn:E.
      + apply Qltb_true in E. destruct (IH (departure_time x)) as (H1 & H2 & H3).
        split; [lra|]. split.
        * intros g Hg. apply elem_of_cons in Hg. destruct Hg as [->|Hg]; [exact H1|].
          apply H2. exact Hg.
        * right. destruct H3 as [H3|(g & Hg & H3)].
          -- exists x. split; [left | exact H3].
          -- exists g. split; [right; exact Hg | exact H3].
      + apply Qltb_false in E. destruct (IH m) as (H1 & H2 & H3).
        split; [exact H1|]. split.
        * intros g Hg. apply elem_of_cons in Hg. destruct Hg as [->|Hg]; [lra|].
          apply H2. exact Hg.
        * destruct H3 as [H3|(g & Hg & H3)]; [left; exact H3|].
          right. exists g. split; [right; exact Hg | exact H3]. }
  intros first. destruct (Hgen (departure_time first)) as (H1 & H2 & H3). split.
  - intros g Hg. apply elem_of_cons in Hg. destruct Hg as [->|Hg]; [exact H1|].
    apply H2. exact Hg.
  - destruct H3 as [H3|(g & Hg & H3)].
    + exists first. split; [left | exact H3].
    + exists g. split; [right; exact Hg | exact H3].
Qed.

Lemma env_run_safe (cfg : Setup) (fuel : nat) (res : AirportResources.t)
    (groups : list PassengerGroup) (r : R) (st : Sim R) :
  AirportResources.area_calls res = [] ->
  AirportResources.area_occupancy_history res = [] ->
  Forall unstamped groups ->
  env_run cfg fuel (simulation_end cfg) (initial res groups r) = Done st ->
  exists st0, Inv cfg st0 /\ history_ok st0 /\ step cfg st0 = Stopped st.
Proof.
  intros Hc Hh Hun. unfold env_run.
  destruct (Qle_bool (simulation_end cfg) (now (initial res groups r))) eqn:E;
    [discriminate|].
  assert (Hpos : (0 < simulation_end cfg)%Q).
  { apply Qnot_le_lt. intros Hle. apply Qle_bool_iff in Hle.
    change (now (initial res groups r)) with 0%Q in E. congruence. }
  apply run_loop_safe.
  - apply initial_inv; assumption.
  - apply initial_history. exact Hh.
Qed.

Lemma env_run_total (cfg : Setup) (at_ : Q) (res : AirportResources.t)
    (groups : list PassengerGroup) (r : R) :
  at_ = simulation_end cfg ->
  AirportResources.area_calls res = [] ->
  Forall unstamped groups -> NoDup (group_id <$> groups) ->
  service_ok cfg -> (0 < sample_interval cfg)%Q -> (0 < simulation_end cfg)%Q ->
  exists fuel0, forall fuel, (fuel0 <= fuel)%nat ->
    exists st, env_run cfg fuel at_ (initial res groups r) = Done st.
Proof.
  intros -> Hc Hun Hnd Hsv Hint Hpos.
  exists (S (potential cfg
               (schedule Until URGENT
                  (simulation_end cfg - now (initial res groups r))
                  (initial res groups r)))).
  intros fuel Hfuel. unfold env_run.
  destruct (Qle_bool (simulation_end cfg) (now (initial res groups r))) eqn:E.
  { apply Qle_bool_iff in E. change (now (initial res groups r)) with 0%Q in E. lra. }
  apply run_loop_total; try assumption.
  - apply initial_inv; assumption.
  - apply initial_live. exact Hnd.
Qed.

(** What holds when the [until] event stops the run. *)
Lemma stopped_facts (cfg : Setup) (st0 st : Sim R) :
  Inv cfg st0 -> history_ok st0 -> step cfg st0 = Stopped st ->
  (now st == simulation_end cfg)%Q /\
  (forall z, enters z (calls st) = (leaves z (calls st) + occupants z (pcs st))%nat) /\
  history_ok st /\
  (forall i g, i ∈ completed_groups st -> store st !! i = Some g ->
     (forall s, stage_ordered s g) /\
     exists t, security_arrival g = Some t /\ (arrival_time g <= t)%Q /\
               (t < simulation_end cfg)%Q).
Proof.
  intros HI Hh Hstep.
  destruct (step_stopped cfg st0 st HI Hstep) as (Hnow & Hstore & Hpcs & Hcomp & Hres & _).
  destruct HI as (_ & _ & HnowH & _ & _ & _ & Hgrp & Hdone & Hbal).
  split; [exact Hnow|]. split.
  { intros z. unfold calls. rewrite Hres, Hpcs. apply Hbal. }
  split.
  { unfold history_ok, history. rewrite Hres. exact Hh. }
  intros i g Hi Hg. rewrite Hcomp in Hi. rewrite Hstore in Hg.
  destruct (Hgrp i g Finished Hg (Hdone i Hi)) as ([[_ Hsec] Hord] & _ & _ & Hfin).
  split; [exact Hord|].
  destruct (Hfin eq_refl) as (t & Ht & Ha). exists t.
  split; [exact Ht|]. split; [exact Ha|]. rewrite Ht in Hsec. simpl in Hsec. lra.
Qed.

(** A run that returns from [Environment.run] was stopped by the [until]
    event in a state the invariant holds of. *)
Lemma simulate_safe (fuel : nat) (self : SimulationEngine.t) (slots : list DemandSlot)
    (r r' : R) (p p' : P) (st : Sim R) :
  simulate fuel self slots r p = Done (Some st, r', p') ->
  exists first rest st0,
    Inv (setup self (horizon first rest)) st0 /\ history_ok st0 /\
    step (setup self (horizon first rest)) st0 = Stopped st.
Proof.
  unfold simulate.
  destruct (prepare self r) as [e|[[res gen] r1]] eqn:Hprep; [discriminate|].
  destruct (ArrivalGenerator.generate_all_arrivals fuel gen slots r1 p)
    as [[[[groups gen'] r2] p2]|e|] eqn:Hgen; try discriminate.
  destruct groups as [|first rest]; [discriminate|].
  destruct (env_run _ fuel _ _) as [st1|e|] eqn:Hrun; try discriminate.
  intros Hd. injection Hd as -> _ _.
  destruct (prepare_facts _ _ _ _ _ Hprep) as [Hc Hh].
  destruct (generated_groups_fresh _ _ _ _ _ _ _ _ _ Hgen) as [Hun _].
  exists first, rest.
  exact (env_run_safe (setup self (horizon first rest)) fuel res (first :: rest) r2 st
           Hc Hh Hun Hrun).
Qed.
End RunFacts.

(* ===================================================================== *)
(** * Properties: the run up to the horizon *)
(* ===================================================================== *)

Section Horizon.
Context {R P : Type} `{NumpyRandom R} `{PyRandom P}.
Import SimulationEngine.

(** C9.  For every group among the completed groups of a run that returns
    and for every stage (check-in, baggage counter, tag kiosk, drop
    point): when the end of the service is set, so is its start, and the
    start is not later than the end; when the start of the service is set,
    so is the entry into the queue, and the entry is not later than the
    start. *)
Theorem completed_stages_in_order (fuel : nat) (self : SimulationEngine.t)
    (slots : list DemandSlot) (r r' : R) (p p' : P) (result : SimulationResult.t) :
  run fuel self slots r p = Done (result, r', p') ->
  forall g, g ∈ SimulationResult.completed_groups result ->
  forall s, stage_ordered s g.
Proof.
  unfold run.
  destruct (simulate fuel self slots r p) as [[[[st|] r1] p1]|e|] eqn:Hsim;
    try discriminate.
  - intros Hd. injection Hd as <- _ _. simpl. intros g Hg s.
    destruct (simulate_safe _ _ _ _ _ _ _ _ Hsim) as (first & rest & st0 & HI & Hh & Hstop).
    destruct (stopped_facts _ _ _ HI Hh Hstop) as (_ & _ & _ & Hdone).
    apply list_elem_of_omap in Hg. destruct Hg as (i & Hi & Hgi).
    destruct (Hdone i g Hi Hgi) as [Hord _]. apply Hord.
  - intros Hd. injection Hd as <- _ _. simpl. intros g Hg.
    apply elem_of_nil in Hg. contradiction.
Qed.

(** C4, amended.  When the run is stopped at the horizon, for every zone
    the calls of [leave_area] are not more than the calls of [enter_area],
    and the ones that are missing are those of the groups whose process
    is still suspended inside the zone; no recorded occupancy counts a
    negative number of groups. *)
Theorem zone_balance_at_the_horizon (fuel : nat) (self : SimulationEngine.t)
    (slots : list DemandSlot) (r r' : R) (p p' : P) (st : Sim R) :
  simulate fuel self slots r p = Done (Some st, r', p') ->
  (forall z, (leaves z (calls st) <= enters z (calls st))%nat /\
             enters z (calls st) = (leaves z (calls st) + occupants z (pcs st))%nat) /\
  Forall (fun a => 0 <= AreaOccupancy.group_count a)
    (AirportResources.area_occupancy_history (resources st)).
Proof.
  intros Hsim.
  destruct (simulate_safe _ _ _ _ _ _ _ _ Hsim) as (first & rest & st0 & HI & Hh & Hstop).
  destruct (stopped_facts _ _ _ HI Hh Hstop) as (_ & Hbal & Hhist & _).
  split; [|exact Hhist]. intros z. specialize (Hbal z). split; [lia | exact Hbal].
Qed.

(** C8.  The horizon is the largest departure time of the generated
    groups plus the buffer.  A run that returns has its clock at the
    horizon, and every one of its completed groups arrived at the security
    gate before the horizon, not earlier than it arrived at the airport: a
    group that arrives at the horizon or later, or is still under way at
    the horizon, is not among the completed groups.  With a positive
    horizon, a positive sampling interval that the float clock does not
    absorb below the horizon, and no negative standard deviation of a
    service time, the run does return, for every large enough fuel and
    without an error. *)
Theorem horizon_truncation (self : SimulationEngine.t) (slots : list DemandSlot)
    (r r1 r2 : R) (p p2 : P) (res : AirportResources.t)
    (gen gen' : ArrivalGenerator.t) (fuel_g : nat)
    (first : PassengerGroup) (rest : list PassengerGroup) :
  prepare self r = inr (res, gen, r1) ->
  ArrivalGenerator.generate_all_arrivals fuel_g gen slots r1 p =
    Done (first :: rest, gen', r2, p2) ->
  (0 < SimulationConfig.sample_interval_sec (config self))%Q ->
  (0 < horizon first rest)%Q ->
  (forall g, g ∈ first :: rest -> (departure_time g + buffer <= horizon first rest)%Q) /\
  (exists g, g ∈ first :: rest /\ (horizon first rest == departure_time g + buffer)%Q) /\
  (forall fuel result r' p',
     run fuel self slots r p = Done (result, r', p') ->
     (SimulationResult.simulation_duration_sec result == horizon first rest)%Q /\
     forall g, g ∈ SimulationResult.completed_groups result ->
       exists t, security_arrival g = Some t /\
                 (arrival_time g <= t)%Q /\ (t < horizon first rest)%Q) /\
  (service_std_ok (config self) ->
   interval_not_absorbed (config self) (horizon first rest) ->
   exists fuel0, forall fuel, (fuel0 <= fuel)%nat ->
     exists result r' p', run fuel self slots r p = Done (result, r', p')).
Proof.
  intros Hprep Hgen Hint Hpos.
  destruct (last_departure_max rest first) as [Hmax (gm & Hgm & Hlast)].
  split; [intros g Hg; unfold horizon; specialize (Hmax g Hg); lra|].
  split; [exists gm; split; [exact Hgm | unfold horizon; rewrite Hlast; reflexivity]|].
  destruct (prepare_facts _ _ _ _ _ Hprep) as [Hc Hh].
  destruct (generated_groups_fresh _ _ _ _ _ _ _ _ _ Hgen) as [Hun Hnd].
  split.
  - intros fuel result r' p'. unfold run, simulate. rewrite Hprep.
    destruct (ArrivalGenerator.generate_all_arrivals fuel gen slots r1 p)
      as [x|e|] eqn:Hgen'; try discriminate.
    assert (Hx : x = (first :: rest, gen', r2, p2)).
    { pose proof (generate_all_arrivals_fuel fuel (Nat.max fuel fuel_g) _ _ _ _ _
                    ltac:(lia) Hgen') as H1.
      pose proof (generate_all_arrivals_fuel fuel_g (Nat.max fuel fuel_g) _ _ _ _ _
                    ltac:(lia) Hgen) as H2.
      congruence. }
    subst x.
    destruct (env_run _ fuel _ _) as [st|e|] eqn:Hrun; try discriminate.
    intros Hd. injection Hd as <- _ _.
    destruct (env_run_safe (setup self (horizon first rest)) fuel res (first :: rest) r2 st
                Hc Hh Hun Hrun) as (st0 & HI & Hh0 & Hstop).
    destruct (stopped_facts _ _ _ HI Hh0 Hstop) as (Hnow & _ & _ & Hdone).
    split; [exact Hnow|].
    intros g Hg. simpl in Hg. apply list_elem_of_omap in Hg.
    destruct Hg as (i & Hi & Hgi).
    destruct (Hdone i g Hi Hgi) as [_ Ht]. exact Ht.
  - intros Hstd _.
    destruct (env_run_total (setup self (horizon first rest)) (horizon first rest) res
                (first :: rest) r2 eq_refl Hc Hun Hnd (setup_service_ok self _ Hstd)
                Hint Hpos) as (fuel1 & Htotal).
    exists (Nat.max fuel_g fuel1). intros fuel Hfuel.
    destruct (Htotal fuel ltac:(lia)) as (st & Hrun).
    exists (collect self st), (np st), p2.
    unfold run, simulate. rewrite Hprep.
    rewrite (generate_all_arrivals_fuel fuel_g fuel _ _ _ _ _ ltac:(lia) Hgen).
    rewrite Hrun. reflexivity.
Qed.
End Horizon.

(** C4, as stated, fails.  One group of four checks in at the only
    counter, where the service outlasts the horizon: when the run is
    stopped the group has entered the check-in zone and has not left it. *)
Lemma zone_still_occupied_at_the_horizon :
  exists st r' p',
    SimulationEngine.simulate 100 (engine_of slow_counter_config) [example_slot]
      ([] : Tape) counter_tape = Done (Some st, r', p') /\
    pcs st = [InService CheckinCounter] /\
    enters "checkin_zone" (calls st) = 1%nat /\
    leaves "checkin_zone" (calls st) = 0%nat.
Proof.
  eexists _, _, _. split; [vm_compute; reflexivity|].
  split; [reflexivity|]. split; reflexivity.
Qed.

Lemma zone_balance_at_the_horizon_witness :
  exists st r' p',
    SimulationEngine.simulate 100 (engine_of replay_config) [example_slot]
      ([] : Tape) replay_tape = Done (Some st, r', p') /\
    (forall z, (leaves z (calls st) <= enters z (calls st))%nat /\
               enters z (calls st) = (leaves z (calls st) + occupants z (pcs st))%nat) /\
    Forall (fun a => 0 <= AreaOccupancy.group_count a)
      (AirportResources.area_occupancy_history (resources st)).
Proof.
  eexists _, _, _.
  split; [vm_compute; reflexivity|].
  apply (zone_balance_at_the_horizon 100 (engine_of replay_config) [example_slot]
           ([] : Tape) ([] : Tape) replay_tape [9 # 10; 9 # 10; 9 # 10; 9 # 10]%Q).
  vm_compute. reflexivity.
Defined.

Lemma completed_stages_in_order_witness :
  exists result r' p',
    SimulationEngine.run 100 (engine_of one_kiosk_config) [example_slot]
      ([] : Tape) stage_tape = Done (result, r', p') /\
    length (SimulationResult.completed_groups result) = 3%nat /\
    (forall s, Exists (fun g => is_Some (end_of s g))
                 (SimulationResult.completed_groups result)) /\
    Exists (fun g => exists tq ts te,
                queue_enter_of CheckinKiosk g = Some tq /\
                start_of CheckinKiosk g = Some ts /\
                end_of CheckinKiosk g = Some te /\
                (tq < ts)%Q /\ (ts < te)%Q)
      (SimulationResult.completed_groups result) /\
    forall g, g ∈ SimulationResult.completed_groups result ->
    forall s, stage_ordered s g.
Proof.
  eexists _, _, _.
  split; [vm_compute; reflexivity|]. split; [reflexivity|].
  split.
  { intros []; simpl.
    - apply Exists_cons_hd. eexists. reflexivity.
    - apply Exists_cons_hd. eexists. reflexivity.
    - apply Exists_cons_tl, Exists_cons_hd. eexists. reflexivity.
    - do 2 apply Exists_cons_tl. apply Exists_cons_hd. eexists. reflexivity.
    - do 2 apply Exists_cons_tl. apply Exists_cons_hd. eexists. reflexivity. }
  split.
  { apply Exists_cons_hd. eexists _, _, _.
    split; [reflexivity|]. split; [reflexivity|]. split; [reflexivity|].
    split; reflexivity. }
  apply (completed_stages_in_order 100 (engine_of one_kiosk_config) [example_slot]
           ([] : Tape) ([] : Tape) stage_tape ([] : Tape)).
  vm_compute. reflexivity.
Defined.

Lemma horizon_truncation_witness :
  exists first rest,
    (SimulationEngine.horizon first rest == 12600)%Q /\
    service_std_ok (SimulationEngine.config (engine_of slow_counter_config)) /\
    interval_not_absorbed (SimulationEngine.config (engine_of slow_counter_config))
      (SimulationEngine.horizon first rest) /\
    (forall g, g ∈ first :: rest ->
       (departure_time g + SimulationEngine.buffer <=
        SimulationEngine.horizon first rest)%Q) /\
    (exists g, g ∈ first :: rest /\
       (SimulationEngine.horizon first rest ==
        departure_time g + SimulationEngine.buffer)%Q) /\
    (forall fuel result r' p',
       SimulationEngine.run fuel (engine_of slow_counter_config) [example_slot]
         ([] : Tape) counter_tape = Done (result, r', p') ->
       (SimulationResult.simulation_duration_sec result ==
        SimulationEngine.horizon first rest)%Q /\
       forall g, g ∈ SimulationResult.completed_groups result ->
         exists t, security_arrival g = Some t /\
                   (arrival_time g <= t)%Q /\
                   (t < SimulationEngine.horizon first rest)%Q) /\
    (service_std_ok (SimulationEngine.config (engine_of slow_counter_config)) ->
     interval_not_absorbed (SimulationEngine.config (engine_of slow_counter_config))
       (SimulationEngine.horizon first rest) ->
     exists fuel0, forall fuel, (fuel0 <= fuel)%nat ->
       exists result r' p',
         SimulationEngine.run fuel (engine_of slow_counter_config) [example_slot]
           ([] : Tape) counter_tape = Done (result, r', p')).
Proof.
  eexists _, _. split; cycle 1.
  - split; [repeat split; vm_compute; discriminate|]. split; cycle 1.
    + eapply (horizon_truncation (engine_of slow_counter_config) [example_slot]
                ([] : Tape)) with (fuel_g := 100%nat).
      * vm_compute; reflexivity.
      * vm_compute; reflexivity.
      * reflexivity.
      * vm_compute; reflexivity.
    + vm_compute; discriminate.
  - vm_compute; reflexivity.
Defined.

(* ===================================================================== *)
(** * Further properties: passenger groups *)
(* ===================================================================== *)

Section GroupCreation.
Context {P : Type} `{PyRandom P}.
Import PassengerGroupFactory.

(** [create_group] fails exactly when a group of several is drawn while
    [multi_min > multi_max]: the [ValueError] of [random.randint] on an
    empty range.  Nothing else in it can fail. *)
Theorem create_group_raises_iff (f : PassengerGroupFactory.t) (a d : Q) (p : P) :
  (exists e, create_group f a d p = inl e) <->
  (Qltb (py_random p).1 (p_single f) = false /\ multi_max f < multi_min f).
Proof.
  unfold create_group. destruct (py_random p) as [u p1]. simpl.
  destruct (Qltb u (p_single f)) eqn:Hu.
  - simpl. split.
    + intros [e He]. destruct (py_random p1) as [rand p3].
      destruct (py_random p3) as [ub p4].
      destruct (Qltb ub (p_baggage f)); [destruct (py_random p4)|]; discriminate.
    + intros [Hf _]. discriminate.
  - unfold randint. destruct (decide (multi_max f + 1 - multi_min f > 0)) as [Hw|Hw].
    + destruct (py_randbelow _ p1) as [k p2]. simpl. split.
      * intros [e He]. destruct (py_random p2) as [rand p3].
        destruct (py_random p3) as [ub p4].
        destruct (Qltb ub (p_baggage f)); [destruct (py_random p4)|]; discriminate.
      * intros [_ Hlt]. lia.
    + simpl. split.
      * intros _. split; [reflexivity | lia].
      * intros _. exists ValueError. reflexivity.
Qed.

End GroupCreation.

Section GroupShape.
Context {P : Type} `{PyRandomLaws P}.
Import PassengerGroupFactory.

(** What every group [create_group] returns looks like: it carries the
    factory's counter as identifier and the counter moves on by one; its
    size is one or lies between [multi_min] and [multi_max]; it has
    baggage exactly when its way of dropping baggage is not [NONE]; no
    timestamp is set and it stands at the source. *)
Theorem create_group_shape (f f' : PassengerGroupFactory.t) (a d : Q) (p p' : P)
    (g : PassengerGroup) :
  create_group f a d p = inr (g, f', p') ->
  group_id g = _next_group_id f /\
  _next_group_id f' = _next_group_id f + 1 /\
  (group_size g = 1 \/ multi_min f <= group_size g <= multi_max f) /\
  (has_baggage g = true <-> baggage_drop_type g <> BaggageDropType.NONE) /\
  arrival_time g = a /\ departure_time g = d /\
  unstamped g /\
  (current_x g, current_y g, current_node g) = (0%Q, 0%Q, "source").
Proof.
  unfold create_group. destruct (py_random p) as [u p1].
  assert (Hsize : forall n p2,
    (if Qltb u (p_single f) then ok (1, p1)
     else randint (multi_min f) (multi_max f) p1) = inr (n, p2) ->
    n = 1 \/ multi_min f <= n <= multi_max f).
  { intros n p2. destruct (Qltb u (p_single f)).
    - intros Hn. injection Hn as <- _. left. reflexivity.
    - unfold randint. destruct (decide (multi_max f + 1 - multi_min f > 0)); [|discriminate].
      pose proof (py_randbelow_range (multi_max f + 1 - multi_min f) p1 ltac:(lia)) as Hr.
      destruct (py_randbelow (multi_max f + 1 - multi_min f) p1) as [k p2'].
      intros Hn. injection Hn as <- _. simpl in Hr. right. lia. }
  destruct (if Qltb u (p_single f) then ok (1, p1)
            else randint (multi_min f) (multi_max f) p1) as [e|[n p2]];
    simpl; [discriminate|].
  specialize (Hsize n p2 eq_refl).
  destruct (py_random p2) as [rand p3].
  destruct (py_random p3) as [ub p4].
  destruct (Qltb ub (p_baggage f)).
  - destruct (py_random p4) as [uc p5]. intros Hc. injection Hc as <- <- <-.
    unfold unstamped. simpl.
    refine (conj eq_refl (conj eq_refl (conj Hsize (conj _ (conj eq_refl (conj eq_refl
             (conj _ eq_refl))))))).
    + split; [intros _|reflexivity]. destruct (Qltb uc (p_baggage_counter f)); discriminate.
    + repeat split; reflexivity.
  - intros Hc. injection Hc as <- <- <-.
    unfold unstamped. simpl.
    refine (conj eq_refl (conj eq_refl (conj Hsize (conj _ (conj eq_refl (conj eq_refl
             (conj _ eq_refl))))))).
    + split; [discriminate | intros Hn; contradiction].
    + repeat split; reflexivity.
Qed.
End GroupShape.

Lemma create_group_shape_witness :
  exists g f' p',
    PassengerGroupFactory.create_group example_factory 4800 9000
      ([9 # 10; 9 # 10; 9 # 10; 1 # 10; 9 # 10]%Q : Tape) = inr (g, f', p') /\
    group_id g = 0 /\ group_size g = 4 /\
    (has_baggage g = true <-> baggage_drop_type g <> BaggageDropType.NONE).
Proof.
  eexists _, _, _. split; [vm_compute; reflexivity|].
  split; [reflexivity|]. split; [reflexivity|].
  apply (create_group_shape example_factory
           (PassengerGroupFactory.bump example_factory) 4800 9000
           ([9 # 10; 9 # 10; 9 # 10; 1 # 10; 9 # 10]%Q : Tape) []).
  vm_compute. reflexivity.
Defined.

(** [__post_init__]: a group has as many passengers as its size says;
    each carries the identifier of the group, and no two passengers of the
    group share an identifier. *)
Theorem passengers_of_group (g : PassengerGroup) :
  length (passengers g) = Z.to_nat (group_size g) /\
  Forall (fun x => x.2 = group_id g) (passengers g) /\
  (forall i : nat, (i < Z.to_nat (group_size g))%nat ->
     passengers g !! i = Some (group_id g * 100 + Z.of_nat i, group_id g)) /\
  NoDup (passengers g).*1.
Proof.
  unfold passengers. split; [rewrite length_map, length_seqZ; reflexivity|].
  split.
  { change (List.map ?f ?l) with (f <$> l). apply Forall_fmap, Forall_forall.
    intros i _. reflexivity. }
  split.
  { intros i Hi. change (List.map ?f ?l) with (f <$> l).
    rewrite list_lookup_fmap, lookup_seqZ_lt by lia. simpl. reflexivity. }
  change (List.map ?f ?l) with (f <$> l). rewrite <- list_fmap_compose.
  apply NoDup_fmap_2; [|apply NoDup_seqZ].
  intros x y Hxy. simpl in Hxy. lia.
Qed.

(** The passenger identifiers [group_id * 100 + i] of two groups with
    different identifiers do not meet as long as no group has more than a
    hundred passengers. *)
Theorem passenger_ids_disjoint (g1 g2 : PassengerGroup) :
  group_id g1 <> group_id g2 ->
  group_size g1 <= 100 -> group_size g2 <= 100 ->
  Forall (fun x => x ∉ (passengers g2).*1) (passengers g1).*1.
Proof.
  intros Hne H1 H2. apply Forall_forall. intros x Hx1 Hx2. unfold passengers in *.
  change (List.map ?f ?l) with (f <$> l) in *.
  rewrite <- list_fmap_compose in Hx1, Hx2.
  apply list_elem_of_fmap in Hx1. destruct Hx1 as (i & -> & Hi).
  apply list_elem_of_fmap in Hx2. destruct Hx2 as (j & Hij & Hj).
  apply elem_of_seqZ in Hi, Hj. simpl in Hij. lia.
Qed.

Lemma passenger_ids_disjoint_witness :
  Forall (fun x => x ∉ (passengers (mkPassengerGroup 1 2 0 0 CheckinType.ONLINE false
           BaggageDropType.NONE None None None None None None None None None None
           None None None 0 0 "source")).*1)
    (passengers (mkPassengerGroup 0 4 0 0 CheckinType.ONLINE false
           BaggageDropType.NONE None None None None None None None None None None
           None None None 0 0 "source")).*1.
Proof. apply passenger_ids_disjoint; simpl; lia. Defined.

(** A group of 101 shares the passenger identifier 100 with the group
    that follows it. *)
Example passenger_ids_meet_beyond_a_hundred :
  (100 : Z) ∈ (passengers (mkPassengerGroup 0 101 0 0 CheckinType.ONLINE false
           BaggageDropType.NONE None None None None None None None None None None
           None None None 0 0 "source")).*1 /\
  (100 : Z) ∈ (passengers (mkPassengerGroup 1 2 0 0 CheckinType.ONLINE false
           BaggageDropType.NONE None None None None None None None None None None
           None None None 0 0 "source")).*1.
Proof. split; vm_compute; set_solver. Qed.

Section CompletedTimes.
Context {R P : Type} `{NumpyRandom R} `{PyRandom P}.
Import SimulationEngine.

(** For every completed group of a run that returns, the waiting times
    the group reports are never negative, and the time from its arrival
    to the security gate is known and not negative. *)
Theorem completed_wait_times_not_negative (fuel : nat) (self : SimulationEngine.t)
    (slots : list DemandSlot) (r r' : R) (p p' : P) (result : SimulationResult.t) :
  run fuel self slots r p = Done (result, r', p') ->
  Forall (fun g =>
            (forall w, checkin_wait_time g = Some w -> (0 <= w)%Q) /\
            (forall w, baggage_counter_wait_time g = Some w -> (0 <= w)%Q) /\
            (forall w, tag_wait_time g = Some w -> (0 <= w)%Q) /\
            (forall w, drop_wait_time g = Some w -> (0 <= w)%Q) /\
            exists t, total_process_time g = Some t /\ (0 <= t)%Q)
    (SimulationResult.completed_groups result).
Proof.
  unfold run.
  destruct (simulate fuel self slots r p) as [[[[st|] r1] p1]|e|] eqn:Hsim;
    try discriminate.
  2:{ intros Hd. injection Hd as <- _ _. constructor. }
  intros Hd. injection Hd as <- _ _. simpl. apply Forall_forall. intros g Hg.
  destruct (simulate_safe _ _ _ _ _ _ _ _ Hsim) as (first & rest & st0 & HI & Hh & Hstop).
  destruct (stopped_facts _ _ _ HI Hh Hstop) as (_ & _ & _ & Hdone).
  apply list_elem_of_omap in Hg. destruct Hg as (i & Hi & Hgi).
  destruct (Hdone i g Hi Hgi) as [Hord (t & Ht & Ha & _)].
  assert (Hwait : forall s enter start,
            queue_enter_of s g = Some enter -> start_of s g = Some start ->
            (0 <= start - enter)%Q).
  { intros s enter start He Hs. destruct (Hord s) as [_ Hq].
    destruct (Hq start Hs) as (tq & Htq & Hle). rewrite He in Htq. injection Htq as <-. lra. }
  split.
  { intros w. unfold checkin_wait_time.
    destruct (checkin_type g).
    - intros Hw. injection Hw as <-. lra.
    - destruct (checkin_queue_enter g) as [enter|] eqn:He; [|discriminate].
      destruct (checkin_start g) as [start|] eqn:Hs; [|discriminate].
      intros Hw. injection Hw as <-. apply (Hwait CheckinKiosk); assumption.
    - destruct (checkin_queue_enter g) as [enter|] eqn:He; [|discriminate].
      destruct (checkin_start g) as [start|] eqn:Hs; [|discriminate].
      intros Hw. injection Hw as <-. apply (Hwait CheckinKiosk); assumption. }
  split.
  { intros w. unfold baggage_counter_wait_time.
    destruct (baggage_counter_queue_enter g) as [enter|] eqn:He; [|discriminate].
    destruct (baggage_counter_start g) as [start|] eqn:Hs; [|discriminate].
    intros Hw. injection Hw as <-. apply (Hwait BaggageCounter); assumption. }
  split.
  { intros w. unfold tag_wait_time.
    destruct (tag_queue_enter g) as [enter|] eqn:He; [|discriminate].
    destruct (tag_start g) as [start|] eqn:Hs; [|discriminate].
    intros Hw. injection Hw as <-. apply (Hwait TagKiosk); assumption. }
  split.
  { intros w. unfold drop_wait_time.
    destruct (drop_queue_enter g) as [enter|] eqn:He; [|discriminate].
    destruct (drop_start g) as [start|] eqn:Hs; [|discriminate].
    intros Hw. injection Hw as <-. apply (Hwait DropPoint); assumption. }
  exists (t - arrival_time g)%Q. unfold total_process_time. rewrite Ht.
  split; [reflexivity | lra].
Qed.
End CompletedTimes.

Lemma completed_wait_times_not_negative_witness :
  exists result r' p',
    SimulationEngine.run 100 (engine_of replay_config) [example_slot]
      ([] : Tape) replay_tape = Done (result, r', p') /\
    length (SimulationResult.completed_groups result) = 3%nat /\
    Forall (fun g =>
              (forall w, checkin_wait_time g = Some w -> (0 <= w)%Q) /\
              (forall w, baggage_counter_wait_time g = Some w -> (0 <= w)%Q) /\
              (forall w, tag_wait_time g = Some w -> (0 <= w)%Q) /\
              (forall w, drop_wait_time g = Some w -> (0 <= w)%Q) /\
              exists t, total_process_time g = Some t /\ (0 <= t)%Q)
      (SimulationResult.completed_groups result).
Proof.
  eexists _, _, _.
  split; [vm_compute; reflexivity|]. split; [vm_compute; reflexivity|].
  apply (completed_wait_times_not_negative 100 (engine_of replay_config) [example_slot]
           ([] : Tape) ([] : Tape) replay_tape [9 # 10; 9 # 10; 9 # 10; 9 # 10]%Q).
  vm_compute. reflexivity.
Defined.

(* ===================================================================== *)
(** * Further properties: the distributions *)
(* ===================================================================== *)

Section ServiceTimes.
Context {R : Type} `{NumpyRandom R}.

(** [ServiceTimeDistribution.sample], for a size and a standard deviation
    that are not negative, returns [size] service times, none below
    [min_time]. *)
Theorem service_times_not_below_min_time (d : ServiceTimeDistribution.t) (size : Z)
    (r : R) :
  0 <= size -> (0 <= ServiceTimeDistribution.std d)%Q ->
  exists xs r',
    ServiceTimeDistribution.sample d size r = inr (xs, r') /\
    length xs = Z.to_nat size /\
    Forall (fun x => (ServiceTimeDistribution.min_time d <= x)%Q) xs.
Proof.
  intros Hsize Hstd. unfold ServiceTimeDistribution.sample, np_normal.
  assert (Hs : Qltb (ServiceTimeDistribution.std d) 0 = false)
    by (unfold Qltb; apply negb_false_iff, Qle_bool_iff; exact Hstd).
  rewrite Hs. rewrite bool_decide_eq_false_2 by lia. simpl.
  pose proof (draw_n_length
                (fun r0 : R => let (z, r'0) := np_standard_normal r0 in
                   ((ServiceTimeDistribution.mean d + ServiceTimeDistribution.std d * z)%Q,
                    r'0)) (Z.to_nat size) r) as Hlen.
  destruct (draw_n _ (Z.to_nat size) r) as [samples r1]. simpl in *.
  eexists _, _. split; [reflexivity|].
  split; [rewrite length_map; exact Hlen|].
  change (List.map ?f ?l) with (f <$> l). apply Forall_fmap, Forall_forall.
  intros x _. simpl. unfold ServiceTimeDistribution.Qmaximum.
  destruct (Qle_bool x (ServiceTimeDistribution.min_time d)) eqn:E.
  - apply Qle_refl.
  - apply Qlt_le_weak, Qnot_le_lt. intros Hle. apply Qle_bool_iff in Hle. congruence.
Qed.
End ServiceTimes.

Lemma service_times_not_below_min_time_witness :
  exists xs r',
    ServiceTimeDistribution.sample (ServiceTimeDistribution.init 70 15) 3
      ([-10; 0; 2]%Q : Tape) = inr (xs, r') /\
    length xs = 3%nat /\ Forall (fun x => (1 <= x)%Q) xs.
Proof.
  apply (service_times_not_below_min_time (ServiceTimeDistribution.init 70 15) 3
           ([-10; 0; 2]%Q : Tape)).
  - lia.
  - simpl. lra.
Defined.

Example service_time_is_clamped :
  exists xs r',
    ServiceTimeDistribution.sample (ServiceTimeDistribution.init 70 15) 3
      ([-10; 0; 2]%Q : Tape) = inr (xs, r') /\
    Forall2 Qeq xs [1; 70; 100]%Q.
Proof. eexists _, _. split; [vm_compute; reflexivity|]. repeat constructor. Qed.

Example service_time_rejects_negative_std :
  ServiceTimeDistribution.sample (ServiceTimeDistribution.init 70 (-15)) 3
    ([-10; 0; 2]%Q : Tape) = inl ValueError.
Proof. reflexivity. Qed.

Lemma np_clip_unit (a : Q) : (0 <= np_clip a 0 1 <= 1)%Q.
Proof.
  unfold np_clip. destruct (Qltb a 0) eqn:Ea.
  - destruct (Qltb 1 0) eqn:E1; [apply Qltb_true in E1; lra | lra].
  - apply Qltb_false in Ea. destruct (Qltb 1 a) eqn:E1; [lra|].
    apply Qltb_false in E1. lra.
Qed.

Lemma np_clip_inside (a : Q) : (0 <= a <= 1)%Q -> (np_clip a 0 1 == a)%Q.
Proof.
  intros [H0 H1]. unfold np_clip. destruct (Qltb a 0) eqn:Ea.
  - apply Qltb_true in Ea. lra.
  - destruct (Qltb 1 a) eqn:E1; [apply Qltb_true in E1; lra | reflexivity].
Qed.

Lemma np_clip_below (a : Q) : (a <= 0)%Q -> (np_clip a 0 1 == 0)%Q.
Proof.
  intros H0. unfold np_clip. destruct (Qltb a 0) eqn:Ea.
  - destruct (Qltb 1 0) eqn:E1; [apply Qltb_true in E1; lra | reflexivity].
  - apply Qltb_false in Ea. destruct (Qltb 1 a) eqn:E1; [apply Qltb_true in E1; lra | lra].
Qed.

Lemma np_clip_above (a : Q) : (1 <= a)%Q -> (np_clip a 0 1 == 1)%Q.
Proof.
  intros H1. unfold np_clip. destruct (Qltb a 0) eqn:Ea.
  - apply Qltb_true in Ea. lra.
  - destruct (Qltb 1 a) eqn:E1; [reflexivity | apply Qltb_false in E1; lra].
Qed.

Section DensityFacts.
Context (t_pdf t_cdf : Q -> Q).
Import TruncatedTDistribution.

(** [TruncatedTDistribution.cdf], for a distribution function that does
    not decrease and puts mass between the bounds: every value lies in
    [[0, 1]]; it is 0 up to [lower], 1 from [upper] on, and in between the
    share of the mass between the bounds that lies below the point. *)
Theorem truncated_cdf_spec (d : TruncatedTDistribution.t) (x : list Q) :
  (forall a b, (a <= b)%Q -> (t_cdf a <= t_cdf b)%Q) ->
  (t_cdf (lower d) < t_cdf (upper d))%Q ->
  Forall2 (fun xi c =>
             (0 <= c <= 1)%Q /\
             ((xi <= lower d)%Q -> (c == 0)%Q) /\
             ((upper d <= xi)%Q -> (c == 1)%Q) /\
             ((lower d <= xi <= upper d)%Q ->
              (c == (t_cdf xi - t_cdf (lower d)) / (t_cdf (upper d) - t_cdf (lower d)))%Q))
    x (truncated_cdf t_cdf d x).
Proof.
  intros Hmono Hmass. unfold truncated_cdf.
  induction x as [|xi x IH]; simpl; [constructor|]. constructor; [|exact IH].
  set (n := (t_cdf (upper d) - t_cdf (lower d))%Q).
  assert (Hn : (0 < n)%Q) by (unfold n; lra).
  assert (Hdiv : forall a, (a <= 0 -> a / n <= 0)%Q /\ (n <= a -> 1 <= a / n)%Q /\
                           (0 <= a -> a <= n -> 0 <= a / n /\ a / n <= 1)%Q).
  { intros a. split; [|split].
    - intros Ha. apply Qle_shift_div_r; [exact Hn | lra].
    - intros Ha. apply Qle_shift_div_l; [exact Hn | lra].
    - intros Ha0 Ha1. split.
      + apply Qle_shift_div_l; [exact Hn | lra].
      + apply Qle_shift_div_r; [exact Hn | lra]. }
  split; [apply np_clip_unit|]. split; [|split].
  - intros Hx. apply np_clip_below. apply Hdiv. specialize (Hmono _ _ Hx). lra.
  - intros Hx. apply np_clip_above. apply Hdiv. specialize (Hmono _ _ Hx). unfold n. lra.
  - intros [Hl Hu]. apply np_clip_inside.
    pose proof (Hmono _ _ Hl). pose proof (Hmono _ _ Hu).
    apply Hdiv; unfold n; lra.
Qed.

(** [TruncatedTDistribution.pdf]: the density is 0 outside the bounds and,
    within them, the density of the t-distribution divided by the mass
    between the bounds. *)
Theorem truncated_pdf_spec (d : TruncatedTDistribution.t) (x : list Q) :
  Forall2 (fun xi v =>
             ((xi < lower d)%Q \/ (upper d < xi)%Q -> v = 0%Q) /\
             ((lower d <= xi <= upper d)%Q ->
              v = (t_pdf xi / (t_cdf (upper d) - t_cdf (lower d)))%Q))
    x (truncated_pdf t_pdf t_cdf d x).
Proof.
  unfold truncated_pdf. induction x as [|xi x IH]; simpl; [constructor|].
  constructor; [|exact IH]. unfold valid.
  destruct (Qle_bool (lower d) xi) eqn:E1; destruct (Qle_bool xi (upper d)) eqn:E2; simpl.
  - split; [|reflexivity]. apply Qle_bool_iff in E1, E2. intros [Hx|Hx]; lra.
  - split; [reflexivity|]. intros [_ Hu]. apply Qle_bool_iff in Hu. congruence.
  - split; [reflexivity|]. intros [Hl _]. apply Qle_bool_iff in Hl. congruence.
  - split; [reflexivity|]. intros [Hl _]. apply Qle_bool_iff in Hl. congruence.
Qed.
End DensityFacts.

Lemma truncated_cdf_spec_witness :
  Forall2 (fun xi c =>
             (0 <= c <= 1)%Q /\
             ((xi <= 20)%Q -> (c == 0)%Q) /\
             ((120 <= xi)%Q -> (c == 1)%Q) /\
             ((20 <= xi <= 120)%Q -> (c == (xi - 20) / (120 - 20))%Q))
    [10; 20; 70; 120; 130]%Q
    (truncated_cdf (fun x => x) sample_witness_dist [10; 20; 70; 120; 130]%Q).
Proof.
  apply (truncated_cdf_spec (fun x => x) sample_witness_dist [10; 20; 70; 120; 130]%Q).
  - intros a b Hab. exact Hab.
  - reflexivity.
Defined.

(* ===================================================================== *)
(** * Further properties: areas and stations *)
(* ===================================================================== *)

Lemma last_recorded_snoc_same (z : string) (h : list AreaOccupancy.t)
    (o : AreaOccupancy.t) :
  AreaOccupancy.area_name o = z ->
  last_recorded z (h ++ [o]) =
  Some (AreaOccupancy.group_count o, AreaOccupancy.pax_count o).
Proof.
  intros Hz. unfold last_recorded. rewrite List.filter_app. simpl.
  rewrite bool_decide_eq_true_2 by exact Hz. rewrite last_snoc. reflexivity.
Qed.

Lemma last_recorded_snoc_other (z : string) (h : list AreaOccupancy.t)
    (o : AreaOccupancy.t) :
  AreaOccupancy.area_name o <> z ->
  last_recorded z (h ++ [o]) = last_recorded z h.
Proof.
  intros Hz. unfold last_recorded. rewrite List.filter_app. simpl.
  rewrite bool_decide_eq_false_2 by exact Hz. rewrite app_nil_r. reflexivity.
Qed.

(** The history is a faithful log of the areas: after any sequence of
    [enter_area] and [leave_area] calls on freshly built resources, the
    last record of an area shows its current occupancy, and an area
    without a record is empty. *)
Theorem history_shows_current_occupancy (k c b g d : Z) (res : AirportResources.t)
    (ops : list AreaOp) (z : string) :
  AirportResources.init k c b g d = inr res ->
  default (0, 0)
    (last_recorded z
       (AirportResources.area_occupancy_history (run_area_ops ops res))) =
  AirportResources.get_current_occupancy z (run_area_ops ops res).
Proof.
  intros Hinit.
  assert (Hstart :
    default (0, 0) (last_recorded z (AirportResources.area_occupancy_history res)) =
    AirportResources.get_current_occupancy z res).
  { revert Hinit. unfold AirportResources.init.
    destruct (MonitoredResource.init "checkin_kiosk" k); simpl; [discriminate|].
    destruct (MonitoredResource.init "checkin_counter" c); simpl; [discriminate|].
    destruct (MonitoredResource.init "baggage_counter" b); simpl; [discriminate|].
    destruct (MonitoredResource.init "tag_kiosk" g); simpl; [discriminate|].
    destruct (MonitoredResource.init "drop_point" d); simpl; [discriminate|].
    intros Hr. injection Hr as <-. unfold AirportResources.get_current_occupancy. simpl.
    destruct (decide (z = "checkin_zone")) as [->|H1]; [reflexivity|].
    rewrite lookup_insert_ne by congruence.
    destruct (decide (z = "baggage_counter_zone")) as [->|H2]; [reflexivity|].
    rewrite lookup_insert_ne by congruence.
    destruct (decide (z = "tag_zone")) as [->|H3]; [reflexivity|].
    rewrite lookup_insert_ne by congruence.
    destruct (decide (z = "drop_zone")) as [->|H4]; [reflexivity|].
    rewrite lookup_insert_ne by congruence.
    destruct (decide (z = "security_front")) as [->|H5]; [reflexivity|].
    rewrite lookup_insert_ne by congruence. reflexivity. }
  clear Hinit. revert res Hstart. unfold run_area_ops.
  induction ops as [|op ops IH]; intros res Hstart; simpl; [exact Hstart|].
  apply IH. clear IH.
  destruct op as [at_ a gid gs|at_ a gid]; simpl;
    unfold AirportResources.enter_area, AirportResources.leave_area,
      AirportResources.get_current_occupancy in *;
    destruct (AirportResources._groups_in_area res !! a) as [groups|] eqn:Ha; simpl;
    try exact Hstart.
  - destruct (decide (a = z)) as [->|Hne].
    + rewrite last_recorded_snoc_same by reflexivity.
      rewrite lookup_insert_eq. reflexivity.
    + rewrite last_recorded_snoc_other by exact Hne.
      rewrite lookup_insert_ne by exact Hne. exact Hstart.
  - destruct (decide (a = z)) as [->|Hne].
    + rewrite last_recorded_snoc_same by reflexivity.
      rewrite lookup_insert_eq. reflexivity.
    + rewrite last_recorded_snoc_other by exact Hne.
      rewrite lookup_insert_ne by exact Hne. exact Hstart.
Qed.

Lemma history_shows_current_occupancy_witness :
  exists res,
    AirportResources.init 8 6 4 4 4 = inr res /\
    AirportResources.get_current_occupancy "checkin_zone"
      (run_area_ops [OpEnter 0 "checkin_zone" 0 4; OpEnter 5 "checkin_zone" 1 2;
                     OpLeave 9 "checkin_zone" 0; OpEnter 9 "lounge" 7 3] res) = (1, 2) /\
    default (0, 0)
      (last_recorded "checkin_zone"
         (AirportResources.area_occupancy_history
            (run_area_ops [OpEnter 0 "checkin_zone" 0 4; OpEnter 5 "checkin_zone" 1 2;
                           OpLeave 9 "checkin_zone" 0; OpEnter 9 "lounge" 7 3] res))) =
    AirportResources.get_current_occupancy "checkin_zone"
      (run_area_ops [OpEnter 0 "checkin_zone" 0 4; OpEnter 5 "checkin_zone" 1 2;
                     OpLeave 9 "checkin_zone" 0; OpEnter 9 "lounge" 7 3] res).
Proof.
  eexists. split; [vm_compute; reflexivity|]. split; [vm_compute; reflexivity|].
  apply (history_shows_current_occupancy 8 6 4 4 4). vm_compute. reflexivity.
Defined.

Lemma init_tracks (k c b g d : Z) (res : AirportResources.t) :
  AirportResources.init k c b g d = inr res ->
  AirportResources.area_occupancy_history res = [] /\
  forall z, is_Some (AirportResources._groups_in_area res !! z) <-> z ∈ tracked_areas.
Proof.
  unfold AirportResources.init.
  destruct (MonitoredResource.init "checkin_kiosk" k); simpl; [discriminate|].
  destruct (MonitoredResource.init "checkin_counter" c); simpl; [discriminate|].
  destruct (MonitoredResource.init "baggage_counter" b); simpl; [discriminate|].
  destruct (MonitoredResource.init "tag_kiosk" g); simpl; [discriminate|].
  destruct (MonitoredResource.init "drop_point" d); simpl; [discriminate|].
  intros Hr. injection Hr as <-. simpl. split; [reflexivity|]. intros z.
  unfold tracked_areas. rewrite !lookup_insert_is_Some, lookup_empty, is_Some_alt.
  rewrite !elem_of_cons, elem_of_nil. clear.
  split.
  - intros Hz.
    repeat match goal with
           | H : _ \/ _ |- _ => destruct H as [H|H]
           | H : _ /\ _ |- _ => destruct H as [_ H]
           end; subst; tauto.
  - intros Hz.
    repeat match goal with
           | H : _ \/ _ |- _ => destruct H as [H|H]
           end; subst; try contradiction;
      repeat first [left; reflexivity | right; split; [discriminate|]].
Qed.

(** Every call of [enter_area] or [leave_area] that names one of the five
    tracked areas appends exactly one record to the history; a call that
    names any other area appends none, whatever was called before. *)
Theorem one_record_per_tracked_call (k c b g d : Z) (res : AirportResources.t)
    (ops : list AreaOp) :
  AirportResources.init k c b g d = inr res ->
  length (AirportResources.area_occupancy_history (run_area_ops ops res)) =
  length (List.filter (fun op => bool_decide (area_of_op op ∈ tracked_areas)) ops).
Proof.
  intros Hinit. destruct (init_tracks _ _ _ _ _ _ Hinit) as [Hh Htr]. clear Hinit.
  assert (Hgen : forall (a : AirportResources.t) (n : nat),
    (forall z, is_Some (AirportResources._groups_in_area a !! z) <-> z ∈ tracked_areas) ->
    length (AirportResources.area_occupancy_history a) = n ->
    length (AirportResources.area_occupancy_history (run_area_ops ops a)) =
    (n + length (List.filter (fun op => bool_decide (area_of_op op ∈ tracked_areas)) ops))%nat).
  { clear res Hh Htr. unfold run_area_ops.
    induction ops as [|op ops IH]; intros res n Htr Hn; simpl; [lia|].
    assert (Hstep :
      (forall z, is_Some (AirportResources._groups_in_area (apply_area_op op res) !! z) <->
                 z ∈ tracked_areas) /\
      length (AirportResources.area_occupancy_history (apply_area_op op res)) =
      (n + if bool_decide (area_of_op op ∈ tracked_areas) then 1 else 0)%nat).
    { destruct op as [at_ a gid gs|at_ a gid]; simpl;
        unfold AirportResources.enter_area, AirportResources.leave_area;
        destruct (AirportResources._groups_in_area res !! a) as [groups|] eqn:Ha; simpl.
      - split.
        + intros z. rewrite lookup_insert_is_Some, <- Htr.
          split; [intros [<-|[_ Hz]]; [rewrite Ha; eauto | exact Hz] | intros Hz].
          destruct (decide (a = z)); [left; assumption | right; split; assumption].
        + rewrite length_app, Hn. simpl.
          rewrite bool_decide_eq_true_2; [reflexivity|]. apply Htr. rewrite Ha. eauto.
      - split; [exact Htr|]. rewrite Hn.
        rewrite bool_decide_eq_false_2; [lia|]. rewrite <- Htr, Ha. intros [x Hx]. discriminate.
      - split.
        + intros z. rewrite lookup_insert_is_Some, <- Htr.
          split; [intros [<-|[_ Hz]]; [rewrite Ha; eauto | exact Hz] | intros Hz].
          destruct (decide (a = z)); [left; assumption | right; split; assumption].
        + rewrite length_app, Hn. simpl.
          rewrite bool_decide_eq_true_2; [reflexivity|]. apply Htr. rewrite Ha. eauto.
      - split; [exact Htr|]. rewrite Hn.
        rewrite bool_decide_eq_false_2; [lia|]. rewrite <- Htr, Ha. intros [x Hx]. discriminate. }
    destruct Hstep as [Htr' Hlen'].
    rewrite (IH _ _ Htr' Hlen').
    destruct (bool_decide (area_of_op op ∈ tracked_areas)); simpl; lia. }
  rewrite (Hgen res O Htr); [reflexivity | rewrite Hh; reflexivity].
Qed.

Lemma one_record_per_tracked_call_witness :
  exists res,
    AirportResources.init 8 6 4 4 4 = inr res /\
    length (AirportResources.area_occupancy_history
              (run_area_ops [OpEnter 0 "checkin_zone" 0 4; OpEnter 5 "lounge" 1 2;
                             OpLeave 9 "checkin_zone" 0; OpLeave 9 "lounge" 1] res)) = 2%nat.
Proof.
  eexists. split; [vm_compute; reflexivity|].
  rewrite (one_record_per_tracked_call 8 6 4 4 4); [reflexivity|].
  vm_compute. reflexivity.
Defined.

(** A group that enters an area and leaves it again leaves the area as it
    found it, provided it was not inside already: the members and the
    occupancy are those from before, and the two records appended show
    one group more, then the former count again. *)
Theorem enter_then_leave_restores (a : AirportResources.t) (z : string)
    (gid gs : Z) (t1 t2 : Q) (groups : list (Z * Z)) :
  AirportResources._groups_in_area a !! z = Some groups ->
  Forall (fun p => p.1 <> gid) groups ->
  let a' := AirportResources.leave_area t2 z gid
              (AirportResources.enter_area t1 z gid gs a) in
  AirportResources._groups_in_area a' = AirportResources._groups_in_area a /\
  AirportResources.area_occupancy_history a' =
    AirportResources.area_occupancy_history a ++
      [AirportResources.occupancy t1 z (groups ++ [(gid, gs)]);
       AirportResources.occupancy t2 z groups].
Proof.
  intros Ha Hfresh. cbv zeta.
  unfold AirportResources.leave_area, AirportResources.enter_area. rewrite Ha. simpl.
  rewrite lookup_insert_eq. simpl.
  assert (Hf : List.filter (fun p : Z * Z => negb (bool_decide (p.1 = gid)))
                 (groups ++ [(gid, gs)]) = groups).
  { rewrite List.filter_app. simpl. rewrite bool_decide_eq_true_2 by reflexivity. simpl.
    rewrite app_nil_r. clear Ha. induction Hfresh as [|p l Hp _ IH]; simpl; [reflexivity|].
    rewrite bool_decide_eq_false_2 by exact Hp. simpl. rewrite IH. reflexivity. }
  rewrite Hf. split.
  - rewrite insert_insert_eq. apply insert_id. exact Ha.
  - rewrite <- app_assoc. reflexivity.
Qed.

Lemma enter_then_leave_restores_witness :
  exists res,
    AirportResources.init 8 6 4 4 4 = inr res /\
    AirportResources._groups_in_area
      (AirportResources.leave_area 9 "tag_zone" 3
         (AirportResources.enter_area 4 "tag_zone" 3 2 res)) =
    AirportResources._groups_in_area res.
Proof.
  eexists. split; [vm_compute; reflexivity|].
  refine (proj1 (enter_then_leave_restores _ "tag_zone" 3 2 4 9 [] _ _)).
  - vm_compute. reflexivity.
  - constructor.
Defined.

(** [leave_area] removes every entry of the group: a group recorded twice
    in an area is gone after one call. *)
Example leave_area_removes_every_entry :
  exists res,
    AirportResources.init 8 6 4 4 4 = inr res /\
    AirportResources.get_current_occupancy "tag_zone"
      (run_area_ops [OpEnter 0 "tag_zone" 3 2; OpEnter 1 "tag_zone" 3 2;
                     OpLeave 2 "tag_zone" 3] res) = (0, 0).
Proof. eexists. split; [vm_compute; reflexivity|]. vm_compute. reflexivity. Qed.

Lemma remove_first_length (i : nat) (l : list nat) :
  (length (Resource.remove_first i l) <= length l)%nat.
Proof.
  induction l as [|x l IH]; simpl; [lia|].
  destruct (decide (x = i)); simpl; lia.
Qed.

Lemma trigger_put_within (self : Station) (r : Resource.t) (env : Environment.t) :
  Z.of_nat (length (Resource.users r)) <= Resource.capacity r ->
  Resource.capacity (Resource._trigger_put self r env).1 = Resource.capacity r /\
  Z.of_nat (length (Resource.users (Resource._trigger_put self r env).1)) <=
    Resource.capacity r.
Proof.
  intros Hle. unfold Resource._trigger_put.
  destruct (Resource.queue r) as [|i rest]; simpl; [split; [reflexivity | exact Hle]|].
  destruct (decide (Z.of_nat (length (Resource.users r)) < Resource.capacity r)); simpl.
  - split; [reflexivity|]. rewrite length_app. simpl. lia.
  - split; [reflexivity | exact Hle].
Qed.

(** What a station keeps whatever is requested and released. *)
Lemma station_invariant_step (self : Station) (capacity : Z) (op : StationOp)
    (m : MonitoredResource.t) (env : Environment.t) (n : nat) :
  Resource.capacity (MonitoredResource.resource m) = capacity ->
  Z.of_nat (length (Resource.users (MonitoredResource.resource m))) <= capacity ->
  Forall (fun s => 0 <= QueueSnapshot.in_service s <= capacity /\
                   0 <= QueueSnapshot.queue_length s)
    (MonitoredResource.queue_history m) ->
  length (MonitoredResource.queue_history m) = n ->
  let m' := (apply_op self op (m, env)).1 in
  Resource.capacity (MonitoredResource.resource m') = capacity /\
  Z.of_nat (length (Resource.users (MonitoredResource.resource m'))) <= capacity /\
  Forall (fun s => 0 <= QueueSnapshot.in_service s <= capacity /\
                   0 <= QueueSnapshot.queue_length s)
    (MonitoredResource.queue_history m') /\
  length (MonitoredResource.queue_history m') =
    (n + snapshots_due [op])%nat.
Proof.
  intros Hcap Hle Hall Hn. cbv zeta. destruct op as [t|gid gs i|i gid|]; simpl.
  - split; [exact Hcap|]. split; [exact Hle|]. split; [exact Hall | unfold snapshots_due; simpl; lia].
  - unfold MonitoredResource.request, Resource.request. simpl.
    match goal with |- context [Resource._trigger_put self ?r env] =>
      pose proof (trigger_put_within self r env) as Ht;
      destruct (Resource._trigger_put self r env) as [r' env'] end.
    simpl in *. rewrite Hcap in Ht. destruct (Ht Hle) as [Hc' Hu'].
    split; [exact Hc'|]. split; [exact Hu'|]. split.
    + apply Forall_app. split; [exact Hall|]. constructor; [|constructor]. simpl.
      unfold Resource.count. lia.
    + rewrite length_app, Hn. reflexivity.
  - unfold MonitoredResource.release, Resource.release. simpl.
    pose proof (remove_first_length i (Resource.users (MonitoredResource.resource m))) as Hr.
    split; [exact Hcap|]. split; [lia|]. split.
    + apply Forall_app. split; [exact Hall|]. constructor; [|constructor]. simpl.
      unfold Resource.count. simpl. lia.
    + rewrite length_app, Hn. reflexivity.
  - pose proof (trigger_put_within self (MonitoredResource.resource m) env) as Ht.
    destruct (Resource._trigger_put self (MonitoredResource.resource m) env) as [r' env'].
    simpl in *. rewrite Hcap in Ht. destruct (Ht Hle) as [Hc' Hu'].
    split; [exact Hc'|]. split; [exact Hu'|]. split; [exact Hall|].
    unfold snapshots_due. simpl. lia.
Qed.

(** A station never serves more groups than it has servers: after any
    requests and releases on a station built with [capacity] servers, the
    groups in service are at most [capacity], every snapshot of the
    history reports between 0 and [capacity] groups in service and no
    negative queue length, and each request and each release has recorded
    exactly one snapshot. *)
Theorem in_service_within_capacity (self : Station) (name : string) (capacity : Z)
    (m0 : MonitoredResource.t) (ops : list StationOp) :
  MonitoredResource.init name capacity = inr m0 ->
  let m := (run_ops self ops (m0, Environment.init)).1 in
  Resource.count (MonitoredResource.resource m) <= capacity /\
  Forall (fun s => 0 <= QueueSnapshot.in_service s <= capacity /\
                   0 <= QueueSnapshot.queue_length s)
    (MonitoredResource.queue_history m) /\
  length (MonitoredResource.queue_history m) = snapshots_due ops.
Proof.
  intros Hinit. cbv zeta.
  assert (Hstart : Resource.capacity (MonitoredResource.resource m0) = capacity /\
                   Resource.users (MonitoredResource.resource m0) = [] /\
                   MonitoredResource.queue_history m0 = [] /\ 0 < capacity).
  { revert Hinit. unfold MonitoredResource.init, Resource.init.
    destruct (decide (capacity <= 0)) as [Hc|Hc]; simpl; [discriminate|].
    intros Hm. injection Hm as <-. simpl.
    refine (conj eq_refl (conj eq_refl (conj eq_refl _))). lia. }
  destruct Hstart as (Hcap & Hus & Hh & Hpos).
  assert (Hgen : forall st n,
    Resource.capacity (MonitoredResource.resource st.1) = capacity ->
    Z.of_nat (length (Resource.users (MonitoredResource.resource st.1))) <= capacity ->
    Forall (fun s => 0 <= QueueSnapshot.in_service s <= capacity /\
                     0 <= QueueSnapshot.queue_length s)
      (MonitoredResource.queue_history st.1) ->
    length (MonitoredResource.queue_history st.1) = n ->
    Z.of_nat (length (Resource.users
                        (MonitoredResource.resource (run_ops self ops st).1))) <= capacity /\
    Forall (fun s => 0 <= QueueSnapshot.in_service s <= capacity /\
                     0 <= QueueSnapshot.queue_length s)
      (MonitoredResource.queue_history (run_ops self ops st).1) /\
    length (MonitoredResource.queue_history (run_ops self ops st).1) =
      (n + snapshots_due ops)%nat).
  { clear. unfold run_ops. induction ops as [|op ops IH]; intros [m env] n H1 H2 H3 H4;
      simpl in H1, H2, H3, H4; cbn [foldl fst].
    - split; [exact H2|]. split; [exact H3|]. unfold snapshots_due. simpl. lia.
    - destruct (station_invariant_step self capacity op m env n H1 H2 H3 H4)
        as (H1' & H2' & H3' & H4').
      destruct (IH (apply_op self op (m, env)) _ H1' H2' H3' H4') as (G2 & G3 & G4).
      split; [exact G2|]. split; [exact G3|]. rewrite G4.
      unfold snapshots_due. simpl.
      destruct op; simpl; lia. }
  destruct (Hgen (m0, Environment.init) O Hcap) as (G2 & G3 & G4); simpl.
  - rewrite Hus. simpl. lia.
  - rewrite Hh. constructor.
  - rewrite Hh. reflexivity.
  - split; [exact G2|]. split; [exact G3 | exact G4].
Qed.

Lemma in_service_within_capacity_witness :
  let m := (run_ops CheckinKiosk
              [OpAt 0; OpRequest 0 4 0; OpAt 1; OpRequest 1 1 1; OpAt 2; OpRequest 2 2 2;
               OpAt 10; OpRelease 0 0; OpReleased; OpAt 20; OpRelease 1 1; OpReleased]
              (single_server "checkin_kiosk", Environment.init)).1 in
  Resource.count (MonitoredResource.resource m) <= 1 /\
  Forall (fun s => 0 <= QueueSnapshot.in_service s <= 1 /\
                   0 <= QueueSnapshot.queue_length s)
    (MonitoredResource.queue_history m) /\
  length (MonitoredResource.queue_history m) = 5%nat.
Proof.
  apply (in_service_within_capacity CheckinKiosk "checkin_kiosk" 1
           (single_server "checkin_kiosk")
           [OpAt 0; OpRequest 0 4 0; OpAt 1; OpRequest 1 1 1; OpAt 2; OpRequest 2 2 2;
            OpAt 10; OpRelease 0 0; OpReleased; OpAt 20; OpRelease 1 1; OpReleased]).
  reflexivity.
Defined.

(* ===================================================================== *)
(** * Further properties: the generated arrivals *)
(* ===================================================================== *)

Section ArrivalWindow.
Context {R P : Type} `{NumpyRandomLaws R} `{PyRandom P}.
Import ArrivalGenerator.

Lemma slot_loop_window (fuel : nat) (slot : DemandSlot) :
  forall (remaining_pax : Z) (groups out : list PassengerGroup)
         (g g' : ArrivalGenerator.t) (r r' : R) (p p' : P),
    (TruncatedTDistribution.lower (arrival_dist g) <=
     TruncatedTDistribution.upper (arrival_dist g))%Q ->
    slot_loop fuel slot remaining_pax groups g r p = Done (out, g', r', p') ->
    arrival_dist g' = arrival_dist g /\
    exists added,
      out = groups ++ added /\
      Forall (fun x =>
                departure_time x = slot_departure slot /\
                exists m, within (arrival_dist g) m /\
                  arrival_time x =
                    (max0 ((start_minutes slot + end_minutes slot) / 2 - m) * 60)%Q)
        added.
Proof.
  induction fuel as [|fuel IH]; intros remaining_pax groups out g g' r r' p p' Hb.
  - simpl. destruct (decide (remaining_pax > 0)); [discriminate|].
    intros Hd. injection Hd as <- <- <- <-. split; [reflexivity|].
    exists []. rewrite app_nil_r. split; [reflexivity | constructor].
  - simpl. destruct (decide (remaining_pax > 0)).
    2:{ intros Hd. injection Hd as <- <- <- <-. split; [reflexivity|].
        exists []. rewrite app_nil_r. split; [reflexivity | constructor]. }
    destruct (TruncatedTDistribution.sample_one (arrival_dist g) r)
      as [e0|[m r1]] eqn:Hsample; [discriminate|].
    pose proof (sample_one_within (arrival_dist g) r r1 m Hb Hsample) as Hm.
    destruct (PassengerGroupFactory.create_group (group_factory g) _ _ p)
      as [e|[[grp f'] p1]] eqn:Hc; [discriminate|].
    destruct (create_group_facts _ _ _ _ _ _ _ Hc) as (_ & _ & _ & Harr & Hdep).
    intros Hloop.
    destruct (IH _ _ _ (with_factory f' g) _ _ _ _ _ Hb Hloop) as (Hd' & added & -> & Hall).
    split; [exact Hd'|]. exists (grp :: added).
    split; [rewrite <- app_assoc; reflexivity|].
    constructor; [|exact Hall]. split; [exact Hdep|]. exists m. split; [exact Hm | exact Harr].
Qed.

Lemma all_slots_window (fuel : nat) (slots : list DemandSlot) :
  forall (all_groups out : list PassengerGroup) (g g' : ArrivalGenerator.t)
         (r r' : R) (p p' : P),
    (TruncatedTDistribution.lower (arrival_dist g) <=
     TruncatedTDistribution.upper (arrival_dist g))%Q ->
    all_slots fuel slots all_groups g r p = Done (out, g', r', p') ->
    exists added,
      out = all_groups ++ added /\
      Forall (fun x =>
                exists slot, slot ∈ slots /\ pax_count slot > 0 /\
                  departure_time x = slot_departure slot /\
                  exists m, within (arrival_dist g) m /\
                    arrival_time x =
                      (max0 ((start_minutes slot + end_minutes slot) / 2 - m) * 60)%Q)
        added.
Proof.
  induction slots as [|slot slots IH]; intros all_groups out g g' r r' p p' Hb; simpl.
  - intros Hd. injection Hd as <- <- <- <-. exists []. rewrite app_nil_r.
    split; [reflexivity | constructor].
  - destruct (decide (pax_count slot > 0)) as [Hpos|Hpos].
    2:{ intros Hrest. destruct (IH _ _ _ _ _ _ _ _ Hb Hrest) as (added & -> & Hall).
        exists added. split; [reflexivity|].
        eapply Forall_impl; [exact Hall|]. intros x (s & Hs & Hx). exists s.
        split; [right; exact Hs | exact Hx]. }
    unfold generate_arrivals_for_slot.
    destruct (slot_loop fuel slot (pax_count slot) [] g r p)
      as [[[[groups g1] r1] p1]|e|] eqn:Hs; try discriminate.
    destruct (slot_loop_window _ _ _ _ _ _ _ _ _ _ _ Hb Hs) as (Hd1 & a1 & Ha1 & Hall1).
    simpl in Ha1. subst groups. intros Hrest.
    assert (Hb1 : (TruncatedTDistribution.lower (arrival_dist g1) <=
                   TruncatedTDistribution.upper (arrival_dist g1))%Q)
      by (rewrite Hd1; exact Hb).
    destruct (IH _ _ _ _ _ _ _ _ Hb1 Hrest) as (a2 & -> & Hall2).
    exists (a1 ++ a2). split; [rewrite app_assoc; reflexivity|].
    apply Forall_app. split.
    + eapply Forall_impl; [exact Hall1|]. intros x (Hdx & Hmx). exists slot.
      split; [left|]. split; [exact Hpos|]. split; [exact Hdx | exact Hmx].
    + eapply Forall_impl; [exact Hall2|]. intros x (s & Hsin & Hp & Hdx & Hmx). exists s.
      split; [right; exact Hsin|]. split; [exact Hp|]. split; [exact Hdx|].
      rewrite <- Hd1. exact Hmx.
Qed.

(** Every group [generate_all_arrivals] returns belongs to a slot with
    passengers: it departs at the midpoint of the slot, and it arrives
    between [upper] and [lower] minutes before its departure, or at time 0
    when that would be earlier than the start of the simulation; no
    arrival time is negative. *)
Theorem generated_arrival_window (fuel : nat) (g g' : ArrivalGenerator.t)
    (slots : list DemandSlot) (r r' : R) (p p' : P) (groups : list PassengerGroup) :
  (TruncatedTDistribution.lower (arrival_dist g) <=
   TruncatedTDistribution.upper (arrival_dist g))%Q ->
  generate_all_arrivals fuel g slots r p = Done (groups, g', r', p') ->
  Forall (fun x =>
            exists slot, slot ∈ slots /\ pax_count slot > 0 /\
              departure_time x = slot_departure slot /\
              (0 <= arrival_time x)%Q /\
              (departure_time x - TruncatedTDistribution.upper (arrival_dist g) * 60
                 <= arrival_time x)%Q /\
              ((arrival_time x <=
                departure_time x - TruncatedTDistribution.lower (arrival_dist g) * 60)%Q \/
               arrival_time x = (0 * 60)%Q))
    groups.
Proof.
  intros Hb. unfold generate_all_arrivals.
  destruct (all_slots fuel slots [] g r p) as [[[[all g1] r1] p1]|e|] eqn:Ha;
    try discriminate.
  intros Hd. injection Hd as <- _ _ _.
  destruct (all_slots_window _ _ _ _ _ _ _ _ _ _ Hb Ha) as (added & Hout & Hall).
  simpl in Hout. subst all. rewrite sort_by_perm.
  eapply Forall_impl; [exact Hall|].
  intros x (slot & Hs & Hp & Hdx & m & [Hm1 Hm2] & Hax). exists slot.
  split; [exact Hs|]. split; [exact Hp|]. split; [exact Hdx|].
  rewrite Hax, Hdx. unfold slot_departure, max0.
  destruct (Qltb 0 ((start_minutes slot + end_minutes slot) / 2 - m)) eqn:E.
  - apply Qltb_true in E. split; [lra|]. split; [lra|]. left. lra.
  - apply Qltb_false in E. split; [lra|]. split; [lra|]. right. reflexivity.
Qed.
End ArrivalWindow.

Lemma generated_arrival_window_witness :
  exists groups g' r' p',
    ArrivalGenerator.generate_all_arrivals 100 example_generator [example_slot]
      ([] : Tape) replay_tape = Done (groups, g', r', p') /\
    length groups = 3%nat /\
    Forall (fun x =>
              exists slot, slot ∈ [example_slot] /\ pax_count slot > 0 /\
                departure_time x = slot_departure slot /\
                (0 <= arrival_time x)%Q /\
                (departure_time x - 120 * 60 <= arrival_time x)%Q /\
                ((arrival_time x <= departure_time x - 20 * 60)%Q \/
                 arrival_time x = (0 * 60)%Q))
      groups.
Proof.
  eexists _, _, _, _. split; [vm_compute; reflexivity|]. split; [reflexivity|].
  eapply (generated_arrival_window 100 example_generator) with
    (r := ([] : Tape)) (p := replay_tape).
  - vm_compute. discriminate.
  - vm_compute. reflexivity.
Defined.

Section StableSortFacts.
Context {A : Type} (key : A -> Q) (id : A -> Z).

Lemma sort_insert_sorted (x : A) (l : list A) :
  StronglySorted (before_by key id) l -> Forall (fun y => id x < id y) l ->
  StronglySorted (before_by key id) (sort_insert key x l).
Proof.
  induction l as [|y l IH]; intros Hs Hid; simpl.
  - constructor; constructor.
  - apply StronglySorted_inv in Hs. destruct Hs as [Hs Hy].
    apply Forall_cons in Hid. destruct Hid as [Hxy Hid].
    destruct (Qle_bool (key x) (key y)) eqn:E.
    + apply Qle_bool_iff in E. constructor; [constructor; assumption|].
      assert (Hxy' : before_by key id x y).
      { unfold before_by. destruct (Qlt_le_dec (key x) (key y)); [left; assumption|].
        right. split; [lra | exact Hxy]. }
      constructor; [exact Hxy'|].
      rewrite Forall_forall in Hy, Hid. apply Forall_forall. intros z Hz.
      specialize (Hy z Hz). specialize (Hid z Hz). unfold before_by in *.
      destruct Hy as [Hy|[Hy _]].
      * left. lra.
      * destruct (Qlt_le_dec (key x) (key z)); [left; assumption|].
        right. split; [lra | exact Hid].
    + assert (Hlt : (key y < key x)%Q).
      { apply Qnot_le_lt. intros Hle. apply Qle_bool_iff in Hle. congruence. }
      constructor; [apply IH; assumption|].
      rewrite (sort_insert_perm key x l). constructor; [left; exact Hlt | exact Hy].
Qed.

Lemma sort_by_sorted (l : list A) :
  StronglySorted (fun a b => id a < id b) l ->
  StronglySorted (before_by key id) (sort_by key l).
Proof.
  induction l as [|x l IH]; intros Hs; simpl; [constructor|].
  apply StronglySorted_inv in Hs. destruct Hs as [Hs Hx].
  apply sort_insert_sorted; [apply IH; exact Hs|].
  rewrite (sort_by_perm key l). exact Hx.
Qed.
End StableSortFacts.

Lemma consecutive_ids_increase (l : list PassengerGroup) :
  forall m, group_id <$> l = seqZ m (Z.of_nat (length l)) ->
  StronglySorted (fun a b => group_id a < group_id b) l.
Proof.
  induction l as [|x l IH]; intros m Hids; [constructor|].
  simpl length in Hids. rewrite seqZ_cons in Hids by lia.
  rewrite fmap_cons in Hids. injection Hids as Hx Hl.
  replace (Z.pred (Z.of_nat (S (length l)))) with (Z.of_nat (length l)) in Hl by lia.
  constructor; [exact (IH _ Hl)|].
  apply Forall_forall. intros y Hy.
  assert (Hin : group_id y ∈ group_id <$> l) by (apply list_elem_of_fmap; eauto).
  rewrite Hl in Hin. apply elem_of_seqZ in Hin. lia.
Qed.

Section ArrivalOrder.
Context {R P : Type} `{NumpyRandom R} `{PyRandom P}.
Import ArrivalGenerator.

(** [generate_all_arrivals] returns the groups in the order of their
    arrival times, groups with the same arrival time in the order they
    were created; it keeps that list as [generated_groups], and the
    identifiers are the consecutive values of the factory's counter. *)
Theorem generated_groups_in_arrival_order (fuel : nat) (g g' : ArrivalGenerator.t)
    (slots : list DemandSlot) (r r' : R) (p p' : P) (groups : list PassengerGroup) :
  generate_all_arrivals fuel g slots r p = Done (groups, g', r', p') ->
  StronglySorted arrives_before groups /\
  generated_groups g' = groups /\
  group_id <$> groups ≡ₚ
    seqZ (PassengerGroupFactory._next_group_id (group_factory g))
      (Z.of_nat (length groups)).
Proof.
  unfold generate_all_arrivals.
  destruct (all_slots fuel slots [] g r p) as [[[[all g1] r1] p1]|e|] eqn:Ha;
    try discriminate.
  intros Hd. injection Hd as <- <- _ _.
  destruct (all_slots_facts _ _ _ _ _ _ _ _ _ _ Ha) as (added & Hout & _ & Hids & _).
  simpl in Hout. subst all.
  split; [|split; [reflexivity|]].
  - apply (sort_by_sorted arrival_time group_id).
    eapply consecutive_ids_increase. exact Hids.
  - rewrite (Permutation_length (sort_by_perm arrival_time added)).
    rewrite (sort_by_perm arrival_time added), Hids. reflexivity.
Qed.
End ArrivalOrder.

Lemma generated_groups_in_arrival_order_witness :
  exists groups g' r' p',
    ArrivalGenerator.generate_all_arrivals 100 example_generator
      [example_slot; {| start_minutes := 60; end_minutes := 100; pax_count := 2 |}]
      ([] : Tape) replay_tape = Done (groups, g', r', p') /\
    List.map group_id groups = [3; 0; 1; 2] /\
    StronglySorted arrives_before groups.
Proof.
  eexists _, _, _, _. split; [vm_compute; reflexivity|]. split; [reflexivity|].
  eapply (generated_groups_in_arrival_order 100 example_generator) with
    (slots := [example_slot;
               {| start_minutes := 60; end_minutes := 100; pax_count := 2 |}])
    (r := ([] : Tape)) (p := replay_tape).
  vm_compute. reflexivity.
Defined.

(* ===================================================================== *)
(** * Further properties: the demand slots *)
(* ===================================================================== *)

Lemma demand_slot_loop_spec (slot_counts : gmap string Z)
    (pax_per_flight time_slot_minutes end_hour : Z) :
  0 < time_slot_minutes <= 60 ->
  forall (fuel : nat) (current_hour current_minute : Z) (slots : list DemandSlot),
    0 <= current_minute < 60 ->
    (Z.to_nat ((end_hour * 60 - (current_hour * 60 + current_minute))
               / time_slot_minutes + 1) < fuel)%nat ->
    demand_slot_loop fuel slot_counts pax_per_flight time_slot_minutes end_hour
      current_hour current_minute slots =
    Done (slots ++
          ((fun k => slot_at slot_counts pax_per_flight time_slot_minutes
                       (current_hour * 60 + current_minute + k * time_slot_minutes)) <$>
           seqZ 0 ((end_hour * 60 - (current_hour * 60 + current_minute))
                   / time_slot_minutes + 1))).
Proof.
  intros Hts. induction fuel as [|fuel IH]; intros h m slots Hm Hfuel; [lia|].
  set (T := h * 60 + m) in *.
  cbn [demand_slot_loop]. case_bool_decide as Hcond.
  - assert (HT : T <= end_hour * 60) by (unfold T; lia).
    assert (Hdiv : (end_hour * 60 - T) / time_slot_minutes =
                   (end_hour * 60 - (T + time_slot_minutes)) / time_slot_minutes + 1).
    { replace (end_hour * 60 - T) with
        (end_hour * 60 - (T + time_slot_minutes) + 1 * time_slot_minutes) by lia.
      rewrite Z.div_add by lia. reflexivity. }
    assert (Hge : 0 <= (end_hour * 60 - T) / time_slot_minutes).
    { apply Z.div_pos; lia. }
    assert (Hslot : forall eh em, eh * 60 + em = T + time_slot_minutes ->
              {| start_minutes := inject_Z (h * 60 + m);
                 end_minutes := inject_Z (eh * 60 + em);
                 pax_count := default 0 (slot_counts !! slot_key h m) * pax_per_flight |} =
              slot_at slot_counts pax_per_flight time_slot_minutes (T + 0 * time_slot_minutes)).
    { intros eh em He. unfold slot_at. rewrite Z.mul_0_l, Z.add_0_r, He.
      replace (T / 60) with h by (apply (Z.div_unique T 60 h m); unfold T; lia).
      replace (T mod 60) with m by (apply (Z.mod_unique T 60 h m); unfold T; lia).
      reflexivity. }
    assert (Hrest : forall h' m', h' * 60 + m' = T + time_slot_minutes ->
              0 <= m' < 60 ->
              demand_slot_loop fuel slot_counts pax_per_flight time_slot_minutes end_hour
                h' m'
                (slots ++ [slot_at slot_counts pax_per_flight time_slot_minutes
                             (T + 0 * time_slot_minutes)]) =
              Done (slots ++
                    ((fun k => slot_at slot_counts pax_per_flight time_slot_minutes
                                 (T + k * time_slot_minutes)) <$>
                     seqZ 0 ((end_hour * 60 - T) / time_slot_minutes + 1)))).
    { intros h' m' HT' Hm'. rewrite IH; [|exact Hm'|rewrite HT'; lia].
      rewrite HT', Hdiv.
      set (n := (end_hour * 60 - (T + time_slot_minutes)) / time_slot_minutes) in *.
      f_equal. rewrite <- app_assoc. f_equal.
      rewrite (seqZ_cons 0 (n + 1 + 1)) by lia. rewrite fmap_cons. cbn [app]. f_equal.
      replace (Z.pred (n + 1 + 1)) with (n + 1) by lia.
      replace (Z.succ 0) with (1 + 0) by lia. rewrite <- fmap_add_seqZ.
      rewrite <- list_fmap_compose. apply list_fmap_ext. intros _ k _. cbn.
      f_equal. lia. }
    destruct (bool_decide (60 <= m + time_slot_minutes)) eqn:Hw.
    + apply bool_decide_eq_true in Hw.
      rewrite (Hslot (h + 1) (m + time_slot_minutes - 60)) by (unfold T; lia).
      apply Hrest; [unfold T|]; lia.
    + apply bool_decide_eq_false in Hw.
      rewrite (Hslot h (m + time_slot_minutes)) by (unfold T; lia).
      apply Hrest; [unfold T|]; lia.
  - assert (HT : end_hour * 60 < T) by (unfold T; lia).
    assert (Hneg : (end_hour * 60 - T) / time_slot_minutes < 0).
    { apply Z.div_lt_upper_bound; lia. }
    rewrite seqZ_nil by lia. rewrite app_nil_r. reflexivity.
Qed.

(** With slots of at most an hour, [generate_demand_from_flights] returns
    the slots that start every [time_slot_minutes] from [start_hour]:00 up
    to and including [end_hour]:00, each [time_slot_minutes] long, so that
    the last one ends after [end_hour]; a slot carries the flights counted
    under the key of its start, times [pax_per_flight]. *)
Theorem demand_slots_every_interval (fuel : nat) (slot_counts : gmap string Z)
    (pax_per_flight time_slot_minutes start_hour end_hour : Z) :
  0 < time_slot_minutes <= 60 ->
  (Z.to_nat ((end_hour - start_hour) * 60 / time_slot_minutes + 1) < fuel)%nat ->
  generate_demand_slots fuel slot_counts pax_per_flight time_slot_minutes
    start_hour end_hour =
  Done ((fun k => slot_at slot_counts pax_per_flight time_slot_minutes
                    (start_hour * 60 + k * time_slot_minutes)) <$>
        seqZ 0 ((end_hour - start_hour) * 60 / time_slot_minutes + 1)).
Proof.
  intros Hts Hfuel. unfold generate_demand_slots.
  replace ((end_hour - start_hour) * 60) with (end_hour * 60 - (start_hour * 60 + 0))
    in * by lia.
  rewrite (demand_slot_loop_spec slot_counts pax_per_flight time_slot_minutes end_hour Hts
             fuel start_hour 0 []) by (try exact Hfuel; lia).
  cbn [app]. f_equal. apply list_fmap_ext. intros _ k _. f_equal. lia.
Qed.

Lemma demand_slots_every_interval_witness :
  0 < 30 <= 60 /\
  generate_demand_slots 10 {[ "06:30" := 2; "08:00" := 1 ]} 150 30 6 8 =
  Done [ {| start_minutes := inject_Z 360; end_minutes := inject_Z 390; pax_count := 0 |};
         {| start_minutes := inject_Z 390; end_minutes := inject_Z 420; pax_count := 300 |};
         {| start_minutes := inject_Z 420; end_minutes := inject_Z 450; pax_count := 0 |};
         {| start_minutes := inject_Z 450; end_minutes := inject_Z 480; pax_count := 0 |};
         {| start_minutes := inject_Z 480; end_minutes := inject_Z 510; pax_count := 150 |} ].
Proof.
  split; [lia|].
  rewrite (demand_slots_every_interval 10 {[ "06:30" := 2; "08:00" := 1 ]} 150 30 6 8);
    [vm_compute; reflexivity | lia | vm_compute; lia].
Defined.

Lemma demand_slot_loop_diverges (fuel : nat) (slot_counts : gmap string Z)
    (pax_per_flight time_slot_minutes start_hour end_hour : Z) :
  time_slot_minutes <= 0 -> start_hour < end_hour ->
  generate_demand_slots fuel slot_counts pax_per_flight time_slot_minutes
    start_hour end_hour = OutOfFuel.
Proof.
  intros Hts Hlt. unfold generate_demand_slots.
  assert (Hloop : forall m slots, m <= 0 ->
            demand_slot_loop fuel slot_counts pax_per_flight time_slot_minutes end_hour
              start_hour m slots = OutOfFuel).
  { induction fuel as [|fuel IH]; intros m slots Hm; [reflexivity|].
    cbn [demand_slot_loop]. rewrite bool_decide_eq_true_2 by lia.
    rewrite bool_decide_eq_false_2 by lia. apply IH. lia. }
  apply Hloop. lia.
Qed.

Section CountFlights.
Context (parse_time : string -> option (Z * Z)).

Lemma count_flights_total (departure_times : list string) (time_slot_minutes : Z) :
  time_slot_minutes <> 0 ->
  forall slot_counts, exists counted,
    count_flights parse_time departure_times time_slot_minutes slot_counts = inr counted.
Proof.
  intros Hts. induction departure_times as [|t l IH]; intros m; cbn [count_flights].
  - exists m. reflexivity.
  - destruct (parse_time t) as [[hour minute]|]; [|apply IH].
    rewrite bool_decide_eq_false_2 by exact Hts. apply IH.
Qed.

Lemma count_flights_unreadable (departure_times : list string) (time_slot_minutes : Z) :
  Forall (fun t => parse_time t = None) departure_times ->
  forall slot_counts,
    count_flights parse_time departure_times time_slot_minutes slot_counts =
    inr slot_counts.
Proof.
  induction 1 as [|t l Ht _ IH]; intros m; cbn [count_flights]; [reflexivity|].
  rewrite Ht. apply IH.
Qed.

Lemma count_flights_zero_length (departure_times : list string) :
  Exists (fun t => is_Some (parse_time t)) departure_times ->
  forall slot_counts,
    count_flights parse_time departure_times 0 slot_counts = inl ZeroDivisionError.
Proof.
  induction 1 as [t l [[hour minute] Ht]|t l _ IH]; intros m; cbn [count_flights].
  - rewrite Ht. reflexivity.
  - destruct (parse_time t) as [[hour minute]|]; [reflexivity | apply IH].
Qed.

(** [generate_demand_from_flights] needs a positive slot length: with a
    length of zero or less and a start hour before the end hour it returns
    no slots.  With a length of zero and a departure time that can be
    read, counting the flights raises [ZeroDivisionError]; with a negative
    length, or when no departure time can be read, the slot loop never
    ends: the minute never reaches 60, so the hour stays below
    [end_hour]. *)
Theorem demand_slots_need_positive_length (departure_times : list string)
    (pax_per_flight time_slot_minutes start_hour end_hour : Z) :
  time_slot_minutes <= 0 -> start_hour < end_hour ->
  (time_slot_minutes = 0 ->
   Exists (fun t => is_Some (parse_time t)) departure_times ->
   forall fuel,
     generate_demand_from_flights parse_time fuel departure_times pax_per_flight
       time_slot_minutes start_hour end_hour = Raised ZeroDivisionError) /\
  (time_slot_minutes < 0 \/ Forall (fun t => parse_time t = None) departure_times ->
   forall fuel,
     generate_demand_from_flights parse_time fuel departure_times pax_per_flight
       time_slot_minutes start_hour end_hour = OutOfFuel).
Proof.
  intros Hts Hlt. split.
  - intros -> Hex fuel. unfold generate_demand_from_flights.
    rewrite (count_flights_zero_length departure_times Hex). reflexivity.
  - intros Hcase fuel. unfold generate_demand_from_flights.
    assert (Hcount : exists counted,
              count_flights parse_time departure_times time_slot_minutes ∅ = inr counted).
    { destruct Hcase as [Hneg|Hnone].
      - apply count_flights_total. lia.
      - exists ∅. apply count_flights_unreadable. exact Hnone. }
    destruct Hcount as [counted ->].
    apply demand_slot_loop_diverges; assumption.
Qed.
End CountFlights.

Lemma demand_slots_need_positive_length_witness :
  (forall fuel,
     generate_demand_from_flights parse_plain_time fuel ["06:30"; "late"] 150 0 6 22 =
     Raised ZeroDivisionError) /\
  (forall fuel,
     generate_demand_from_flights parse_plain_time fuel ["late"] 150 0 6 22 =
     OutOfFuel) /\
  (forall fuel,
     generate_demand_from_flights parse_plain_time fuel ["06:30"; "late"] 150 (-30) 6 22 =
     OutOfFuel).
Proof.
  split; [|split].
  - apply (demand_slots_need_positive_length parse_plain_time ["06:30"; "late"] 150 0 6 22);
      [lia | lia | reflexivity |].
    apply Exists_cons_hd. exists (6, 30). reflexivity.
  - apply (demand_slots_need_positive_length parse_plain_time ["late"] 150 0 6 22);
      [lia | lia |].
    right. repeat constructor.
  - apply (demand_slots_need_positive_length parse_plain_time ["06:30"; "late"] 150 (-30)
             6 22); [lia | lia |].
    left. lia.
Defined.

Example flights_are_counted_per_slot :
  generate_demand_from_flights parse_plain_time 10 ["06:40"; "08:00"; "6.45"; "06:55"]
    150 30 6 8 =
  generate_demand_slots 10 {[ "06:30" := 2; "08:00" := 1 ]} 150 30 6 8.
Proof. vm_compute. reflexivity. Qed.

(* ===================================================================== *)
(** * Further properties: the statistics *)
(* ===================================================================== *)

Lemma count_if_bounds (f : PassengerGroup -> bool) (groups : list PassengerGroup) :
  0 <= count_if f groups <= Z.of_nat (length groups).
Proof.
  induction groups as [|g l IH]; cbn [count_if foldr length]; [lia|].
  fold (count_if f l). destruct (f g); lia.
Qed.

(** The breakdowns of [calculate_overall_stats] add up: every group is
    counted under exactly one check-in type, and with or without baggage;
    when no group has reached security, the three times are 0 and numpy
    is not called. *)
Theorem overall_stats_add_up (np_mean : list Q -> Q) (np_percentile : list Q -> Q -> Q)
    (np_max : list Q -> Q) (groups : list PassengerGroup) :
  let s := calculate_overall_stats np_mean np_percentile np_max groups in
  OverallStats.total_groups s = Z.of_nat (length groups) /\
  OverallStats.online_count s + OverallStats.kiosk_count s + OverallStats.counter_count s
    = OverallStats.total_groups s /\
  OverallStats.with_baggage_count s + OverallStats.without_baggage_count s
    = OverallStats.total_groups s /\
  0 <= OverallStats.with_baggage_count s <= OverallStats.total_groups s /\
  0 <= OverallStats.without_baggage_count s <= OverallStats.total_groups s /\
  (Forall (fun g => security_arrival g = None) groups ->
   OverallStats.mean_total_time s = 0%Q /\ OverallStats.p95_total_time s = 0%Q /\
   OverallStats.max_total_time s = 0%Q).
Proof.
  intros s.
  assert (Hnone : Forall (fun g => security_arrival g = None) groups <->
                  omap total_process_time groups = []).
  { clear s. induction groups as [|g l IH]; cbn [omap list_omap].
    - split; [reflexivity | constructor].
    - unfold total_process_time at 1. destruct (security_arrival g) eqn:E.
      + split; [intros Ha; apply Forall_cons in Ha; destruct Ha; congruence | discriminate].
      + rewrite Forall_cons. tauto. }
  pose proof (count_if_bounds has_baggage groups) as Hb.
  assert (Hty : OverallStats.online_count s + OverallStats.kiosk_count s +
                OverallStats.counter_count s = Z.of_nat (length groups)).
  { unfold s, calculate_overall_stats.
    destruct (omap total_process_time groups); cbn [OverallStats.online_count
      OverallStats.kiosk_count OverallStats.counter_count].
    all: clear; induction groups as [|g l IH]; cbn [count_if foldr length];
      [reflexivity|]; unfold count_if in IH; destruct (checkin_type g); lia. }
  assert (Hfields : OverallStats.total_groups s = Z.of_nat (length groups) /\
            OverallStats.with_baggage_count s = count_if has_baggage groups /\
            OverallStats.without_baggage_count s =
              Z.of_nat (length groups) - count_if has_baggage groups).
  { unfold s, calculate_overall_stats.
    destruct (omap total_process_time groups); cbn; repeat split. }
  destruct Hfields as (Ht & Hw & Hwo).
  split; [exact Ht|]. split; [lia|]. split; [lia|]. split; [lia|]. split; [lia|].
  intros Ha. apply Hnone in Ha. unfold s, calculate_overall_stats. rewrite Ha. cbn.
  repeat split.
Qed.

(* ===================================================================== *)
(** * Further properties: the position sampler *)
(* ===================================================================== *)

Lemma filter_perm {A} (f : A -> bool) (l l' : list A) :
  l ≡ₚ l' -> List.filter f l ≡ₚ List.filter f l'.
Proof.
  induction 1 as [|x l l' _ IH|x y l|l l' l'' _ IH1 _ IH2]; simpl.
  - reflexivity.
  - destruct (f x); [apply perm_skip|]; exact IH.
  - destruct (f x), (f y); try reflexivity. apply perm_swap.
  - etransitivity; eassumption.
Qed.

Lemma filter_none {A} (f : A -> bool) (l : list A) :
  Forall (fun x => f x = false) l -> List.filter f l = [].
Proof.
  induction 1 as [|x l Hx _ IH]; simpl; [reflexivity|]. rewrite Hx. exact IH.
Qed.

Section SamplerFacts.
Context {R : Type} `{NumpyRandom R} (cfg : Setup).
Implicit Types st : Sim R.

Lemma su_events (S : list PositionSnapshot.t) (q0 : list Event.t) st st'
    (evs : list Event.t) :
  position_snapshots st' = position_snapshots st ->
  queue st' = queue st ++ evs ->
  Forall (fun ev => is_sampler_event ev = false) evs ->
  sampler_untouched S q0 st -> sampler_untouched S q0 st'.
Proof.
  intros Hp Hq Hevs (HS & evs0 & Hq0 & H0). split; [congruence|].
  exists (evs0 ++ evs). split.
  - rewrite Hq, Hq0, app_assoc. reflexivity.
  - apply Forall_app. split; assumption.
Qed.

Lemma su_same (S : list PositionSnapshot.t) (q0 : list Event.t) st st' :
  position_snapshots st' = position_snapshots st -> queue st' = queue st ->
  sampler_untouched S q0 st -> sampler_untouched S q0 st'.
Proof.
  intros Hp Hq. apply (su_events S q0 st st' []); [exact Hp| |constructor].
  rewrite app_nil_r. exact Hq.
Qed.

Lemma su_update S q0 (i : nat) (f : PassengerGroup -> PassengerGroup) st :
  sampler_untouched S q0 st -> sampler_untouched S q0 (update_group i f st).
Proof. apply su_same; reflexivity. Qed.

Lemma su_set_pc S q0 (i : nat) (pc : PC) st :
  sampler_untouched S q0 st -> sampler_untouched S q0 (set_pc i pc st).
Proof. apply su_same; reflexivity. Qed.

Lemma su_np S q0 (r : R) st :
  sampler_untouched S q0 st -> sampler_untouched S q0 (with_np r st).
Proof. apply su_same; reflexivity. Qed.

Lemma su_active S q0 (d : list (Z * nat)) st :
  sampler_untouched S q0 st -> sampler_untouched S q0 (with_active_groups d st).
Proof. apply su_same; reflexivity. Qed.

Lemma su_completed S q0 (l : list nat) st :
  sampler_untouched S q0 st -> sampler_untouched S q0 (with_completed_groups l st).
Proof. apply su_same; reflexivity. Qed.

Lemma su_arrival_next S q0 (k : nat) st :
  sampler_untouched S q0 st -> sampler_untouched S q0 (with_arrival_next k st).
Proof. apply su_same; reflexivity. Qed.

Lemma su_schedule S q0 (k : EventKind) (p : Priority) (d : Q) st :
  is_sampler_kind k = false ->
  sampler_untouched S q0 st -> sampler_untouched S q0 (schedule k p d st).
Proof.
  intros Hk. eapply su_events; [reflexivity | reflexivity |].
  constructor; [exact Hk | constructor].
Qed.

Lemma su_end S q0 (p : ProcId) (o : option Exn) st :
  sampler_untouched S q0 st -> sampler_untouched S q0 (end_process p o st).
Proof. apply su_schedule. reflexivity. Qed.

Lemma su_yield S q0 (p : ProcId) (d : Q) st :
  p <> PSampler ->
  sampler_untouched S q0 st -> sampler_untouched S q0 (yield_timeout p d st).
Proof.
  intros Hp. unfold yield_timeout. destruct (Qltb d 0); [apply su_end|].
  apply su_schedule. destruct p; [reflexivity | contradiction | reflexivity].
Qed.

Lemma su_with_group S q0 (i : nat) st (k : PassengerGroup -> Sim R) :
  sampler_untouched S q0 st -> (forall g, sampler_untouched S q0 (k g)) ->
  sampler_untouched S q0 (with_group i st k).
Proof. intros Hs Hk. unfold with_group. destruct (store st !! i); [apply Hk | exact Hs]. Qed.

Lemma su_request S q0 (s : Station) (i : nat) st :
  sampler_untouched S q0 st -> sampler_untouched S q0 (request s i st).
Proof.
  intros Hs. unfold request. apply su_with_group; [exact Hs|]. intros g.
  destruct (monitored_request_effect s (group_id g) (group_size g) i
              (AirportResources.get s (resources st)) (env st))
    as (evs & Hq & _ & _ & Hall).
  destruct (MonitoredResource.request _ _ _ _ _ _) as [m e]. simpl in Hq.
  eapply (su_events S q0 st _ evs); [reflexivity | exact Hq | | exact Hs].
  eapply Forall_impl; [exact Hall|]. intros ev (_ & _ & j & Hk).
  unfold is_sampler_event. rewrite Hk. reflexivity.
Qed.

Lemma su_release S q0 (s : Station) (i : nat) st :
  sampler_untouched S q0 st -> sampler_untouched S q0 (release s i st).
Proof.
  intros Hs. unfold release. apply su_with_group; [exact Hs|]. intros g.
  destruct (monitored_release_effect s i (group_id g)
              (AirportResources.get s (resources st)) (env st)) as (Hq & _ & _).
  destruct (MonitoredResource.release _ _ _ _ _) as [m e]. simpl in Hq.
  eapply (su_events S q0 st _ [_]); [reflexivity | exact Hq | | exact Hs].
  constructor; [reflexivity | constructor].
Qed.

Lemma su_enter S q0 (a : string) (i : nat) st :
  sampler_untouched S q0 st -> sampler_untouched S q0 (enter_area a i st).
Proof.
  intros Hs. unfold enter_area. apply su_with_group; [exact Hs|]. intros g.
  revert Hs. apply su_same; reflexivity.
Qed.

Lemma su_leave S q0 (a : string) (i : nat) st :
  sampler_untouched S q0 st -> sampler_untouched S q0 (leave_area a i st).
Proof.
  intros Hs. unfold leave_area. apply su_with_group; [exact Hs|]. intros g.
  revert Hs. apply su_same; reflexivity.
Qed.

Ltac su :=
  cbv zeta;
  repeat first
    [ assumption
    | apply su_yield; [discriminate|] | apply su_end
    | apply su_schedule; [reflexivity|] | apply su_set_pc
    | apply su_update | apply su_np | apply su_active | apply su_completed
    | apply su_arrival_next
    | apply su_request | apply su_release | apply su_enter | apply su_leave ].

Lemma su_begin_visit S q0 (s : Station) (i : nat) st :
  sampler_untouched S q0 st -> sampler_untouched S q0 (begin_visit cfg s i st).
Proof. intros Hs. unfold begin_visit. su. Qed.

Lemma su_begin_security S q0 (i : nat) st :
  sampler_untouched S q0 st -> sampler_untouched S q0 (begin_security cfg i st).
Proof. intros Hs. unfold begin_security. su. Qed.

Lemma su_begin_baggage S q0 (i : nat) st :
  sampler_untouched S q0 st -> sampler_untouched S q0 (begin_baggage cfg i st).
Proof.
  intros Hs. unfold begin_baggage. apply su_with_group; [exact Hs|]. intros g.
  destruct (baggage_drop_type g);
    first [apply su_begin_visit | apply su_begin_security]; exact Hs.
Qed.

Lemma su_begin_service S q0 (s : Station) (i : nat) st :
  sampler_untouched S q0 st -> sampler_untouched S q0 (begin_service cfg s i st).
Proof.
  intros Hs. unfold begin_service.
  destruct (ServiceTimeDistribution.sample_one _ _) as [e|[x r]]; su.
Qed.

Lemma su_end_service S q0 (s : Station) (i : nat) st :
  sampler_untouched S q0 st -> sampler_untouched S q0 (end_service cfg s i st).
Proof.
  intros Hs. unfold end_service. cbv zeta.
  destruct s;
    first [apply su_begin_baggage | apply su_begin_security | apply su_begin_visit];
    su.
Qed.

Lemma su_finish S q0 (i : nat) st :
  sampler_untouched S q0 st -> sampler_untouched S q0 (finish i st).
Proof.
  intros Hs. unfold finish. cbv zeta. apply su_with_group; [su|]. intros g.
  destruct (dict_del _ _); su.
Qed.

Lemma su_start_group S q0 (i : nat) st :
  sampler_untouched S q0 st -> sampler_untouched S q0 (start_group cfg i st).
Proof.
  intros Hs. unfold start_group. apply su_with_group; [exact Hs|]. intros g. cbv zeta.
  destruct (checkin_type g); first [apply su_begin_visit | idtac]; su.
Qed.

Lemma su_after_online S q0 (i : nat) st :
  sampler_untouched S q0 st -> sampler_untouched S q0 (after_online cfg i st).
Proof. intros Hs. unfold after_online. cbv zeta. apply su_begin_baggage. su. Qed.

Lemma su_arrival_loop S q0 (groups : list PassengerGroup) :
  forall (k : nat) (last : Q) st,
    sampler_untouched S q0 st -> sampler_untouched S q0 (arrival_loop groups k last st).
Proof.
  induction groups as [|group rest IH]; intros k last st Hs; simpl.
  - su.
  - destruct (Qltb 0 (arrival_time group - last)).
    + su.
    + apply IH. unfold spawn. su.
Qed.

Lemma su_trigger_put S q0 (s : Station) st :
  sampler_untouched S q0 st -> sampler_untouched S q0 (trigger_put s st).
Proof.
  intros Hs. destruct (trigger_put_quiet s st) as (evs & Hq & _ & Hall).
  destruct Hq as (_ & _ & _ & _ & _ & _ & _ & Hq & _).
  eapply (su_events S q0 st _ evs); [| exact Hq | | exact Hs].
  - unfold trigger_put. destruct (Resource._trigger_put _ _ _). reflexivity.
  - eapply Forall_impl; [exact Hall|]. intros ev (_ & _ & j & Hk).
    unfold is_sampler_event. rewrite Hk. reflexivity.
Qed.

Lemma su_dispatch S q0 (k : EventKind) st :
  is_sampler_kind k = false ->
  sampler_untouched S q0 st -> sampler_untouched S q0 (dispatch cfg k st).
Proof.
  intros Hk Hs. destruct k as [[| |i]|[| |i]|s i|s|p o|]; simpl; try exact Hs;
    try discriminate.
  - apply su_arrival_loop. exact Hs.
  - destruct (pc_of i st); first [exact Hs | apply su_start_group; exact Hs].
  - unfold arrival_resume.
    destruct (drop (arrival_next st) (store st)); [exact Hs|].
    apply su_arrival_loop. unfold spawn. su.
  - destruct (pc_of i st);
      first [exact Hs | apply su_after_online | apply su_end_service | apply su_finish];
      exact Hs.
  - destruct (pc_of i st); try exact Hs.
    destruct (decide (s = s0)); [apply su_begin_service|]; exact Hs.
  - apply su_trigger_put. exact Hs.
Qed.
End SamplerFacts.

Section SamplerRun.
Context {R : Type} `{NumpyRandom R} (cfg : Setup).
Implicit Types st : Sim R.

Lemma on_schedule_untouched st st' :
  on_schedule cfg st ->
  sampler_untouched (position_snapshots st) (queue st) st' ->
  on_schedule cfg st'.
Proof.
  intros [H1 H2] (Hp & evs & Hq & Hevs). unfold on_schedule.
  rewrite Hp, Hq, List.filter_app, (filter_none _ _ Hevs), app_nil_r.
  split; [exact H1|].
  destruct H2 as [H2|(Hnone & ev & e & Hin & Hk & Ht)]; [left; exact H2|].
  right. split; [exact Hnone|]. exists ev, e.
  split; [apply elem_of_app; left; exact Hin|]. split; assumption.
Qed.

Lemma on_schedule_pop st (ev : Event.t) (q : list Event.t) :
  on_schedule cfg st -> Environment.heappop (queue st) = Some (ev, q) ->
  is_sampler_event ev = false ->
  (forall p e, Event.kind ev <> ProcessEnd p (Some e)) ->
  on_schedule cfg (after_pop ev q st).
Proof.
  intros [H1 H2] Hpop Hns Hnf.
  destruct (heappop_spec _ _ _ Hpop) as [_ Hperm].
  pose proof (filter_perm is_sampler_event _ _ Hperm) as Hf.
  simpl in Hf. rewrite Hns in Hf.
  unfold on_schedule.
  change (position_snapshots (after_pop ev q st)) with (position_snapshots st).
  change (queue (after_pop ev q st)) with q.
  split; [exact H1|].
  destruct H2 as [(ev' & He & Ht)|(Hnone & ev' & e & Hin & Hk & Ht)].
  - left. exists ev'. rewrite He in Hf. apply Permutation_singleton_r in Hf.
    split; assumption.
  - right. rewrite Hnone in Hf. apply Permutation_nil_r in Hf.
    split; [exact Hf|]. exists ev', e. rewrite <- Hperm in Hin.
    apply elem_of_cons in Hin. destruct Hin as [->|Hin].
    + exfalso. exact (Hnf _ _ Hk).
    + split; [exact Hin|]. split; assumption.
Qed.

Lemma on_schedule_sampler st (ev : Event.t) (q : list Event.t) :
  Inv cfg st -> on_schedule cfg st ->
  Environment.heappop (queue st) = Some (ev, q) ->
  is_sampler_event ev = true ->
  on_schedule cfg (sampler_resume cfg (after_pop ev q st)).
Proof.
  intros HI [H1 H2] Hpop Hs.
  assert (Hk : Event.kind ev <> Until).
  { intros Hk. unfold is_sampler_event in Hs. rewrite Hk in Hs. discriminate. }
  destruct (pop_inv cfg st ev q HI Hpop Hk) as ((_ & Hnow0 & HnowH & _) & _).
  change (now (after_pop ev q st)) with (Event.time ev) in Hnow0, HnowH.
  destruct (heappop_spec _ _ _ Hpop) as [_ Hperm].
  pose proof (filter_perm is_sampler_event _ _ Hperm) as Hf.
  simpl in Hf. rewrite Hs in Hf.
  destruct H2 as [(ev' & He & Ht)|(Hnone & _)].
  2:{ rewrite Hnone in Hf. apply Permutation_nil_r in Hf. discriminate. }
  rewrite He in Hf. apply Permutation_singleton_r in Hf.
  injection Hf as <- Hq.
  unfold sampler_resume.
  change (now (after_pop ev q st)) with (Event.time ev).
  destruct (Qltb (Event.time ev) (simulation_end cfg)) eqn:E.
  2:{ apply Qltb_false in E. lra. }
  set (snap := {| PositionSnapshot.time := Event.time ev;
                  PositionSnapshot.groups := _ |}).
  set (st1 := with_position_snapshots _ _).
  assert (Hsnaps : forall k s,
            (position_snapshots st ++ [snap]) !! k = Some s ->
            (PositionSnapshot.time s == inject_Z (Z.of_nat k) * sample_interval cfg)%Q /\
            (0 <= PositionSnapshot.time s)%Q /\
            (PositionSnapshot.time s < simulation_end cfg)%Q).
  { intros k s Hl. apply lookup_app_Some in Hl.
    destruct Hl as [Hl|[Hge Hl]]; [exact (H1 k s Hl)|].
    apply list_lookup_singleton_Some in Hl. destruct Hl as [Hk0 <-].
    replace k with (length (position_snapshots st)) by lia.
    simpl. split; [exact Ht|]. split; assumption. }
  destruct (yield_timeout_cases PSampler (sample_interval cfg) st1) as [[-> Hd]|[-> Hd]].
  - split; [exact Hsnaps|]. left.
    eexists. split.
    + change (queue (schedule (Timeout PSampler) NORMAL (sample_interval cfg) st1))
        with (q ++ [{| Event.time := (Event.time ev + sample_interval cfg)%Q;
                       Event.priority := NORMAL;
                       Event.eid := Environment._eid (env st);
                       Event.kind := Timeout PSampler |}]).
      rewrite List.filter_app, Hq. reflexivity.
    + change (position_snapshots
                (schedule (Timeout PSampler) NORMAL (sample_interval cfg) st1))
        with (position_snapshots st ++ [snap]).
      rewrite length_app. cbn [length Event.time].
      rewrite Nat2Z.inj_add, inject_Z_plus, Ht.
      change (inject_Z (Z.of_nat 1)) with 1%Q. ring.
  - split; [exact Hsnaps|]. right.
    change (queue (end_process PSampler (Some ValueError) st1))
      with (q ++ [{| Event.time := (Event.time ev + 0)%Q;
                     Event.priority := NORMAL;
                     Event.eid := Environment._eid (env st);
                     Event.kind := ProcessEnd PSampler (Some ValueError) |}]).
    split; [rewrite List.filter_app, Hq; reflexivity|].
    eexists _, ValueError. split; [apply elem_of_app; right; apply list_elem_of_singleton; reflexivity|].
    split; [reflexivity|]. simpl. lra.
Qed.

(** One step of the run that goes on keeps the sampler on schedule. *)
Lemma step_on_schedule st st' :
  Inv cfg st -> on_schedule cfg st -> step cfg st = Running st' -> on_schedule cfg st'.
Proof.
  intros HI HS. unfold step. change (Environment._queue (env st)) with (queue st).
  destruct (Environment.heappop (queue st)) as [[ev q]|] eqn:Hpop; [|discriminate].
  change (with_env _ st) with (after_pop ev q st).
  destruct (is_sampler_event ev) eqn:Hs.
  - pose proof (on_schedule_sampler st ev q HI HS Hpop Hs) as Hn.
    unfold is_sampler_event in Hs.
    destruct (Event.kind ev) as [[| |i]|[| |i]|s i|s|p o|]; try discriminate;
      intros Hr; injection Hr as <-; exact Hn.
  - intros Hr.
    assert (Hnf : forall p e, Event.kind ev <> ProcessEnd p (Some e)).
    { intros p e Hk. rewrite Hk in Hr. discriminate. }
    pose proof (on_schedule_pop st ev q HS Hpop Hs Hnf) as Hp.
    assert (Hst' : st' = dispatch cfg (Event.kind ev) (after_pop ev q st)).
    { destruct (Event.kind ev) as [[| |i]|[| |i]|s i|s|p [e|]|]; try discriminate;
        injection Hr as <-; reflexivity. }
    rewrite Hst'. apply (on_schedule_untouched (after_pop ev q st)); [exact Hp|].
    apply su_dispatch; [exact Hs|].
    split; [reflexivity|]. exists []. rewrite app_nil_r. split; [reflexivity | constructor].
Qed.

Lemma run_loop_on_schedule (fuel : nat) :
  forall st st',
    Inv cfg st -> on_schedule cfg st -> run_loop cfg fuel st = Done st' ->
    exists st0, Inv cfg st0 /\ on_schedule cfg st0 /\ step cfg st0 = Stopped st'.
Proof.
  induction fuel as [|fuel IH]; intros st st' HI HS; simpl; [discriminate|].
  destruct (step cfg st) as [st1|st1|e] eqn:Hstep; try discriminate.
  - intros Hrun. destruct (step_running cfg st st1 HI Hstep) as (HI1 & _).
    apply (IH st1 st' HI1 (step_on_schedule st st1 HI HS Hstep) Hrun).
  - intros Hrun. injection Hrun as <-. exists st. split; [exact HI|]. split; assumption.
Qed.

(** When the run stops, the snapshots are those of the instants below the
    horizon. *)
Lemma stopped_on_schedule st0 st :
  Inv cfg st0 -> on_schedule cfg st0 -> step cfg st0 = Stopped st ->
  (now st == simulation_end cfg)%Q /\
  (forall k s, position_snapshots st !! k = Some s ->
     (PositionSnapshot.time s == inject_Z (Z.of_nat k) * sample_interval cfg)%Q /\
     (0 <= PositionSnapshot.time s)%Q /\
     (PositionSnapshot.time s < simulation_end cfg)%Q) /\
  (simulation_end cfg <=
   inject_Z (Z.of_nat (length (position_snapshots st))) * sample_interval cfg)%Q.
Proof.
  intros HI [H1 H2] Hstop.
  destruct (step_stopped cfg st0 st HI Hstop) as (Hnow & _ & _ & _ & _ & Hsn).
  split; [exact Hnow|]. rewrite Hsn. split; [exact H1|].
  revert Hstop. unfold step. change (Environment._queue (env st0)) with (queue st0).
  destruct (Environment.heappop (queue st0)) as [[ev q]|] eqn:Hpop; [|discriminate].
  destruct (heappop_spec _ _ _ Hpop) as [Hkey Hperm].
  destruct HI as (_ & _ & _ & HqI & _). rewrite <- Hperm in HqI.
  destruct (Forall_inv HqI) as (_ & Hu & _).
  destruct (Event.kind ev) as [p|p|s i|s|p [e'|]|] eqn:Hk; try discriminate.
  intros _. destruct (Hu eq_refl) as [HuH _].
  rewrite Forall_forall in Hkey.
  assert (Hlate : forall ev', ev' ∈ queue st0 -> Event.kind ev' <> Until ->
            (simulation_end cfg <= Event.time ev')%Q).
  { intros ev' Hin Hk'. rewrite <- Hperm in Hin. apply elem_of_cons in Hin.
    destruct Hin as [->|Hin]; [congruence|].
    pose proof (key_le_time _ _ (Hkey ev' Hin)). lra. }
  destruct H2 as [(ev' & He & Ht)|(_ & ev' & e & Hin & Hk' & Ht)].
  - assert (Hin : ev' ∈ List.filter is_sampler_event (queue st0)).
    { rewrite He. apply list_elem_of_singleton. reflexivity. }
    apply list_elem_of_In, List.filter_In in Hin. destruct Hin as [Hin Hs].
    apply list_elem_of_In in Hin.
    assert (Hk' : Event.kind ev' <> Until).
    { intros Hk'. unfold is_sampler_event in Hs. rewrite Hk' in Hs. discriminate. }
    pose proof (Hlate ev' Hin Hk'). lra.
  - assert (Hk'' : Event.kind ev' <> Until) by congruence.
    pose proof (Hlate ev' Hin Hk''). lra.
Qed.

Lemma initial_on_schedule (res : AirportResources.t) (groups : list PassengerGroup)
    (r : R) (d : Q) :
  on_schedule cfg (schedule Until URGENT d (SimulationEngine.initial res groups r)).
Proof.
  split.
  - intros k s Hl. simpl in Hl. rewrite lookup_nil in Hl. discriminate.
  - left. eexists. split; [reflexivity|]. cbn. ring.
Qed.

Lemma env_run_on_schedule (fuel : nat) (res : AirportResources.t)
    (groups : list PassengerGroup) (r : R) (st : Sim R) :
  AirportResources.area_calls res = [] ->
  Forall unstamped groups ->
  env_run cfg fuel (simulation_end cfg) (SimulationEngine.initial res groups r) = Done st ->
  exists st0, Inv cfg st0 /\ on_schedule cfg st0 /\ step cfg st0 = Stopped st.
Proof.
  intros Hc Hun. unfold env_run.
  destruct (Qle_bool (simulation_end cfg) (now (SimulationEngine.initial res groups r)))
    eqn:E; [discriminate|].
  assert (Hpos : (0 < simulation_end cfg)%Q).
  { apply Qnot_le_lt. intros Hle. apply Qle_bool_iff in Hle.
    change (now (SimulationEngine.initial res groups r)) with 0%Q in E. congruence. }
  apply run_loop_on_schedule.
  - apply initial_inv; assumption.
  - apply initial_on_schedule.
Qed.
End SamplerRun.

Section SamplerSchedule.
Context {R P : Type} `{NumpyRandom R} `{PyRandom P}.
Import SimulationEngine.

(** The position snapshots of a run that returns follow the clock: every
    snapshot is taken at an instant from 0 on and before
    [simulation_duration_sec], the first one at 0, and a later snapshot at
    a later instant; there is no snapshot exactly when the run returned
    without advancing the clock. *)
Theorem position_snapshots_on_schedule (fuel : nat) (self : SimulationEngine.t)
    (slots : list DemandSlot) (r r' : R) (p p' : P) (result : SimulationResult.t) :
  run fuel self slots r p = Done (result, r', p') ->
  (forall k s, SimulationResult.position_snapshots result !! k = Some s ->
     (0 <= PositionSnapshot.time s)%Q /\
     (PositionSnapshot.time s < SimulationResult.simulation_duration_sec result)%Q) /\
  (forall s, SimulationResult.position_snapshots result !! 0%nat = Some s ->
     (PositionSnapshot.time s == 0)%Q) /\
  (forall j k s s', (j < k)%nat ->
     SimulationResult.position_snapshots result !! j = Some s ->
     SimulationResult.position_snapshots result !! k = Some s' ->
     (PositionSnapshot.time s < PositionSnapshot.time s')%Q) /\
  (SimulationResult.position_snapshots result = [] <->
   (SimulationResult.simulation_duration_sec result == 0)%Q).
Proof.
  unfold run.
  destruct (simulate fuel self slots r p) as [[[[st|] r1] p1]|e|] eqn:Hsim;
    try discriminate.
  2:{ intros Hd. injection Hd as <- _ _. simpl.
      split; [intros k s Hl; rewrite lookup_nil in Hl; discriminate|].
      split; [intros s Hl; discriminate|].
      split; [intros j k s s' _ Hl; rewrite lookup_nil in Hl; discriminate|].
      split; [intros _; reflexivity | reflexivity]. }
  intros Hd. injection Hd as <- _ _. simpl.
  revert Hsim. unfold simulate.
  destruct (prepare self r) as [e|[[res gen] r1']] eqn:Hprep; [discriminate|].
  destruct (ArrivalGenerator.generate_all_arrivals fuel gen slots r1' p)
    as [[[[groups gen'] r2] p2]|e|] eqn:Hgen; try discriminate.
  destruct groups as [|first rest]; [discriminate|].
  destruct (env_run _ fuel _ _) as [st1|e|] eqn:Hrun; try discriminate.
  intros Hd. injection Hd as -> _ _.
  assert (Hpos : (0 < horizon first rest)%Q).
  { revert Hrun. unfold env_run.
    destruct (Qle_bool _ (now (initial res (first :: rest) r2))) eqn:E; [discriminate|].
    intros _. apply Qnot_le_lt. intros Hle. apply Qle_bool_iff in Hle.
    change (now (initial res (first :: rest) r2)) with 0%Q in E.
    simpl in E, Hle. congruence. }
  destruct (prepare_facts _ _ _ _ _ Hprep) as [Hc _].
  destruct (generated_groups_fresh _ _ _ _ _ _ _ _ _ Hgen) as [Hun _].
  destruct (env_run_on_schedule (setup self (horizon first rest)) fuel res (first :: rest)
              r2 st Hc Hun Hrun) as (st0 & HI & HS & Hstop).
  destruct (stopped_on_schedule _ _ _ HI HS Hstop) as (Hnow & Hs1 & Hs2).
  simpl in Hnow, Hs1, Hs2.
  set (I := SimulationConfig.sample_interval_sec (config self)) in *.
  set (n := length (position_snapshots st)) in *.
  split.
  { intros k s Hl. destruct (Hs1 k s Hl) as (_ & Hb & Hc'). split; [exact Hb|].
    rewrite Hnow. exact Hc'. }
  split.
  { intros s Hl. destruct (Hs1 _ s Hl) as (Ha & _). rewrite Ha.
    change (inject_Z (Z.of_nat 0)) with 0%Q. ring. }
  split.
  { intros j k s s' Hjk Hj Hk.
    destruct (Hs1 j s Hj) as (Ha & _). destruct (Hs1 k s' Hk) as (Ha' & _ & Hlt).
    rewrite Ha, Ha'.
    assert (Hkn : (k < n)%nat) by (apply lookup_lt_Some in Hk; exact Hk).
    assert (Hjk' : (inject_Z (Z.of_nat j) < inject_Z (Z.of_nat k))%Q)
      by (rewrite <- Zlt_Qlt; lia).
    assert (Hkn' : (inject_Z (Z.of_nat k) < inject_Z (Z.of_nat n))%Q)
      by (rewrite <- Zlt_Qlt; lia).
    rewrite Ha' in Hlt.
    assert (HI0 : (0 < I)%Q) by nra.
    nra. }
  split.
  - intros Hnil. exfalso. unfold n in Hs2. rewrite Hnil in Hs2.
    change (inject_Z (Z.of_nat (length []))) with 0%Q in Hs2.
    rewrite Qmult_0_l in Hs2. lra.
  - intros Hz. exfalso. lra.
Qed.
End SamplerSchedule.

Lemma position_snapshots_on_schedule_witness :
  exists result r' p',
    SimulationEngine.run 100 (engine_of replay_config) [example_slot]
      ([] : Tape) replay_tape = Done (result, r', p') /\
    length (SimulationResult.position_snapshots result) = 21%nat /\
    (forall k s, SimulationResult.position_snapshots result !! k = Some s ->
       (0 <= PositionSnapshot.time s)%Q /\
       (PositionSnapshot.time s < SimulationResult.simulation_duration_sec result)%Q) /\
    (forall s, SimulationResult.position_snapshots result !! 0%nat = Some s ->
       (PositionSnapshot.time s == 0)%Q) /\
    (forall j k s s', (j < k)%nat ->
       SimulationResult.position_snapshots result !! j = Some s ->
       SimulationResult.position_snapshots result !! k = Some s' ->
       (PositionSnapshot.time s < PositionSnapshot.time s')%Q) /\
    (SimulationResult.position_snapshots result = [] <->
     (SimulationResult.simulation_duration_sec result == 0)%Q).
Proof.
  eexists _, _, _.
  split; [vm_compute; reflexivity|]. split; [vm_compute; reflexivity|].
  apply (position_snapshots_on_schedule 100 (engine_of replay_config) [example_slot]
           ([] : Tape) ([] : Tape) replay_tape [9 # 10; 9 # 10; 9 # 10; 9 # 10]%Q).
  vm_compute. reflexivity.
Defined.
